(** * biom3d: patch extraction, fold splitting and batch loading

    A shallow embedding of the augmentation and batching core of biom3d
    ([src/biom3d/datasets/semseg_batchgen.py] and the helpers it takes from
    [src/biom3d/utils.py]), followed by the properties the specification
    states about it.

    Conventions of the embedding:
    - Python and NumPy integers are [Z]; array extents stay far below the
      range of [int64], so no wrap-around arises in the index arithmetic.
    - Python floats are IEEE binary64 values, [spec_float] at precision 53.
    - A Python exception is a [Raise e] result; code that also touches a
      random generator, the heap or a loader object threads that state.
    - Both process-wide random generators ([random] and [numpy.random]) are
      streams of raw words; a bounded draw reduces the next raw word into
      the requested range, so every value of the range is reachable.
    - [print] calls are not modelled. *)

From Stdlib Require Import ZArith List Ascii String DecimalString Bool Lia.
From Stdlib Require Import Floats.SpecFloat.
From stdpp Require Import gmap strings list.

Local Open Scope Z_scope.

(* ================================================================= *)
(** ** Python runtime *)

Module Py.

Inductive exn : Set :=
| AssertionError
| AttributeError
| IndexError
| KeyError
| StopIteration
| TypeError
| ValueError.

(** The class name of an exception, as [type(e).__name__] gives it. *)
Definition exn_name (e : exn) : string :=
  match e with
  | AssertionError => "AssertionError"
  | AttributeError => "AttributeError"
  | IndexError => "IndexError"
  | KeyError => "KeyError"
  | StopIteration => "StopIteration"
  | TypeError => "TypeError"
  | ValueError => "ValueError"
  end.

End Py.

(** The outcome of a call: a value, or a raised exception. *)
Inductive result (A : Type) : Type :=
| Ok (a : A)
| Raise (e : Py.exn).
Arguments Ok {A} a.
Arguments Raise {A} e.

Module PyOps.

Definition bind {A B} (r : result A) (k : A -> result B) : result B :=
  match r with
  | Ok a => k a
  | Raise e => Raise e
  end.

(** [assert c] *)
Definition assert (c : bool) : result unit :=
  if c then Ok tt else Raise Py.AssertionError.

(** Position of index [i] in a sequence of length [n]: negative indices
    count from the end, anything outside [-n, n) is an [IndexError]. *)
Definition norm_index (i n : Z) : result nat :=
  let k := if i <? 0 then i + n else i in
  if (0 <=? k) && (k <? n) then Ok (Z.to_nat k) else Raise Py.IndexError.

(** [l[i]] on a list *)
Definition getitem {A} (l : list A) (i : Z) : result A :=
  bind (norm_index i (Z.of_nat (length l)))
       (fun k => match l !! k with
                 | Some x => Ok x
                 | None => Raise Py.IndexError
                 end).

(** [del l[i]] on a list *)
Definition delitem {A} (l : list A) (i : Z) : result (list A) :=
  bind (norm_index i (Z.of_nat (length l)))
       (fun k => Ok (take k l ++ drop (S k) l)).

(** One bound of [l[a:b]]: [slice(a, b).indices(n)] for step 1. *)
Definition clip_index (i n : Z) : Z :=
  if i <? 0 then Z.max 0 (i + n) else Z.min i n.

(** [l[a:]] and [l[:b]] on a list *)
Definition slice_from {A} (l : list A) (a : Z) : list A :=
  drop (Z.to_nat (clip_index a (Z.of_nat (length l)))) l.
Definition slice_to {A} (l : list A) (b : Z) : list A :=
  take (Z.to_nat (clip_index b (Z.of_nat (length l)))) l.

(** [range(n)] *)
Definition range (n : Z) : list Z := seqZ 0 n.

(** A loop that builds a list, stopping at the first exception. *)
Fixpoint traverse {A B} (f : A -> result B) (l : list A) : result (list B) :=
  match l with
  | [] => Ok []
  | x :: l' =>
      bind (f x) (fun y => bind (traverse f l') (fun ys => Ok (y :: ys)))
  end.

End PyOps.

Notation "'let*' x ':=' e 'in' k" :=
  (PyOps.bind e (fun x => k))
  (at level 10, x pattern, e at level 100, k at level 200).

(** Computations that read and write a state [S] and may raise. *)
Definition St (S A : Type) : Type := S -> result A * S.

Module St.
Definition ret {S A} (a : A) : St S A := fun s => (Ok a, s).
Definition raise {S A} (e : Py.exn) : St S A := fun s => (Raise e, s).
Definition lift {S A} (r : result A) : St S A := fun s => (r, s).
Definition bind {S A B} (m : St S A) (k : A -> St S B) : St S B :=
  fun s => match m s with
           | (Ok a, s') => k a s'
           | (Raise e, s') => (Raise e, s')
           end.
Fixpoint traverse {S A B} (f : A -> St S B) (l : list A) : St S (list B) :=
  match l with
  | [] => ret []
  | x :: l' =>
      bind (f x) (fun y => bind (traverse f l') (fun ys => ret (y :: ys)))
  end.
(** A loop run for its effect only. *)
Fixpoint for_each {S A} (f : A -> St S unit) (l : list A) : St S unit :=
  match l with
  | [] => ret tt
  | x :: l' => bind (f x) (fun _ => for_each f l')
  end.
End St.

Notation "'let!' x ':=' e 'in' k" :=
  (St.bind e (fun x => k))
  (at level 10, x pattern, e at level 100, k at level 200).

(* ================================================================= *)
(** ** Binary64 floats *)

Module F64.

Definition prec : Z := 53.
Definition emax : Z := 1024.

Definition of_Z (z : Z) : spec_float := binary_normalize prec emax z 0 false.
Definition mul : spec_float -> spec_float -> spec_float := SFmul prec emax.
Definition ltb : spec_float -> spec_float -> bool := SFltb.
Definition eqb : spec_float -> spec_float -> bool := SFeqb.

Definition zero : spec_float := S754_zero false.
Definition one : spec_float := of_Z 1.

(** Round half to even of [m * 2^e], for a positive mantissa. *)
Definition rint_pos (m : positive) (e : Z) : Z :=
  if 0 <=? e then Z.pos m * 2 ^ e
  else
    let d := 2 ^ (- e) in
    let q := Z.pos m / d in
    let r := Z.pos m mod d in
    match 2 * r ?= d with
    | Lt => q
    | Gt => q + 1
    | Eq => if Z.even q then q else q + 1
    end.

(** [np.round(x)] as an integer; [None] for NaN and the infinities. *)
Definition rint (x : spec_float) : option Z :=
  match x with
  | S754_zero _ => Some 0
  | S754_finite s m e => Some (if s then - rint_pos m e else rint_pos m e)
  | S754_infinity _ | S754_nan => None
  end.

(** [np.round(x).astype(int)]: values that do not fit [int64], NaN and
    the infinities convert to the smallest [int64]. *)
Definition round_to_int (x : spec_float) : Z :=
  match rint x with
  | Some z => if (- 2 ^ 63 <=? z) && (z <? 2 ^ 63) then z else - 2 ^ 63
  | None => - 2 ^ 63
  end.

End F64.

(* ================================================================= *)
(** ** Random generators *)

(** A generator is the stream of raw words it will produce. *)
Definition rng : Type := nat -> Z.

Module Rng.
Definition next (g : rng) : Z * rng := (g 0%nat, fun n => g (S n)).
(** A draw from the half-open range [[lo, hi)], for [lo < hi]. *)
Definition below (lo hi raw : Z) : Z := lo + raw mod (hi - lo).
End Rng.

(* ================================================================= *)
(** ** NumPy arrays *)

Module Np.

(** An array is its shape and the element at each multi-index.  Element
    values are only copied, compared with 1 and filled with 0 by the code
    below, so integers stand for every dtype. *)
Record ndarray : Type := mk_ndarray { shape : list Z; item : list Z -> Z }.

Definition ndim (a : ndarray) : nat := length (shape a).

(** [a.shape[0]] *)
Definition shape0 (a : ndarray) : result Z :=
  match shape a with
  | n :: _ => Ok n
  | [] => Raise Py.IndexError
  end.

(** [np.array(a.shape)[1:]] *)
Definition spatial (a : ndarray) : list Z := tail (shape a).

(** Element-wise binary operation on two 1-D arrays, with broadcasting of
    a length-1 operand; other length mismatches raise [ValueError]. *)
Definition broadcast2 {A B C} (f : A -> B -> C) (x : list A) (y : list B)
  : result (list C) :=
  if decide (length x = length y) then Ok (zip_with f x y)
  else match x, y with
       | [a], _ => Ok (map (f a) y)
       | _, [b] => Ok (map (fun a => f a b) x)
       | _, _ => Raise Py.ValueError
       end.

(** ** Basic slicing *)

Record slice : Type := mk_slice { sl_start : Z; sl_stop : Z }.

Definition slice_start (s : slice) (n : Z) : Z := PyOps.clip_index (sl_start s) n.
Definition slice_stop (s : slice) (n : Z) : Z := PyOps.clip_index (sl_stop s) n.
Definition slice_len (s : slice) (n : Z) : Z :=
  Z.max 0 (slice_stop s n - slice_start s n).

Fixpoint slice_shape (idx : list slice) (shp : list Z) : list Z :=
  match idx, shp with
  | s :: idx', n :: shp' => slice_len s n :: slice_shape idx' shp'
  | _, _ => shp
  end.

Fixpoint slice_source (idx : list slice) (shp : list Z) (i : list Z) : list Z :=
  match idx, shp, i with
  | s :: idx', n :: shp', x :: i' =>
      (slice_start s n + x) :: slice_source idx' shp' i'
  | _, _, _ => i
  end.

(** [a[idx]] for a tuple of slices: axes beyond the tuple are kept whole,
    a tuple longer than the rank is an [IndexError]. *)
Definition getitem_slices (a : ndarray) (idx : list slice) : result ndarray :=
  if decide (length idx <= length (shape a))%nat then
    Ok {| shape := slice_shape idx (shape a);
          item := fun i => item a (slice_source idx (shape a) i) |}
  else Raise Py.IndexError.

(** [a[i]] for an integer [i]: the sub-array at position [i] of axis 0. *)
Definition getitem_int (a : ndarray) (i : Z) : result ndarray :=
  match shape a with
  | [] => Raise Py.IndexError
  | n :: shp =>
      let* k := PyOps.norm_index i n in
      Ok {| shape := shp; item := fun j => item a (Z.of_nat k :: j) |}
  end.

(** ** Padding *)

Fixpoint pad_shape (pad : list (Z * Z)) (shp : list Z) : list Z :=
  match pad, shp with
  | (b, e) :: pad', n :: shp' => (b + n + e) :: pad_shape pad' shp'
  | _, _ => shp
  end.

(** Is the output index [i] inside the copied block? *)
Fixpoint pad_inside (pad : list (Z * Z)) (shp : list Z) (i : list Z) : bool :=
  match pad, shp, i with
  | (b, _) :: pad', n :: shp', x :: i' =>
      (b <=? x) && (x <? b + n) && pad_inside pad' shp' i'
  | _, _, _ => true
  end.

Fixpoint pad_source (pad : list (Z * Z)) (i : list Z) : list Z :=
  match pad, i with
  | (b, _) :: pad', x :: i' => (x - b) :: pad_source pad' i'
  | _, _ => i
  end.

(** [np.pad(a, pad, 'constant', constant_values=0)] for a two-column
    [pad]: one row per axis, or a single row used for every axis. *)
Definition pad_constant0 (a : ndarray) (pad : list (Z * Z)) : result ndarray :=
  let* rows :=
    if decide (length pad = length (shape a)) then Ok pad
    else match pad with
         | [p] => Ok (replicate (length (shape a)) p)
         | _ => Raise Py.ValueError
         end in
  if existsb (fun p => (fst p <? 0) || (snd p <? 0)) rows
  then Raise Py.ValueError
  else Ok {| shape := pad_shape rows (shape a);
             item := fun i => if pad_inside rows (shape a) i
                              then item a (pad_source rows i)
                              else 0 |}.

(** ** Index enumeration *)

(** All multi-indices of an array of shape [shp], in row-major order. *)
Fixpoint all_indices (shp : list Z) : list (list Z) :=
  match shp with
  | [] => [[]]
  | n :: shp' =>
      flat_map (fun i => map (cons i) (all_indices shp')) (seqZ 0 n)
  end.

(** The rows of [np.argwhere(a == v)] *)
Definition argwhere_eq (a : ndarray) (v : Z) : list (list Z) :=
  filter (fun i => item a i = v) (all_indices (shape a)).

(** [.size] of the array [np.argwhere] returns for an array of rank [r] *)
Definition argwhere_size (rows : list (list Z)) (r : nat) : Z :=
  Z.of_nat (length rows) * Z.of_nat r.

(** ** Stacking *)

(** [np.array(l)] for a list of arrays: a new leading axis when all
    shapes agree, [ValueError] when they do not. *)
Definition stack (l : list ndarray) : result ndarray :=
  match l with
  | [] => Ok {| shape := [0]; item := fun _ => 0 |}
  | a :: _ =>
      if forallb (fun b => bool_decide (shape b = shape a)) l then
        Ok {| shape := Z.of_nat (length l) :: shape a;
              item := fun i => match i with
                               | [] => 0
                               | k :: j =>
                                   match l !! Z.to_nat k with
                                   | Some b => item b j
                                   | None => 0
                                   end
                               end |}
      else Raise Py.ValueError
  end.

(** [np.zeros(shp)] *)
Definition zeros (shp : list Z) : result ndarray :=
  if existsb (fun n => n <? 0) shp then Raise Py.ValueError
  else Ok {| shape := shp; item := fun _ => 0 |}.

End Np.

(* ================================================================= *)
(** ** utils.py: folds and padding *)

Module Utils.
Import Np.

(** One row of the folds table read from the csv file; the file name is
    the first column. *)
Record row : Type := mk_row { filename : string; fold : Z; hold_out : Z }.

(** [df['fold'].max()] of a table with first row [r] *)
Definition fold_max (r : row) (rest : list row) : Z :=
  foldr Z.max (fold r) (map fold rest).

(** [list(df[df['fold']==i].iloc[:,0])] *)
Definition fold_filenames (df : list row) (i : Z) : list string :=
  map filename (filter (fun r => fold r = i) df).

Definition get_folds_df (df : list row) : list (list string) :=
  match df with
  | [] => []
  | r :: rest =>
      let nbof_folds := fold_max r rest + 1 in
      map (fold_filenames df) (PyOps.range nbof_folds)
  end.

(** The second component of [get_folds_train_test_df]: one list when
    [merge_test] holds, one list per fold when it does not. *)
Inductive test_folds : Type :=
| Merged (l : list string)
| PerFold (l : list (list string)).

Definition get_folds_train_test_df (df : list row) (merge_test : bool)
  : list (list string) * test_folds :=
  let train_folds := get_folds_df (filter (fun r => hold_out r = 0) df) in
  let test_folds := get_folds_df (filter (fun r => hold_out r = 1) df) in
  if merge_test then (train_folds, Merged (concat test_folds))
  else (train_folds, PerFold test_folds).

(** [x * (x > 0)] *)
Definition keep_positive (x : Z) : Z := x * (if 0 <? x then 1 else 0).

(** Lines 395-400 of [centered_pad]: the rows of the pad table. *)
Definition centered_pad_table (img_shape final_size : list Z)
  : result (list (Z * Z)) :=
  let* d := broadcast2 Z.sub final_size img_shape in
  let start := map (fun x => x `div` 2) d in
  let start := map keep_positive start in
  let* t := broadcast2 Z.add img_shape start in
  let* end_ := broadcast2 Z.sub final_size t in
  let end_ := map keep_positive end_ in
  if decide (length start = length end_)
  then Ok ((0, 0) :: zip start end_)
  else Raise Py.ValueError.

Definition centered_pad (img : ndarray) (final_size : list Z) (msk : option ndarray)
  : result (ndarray * option ndarray) :=
  let img_shape := spatial img in
  let* pad := centered_pad_table img_shape final_size in
  let* pad_img := pad_constant0 img pad in
  let* pad_msk :=
    match msk with
    | Some m => let* p := pad_constant0 m pad in Ok (Some p)
    | None => Ok None
    end in
  match msk with
  | Some _ => Ok (pad_img, pad_msk)
  | None => Ok (pad_img, None)
  end.

(** [os.path.join(a, b)] on POSIX paths *)
Definition path_join (a b : string) : string :=
  match b with
  | String "/"%char _ => b
  | _ =>
      match a with
      | EmptyString => b
      | _ =>
          match last (list_ascii_of_string a) with
          | Some "/"%char => a +:+ b
          | _ => a +:+ "/" +:+ b
          end
      end
  end.

End Utils.

(* ================================================================= *)
(** ** semseg_batchgen.py: random crop and pad *)

Module Semseg.
Import Np.

(** The two process-wide generators the module draws from. *)
Record world : Type := mk_world { py_random : rng; np_random : rng }.

Definition py_next : St world Z :=
  fun w => let '(r, g) := Rng.next (py_random w) in
           (Ok r, {| py_random := g; np_random := np_random w |}).

Definition np_next : St world Z :=
  fun w => let '(r, g) := Rng.next (np_random w) in
           (Ok r, {| py_random := py_random w; np_random := g |}).

(** [random.random()]: a multiple of [2^-53] in [[0, 1)]. *)
Definition random_random : St world spec_float :=
  let! r := py_next in
  St.ret (binary_normalize F64.prec F64.emax (r mod 2 ^ 53) (- 53) false).

(** [random.randint(a, b)]: both ends included. *)
Definition random_randint (a b : Z) : St world Z :=
  if b <? a then St.raise Py.ValueError
  else let! r := py_next in St.ret (Rng.below a (b + 1) r).

(** [random.choice(seq)] *)
Definition random_choice {A} (l : list A) : St world A :=
  match l with
  | [] => St.raise Py.IndexError
  | x :: _ =>
      let! r := py_next in
      St.ret (nth (Z.to_nat (r mod Z.of_nat (length l))) l x)
  end.

(** [np.random.randint(low, high)] on arrays: one draw per element of the
    broadcast bounds, [ValueError] when some [low >= high]. *)
Definition np_randint (low high : list Z) : St world (list Z) :=
  let! bounds := St.lift (broadcast2 pair low high) in
  if existsb (fun p => snd p <=? fst p) bounds then St.raise Py.ValueError
  else St.traverse
         (fun p => let! r := np_next in St.ret (Rng.below (fst p) (snd p) r))
         bounds.

(** The index tuple of lines 47-48 and 63-64: the whole channel axis,
    then [start:end] on each spatial axis. *)
Definition crop_index (img : ndarray) (start end_ : list Z) : result (list slice) :=
  let* c := shape0 img in
  Ok (mk_slice 0 c :: zip_with mk_slice start end_).

(** Lines 42-44 of [located_crop]: the start of the crop window.  The
    margin is an array of floats with integer values ([np.zeros(3)] by
    default); [np.random.randint] converts float bounds with [int], so the
    bounds are the integers they denote. *)
Definition located_crop_start (img_shape location crop_shape margin : list Z)
  : St world (list Z) :=
  let! lower_bound :=
    St.lift (let* d := broadcast2 Z.sub location crop_shape in
             let* e := broadcast2 Z.add d margin in
             Ok (map (Z.max 0) e)) in
  let! higher_bound :=
    St.lift (let* a := broadcast2 Z.sub location margin in
             let* b := broadcast2 Z.sub img_shape crop_shape in
             let* m := broadcast2 Z.min a b in
             broadcast2 Z.max (map (fun x => x + 1) lower_bound) m) in
  let! high :=
    St.lift (broadcast2 Z.max (map (fun x => x + 1) lower_bound) higher_bound) in
  np_randint lower_bound high.

Definition located_crop (img msk : ndarray) (location crop_shape margin : list Z)
  : St world (ndarray * ndarray) :=
  let img_shape := spatial img in
  let! start := located_crop_start img_shape location crop_shape margin in
  let! end_ := St.lift (broadcast2 Z.add start crop_shape) in
  let! idx := St.lift (crop_index img start end_) in
  let! crop_img := St.lift (getitem_slices img idx) in
  let! crop_msk := St.lift (getitem_slices msk idx) in
  St.ret (crop_img, crop_msk).

(** Line 60 of [random_crop]: the start of the crop window. *)
Definition random_crop_start (img_shape crop_shape : list Z) : St world (list Z) :=
  let! d := St.lift (broadcast2 Z.sub img_shape crop_shape) in
  np_randint [0] (map (Z.max 1) d).

Definition random_crop (img msk : ndarray) (crop_shape : list Z)
  : St world (ndarray * ndarray) :=
  let img_shape := spatial img in
  let! _ := St.lift (PyOps.assert
                       (bool_decide (length img_shape = length crop_shape))) in
  let! start := random_crop_start img_shape crop_shape in
  let! end_ := St.lift (broadcast2 Z.add start crop_shape) in
  let! idx := St.lift (crop_index img start end_) in
  let! crop_img := St.lift (getitem_slices img idx) in
  let! crop_msk := St.lift (getitem_slices msk idx) in
  St.ret (crop_img, crop_msk).

(** [x * (x > 0)] *)
Definition keep_positive (x : Z) : Z := x * (if 0 <? x then 1 else 0).

(** Lines 77-82 of [centered_pad]: the rows of the pad table. *)
Definition centered_pad_table (img_shape final_size : list Z)
  : result (list (Z * Z)) :=
  let* d := broadcast2 Z.sub final_size img_shape in
  let start := map (fun x => x `div` 2) d in
  let start := map keep_positive start in
  let* t := broadcast2 Z.add img_shape start in
  let* end_ := broadcast2 Z.sub final_size t in
  let end_ := map keep_positive end_ in
  if decide (length start = length end_)
  then Ok ((0, 0) :: zip start end_)
  else Raise Py.ValueError.

Definition centered_pad (img : ndarray) (final_size : list Z) (msk : option ndarray)
  : result (ndarray * option ndarray) :=
  let img_shape := spatial img in
  let* pad := centered_pad_table img_shape final_size in
  let* pad_img := pad_constant0 img pad in
  match msk with
  | Some m => let* pad_msk := pad_constant0 m pad in Ok (pad_img, Some pad_msk)
  | None => Ok (pad_img, None)
  end.

(** Lines 94-101 of [foreground_crop]: a random voxel of a random label,
    or nothing when that label has no voxel. *)
Definition foreground_center (msk : ndarray) : St world (option (list Z)) :=
  let! c := St.lift (shape0 msk) in
  let! rnd_label := random_randint 0 (c - 1) in
  let! chan := St.lift (getitem_int msk rnd_label) in
  let locations := argwhere_eq chan 1 in
  if argwhere_size locations (ndim chan) =? 0
  then St.ret None
  else
    let! center := random_choice locations in
    St.ret (Some center).

Definition foreground_crop (img msk : ndarray) (final_size fg_margin : list Z)
  : St world (ndarray * ndarray) :=
  let! center := foreground_center msk in
  match center with
  | None => random_crop img msk final_size
  | Some center => located_crop img msk center final_size fg_margin
  end.

(** The default arguments of [random_crop_pad]: [0.33] is the binary64
    value [5944751508129055 * 2^-54], [np.zeros(3)] has three entries. *)
Definition default_fg_rate : spec_float := S754_finite false 5944751508129055 (- 54).
Definition default_fg_margin : list Z := [0; 0; 0].

(** Line 119: [fg_rate>0 and force_fg<fg_rate] *)
Definition use_foreground (fg_rate force_fg : spec_float) : bool :=
  F64.ltb F64.zero fg_rate && F64.ltb force_fg fg_rate.

(** [random_crop_pad] on one sample (lines 117-128). *)
Definition random_crop_pad_sample (img msk : ndarray) (final_size : list Z)
    (fg_rate : spec_float) (fg_margin : list Z) : St world (ndarray * ndarray) :=
  let! force_fg := random_random in
  let! cropped :=
    if use_foreground fg_rate force_fg
    then foreground_crop img msk final_size fg_margin
    else random_crop img msk final_size in
  let '(img, msk) := cropped in
  let! d := St.lift (broadcast2 Z.sub (spatial img) final_size) in
  if existsb (fun x => negb (x =? 0)) d
  then
    let! padded := St.lift (centered_pad img final_size (Some msk)) in
    match padded with
    | (img, Some msk) => St.ret (img, msk)
    | (_, None) => St.raise Py.TypeError (* not reached: a mask was passed *)
    end
  else St.ret (img, msk).

(** What [random_crop_pad] and the transform receive for an image or a
    mask: nothing, one array, or a Python list of arrays. *)
Inductive pyobj : Type :=
| PNone
| PArray (a : ndarray)
| PList (l : list ndarray).

(** [msk[i]] in batch mode *)
Definition pyobj_getitem (o : pyobj) (i : Z) : result ndarray :=
  match o with
  | PList l => PyOps.getitem l i
  | PArray a => getitem_int a i
  | PNone => Raise Py.TypeError
  end.

(** The single-sample body when the mask is not an array: [foreground_crop]
    stops at [msk.shape] and [random_crop] at [msk[idx]], after the start
    has been drawn and the image cropped. *)
Definition random_crop_pad_no_mask (img : ndarray) (final_size : list Z)
    (fg_rate : spec_float) : St world (ndarray * ndarray) :=
  let! force_fg := random_random in
  if use_foreground fg_rate force_fg then St.raise Py.AttributeError
  else
    let! _ := random_crop img img final_size in
    St.raise Py.TypeError.

(** The single-sample body when the image is [None]: every path ends at
    [img.shape], the foreground path after the anchor has been chosen. *)
Definition random_crop_pad_no_image (msk : pyobj) (fg_rate : spec_float)
  : St world (ndarray * ndarray) :=
  let! force_fg := random_random in
  if use_foreground fg_rate force_fg then
    match msk with
    | PArray m => let! _ := foreground_center m in St.raise Py.AttributeError
    | _ => St.raise Py.AttributeError
    end
  else St.raise Py.AttributeError.

(** [random_crop_pad]: a list is cropped sample by sample through the
    recursive call of line 112, which passes [final_size] only; anything
    else goes through the single-sample body. *)
Definition random_crop_pad (img msk : pyobj) (final_size : list Z)
    (fg_rate : spec_float) (fg_margin : list Z) : St world (ndarray * ndarray) :=
  match img with
  | PList l =>
      let! pairs :=
        St.traverse
          (fun p : nat * ndarray =>
             let! msk_i := St.lift (pyobj_getitem msk (Z.of_nat (fst p))) in
             random_crop_pad_sample (snd p) msk_i final_size
                                    default_fg_rate default_fg_margin)
          (imap pair l) in
      let! imgs := St.lift (stack (map fst pairs)) in
      let! msks := St.lift (stack (map snd pairs)) in
      St.ret (imgs, msks)
  | PArray a =>
      match msk with
      | PArray m => random_crop_pad_sample a m final_size fg_rate fg_margin
      | _ => random_crop_pad_no_mask a final_size fg_rate
      end
  | PNone => random_crop_pad_no_image msk fg_rate
  end.

Module RandomCropAndPadTransform.

Record t : Type := mk {
  data_key : string;
  label_key : string;
  fg_rate : spec_float;
  crop_size : list Z
}.

(** [__init__(crop_size, fg_rate=0.33, data_key="data", label_key="seg")] *)
Definition init (crop_size : list Z) (fg_rate : option spec_float)
    (data_key label_key : option string) : t :=
  {| data_key := default "data"%string data_key;
     label_key := default "seg"%string label_key;
     fg_rate := default default_fg_rate fg_rate;
     crop_size := crop_size |}.

(** [__call__], the record arriving as keyword arguments *)
Definition call (self : t) (data_dict : gmap string pyobj)
  : St world (gmap string pyobj) :=
  let data := default PNone (data_dict !! data_key self) in
  let seg := default PNone (data_dict !! label_key self) in
  let! out := random_crop_pad data seg (crop_size self) (fg_rate self)
                              default_fg_margin in
  let data_dict := <[data_key self := PArray (fst out)]> data_dict in
  St.ret (<[label_key self := PArray (snd out)]> data_dict).

End RandomCropAndPadTransform.

(* --------------------------------------------------------------- *)
(** *** Deep-supervision targets *)

Module DownsampleSegForDSTransform2.

(** One entry of [ds_scales]: a number, or a tuple or list with one
    factor per axis.  Python integers among the factors are taken as
    the floats they convert to. *)
Inductive scale : Type :=
| Scalar (f : spec_float)
| PerAxis (l : list spec_float).

Record t : Type := mk {
  axes : option (list Z);
  output_key : string;
  input_key : string;
  order : Z;
  ds_scales : list scale
}.

(** [__init__(ds_scales, order=0, input_key="seg", output_key="seg",
    axes=None)] *)
Definition init (ds_scales : list scale) (order : option Z)
    (input_key output_key : option string) (axes : option (list Z)) : t :=
  {| axes := axes;
     output_key := default "seg"%string output_key;
     input_key := default "seg"%string input_key;
     order := default 0 order;
     ds_scales := ds_scales |}.

(** Arrays are objects: the heap maps a reference to the array stored
    there, and a record field holds the reference of an array or a
    Python list of such values. *)
Definition heap : Type := list ndarray.

#[local] Unset Elimination Schemes.
Inductive value : Type :=
| VArray (r : nat)
| VList (vs : list value).
#[local] Set Elimination Schemes.

(** The array a reference stands for (every reference the transform
    meets is in the heap). *)
Definition deref (r : nat) : St heap ndarray :=
  fun h : list ndarray =>
    match h !! r with
    | Some a => (Ok a, h)
    | None => (Raise Py.AttributeError, h)
    end.

Definition alloc (a : ndarray) : St heap nat :=
  fun h : list ndarray => (Ok (length h), h ++ [a]).

Definition store (r : nat) (a : ndarray) : St heap unit :=
  fun h : list ndarray => (Ok tt, <[r := a]> h).

(** [data_dict[self.input_key]] *)
Definition input (self : t) (data_dict : gmap string value) : result value :=
  match data_dict !! input_key self with
  | Some v => Ok v
  | None => Raise Py.KeyError
  end.

(** The array behind [data_dict[self.input_key]], where the code reads
    its [shape] or its planes; a list has neither. *)
Definition input_array (self : t) (data_dict : gmap string value)
  : St heap ndarray :=
  let! v := St.lift (input self data_dict) in
  match v with
  | VArray r => deref r
  | VList _ => St.raise Py.AttributeError
  end.

(** Lines 272-277: the factors of one level, one per axis. *)
Definition factors (naxes : nat) (s : scale) : result (list spec_float) :=
  match s with
  | Scalar f => Ok (replicate naxes f)
  | PerAxis l =>
      let* _ := PyOps.assert (bool_decide (length l = naxes)) in Ok l
  end.

(** Lines 283-284: [new_shape[a] *= s[i]] for [i, a] in
    [enumerate(axes)], from position [i] on. *)
Fixpoint scale_axes (i : nat) (axes : list Z) (s : list spec_float)
    (new_shape : list spec_float) : result (list spec_float) :=
  match axes with
  | [] => Ok new_shape
  | a :: axes' =>
      let* k := PyOps.norm_index a (Z.of_nat (length new_shape)) in
      let* f := PyOps.getitem s (Z.of_nat i) in
      match new_shape !! k with
      | Some x => scale_axes (S i) axes' s (<[k := F64.mul x f]> new_shape)
      | None => Raise Py.IndexError
      end
  end.

(** Lines 282-285 *)
Definition scaled_shape (shp : list Z) (axes : list Z) (s : list spec_float)
  : result (list Z) :=
  let new_shape := map F64.of_Z shp in
  let* new_shape := scale_axes 0 axes s new_shape in
  Ok (map F64.round_to_int new_shape).

(** Can a value of shape [src] be assigned to a slot of shape [tgt]?
    Both shapes are given last axis first. *)
Fixpoint assignable (src tgt : list Z) : bool :=
  match src, tgt with
  | [], _ => true
  | n :: src', m :: tgt' => ((n =? m) || (n =? 1)) && assignable src' tgt'
  | n :: src', [] => (n =? 1) && assignable src' []
  end.

(** The index of the source element that lands at index [j] of the
    slot, both given last axis first. *)
Fixpoint source_index (src : list Z) (j : list Z) : list Z :=
  match src, j with
  | [], _ => []
  | n :: src', x :: j' => (if n =? 1 then 0 else x) :: source_index src' j'
  | _ :: src', [] => 0 :: source_index src' []
  end.

(** [out[b, c] = v] *)
Definition setitem2 (out : ndarray) (b c : Z) (v : ndarray) : result ndarray :=
  match shape out with
  | n0 :: n1 :: rest =>
      let* kb := PyOps.norm_index b n0 in
      let* kc := PyOps.norm_index c n1 in
      if assignable (rev (shape v)) (rev rest) then
        Ok {| shape := shape out;
              item := fun i =>
                match i with
                | x :: y :: j =>
                    if (x =? Z.of_nat kb) && (y =? Z.of_nat kc)
                    then item v (rev (source_index (rev (shape v)) (rev j)))
                    else item out i
                | _ => item out i
                end |}
      else Raise Py.ValueError
  | _ => Raise Py.IndexError
  end.

Section Call.

(** [batchgenerators.augmentations.utils.resize_segmentation], a
    function of the batchgenerators package. *)
Variable resize_segmentation : ndarray -> list Z -> Z -> ndarray.

(** Lines 287-289: fill the fresh array at [o] plane by plane. *)
Definition fill (self : t) (data_dict : gmap string value) (o : nat)
    (new_shape : list Z) : St heap unit :=
  let! a := input_array self data_dict in
  let! n0 := St.lift (PyOps.getitem (shape a) 0) in
  St.for_each
    (fun b =>
       let! a := input_array self data_dict in
       let! n1 := St.lift (PyOps.getitem (shape a) 1) in
       St.for_each
         (fun c =>
            let! a := input_array self data_dict in
            let! plane :=
              St.lift (let* row := getitem_int a b in getitem_int row c) in
            let v := resize_segmentation plane (drop 2 new_shape) (order self) in
            let! out_seg := deref o in
            let! out_seg := St.lift (setitem2 out_seg b c v) in
            store o out_seg)
         (PyOps.range n1))
    (PyOps.range n0).

(** The body of the loop over [ds_scales] (lines 272-290): the
    value appended to [output] for the level [s]. *)
Definition level (self : t) (data_dict : gmap string value)
    (axes : list Z) (s : scale) : St heap value :=
  let! s := St.lift (factors (length axes) s) in
  if forallb (fun i => F64.eqb i F64.one) s
  then St.lift (input self data_dict)
  else
    let! a := input_array self data_dict in
    let! new_shape := St.lift (scaled_shape (shape a) axes s) in
    let! z := St.lift (zeros new_shape) in
    let! o := alloc z in
    let! _ := fill self data_dict o new_shape in
    St.ret (VArray o).

(** [__call__], the record arriving as keyword arguments *)
Definition call (self : t) (data_dict : gmap string value)
  : St heap (gmap string value) :=
  let! axes :=
    match axes self with
    | None =>
        let! a := input_array self data_dict in
        St.ret (seqZ 2 (Z.of_nat (length (shape a)) - 2))
    | Some axes => St.ret axes
    end in
  let! output := St.traverse (level self data_dict axes) (ds_scales self) in
  St.ret (<[output_key self := VList output]> data_dict).

End Call.

End DownsampleSegForDSTransform2.

(* --------------------------------------------------------------- *)
(** *** The data loader *)

Module BatchGenDataLoader.

(** An entry of a sample: the path of a file, or the decoded array. *)
Inductive datum : Type :=
| DPath (p : string)
| DArray (a : ndarray).

Record sample : Type := mk_sample { data : datum; seg : datum }.

(** The attributes of a loader.  The constructor of the base class
    [SlimDataLoaderBase] (batchgenerators) stores [_data], [batch_size]
    and [number_of_threads_in_multithreaded]. *)
Record t : Type := mk {
  img_dir : string;
  msk_dir : string;
  batch_size : Z;
  nbof_steps : Z;
  load_data : bool;
  fold : option Z;
  val_imgs : list string;
  train_imgs : list string;
  train : bool;
  fnames : list string;
  _data : list sample;
  number_of_threads_in_multithreaded : Z;
  indices : list Z;
  current_position : Z;
  was_initialized : bool
}.

Section Init.

(** The file system as the constructor sees it: [os.listdir] and
    [adaptive_imread(path)[0]]. *)
Variable listdir : string -> list string.
Variable adaptive_imread : string -> result ndarray.

(** Lines 462-475 *)
Definition generate_data (img_dir msk_dir : string) (load_data : bool)
    (fnames : list string) : result (list sample) :=
  PyOps.traverse
    (fun fname =>
       let img := Utils.path_join img_dir fname in
       let msk := Utils.path_join msk_dir fname in
       if load_data then
         let* img := adaptive_imread img in
         let* msk := adaptive_imread msk in
         Ok {| data := DArray img; seg := DArray msk |}
       else Ok {| data := DPath img; seg := DPath msk |})
    fnames.

(** Lines 431-448: the training and validation names.  [folds_csv]
    is the table [pd.read_csv] returns for the file, when one is
    given. *)
Definition split_names (img_dir : string) (folds_csv : option (list Utils.row))
    (fold : Z) (val_split : spec_float)
  : result (option Z * list string * list string) :=
  match folds_csv with
  | Some df =>
      let '(trainset, testset) := Utils.get_folds_train_test_df df true in
      let* val_imgs := PyOps.getitem trainset fold in
      let* trainset := PyOps.delitem trainset fold in
      let train_imgs := concat trainset in
      Ok (Some fold, train_imgs, val_imgs)
  | None =>
      let all_set := listdir img_dir in
      let val_split :=
        F64.round_to_int
          (F64.mul val_split (F64.of_Z (Z.of_nat (length all_set)))) in
      let val_split := if val_split =? 0 then 1 else val_split in
      Ok (None, PyOps.slice_from all_set val_split,
                PyOps.slice_to all_set val_split)
  end.

(** [__init__(img_dir, msk_dir, batch_size, nbof_steps, folds_csv,
    fold, val_split, train, load_data, num_threads_in_mt)] *)
Definition init (img_dir msk_dir : string) (batch_size nbof_steps : Z)
    (folds_csv : option (list Utils.row)) (fold : Z) (val_split : spec_float)
    (train load_data : bool) (num_threads_in_mt : Z) : result t :=
  let* names := split_names img_dir folds_csv fold val_split in
  let '(self_fold, train_imgs, val_imgs) := names in
  let fnames := if train then train_imgs else val_imgs in
  let* data := generate_data img_dir msk_dir load_data fnames in
  Ok {| img_dir := img_dir;
        msk_dir := msk_dir;
        batch_size := batch_size;
        nbof_steps := nbof_steps;
        load_data := load_data;
        fold := self_fold;
        val_imgs := val_imgs;
        train_imgs := train_imgs;
        train := train;
        fnames := fnames;
        _data := data;
        number_of_threads_in_multithreaded := num_threads_in_mt;
        indices := seqZ 0 (Z.of_nat (length data));
        current_position := 0;
        was_initialized := false |}.

End Init.

Definition set_position (p : Z) (init : bool) (self : t) : t :=
  {| img_dir := img_dir self;
     msk_dir := msk_dir self;
     batch_size := batch_size self;
     nbof_steps := nbof_steps self;
     load_data := load_data self;
     fold := fold self;
     val_imgs := val_imgs self;
     train_imgs := train_imgs self;
     train := train self;
     fnames := fnames self;
     _data := _data self;
     number_of_threads_in_multithreaded := number_of_threads_in_multithreaded self;
     indices := indices self;
     current_position := p;
     was_initialized := init |}.

(** [reset]: [self.indices] is never [None], so the assertion holds. *)
Definition reset (self : t) : t := set_position 0 true self.

(** [np.random.choice(a, size, replace=True)] *)
Definition np_random_choice (a : list Z) (size : Z) : St rng (list Z) :=
  if size <? 0 then St.raise Py.ValueError
  else
    match a with
    | [] => if size =? 0 then St.ret [] else St.raise Py.ValueError
    | x :: _ =>
        St.traverse
          (fun _ : unit =>
             fun g => let '(r, g') := Rng.next g in
                      (Ok (nth (Z.to_nat (r mod Z.of_nat (length a))) a x), g'))
          (replicate (Z.to_nat size) tt)
    end.

(** [get_indices]: the state is the loader object and the generator of
    [numpy.random]. *)
Definition get_indices : St (t * rng) (list Z) :=
  fun '(self, g) =>
    let self := if was_initialized self then self else reset self in
    match np_random_choice (indices self) (batch_size self) g with
    | (Raise e, g') => (Raise e, (self, g'))
    | (Ok indices, g') =>
        if current_position self <? nbof_steps self then
          (Ok indices,
           (set_position (current_position self
                          + number_of_threads_in_multithreaded self)
                         (was_initialized self) self, g'))
        else
          (Raise Py.StopIteration,
           (set_position (current_position self) false self, g'))
    end.

(** [generate_train_batch]: the ['data'] and ['seg'] lists of the batch *)
Definition generate_train_batch : St (t * rng) (list datum * list datum) :=
  let! indices := get_indices in
  fun '(self, g) =>
    match PyOps.traverse (PyOps.getitem (_data self)) indices with
    | Ok batch_list => (Ok (map data batch_list, map seg batch_list), (self, g))
    | Raise e => (Raise e, (self, g))
    end.

End BatchGenDataLoader.

End Semseg.

(** A loop that updates one variable, stopping at the first exception. *)
Fixpoint fold_result {A B} (f : A -> B -> result A) (a : A) (l : list B)
  : result A :=
  match l with
  | [] => Ok a
  | x :: l' => let* a' := f a x in fold_result f a' l'
  end.

(* ================================================================= *)
(** ** utils.py: pooling strides *)

Module Pools.

(** [max(l)] of a sequence of integers *)
Definition py_max (l : list Z) : result Z :=
  match l with
  | [] => Raise Py.ValueError
  | x :: rest => Ok (foldl Z.max x rest)
  end.

(** [np.ones(n)]: the entries are the floats 0.0 and 1.0 throughout
    [convert_num_pools], written as the integers [astype(int)] makes of
    them. *)
Definition ones (n : Z) : result (list Z) :=
  if n <? 0 then Raise Py.ValueError else Ok (replicate (Z.to_nat n) 1).

(** [st[j] = v] on a 1-D array *)
Definition setitem (st : list Z) (j v : Z) : result (list Z) :=
  let* k := PyOps.norm_index j (Z.of_nat (length st)) in
  Ok (<[k := v]> st).

(** Lines 374-377: the array [st] of one axis. *)
Definition stride_column (max_pool p : Z) : result (list Z) :=
  let* st := ones max_pool in
  let num_zeros := max_pool - p in
  fold_result (fun st j => setitem st j 0) st (PyOps.range num_zeros).

(** [(np.array(strides).astype(int).T + 1).tolist()] for rows of length
    [m]: row [j] of the result collects entry [j] of every [st]. *)
Definition transpose_plus_one (m : Z) (strides : list (list Z)) : list (list Z) :=
  map (fun j => map (fun st => nth j st 0 + 1) strides) (seq 0 (Z.to_nat m)).

Definition convert_num_pools (num_pools : list Z) : result (list (list Z)) :=
  let* max_pool := py_max num_pools in
  let* strides := PyOps.traverse (stride_column max_pool) num_pools in
  Ok (transpose_plus_one max_pool strides).

End Pools.

(* ================================================================= *)
(** ** utils.py: train, validation and test sets *)

Module Splits.

(** [get_train_test_df]: the names that are not held out, and those that
    are. *)
Definition get_train_test_df (df : list Utils.row) : list string * list string :=
  (map Utils.filename (filter (fun r => Utils.hold_out r = 0) df),
   map Utils.filename (filter (fun r => Utils.hold_out r = 1) df)).

(** One row of a table with a [split] column; the file name is the first
    column. *)
Record row : Type := mk_row {
  filename : string;
  hold_out : Z;
  fold : Z;
  split : Z
}.

(** [df['split'].max()] of a table with first row [r] *)
Definition split_max (r : row) (rest : list row) : Z :=
  foldr Z.max (split r) (map split rest).

(** The rows of the training part: [(df['fold']!=0)*(df['hold_out']==0)] *)
Definition training (r : row) : bool :=
  negb (fold r =? 0) && (hold_out r =? 0).

(** [list(df[(df['split']==-1)*(df['fold']==0)*(df['hold_out']==0)]['filename'])] *)
Definition valset (df : list row) : list string :=
  map filename
      (filter (fun r => (split r =? -1) && (fold r =? 0) && (hold_out r =? 0) = true) df).

(** [list(df[(df['hold_out']==1)]['filename'])] *)
Definition testset (df : list row) : list string :=
  map filename (filter (fun r => hold_out r = 1) df).

(** The training names whose [split] satisfies [sel]. *)
Definition train_where (sel : Z -> bool) (df : list row) : list string :=
  map filename (filter (fun r => sel (split r) && training r = true) df).

(** [get_splits_train_val_test]: on an empty table the maximum of the
    [split] column is NaN, which [range] does not accept. *)
Definition get_splits_train_val_test (df : list row)
  : result (list (list string) * list string * list string) :=
  match df with
  | [] => Raise Py.TypeError
  | r :: rest =>
      let nbof_splits := split_max r rest + 1 in
      let train_splits :=
        map (fun i => train_where (Z.eqb i) df) (PyOps.range nbof_splits) in
      let train_splits := train_where (fun _ => true) df :: train_splits in
      Ok (train_splits, valset df, testset df)
  end.

Definition get_splits_train_val_test_overlapping (df : list row)
  : result (list (list string) * list string * list string) :=
  match df with
  | [] => Raise Py.TypeError
  | r :: rest =>
      let nbof_splits := split_max r rest + 1 in
      let train_splits :=
        map (fun i => train_where (Z.leb i) df) (PyOps.range nbof_splits) in
      let train_splits :=
        train_splits ++ [train_where (Z.eqb (nbof_splits - 1)) df] in
      Ok (train_splits, valset df, testset df)
  end.

End Splits.

(* ================================================================= *)
(** ** NumPy: reshaping *)

Module NpShape.
Import Np.

(** The number of elements of an array of shape [shp] *)
Definition size (shp : list Z) : Z := foldr Z.mul 1 shp.

(** The position of the multi-index [idx] in row-major order *)
Fixpoint ravel (shp idx : list Z) : Z :=
  match shp, idx with
  | _ :: shp', i :: idx' => i * size shp' + ravel shp' idx'
  | _, _ => 0
  end.

(** The multi-index at position [k] in row-major order *)
Fixpoint unravel (shp : list Z) (k : Z) : list Z :=
  match shp with
  | [] => []
  | _ :: shp' => (k `div` size shp') :: unravel shp' (k `mod` size shp')
  end.

(** The shape [a.reshape(new_shape)] has: one entry may be [-1] and is then
    inferred from the size; every mismatch is a [ValueError]. *)
Definition reshaped_shape (n : Z) (new_shape : list Z) : result (list Z) :=
  if existsb (fun d => d <? -1) new_shape then Raise Py.ValueError
  else
    match length (filter (fun d => d = -1) new_shape) with
    | O => if size new_shape =? n then Ok new_shape else Raise Py.ValueError
    | S O =>
        let known := size (filter (fun d => d <> -1) new_shape) in
        if (known =? 0) || negb (n `mod` known =? 0) then Raise Py.ValueError
        else Ok (map (fun d => if d =? -1 then n `div` known else d) new_shape)
    | _ => Raise Py.ValueError
    end.

(** [a.reshape(new_shape)]: the elements in the same row-major order *)
Definition reshape (a : ndarray) (new_shape : list Z) : result ndarray :=
  let* shp := reshaped_shape (size (shape a)) new_shape in
  Ok {| shape := shp;
        item := fun idx => item a (unravel (shape a) (ravel shp idx)) |}.

(** [np.expand_dims(a, 0)] *)
Definition expand_dims0 (a : ndarray) : ndarray :=
  {| shape := 1 :: shape a; item := fun idx => item a (tail idx) |}.

End NpShape.

(* ================================================================= *)
(** ** semseg_batchgen.py: reading and reshaping transforms *)

Module Transforms.
Import Np NpShape.

(** *** [imread] and [DataReader] *)

(** What a record holds under the data and label keys before the files
    are read: a path or an array, or a list of those. *)
Inductive entry : Type :=
| EPath (p : string)
| EArr (a : ndarray).

Inductive rvalue : Type :=
| ROne (e : entry)
| RList (l : list entry).

Section Reading.

(** [biom3d.utils.adaptive_imread(path)[0]] *)
Variable adaptive_imread : string -> result ndarray.

(** [adaptive_imread(x)[0]] for any [x]: an array, a list and [None]
    have no [rfind]. *)
Definition read (x : option rvalue) : result ndarray :=
  match x with
  | Some (ROne (EPath p)) => adaptive_imread p
  | _ => Raise Py.AttributeError
  end.

(** Lines 156-159: a leading axis for an array without channel axis *)
Definition with_channel_axis (threeD : bool) (a : ndarray) : ndarray :=
  if (threeD && bool_decide (ndim a = 3%nat))
     || (negb threeD && bool_decide (ndim a = 2%nat))
  then expand_dims0 a else a.

Definition imread (img msk : option rvalue) (threeD : bool)
  : result (ndarray * ndarray) :=
  let* img := read img in
  let* msk := read msk in
  let img := with_channel_axis threeD img in
  let msk := with_channel_axis threeD msk in
  let* _ :=
    PyOps.assert
      ((threeD && bool_decide (ndim msk = 4%nat) && bool_decide (ndim img = 4%nat))
       || (negb threeD && bool_decide (ndim msk = 3%nat)
           && bool_decide (ndim img = 3%nat))) in
  Ok (img, msk).

End Reading.

Module DataReader.

Record t : Type := mk {
  threeD : bool;
  data_key : string;
  label_key : string
}.

(** [__init__(threeD=True, data_key="data", label_key="seg")] *)
Definition init (threeD : option bool) (data_key label_key : option string) : t :=
  {| threeD := default true threeD;
     data_key := default "data"%string data_key;
     label_key := default "seg"%string label_key |}.

(** [seg[i]] in the loop of line 178: a list gives its entry; a string
    gives one of its characters, an array one of its sub-arrays, and
    [None] cannot be indexed. *)
Definition seg_item (seg : option rvalue) (i : nat) : result (option rvalue) :=
  match seg with
  | None => Raise Py.TypeError
  | Some (RList l) =>
      match l !! i with
      | Some e => Ok (Some (ROne e))
      | None => Raise Py.IndexError
      end
  | Some (ROne (EPath p)) =>
      match list_ascii_of_string p !! i with
      | Some ch => Ok (Some (ROne (EPath (String ch EmptyString))))
      | None => Raise Py.IndexError
      end
  | Some (ROne (EArr a)) =>
      let* sub := getitem_int a (Z.of_nat i) in
      Ok (Some (ROne (EArr sub)))
  end.

(** [seg[i] = msk] *)
Definition seg_store (seg : option rvalue) (i : nat) (msk : ndarray)
  : result (option rvalue) :=
  match seg with
  | Some (RList l) => Ok (Some (RList (<[i := EArr msk]> l)))
  | _ => Raise Py.TypeError
  end.

Section Call.

(** [biom3d.utils.adaptive_imread(path)[0]] *)
Variable adaptive_imread : string -> result ndarray.

(** The loop of lines 177-178, from position [i] on, over the entries
    of [data] that are still to read. *)
Fixpoint read_all (i : nat) (todo : list entry) (data : list entry)
    (seg : option rvalue) : result (list entry * option rvalue) :=
  match todo with
  | [] => Ok (data, seg)
  | e :: todo' =>
      let* s := seg_item seg i in
      let* p := imread adaptive_imread (Some (ROne e)) s true in
      let data := <[i := EArr (fst p)]> data in
      let* seg := seg_store seg i (snd p) in
      read_all (S i) todo' data seg
  end.

(** [__call__], the record arriving as keyword arguments.  Both calls
    of [imread] leave [threeD] at its default. *)
Definition call (self : t) (data_dict : gmap string rvalue)
  : result (gmap string rvalue) :=
  let data := data_dict !! data_key self in
  let seg := data_dict !! label_key self in
  let* p :=
    match data with
    | Some (RList l) =>
        let* r := read_all 0 l l seg in
        Ok (RList (fst r), snd r)
    | _ =>
        let* r := imread adaptive_imread data seg true in
        Ok (ROne (EArr (fst r)), Some (ROne (EArr (snd r))))
    end in
  let data_dict := <[data_key self := fst p]> data_dict in
  match snd p with
  | Some seg => Ok (<[label_key self := seg]> data_dict)
  | None => Ok data_dict
  end.

End Call.

End DataReader.


(** *** [Convert3DTo2DTransform] and [Convert2DTo3DTransform] *)

(** What a record holds for these two transforms: an array, or the shape
    tuple stored under an [orig_shape_] key. *)
Inductive value : Type :=
| VArr (a : ndarray)
| VShape (s : list Z).

(** [f'orig_shape_{k}'] *)
Definition shape_key (k : string) : string := ("orig_shape_" +:+ k)%string.

(** [data_dict[k]] where an array is expected *)
Definition array_at (data_dict : gmap string value) (k : string) : result ndarray :=
  match data_dict !! k with
  | None => Raise Py.KeyError
  | Some (VArr a) => Ok a
  | Some (VShape _) => Raise Py.AttributeError
  end.

Module Convert3DTo2DTransform.

Record t : Type := mk { apply_to_keys : list string }.

(** [__init__(apply_to_keys=('data', 'seg'))] *)
Definition init (apply_to_keys : option (list string)) : t :=
  {| apply_to_keys := default ["data"; "seg"]%string apply_to_keys |}.

(** The body of the loop of lines 221-229 *)
Definition step (data_dict : gmap string value) (k : string)
  : result (gmap string value) :=
  let* a := array_at data_dict k in
  let shp := shape a in
  match shp with
  | [s0; s1; s2; s3; s4] =>
      let* r := reshape a [s0; s1 * s2; s3; s4] in
      let data_dict := <[k := VArr r]> data_dict in
      let* _ := PyOps.assert
                  (negb (bool_decide (is_Some (data_dict !! shape_key k)))) in
      Ok (<[shape_key k := VShape shp]> data_dict)
  | _ => Raise Py.AssertionError
  end.

Definition call (self : t) (data_dict : gmap string value)
  : result (gmap string value) :=
  fold_result step data_dict (apply_to_keys self).

End Convert3DTo2DTransform.

Module Convert2DTo3DTransform.

Record t : Type := mk { apply_to_keys : list string }.

(** [__init__(apply_to_keys=('data', 'seg'))] *)
Definition init (apply_to_keys : option (list string)) : t :=
  {| apply_to_keys := default ["data"; "seg"]%string apply_to_keys |}.

(** [original_shape[i]]: an entry of the stored tuple.  Were an array
    of integers stored under the key, its entry is a number only for a
    1-D array; a sub-array ([None] here) is no dimension for [reshape]. *)
Definition original_dim (v : value) (i : Z) : result (option Z) :=
  match v with
  | VShape s => let* d := PyOps.getitem s i in Ok (Some d)
  | VArr a =>
      let* sub := getitem_int a i in
      match shape sub with
      | [] => Ok (Some (item sub []))
      | _ => Ok None
      end
  end.

(** The body of the loop of lines 200-210 *)
Definition step (data_dict : gmap string value) (k : string)
  : result (gmap string value) :=
  match data_dict !! shape_key k with
  | None => Raise Py.AssertionError
  | Some original_shape =>
      let* a := array_at data_dict k in
      let current_shape := shape a in
      let* o0 := original_dim original_shape 0 in
      let* o1 := original_dim original_shape 1 in
      let* o2 := original_dim original_shape 2 in
      let* c2 := PyOps.getitem current_shape (-2) in
      let* c1 := PyOps.getitem current_shape (-1) in
      match o0, o1, o2 with
      | Some o0, Some o1, Some o2 =>
          let* r := reshape a [o0; o1; o2; c2; c1] in
          Ok (<[k := VArr r]> data_dict)
      | _, _, _ => Raise Py.TypeError
      end
  end.

Definition call (self : t) (data_dict : gmap string value)
  : result (gmap string value) :=
  fold_result step data_dict (apply_to_keys self).

End Convert2DTo3DTransform.

End Transforms.

(* ================================================================= *)
(** ** utils.py: patch size and number of poolings of one axis *)

Module PatchPool.

(** The value of [dim]: the integer [find_patch_pool_batch] passes in
    (an element of [dims.astype(int)]), and a float from the first
    division on. *)
Inductive number : Type :=
| NInt (z : Z)
| NFloat (f : spec_float).

Definition to_float (x : number) : spec_float :=
  match x with
  | NInt z => F64.of_Z z
  | NFloat f => f
  end.

(** [dim > size_limit], the limit being an integer *)
Definition gt (x : number) (size_limit : Z) : bool :=
  match x with
  | NInt z => size_limit <? z
  | NFloat f => F64.ltb (F64.of_Z size_limit) f
  end.

(** [dim / 2] *)
Definition half_of (x : number) : spec_float :=
  SFdiv F64.prec F64.emax (to_float x) (F64.of_Z 2).

(** [np.round(dim).astype(int)] *)
Definition rounded (x : number) : Z :=
  match x with
  | NInt z => z
  | NFloat f => F64.round_to_int f
  end.

(** A product of 64-bit integers *)
Definition wrap_int64 (z : Z) : Z := (z + 2 ^ 63) `mod` 2 ^ 64 - 2 ^ 63.

(** The loop of lines 325-327; [None] when [fuel] iterations do not end
    it. *)
Fixpoint halving (fuel : nat) (size_limit : Z) (dim : number) (pool : Z)
  : option (number * Z) :=
  match fuel with
  | O => None
  | S fuel' =>
      if gt dim size_limit
      then halving fuel' size_limit (NFloat (half_of dim)) (pool + 1)
      else Some (dim, pool)
  end.

(** [single_patch_pool(dim)], [size_limit] left at its default of 7 as
    the caller leaves it: the pair [(patch, pool)]. *)
Definition single_patch_pool (fuel : nat) (dim : Z) : option (Z * Z) :=
  let size_limit := 7 in
  match halving fuel size_limit (NInt dim) 0 with
  | Some (dim, pool) => Some (wrap_int64 (rounded dim * 2 ^ pool), pool)
  | None => None
  end.

End PatchPool.

(* ================================================================= *)
(** ** utils.py: configurations as nested mappings *)

Module Config.

(** The two mapping classes: the built-in [dict], and [Dict] with its
    attribute access. *)
Inductive kind : Type :=
| Builtin
| Attr.

(** A configuration value: a number, boolean or [None] (one constructor
    for the numbers and booleans), a string, or a mapping with its items
    in insertion order. *)
#[local] Unset Elimination Schemes.
Inductive value : Type :=
| VNum (z : Z)
| VNone
| VStr (s : string)
| VMap (k : kind) (items : list (string * value)).
#[local] Set Elimination Schemes.

Definition kind_eqb (a b : kind) : bool :=
  match a, b with
  | Builtin, Builtin | Attr, Attr => true
  | _, _ => false
  end.

(** [type(i)==ty], [ty] being the class of a mapping *)
Definition same_type (ty : kind) (i : value) : bool :=
  match i with
  | VMap k _ => kind_eqb k ty
  | _ => false
  end.

(** [Dict_to_dict(cfg)] for a mapping [cfg]; the recursive calls are all
    on mappings. *)
Fixpoint Dict_to_dict_mapping (cfg : value) : value :=
  match cfg with
  | VMap ty items =>
      VMap Builtin
           (map (fun ki => let '(k, i) := ki in
                           (k, if same_type ty i then Dict_to_dict_mapping i else i))
                items)
  | other => other
  end.

(** [Dict_to_dict(cfg)]: [dict(cfg)] copies a mapping, makes an empty
    dictionary of the empty string and rejects every other string and
    the numbers. *)
Definition Dict_to_dict (cfg : value) : result value :=
  match cfg with
  | VMap _ _ => Ok (Dict_to_dict_mapping cfg)
  | VStr EmptyString => Ok (VMap Builtin [])
  | VStr _ => Raise Py.ValueError
  | VNum _ | VNone => Raise Py.TypeError
  end.

(** [dict_to_Dict(cfg)] for a mapping [cfg] *)
Fixpoint dict_to_Dict_mapping (cfg : value) : value :=
  match cfg with
  | VMap ty items =>
      VMap Attr
           (map (fun ki => let '(k, i) := ki in
                           (k, if same_type ty i then dict_to_Dict_mapping i else i))
                items)
  | other => other
  end.

Definition dict_to_Dict (cfg : value) : result value :=
  match cfg with
  | VMap _ _ => Ok (dict_to_Dict_mapping cfg)
  | VStr EmptyString => Ok (VMap Attr [])
  | VStr _ => Raise Py.ValueError
  | VNum _ | VNone => Raise Py.TypeError
  end.

End Config.

(* ================================================================= *)
(** ** utils.py: choosing the image library by the file extension *)

Module Files.
Import Np.

(** [s.rfind(c)] for a character [c]: its last position, or [-1] *)
Fixpoint rfind (s : list ascii) (c : ascii) : Z :=
  match s with
  | [] => -1
  | a :: s' =>
      let r := rfind s' c in
      if 0 <=? r then r + 1 else if Ascii.eqb a c then 0 else -1
  end.

(** [img_path[img_path.rfind('.'):]] *)
Definition extension (img_path : string) : string :=
  let s := list_ascii_of_string img_path in
  string_of_list_ascii (PyOps.slice_from s (rfind s "."%char)).

Section Libraries.

(** [skimage.io.imread], [np.load], and [sitk_imread] with the array
    and the spacing it returns *)
Variable io_imread : string -> result ndarray.
Variable np_load : string -> result ndarray.
Variable sitk_imread : string -> result (ndarray * list spec_float).

Definition adaptive_imread (img_path : string)
  : result (ndarray * list spec_float) :=
  let extension := extension img_path in
  if String.eqb extension ".tif" then
    let* img := io_imread img_path in Ok (img, [])
  else if String.eqb extension ".npy" then
    let* img := np_load img_path in Ok (img, [])
  else sitk_imread img_path.

(** [tifffile.imwrite] with its compression, [np.save], and
    [sitk_imsave] *)
Variable tiff_imwrite : string -> ndarray -> result unit.
Variable np_save : string -> ndarray -> result unit.
Variable sitk_imsave : string -> ndarray -> list spec_float -> result unit.

Definition adaptive_imsave (img_path : string) (img : ndarray)
    (spacing : list spec_float) : result unit :=
  let extension := extension img_path in
  if String.eqb extension ".tif" then tiff_imwrite img_path img
  else if String.eqb extension ".npy" then np_save img_path img
  else sitk_imsave img_path img spacing.

End Libraries.

End Files.

(* ================================================================= *)
(** ** utils.py: one-hot encoding of a label array *)

Module OneHot.
Import Np.

(** The elements of an array of integers, in row-major order *)
Definition elements (a : ndarray) : list Z := map (item a) (all_indices (shape a)).

(** [np.unique(a)]: the distinct elements, sorted *)
Fixpoint insert_sorted (x : Z) (l : list Z) : list Z :=
  match l with
  | [] => [x]
  | y :: l' =>
      if x <? y then x :: l
      else if x =? y then l
      else y :: insert_sorted x l'
  end.
Definition np_unique (a : ndarray) : list Z := foldr insert_sorted [] (elements a).

(** [x.astype(np.uint8)] of an integer *)
Definition uint8 (z : Z) : Z := z `mod` 256.

(** [a.max()] of a 1-D array or of the elements of an array *)
Definition array_max (l : list Z) : result Z :=
  match l with
  | [] => Raise Py.ValueError
  | x :: rest => Ok (foldl Z.max x rest)
  end.

(** [(values > u).astype(np.uint8)] and [(values == u).astype(np.uint8)] *)
Definition greater_than (values : ndarray) (u : Z) : ndarray :=
  {| shape := shape values;
     item := fun i => if u <? item values i then 1 else 0 |}.
Definition equal_to (values : ndarray) (u : Z) : ndarray :=
  {| shape := shape values;
     item := fun i => if item values i =? u then 1 else 0 |}.

(** Lines 829-830: [uni = np.append(uni, np.uint8(uni[-1]+1))] as long
    as entries are missing, [todo] of them. *)
Fixpoint extend (todo : nat) (uni : list Z) : result (list Z) :=
  match todo with
  | O => Ok uni
  | S todo' =>
      let* last := PyOps.getitem uni (-1) in
      extend todo' (uni ++ [uint8 (last + 1)])
  end.

(** [out[i] = plane], [plane] having the shape of [out[i]] *)
Definition set_plane (out : ndarray) (i : Z) (plane : ndarray) : result ndarray :=
  match shape out with
  | n :: rest =>
      let* k := PyOps.norm_index i n in
      if bool_decide (shape plane = rest) then
        Ok {| shape := shape out;
              item := fun idx =>
                match idx with
                | c :: j => if c =? Z.of_nat k then item plane j else item out idx
                | [] => item out idx
                end |}
      else Raise Py.ValueError
  | [] => Raise Py.IndexError
  end.

(** Lines 816-832: the number of classes, the array and the class
    values the encoding is made of. *)
Definition classes (values : ndarray) (num_classes : option Z)
  : result (Z * ndarray * list Z) :=
  let uni := map uint8 (np_unique values) in
  match num_classes with
  | None => Ok (Z.of_nat (length uni), values, uni)
  | Some n_values =>
      let* threshold :=
        if n_values =? 2 then
          if 2 <? Z.of_nat (length uni) then Ok true
          else let* m := array_max uni in Ok (1 <? m)
        else Ok false in
      let* vu :=
        if threshold : bool then
          let* u0 := PyOps.getitem uni 0 in
          Ok (greater_than values u0, [0; 1])
        else Ok (values, uni) in
      let values := fst vu in
      let uni := snd vu in
      let* uni :=
        if Z.of_nat (length uni) <? n_values then
          let* m := array_max (elements values) in
          if n_values <=? m
          then extend (Z.to_nat (n_values - Z.of_nat (length uni))) uni
          else Ok (map uint8 (PyOps.range n_values))
        else Ok uni in
      Ok (n_values, values, uni)
  end.

Definition one_hot_fast (values : ndarray) (num_classes : option Z)
  : result ndarray :=
  let* c := classes values num_classes in
  let '(n_values, values, uni) := c in
  let* out := zeros (n_values :: shape values) in
  fold_result
    (fun out i =>
       let* u := PyOps.getitem uni i in
       set_plane out i (equal_to values u))
    out (PyOps.range n_values).

End OneHot.

(* ================================================================= *)
(** * Vocabulary of the properties *)

Section PadVocabulary.
Import Np.

(** The pad widths of one axis with source extent [s] and target [t]:
    half of the deficit in front, the rest behind, nothing when the
    source is the larger. *)
Definition pad_row (s t : Z) : Z * Z :=
  if s <=? t then ((t - s) `div` 2, (t - s) - (t - s) `div` 2) else (0, 0).

(** No padding on the channel axis, [pad_row] on each spatial axis. *)
Definition centered_rows (sp final_size : list Z) : list (Z * Z) :=
  (0, 0) :: zip_with pad_row sp final_size.

(** The array [np.pad] builds from [a] and one row of widths per axis. *)
Definition padded (rows : list (Z * Z)) (a : ndarray) : ndarray :=
  {| shape := pad_shape rows (shape a);
     item := fun i => if pad_inside rows (shape a) i
                      then item a (pad_source rows i)
                      else 0 |}.

(** What both copies of [centered_pad] promise for an image of shape
    [c :: sp], with or without a mask of the same rank. *)
Definition centered_pad_contract
    (cp : ndarray -> list Z -> option ndarray -> result (ndarray * option ndarray))
  : Prop :=
  forall (img : ndarray) (final_size : list Z) (msk : option ndarray)
         (c : Z) (sp : list Z),
    shape img = c :: sp ->
    length final_size = length sp ->
    (forall m, msk = Some m -> length (shape m) = length (shape img)) ->
    let rows := centered_rows sp final_size in
    exists out : ndarray,
      cp img final_size msk = Ok (out, padded rows <$> msk)
      /\ shape out = c :: zip_with Z.max sp final_size
      /\ (forall (i : nat) (s t : Z),
             sp !! i = Some s -> final_size !! i = Some t ->
             exists o,
               spatial out !! i = Some o
               /\ (s <= t -> o = t)
               /\ (t < s -> o = s /\ rows !! S i = Some (0, 0)))
      /\ (forall j : list Z,
             item out j = if pad_inside rows (shape img) j
                          then item img (pad_source rows j)
                          else 0).

End PadVocabulary.

Section CropVocabulary.
Import Np Semseg.

(** One bounded draw from [numpy.random], as [np_randint] makes it. *)
Definition draw (p : Z * Z) : St world Z :=
  let! r := np_next in St.ret (Rng.below (fst p) (snd p) r).

(** Raw words that make the draws come out as [vs]. *)
Definition raws_for (bounds : list (Z * Z)) (vs : list Z) : rng :=
  fun n => nth n (zip_with (fun p v => v - fst p) bounds vs) 0.

(** The bounds [random_crop] hands to [np.random.randint]. *)
Definition random_bounds (img_shape crop_shape : list Z) : list (Z * Z) :=
  map (pair 0) (map (Z.max 1) (zip_with Z.sub img_shape crop_shape)).

(** The state of an image and mask pair after either crop: the channel
    axis of the image is whole, that of the mask is cut to the channel
    count of the image, and no spatial extent exceeds the target. *)
Definition cropped (c cm : Z) (crop : list Z) (p : ndarray * ndarray) : Prop :=
  exists osp,
    shape (fst p) = c :: osp
    /\ shape (snd p) = Z.min c cm :: osp
    /\ Forall2 (fun o t => 0 <= o <= t) osp crop.

End CropVocabulary.

Section FoldVocabulary.
Import Utils.

(** The rows that are not held out for testing. *)
Definition non_holdout (df : list row) : list row :=
  filter (fun r => hold_out r = 0) df.

(** The number of training folds [get_folds_train_test_df] returns. *)
Definition nbof_train_folds (df : list row) : Z :=
  Z.of_nat (length (get_folds_df (non_holdout df))).

(** The fold indices other than [held_out], in increasing order, among
    the folds [0 .. last]. *)
Definition other_folds (last held_out : Z) : list Z :=
  seqZ 0 held_out ++ seqZ (held_out + 1) (last - held_out).

End FoldVocabulary.

Section LoaderVocabulary.
Import Semseg.BatchGenDataLoader.

(** [n] successive calls of [get_indices], with the outcome of each. *)
Fixpoint calls (n : nat) (s : t * rng) : list (result (list Z)) * (t * rng) :=
  match n with
  | O => ([], s)
  | S n' =>
      let '(r, s') := get_indices s in
      let '(rs, s'') := calls n' s' in
      (r :: rs, s'')
  end.

(** Eleven outcomes: ten batches of [batch_size] indices into a data set
    of [len] samples, then the end of the stream. *)
Definition ten_batches_then_stop (batch_size : Z) (len : nat)
    (outs : list (result (list Z))) : Prop :=
  length outs = 11%nat
  /\ (forall k, (k < 10)%nat ->
                exists idx,
                  outs !! k = Some (Ok idx)
                  /\ Z.of_nat (length idx) = batch_size
                  /\ Forall (fun i => 0 <= i < Z.of_nat len) idx)
  /\ outs !! 10%nat = Some (Raise Py.StopIteration).

(** The loader settings that no call changes. *)
Definition configured (batch_size nbof_steps : Z) (len : nat) (self : t) : Prop :=
  Semseg.BatchGenDataLoader.batch_size self = batch_size
  /\ Semseg.BatchGenDataLoader.nbof_steps self = nbof_steps
  /\ number_of_threads_in_multithreaded self = 1
  /\ indices self = seqZ 0 (Z.of_nat len).

(** The loader is about to take step [p]: it is initialised at position
    [p], or it is not initialised and [p] is 0. *)
Definition at_step (p : Z) (self : t) : Prop :=
  (was_initialized self = true /\ current_position self = p)
  \/ (was_initialized self = false /\ p = 0).
End LoaderVocabulary.

Section DownsampleVocabulary.

(** [round(n * f)] as line 282-285 compute it: the extent [n] converted
    to a float, multiplied by the factor, rounded half to even. *)
Definition scaled_extent (n : Z) (f : spec_float) : Z :=
  F64.round_to_int (F64.mul (F64.of_Z n) f).

(** [all([i == 1 for i in s])] *)
Definition all_one (s : list spec_float) : bool :=
  forallb (fun i => F64.eqb i F64.one) s.

(** Heap [h'] keeps every object of heap [h]. *)
Definition keeps (h h' : list Np.ndarray) : Prop :=
  (length h <= length h')%nat
  /\ forall i, (i < length h)%nat -> h' !! i = h !! i.

(** While the planes of the fresh array at [o] are filled: the heap
    keeps its size, only [o] changes, and [o] keeps its shape. *)
Definition filling (h1 : list Np.ndarray) (o : nat) (new_shape : list Z)
    (h : list Np.ndarray) : Prop :=
  length h = length h1
  /\ (forall i, i <> o -> h !! i = h1 !! i)
  /\ exists out, h !! o = Some out /\ Np.shape out = new_shape.

End DownsampleVocabulary.

Section PoolVocabulary.

(** The strides of axis [i], one per pooling stage. *)
Definition axis_strides (i : nat) (strides : list (list Z)) : list Z :=
  omap (fun row : list Z => row !! i) strides.

(** The product of a list of integers. *)
Definition product (l : list Z) : Z := foldr Z.mul 1 l.

End PoolVocabulary.

Section EpochVocabulary.
Import Semseg.BatchGenDataLoader.

(** The attributes of a loader that no call of [get_indices] changes. *)
Definition same_settings (self self' : t) : Prop :=
  batch_size self' = batch_size self
  /\ nbof_steps self' = nbof_steps self
  /\ number_of_threads_in_multithreaded self'
     = number_of_threads_in_multithreaded self
  /\ indices self' = indices self
  /\ _data self' = _data self
  /\ fnames self' = fnames self
  /\ img_dir self' = img_dir self
  /\ msk_dir self' = msk_dir self.

(** The least [k] with [k * threads >= nbof_steps], for [threads >= 1]. *)
Definition epoch_length (nbof_steps threads : Z) : Z :=
  if nbof_steps <=? 0 then 0 else (nbof_steps + threads - 1) `div` threads.

(** An outcome that is a batch of [batch_size] indices of the loader. *)
Definition is_batch (self : t) (r : result (list Z)) : Prop :=
  exists idx,
    r = Ok idx
    /\ Z.of_nat (length idx) = batch_size self
    /\ Forall (fun i => i ∈ indices self) idx.

End EpochVocabulary.

Section FloatVocabulary.

(** [2^-k], for [0 <= k <= 1000] *)
Definition pow2_neg (k : Z) : spec_float :=
  S754_finite false 4503599627370496 (- 52 - k).

(** Round half to even of [n / d] *)
Definition rne_div (n d : Z) : Z :=
  let q := n `div` d in
  match 2 * (n `mod` d) ?= d with
  | Lt => q
  | Gt => q + 1
  | Eq => if Z.even q then q else q + 1
  end.

End FloatVocabulary.

Section RegistrationVocabulary.
Import Np.

(** [out] is the block of [src] that starts at [offset] on the spatial
    axes: it has [chans] channels and the spatial shape [extent]. *)
Definition is_window (src out : ndarray) (chans : Z) (offset extent : list Z)
  : Prop :=
  shape out = chans :: extent
  /\ forall (ch : Z) (q : list Z),
       length q = length offset ->
       item out (ch :: q) = item src (ch :: zip_with Z.add offset q).

(** A block of [extent] voxels at [offset] lies inside a source of [sp]
    voxels and is no larger than [target], on every axis. *)
Definition fits (offset extent sp target : list Z) : Prop :=
  length offset = length sp
  /\ length extent = length sp
  /\ length target = length sp
  /\ forall (i : nat) (o e s t : Z),
       offset !! i = Some o -> extent !! i = Some e ->
       sp !! i = Some s -> target !! i = Some t ->
       0 <= o /\ 0 <= e <= t /\ o + e <= s.

(** Is the position [q] of an output of shape [target] inside the block
    of shape [extent] that sits in its centre? *)
Fixpoint in_block (extent target q : list Z) : bool :=
  match extent, target, q with
  | e :: extent', t :: target', x :: q' =>
      ((t - e) `div` 2 <=? x) && (x <? (t - e) `div` 2 + e)
      && in_block extent' target' q'
  | _, _, _ => true
  end.

(** The source position that lands at the output position [q]. *)
Fixpoint block_source (offset extent target q : list Z) : list Z :=
  match offset, extent, target, q with
  | o :: offset', e :: extent', t :: target', x :: q' =>
      (o + (x - (t - e) `div` 2)) :: block_source offset' extent' target' q'
  | _, _, _, _ => []
  end.

(** [out] shows the block of [src] at [offset] in its centre and zeros
    around it. *)
Definition registered (src out : ndarray) (chans : Z)
    (offset extent target : list Z) : Prop :=
  shape out = chans :: target
  /\ forall (ch : Z) (q : list Z),
       0 <= ch < chans ->
       Forall2 (fun x t => 0 <= x < t) q target ->
       item out (ch :: q)
       = if in_block extent target q
         then item src (ch :: block_source offset extent target q)
         else 0.

(** Both crops of lines 45-51 and 61-67: the image and the mask are cut
    at the same place. *)
Definition same_window (img msk : ndarray) (c cm : Z) (sp crop : list Z)
    (p : ndarray * ndarray) : Prop :=
  exists offset extent,
    fits offset extent sp crop
    /\ is_window img (fst p) c offset extent
    /\ is_window msk (snd p) (Z.min c cm) offset extent.

End RegistrationVocabulary.

Section ReshapeVocabulary.
Import Np NpShape.

(** A multi-index inside an array of shape [shp] *)
Definition valid_index (idx shp : list Z) : Prop :=
  Forall2 (fun i n => 0 <= i < n) idx shp.

(** The shape [(b, c * x, y, z)] of a flattened [(b, c, x, y, z)] *)
Definition flat_shape (shp : list Z) : list Z :=
  match shp with
  | [s0; s1; s2; s3; s4] => [s0; s1 * s2; s3; s4]
  | _ => shp
  end.

(** The array with the elements of [a] in the same order and the shape
    [shp] *)
Definition reshaped (a : ndarray) (shp : list Z) : ndarray :=
  {| shape := shp;
     item := fun idx => item a (unravel (shape a) (ravel shp idx)) |}.

(** A key of the first pass: a 5-D array whose shape key is free. *)
Definition foldable (d : gmap string Transforms.value) (k : string) : Prop :=
  exists a, d !! k = Some (Transforms.VArr a)
            /\ length (shape a) = 5%nat
            /\ Forall (fun n => 0 <= n) (shape a)
            /\ d !! Transforms.shape_key k = None.

(** A key of the second pass: a flattened array and its stored shape. *)
Definition unfoldable (d : gmap string Transforms.value) (k : string) : Prop :=
  exists a1 shp,
    d !! k = Some (Transforms.VArr a1)
    /\ d !! Transforms.shape_key k = Some (Transforms.VShape shp)
    /\ length shp = 5%nat
    /\ Forall (fun n => 0 <= n) shp
    /\ shape a1 = flat_shape shp.

End ReshapeVocabulary.

Section ReaderVocabulary.
Import Np NpShape Transforms.

(** A 3-D image, with or without its channel axis *)
Definition volume (a : ndarray) : bool :=
  bool_decide (ndim a = 3%nat) || bool_decide (ndim a = 4%nat).

(** The image with its channel axis first, added when missing *)
Definition channel_first (a : ndarray) : ndarray :=
  if bool_decide (ndim a = 3%nat) then expand_dims0 a else a.

(** The images [reads] are what the pairs of paths [paths] give, each a
    volume. *)
Definition read_as (adaptive_imread : string -> result ndarray)
    (paths : list (string * string)) (reads : list (ndarray * ndarray)) : Prop :=
  Forall2 (fun pq ab => adaptive_imread (fst pq) = Ok (fst ab)
                        /\ adaptive_imread (snd pq) = Ok (snd ab)
                        /\ volume (fst ab) = true
                        /\ volume (snd ab) = true) paths reads.

Definition image_paths (paths : list (string * string)) : list entry :=
  map (fun pq => EPath (fst pq)) paths.
Definition mask_paths (paths : list (string * string)) : list entry :=
  map (fun pq => EPath (snd pq)) paths.
Definition images (reads : list (ndarray * ndarray)) : list entry :=
  map (fun ab => EArr (channel_first (fst ab))) reads.
Definition masks (reads : list (ndarray * ndarray)) : list entry :=
  map (fun ab => EArr (channel_first (snd ab))) reads.

End ReaderVocabulary.

Section ConfigVocabulary.
Import Config.

(** Every mapping of the value is of the class [k]. *)
Fixpoint uniform (k : kind) (v : value) : bool :=
  match v with
  | VMap k' items =>
      kind_eqb k' k
      && forallb (fun ki => let '(_, i) := ki in uniform k i) items
  | _ => true
  end.

(** The value with every mapping made a built-in dictionary: its keys,
    their order and its leaves. *)
Fixpoint skeleton (v : value) : value :=
  match v with
  | VMap _ items =>
      VMap Builtin (map (fun ki => let '(k, i) := ki in (k, skeleton i)) items)
  | other => other
  end.

End ConfigVocabulary.

Section OneHotVocabulary.

(** A list of integers that increases strictly and starts at [lo] or
    above *)
Fixpoint increasing_from (lo : Z) (l : list Z) : Prop :=
  match l with
  | [] => True
  | x :: l' => lo <= x /\ increasing_from (x + 1) l'
  end.

End OneHotVocabulary.

(* ================================================================= *)
(** * Concrete inputs *)

(** A 2 x 5 single-channel image whose elements are all 7, and a mask of
    the same shape. *)
Definition pad_example_img : Np.ndarray :=
  {| Np.shape := [1; 2; 5]; Np.item := fun _ => 7 |}.
Definition pad_example_msk : Np.ndarray :=
  {| Np.shape := [1; 2; 5]; Np.item := fun _ => 1 |}.

(** A 10 x 10 x 10 single-channel volume whose voxel [(x, y, z)] holds
    [100 x + 10 y + z], and a mask whose only foreground voxel is the corner
    [(9, 9, 9)]. *)
Definition anchor_img : Np.ndarray :=
  {| Np.shape := [1; 10; 10; 10];
     Np.item := fun i => match i with
                         | [_; x; y; z] => 100 * x + 10 * y + z
                         | _ => 0
                         end |}.
Definition anchor_msk : Np.ndarray :=
  {| Np.shape := [1; 10; 10; 10];
     Np.item := fun i => match i with
                         | [_; 9; 9; 9] => 1
                         | _ => 0
                         end |}.

(** A generator that only produces the raw word [r]. *)
Definition constant_rng (r : Z) : rng := fun _ => r.

(** A single voxel with one channel, and its mask. *)
Definition voxel_img : Np.ndarray :=
  {| Np.shape := [1; 1; 1; 1]; Np.item := fun _ => 3 |}.
Definition voxel_msk : Np.ndarray :=
  {| Np.shape := [1; 1; 1; 1]; Np.item := fun _ => 1 |}.

(** Both random generators producing zeros only. *)
Definition zero_world : Semseg.world :=
  {| Semseg.py_random := constant_rng 0; Semseg.np_random := constant_rng 0 |}.

(** A folds table of 100 rows, none held out, row [i] named [case_i] and
    put in fold [i mod 5]. *)
Definition case_name (i : nat) : string :=
  ("case_" ++ NilEmpty.string_of_uint (Nat.to_uint i))%string.
Definition hundred_rows : list Utils.row :=
  map (fun i => {| Utils.filename := case_name i;
                   Utils.fold := Z.of_nat (i mod 5);
                   Utils.hold_out := 0 |})
      (seq 0 100).

(** A file system with nothing to list and nothing to read. *)
Definition no_listdir : string -> list string := fun _ => [].
Definition no_imread : string -> result Np.ndarray := fun _ => Raise Py.ValueError.

(** [0.25], the default [val_split]. *)
Definition quarter : spec_float := S754_finite false 4503599627370496 (- 54).

(** A directory with four files. *)
Definition four_files : string -> list string :=
  fun _ => ["a.npy"; "b.npy"; "c.npy"; "d.npy"]%string.

(** [0.5] *)
Definition half : spec_float := S754_finite false 4503599627370496 (- 53).

(** A binary mask with one batch item and one channel over 8 x 8 x 8
    voxels: the label is 1 on the lower half of the first axis. *)
Definition mask8 : Np.ndarray :=
  {| Np.shape := [1; 1; 8; 8; 8];
     Np.item := fun i => match i with
                         | [_; _; x; _; _] => if x <? 4 then 1 else 0
                         | _ => 0
                         end |}.

(** A resize that returns the requested shape: it reads the source at the
    proportional position on each axis. *)
Definition sample_resize (seg : Np.ndarray) (new_shape : list Z) (order : Z)
  : Np.ndarray :=
  {| Np.shape := new_shape;
     Np.item := fun j =>
       Np.item seg (zip_with (fun x p => x * fst p `div` snd p) j
                             (zip (Np.shape seg) new_shape)) |}.

(** Three levels: the original resolution, half of it on every axis, and
    half of it on the last two axes. *)
Definition three_levels : Semseg.DownsampleSegForDSTransform2.t :=
  Semseg.DownsampleSegForDSTransform2.init
    [Semseg.DownsampleSegForDSTransform2.Scalar F64.one;
     Semseg.DownsampleSegForDSTransform2.Scalar half;
     Semseg.DownsampleSegForDSTransform2.PerAxis [F64.one; half; half]]
    None None None None.

(** A 4 x 4 single-channel image with two spatial axes, and a mask whose
    voxels are all foreground. *)
Definition plane_img : Np.ndarray :=
  {| Np.shape := [1; 4; 4]; Np.item := fun _ => 5 |}.
Definition plane_msk : Np.ndarray :=
  {| Np.shape := [1; 4; 4]; Np.item := fun _ => 1 |}.

(** The training loader the constructor builds over [four_files] with the
    default [val_split]: the first name goes to validation, the other three
    are the samples. *)
Definition train_loader (batch_size nbof_steps threads : Z)
  : Semseg.BatchGenDataLoader.t :=
  {| Semseg.BatchGenDataLoader.img_dir := "img";
     Semseg.BatchGenDataLoader.msk_dir := "msk";
     Semseg.BatchGenDataLoader.batch_size := batch_size;
     Semseg.BatchGenDataLoader.nbof_steps := nbof_steps;
     Semseg.BatchGenDataLoader.load_data := false;
     Semseg.BatchGenDataLoader.fold := None;
     Semseg.BatchGenDataLoader.val_imgs := ["a.npy"];
     Semseg.BatchGenDataLoader.train_imgs := ["b.npy"; "c.npy"; "d.npy"];
     Semseg.BatchGenDataLoader.train := true;
     Semseg.BatchGenDataLoader.fnames := ["b.npy"; "c.npy"; "d.npy"];
     Semseg.BatchGenDataLoader._data :=
       [{| Semseg.BatchGenDataLoader.data := Semseg.BatchGenDataLoader.DPath "img/b.npy";
           Semseg.BatchGenDataLoader.seg := Semseg.BatchGenDataLoader.DPath "msk/b.npy" |};
        {| Semseg.BatchGenDataLoader.data := Semseg.BatchGenDataLoader.DPath "img/c.npy";
           Semseg.BatchGenDataLoader.seg := Semseg.BatchGenDataLoader.DPath "msk/c.npy" |};
        {| Semseg.BatchGenDataLoader.data := Semseg.BatchGenDataLoader.DPath "img/d.npy";
           Semseg.BatchGenDataLoader.seg := Semseg.BatchGenDataLoader.DPath "msk/d.npy" |}];
     Semseg.BatchGenDataLoader.number_of_threads_in_multithreaded := threads;
     Semseg.BatchGenDataLoader.indices := [0; 1; 2];
     Semseg.BatchGenDataLoader.current_position := 0;
     Semseg.BatchGenDataLoader.was_initialized := false |}%string.

(** The same loader over no sample at all. *)
Definition empty_loader (batch_size : Z) : Semseg.BatchGenDataLoader.t :=
  {| Semseg.BatchGenDataLoader.img_dir := "img";
     Semseg.BatchGenDataLoader.msk_dir := "msk";
     Semseg.BatchGenDataLoader.batch_size := batch_size;
     Semseg.BatchGenDataLoader.nbof_steps := 5;
     Semseg.BatchGenDataLoader.load_data := false;
     Semseg.BatchGenDataLoader.fold := None;
     Semseg.BatchGenDataLoader.val_imgs := ["a.npy"];
     Semseg.BatchGenDataLoader.train_imgs := [];
     Semseg.BatchGenDataLoader.train := true;
     Semseg.BatchGenDataLoader.fnames := [];
     Semseg.BatchGenDataLoader._data := [];
     Semseg.BatchGenDataLoader.number_of_threads_in_multithreaded := 1;
     Semseg.BatchGenDataLoader.indices := [];
     Semseg.BatchGenDataLoader.current_position := 0;
     Semseg.BatchGenDataLoader.was_initialized := false |}%string.

(** A 6 x 6 x 6 single-channel volume whose voxel [(x, y, z)] holds
    [100 x + 10 y + z + 1], and a two-channel mask: channel 0 marks the
    voxels with [x < 3], channel 1 those with [x >= 3]. *)
Definition cube_img : Np.ndarray :=
  {| Np.shape := [1; 6; 6; 6];
     Np.item := fun i => match i with
                         | [_; x; y; z] => 100 * x + 10 * y + z + 1
                         | _ => 0
                         end |}.
Definition cube_msk : Np.ndarray :=
  {| Np.shape := [2; 6; 6; 6];
     Np.item := fun i => match i with
                         | [0; x; _; _] => if x <? 3 then 1 else 0
                         | [1; x; _; _] => if x <? 3 then 0 else 1
                         | _ => 0
                         end |}.

(** A table with a [split] column: six training rows in the splits 0, 1,
    1, 2, 2, 2, one validation row and one test row. *)
Definition split_rows : list Splits.row :=
  [Splits.mk_row "t0" 0 1 0; Splits.mk_row "t1" 0 1 1; Splits.mk_row "t2" 0 2 1;
   Splits.mk_row "t3" 0 1 2; Splits.mk_row "t4" 0 2 2; Splits.mk_row "t5" 0 3 2;
   Splits.mk_row "v0" 0 0 (-1); Splits.mk_row "h0" 1 0 (-1)]%string.

(** A batch of one sample with two channels of 3 x 2 x 2 voxels, voxel
    [(b, c, x, y, z)] holding [1000 c + 100 x + 10 y + z], and the record
    that carries it as both image and label. *)
Definition batch_5d : Np.ndarray :=
  {| Np.shape := [1; 2; 3; 2; 2];
     Np.item := fun i => match i with
                         | [_; c; x; y; z] => 1000 * c + 100 * x + 10 * y + z
                         | _ => 0
                         end |}.
Definition batch_dict : gmap string Transforms.value :=
  <["data"%string := Transforms.VArr batch_5d]>
    (<["seg"%string := Transforms.VArr batch_5d]> ∅).

(** A file system where every path under [msk] holds [cube_msk] and every
    other path a 6 x 6 x 6 volume without channel axis; and a record with
    one image path and one mask path, and one with lists of two. *)
Definition raw_volume : Np.ndarray :=
  {| Np.shape := [6; 6; 6];
     Np.item := fun i => match i with
                         | [x; y; z] => 100 * x + 10 * y + z + 1
                         | _ => 0
                         end |}.
Definition cube_imread (path : string) : result Np.ndarray :=
  if String.prefix "msk" path then Ok cube_msk else Ok raw_volume.
Definition path_record : gmap string Transforms.rvalue :=
  <["data"%string := Transforms.ROne (Transforms.EPath "img/b.npy")]>
    (<["seg"%string := Transforms.ROne (Transforms.EPath "msk/b.npy")]> ∅).
Definition list_record : gmap string Transforms.rvalue :=
  <["data"%string := Transforms.RList [Transforms.EPath "img/b.npy";
                                       Transforms.EPath "img/c.npy"]]>
    (<["seg"%string := Transforms.RList [Transforms.EPath "msk/b.npy";
                                         Transforms.EPath "msk/c.npy"]]> ∅).

(** Two 2 x 3 label arrays: one with the labels 0, 1 and 2, and one with
    the grey values 0, 2, 4, 10, 12 and 14. *)
Definition labels_2x3 : Np.ndarray :=
  {| Np.shape := [2; 3];
     Np.item := fun i => match i with
                         | [a; b] => (a + 2 * b) `mod` 3
                         | _ => 0
                         end |}.
Definition greys_2x3 : Np.ndarray :=
  {| Np.shape := [2; 3];
     Np.item := fun i => match i with
                         | [a; b] => 10 * a + 2 * b
                         | _ => 0
                         end |}.
(* ================================================================= *)
(** * Properties *)

(** ** Generic facts *)

Section Generic.
Import Np.

Lemma broadcast2_same_length {A B C} (f : A -> B -> C) (x : list A) (y : list B) :
  length x = length y -> broadcast2 f x y = Ok (zip_with f x y).
Proof.
  intros Hlen. unfold broadcast2. destruct (decide _) as [_ | Hne]; [reflexivity | ].
  contradiction.
Qed.

Lemma lift_bind {S A B} (r : result A) (k : A -> St S B) (s : S) :
  St.bind (St.lift r) k s = match r with Ok a => k a s | Raise e => (Raise e, s) end.
Proof. unfold St.bind, St.lift. destruct r; reflexivity. Qed.

End Generic.

(** ** Centered padding *)

Section CenteredPad.
Import Np.

Lemma keep_positive_nonneg x : 0 <= x -> Semseg.keep_positive x = x.
Proof.
  intros Hx. unfold Semseg.keep_positive.
  destruct (0 <? x) eqn:E; [lia | ]. apply Z.ltb_ge in E. lia.
Qed.

Lemma keep_positive_neg x : x <= 0 -> Semseg.keep_positive x = 0.
Proof.
  intros Hx. unfold Semseg.keep_positive.
  destruct (0 <? x) eqn:E; [ | lia]. apply Z.ltb_lt in E. lia.
Qed.

Lemma pad_row_code s t :
  let start := Semseg.keep_positive ((t - s) `div` 2) in
  (start, Semseg.keep_positive (t - (s + start))) = pad_row s t.
Proof.
  cbv zeta. unfold pad_row. destruct (s <=? t) eqn:E.
  - apply Z.leb_le in E.
    assert (H0 : 0 <= (t - s) `div` 2) by (apply Z.div_pos; lia).
    assert (H1 : (t - s) `div` 2 <= t - s) by (apply Z.div_le_upper_bound; lia).
    rewrite (keep_positive_nonneg _ H0).
    rewrite keep_positive_nonneg by lia. f_equal. lia.
  - apply Z.leb_gt in E.
    assert (H0 : (t - s) `div` 2 < 0) by (apply Z.div_lt_upper_bound; lia).
    rewrite (keep_positive_neg ((t - s) `div` 2)) by lia.
    rewrite keep_positive_neg by lia. reflexivity.
Qed.

Lemma pad_row_nonneg s t : 0 <= fst (pad_row s t) /\ 0 <= snd (pad_row s t).
Proof.
  unfold pad_row. destruct (s <=? t) eqn:E; simpl; [ | lia].
  apply Z.leb_le in E.
  assert (0 <= (t - s) `div` 2) by (apply Z.div_pos; lia).
  assert ((t - s) `div` 2 <= t - s) by (apply Z.div_le_upper_bound; lia).
  lia.
Qed.

Lemma pad_row_total s t :
  fst (pad_row s t) + s + snd (pad_row s t) = Z.max s t.
Proof. unfold pad_row. destruct (s <=? t) eqn:E; simpl; lia. Qed.

Lemma zip_rows_code (f : Z -> Z) (g : Z -> Z) : forall sp final_size : list Z,
  length final_size = length sp ->
  let start := map f (zip_with Z.sub final_size sp) in
  zip start (map g (zip_with Z.sub final_size (zip_with Z.add sp start)))
  = zip_with (fun s t => (f (t - s), g (t - (s + f (t - s))))) sp final_size.
Proof.
  induction sp as [ | s sp IH]; intros [ | t final_size] Hlen; simpl in *;
    try reflexivity; try discriminate.
  f_equal. apply IH. lia.
Qed.

Lemma semseg_table sp final_size :
  length final_size = length sp ->
  Semseg.centered_pad_table sp final_size = Ok (centered_rows sp final_size).
Proof.
  intros Hlen. unfold Semseg.centered_pad_table.
  rewrite broadcast2_same_length by exact Hlen. simpl.
  rewrite broadcast2_same_length
    by (rewrite !length_map, length_zip_with; lia).
  simpl.
  rewrite broadcast2_same_length
    by (rewrite length_zip_with, !length_map, length_zip_with; lia).
  simpl.
  destruct (decide _) as [_ | Hne].
  2:{ exfalso. apply Hne.
      rewrite !length_map, !length_zip_with, !length_map, length_zip_with. lia. }
  unfold centered_rows. do 2 f_equal.
  rewrite map_map.
  rewrite (zip_rows_code (fun x => Semseg.keep_positive (x `div` 2))
                         Semseg.keep_positive sp final_size Hlen).
  apply zip_with_ext; [ | reflexivity .. ].
  intros s t. apply pad_row_code.
Qed.

Lemma utils_table sp final_size :
  length final_size = length sp ->
  Utils.centered_pad_table sp final_size = Ok (centered_rows sp final_size).
Proof. exact (semseg_table sp final_size). Qed.

Lemma pad_constant0_rows (a : ndarray) (rows : list (Z * Z)) :
  length rows = length (shape a) ->
  Forall (fun p => 0 <= fst p /\ 0 <= snd p) rows ->
  pad_constant0 a rows = Ok (padded rows a).
Proof.
  intros Hlen Hpos. unfold pad_constant0.
  destruct (decide _) as [_ | Hne]; [ | contradiction]. simpl.
  destruct (existsb _ rows) eqn:E; [ | reflexivity].
  apply existsb_exists in E as (p & Hin & Hp).
  rewrite Forall_forall in Hpos. apply list_elem_of_In, Hpos in Hin. lia.
Qed.

Lemma centered_rows_length sp final_size :
  length final_size = length sp ->
  length (centered_rows sp final_size) = S (length sp).
Proof.
  intros Hlen. unfold centered_rows. simpl. rewrite length_zip_with. lia.
Qed.

Lemma centered_rows_nonneg sp final_size :
  Forall (fun p => 0 <= fst p /\ 0 <= snd p) (centered_rows sp final_size).
Proof.
  unfold centered_rows. constructor; [simpl; lia | ].
  revert final_size. induction sp as [ | s sp IH]; intros [ | t final_size]; simpl;
    try constructor; auto using pad_row_nonneg.
Qed.

Lemma pad_shape_rows sp : forall final_size,
  length final_size = length sp ->
  pad_shape (zip_with pad_row sp final_size) sp = zip_with Z.max sp final_size.
Proof.
  induction sp as [ | s sp IH]; intros [ | t final_size] Hlen; simpl in *;
    try reflexivity; try discriminate.
  destruct (pad_row s t) as [b e] eqn:E.
  pose proof (pad_row_total s t) as Ht. rewrite E in Ht. simpl in Ht.
  rewrite Ht, IH by lia. reflexivity.
Qed.

Lemma padded_shape c sp final_size :
  length final_size = length sp ->
  pad_shape (centered_rows sp final_size) (c :: sp)
  = c :: zip_with Z.max sp final_size.
Proof.
  intros Hlen. unfold centered_rows. simpl.
  rewrite pad_shape_rows by exact Hlen. f_equal. lia.
Qed.

Lemma centered_pad_contract_of_table cp :
  (forall img final_size msk,
      cp img final_size msk
      = let* pad := Semseg.centered_pad_table (spatial img) final_size in
        let* pad_img := pad_constant0 img pad in
        match msk with
        | Some m => let* pad_msk := pad_constant0 m pad in Ok (pad_img, Some pad_msk)
        | None => Ok (pad_img, None)
        end) ->
  centered_pad_contract cp.
Proof.
  intros Hcp img final_size msk c sp Hshape Hlen Hmsk rows.
  exists (padded rows img).
  assert (Hrows : length rows = length (shape img)).
  { unfold rows. rewrite centered_rows_length, Hshape by exact Hlen. reflexivity. }
  assert (Hout : shape (padded rows img) = c :: zip_with Z.max sp final_size).
  { unfold padded, rows. cbn [shape]. rewrite Hshape.
    apply padded_shape. exact Hlen. }
  split; [ | split; [ | split]].
  - rewrite Hcp. unfold spatial. rewrite Hshape. simpl.
    rewrite semseg_table by exact Hlen. simpl. fold rows.
    rewrite pad_constant0_rows;
      [ | exact Hrows | apply centered_rows_nonneg]. simpl.
    destruct msk as [m | ]; [ | reflexivity].
    rewrite pad_constant0_rows; [reflexivity | | apply centered_rows_nonneg].
    rewrite (Hmsk m eq_refl). exact Hrows.
  - exact Hout.
  - intros i s t Hs Ht. unfold spatial. rewrite Hout. cbn [tail].
    exists (Z.max s t). split; [ | split].
    + rewrite lookup_zip_with, Hs. simpl. rewrite Ht. reflexivity.
    + lia.
    + intros Hlt. split; [lia | ].
      unfold rows, centered_rows.
      change (zip_with pad_row sp final_size !! i = Some (0, 0)).
      rewrite lookup_zip_with, Hs. simpl. rewrite Ht. simpl.
      unfold pad_row. destruct (s <=? t) eqn:E; [ | reflexivity].
      apply Z.leb_le in E. lia.
  - intros j. reflexivity.
Qed.

Lemma semseg_centered_pad_contract : centered_pad_contract Semseg.centered_pad.
Proof. apply centered_pad_contract_of_table. reflexivity. Qed.

Lemma utils_centered_pad_contract : centered_pad_contract Utils.centered_pad.
Proof.
  apply centered_pad_contract_of_table. intros img final_size msk.
  unfold Utils.centered_pad.
  change (Utils.centered_pad_table (spatial img) final_size)
    with (Semseg.centered_pad_table (spatial img) final_size).
  destruct (Semseg.centered_pad_table (spatial img) final_size) as [pad | e];
    [ | reflexivity]. simpl.
  destruct (pad_constant0 img pad) as [pad_img | e]; [ | reflexivity]. simpl.
  destruct msk as [m | ]; [ | reflexivity].
  destruct (pad_constant0 m pad) as [pad_msk | e]; reflexivity.
Qed.

(** C2.  For an image of shape [c :: sp] and a target [final_size] of the
    same rank, either copy of [centered_pad] (semseg_batchgen.py and
    utils.py) returns the image padded with [centered_rows sp final_size],
    and the mask padded alike when one is given.  On an axis with source
    extent [s] and target [t] the output extent is [t] when [s <= t]; when
    [t < s] it stays [s] and the pad widths of that axis are [(0, 0)], so
    nothing is added or cut.  Every output element outside the copied
    block is the constant 0, every element inside is the source element. *)
Theorem centered_pad_shape_and_fill :
  forall (cp : ndarray -> list Z -> option ndarray
               -> result (ndarray * option ndarray))
         (img : ndarray) (final_size : list Z) (msk : option ndarray)
         (c : Z) (sp : list Z),
    cp = Semseg.centered_pad \/ cp = Utils.centered_pad ->
    shape img = c :: sp ->
    length final_size = length sp ->
    (forall m, msk = Some m -> length (shape m) = length (shape img)) ->
    let rows := centered_rows sp final_size in
    exists out : ndarray,
      cp img final_size msk = Ok (out, padded rows <$> msk)
      /\ shape out = c :: zip_with Z.max sp final_size
      /\ (forall (i : nat) (s t : Z),
             sp !! i = Some s -> final_size !! i = Some t ->
             exists o,
               spatial out !! i = Some o
               /\ (s <= t -> o = t)
               /\ (t < s -> o = s /\ rows !! S i = Some (0, 0)))
      /\ (forall j : list Z,
             item out j = if pad_inside rows (shape img) j
                          then item img (pad_source rows j)
                          else 0).
Proof.
  intros cp img final_size msk c sp [-> | ->].
  - apply semseg_centered_pad_contract.
  - apply utils_centered_pad_contract.
Qed.

End CenteredPad.

Lemma centered_pad_shape_and_fill_witness :
  let rows := centered_rows [2; 5] [4; 3] in
  exists out : Np.ndarray,
    Utils.centered_pad pad_example_img [4; 3] (Some pad_example_msk)
    = Ok (out, padded rows <$> Some pad_example_msk)
    /\ Np.shape out = 1 :: zip_with Z.max [2; 5] [4; 3]
    /\ (forall (i : nat) (s t : Z),
           [2; 5] !! i = Some s -> [4; 3] !! i = Some t ->
           exists o,
             Np.spatial out !! i = Some o
             /\ (s <= t -> o = t)
             /\ (t < s -> o = s /\ rows !! S i = Some (0, 0)))
    /\ (forall j : list Z,
           Np.item out j = if Np.pad_inside rows (Np.shape pad_example_img) j
                           then Np.item pad_example_img (Np.pad_source rows j)
                           else 0).
Proof.
  apply (centered_pad_shape_and_fill Utils.centered_pad pad_example_img [4; 3]
           (Some pad_example_msk) 1 [2; 5]).
  - right. reflexivity.
  - reflexivity.
  - reflexivity.
  - intros m Hm. injection Hm as <-. reflexivity.
Defined.
(** ** Random crop windows *)

Section RandomWindow.
Import Np Semseg.

Lemma below_range lo hi raw : lo < hi -> lo <= Rng.below lo hi raw < hi.
Proof.
  intros H. unfold Rng.below.
  pose proof (Z.mod_pos_bound raw (hi - lo)). lia.
Qed.

Lemma below_hit lo hi v : lo <= v < hi -> Rng.below lo hi (v - lo) = v.
Proof.
  intros H. unfold Rng.below. rewrite Z.mod_small by lia. lia.
Qed.

Lemma traverse_draws (bounds : list (Z * Z)) :
  Forall (fun p => fst p < snd p) bounds ->
  forall w, exists vs w',
    St.traverse draw bounds w = (Ok vs, w')
    /\ Forall2 (fun p v => fst p <= v < snd p) bounds vs
    /\ py_random w' = py_random w.
Proof.
  induction 1 as [ | p bounds Hp _ IH]; intros w.
  - exists [], w. repeat split. constructor.
  - destruct (IH {| py_random := py_random w;
                    np_random := fun n => np_random w (S n) |})
      as (vs & w' & Htr & Hall & Hpy).
    exists (Rng.below (fst p) (snd p) (np_random w 0%nat) :: vs), w'.
    split; [ | split].
    + cbn [St.traverse]. unfold St.bind at 1. unfold draw at 1.
      unfold St.bind at 1. cbn [np_next Rng.next St.ret].
      unfold St.bind at 1. rewrite Htr. reflexivity.
    + constructor; [apply below_range, Hp | exact Hall].
    + exact Hpy.
Qed.

Lemma traverse_draws_hit (bounds : list (Z * Z)) : forall vs g,
  Forall2 (fun p v => fst p <= v < snd p) bounds vs ->
  fst (St.traverse draw bounds
         {| py_random := g; np_random := raws_for bounds vs |}) = Ok vs.
Proof.
  induction bounds as [ | p bounds IH]; intros vs g Hall;
    inversion Hall as [ | p' v bounds' vs' Hv Hrest]; subst.
  - reflexivity.
  - cbn [St.traverse]. unfold St.bind at 1. unfold draw at 1.
    unfold St.bind at 1. cbn [np_next Rng.next St.ret py_random np_random].
    unfold St.bind at 1.
    change (fun n => raws_for (p :: bounds) (v :: vs') (S n))
      with (raws_for bounds vs').
    specialize (IH vs' g Hrest).
    destruct (St.traverse draw bounds _) as [[ys | e] w'] eqn:E;
      simpl in IH; [ | discriminate].
    injection IH as ->. simpl.
    unfold raws_for. simpl. rewrite below_hit by exact Hv. reflexivity.
Qed.

Lemma broadcast2_scalar_left {A B C} (f : A -> B -> C) (a : A) (y : list B) :
  broadcast2 f [a] y = Ok (map (f a) y).
Proof.
  unfold broadcast2. destruct (decide _) as [Hlen | _]; [ | reflexivity].
  destruct y as [ | b [ | ]]; simpl in Hlen; try discriminate. reflexivity.
Qed.

Lemma np_randint_ok low high bounds w :
  broadcast2 pair low high = Ok bounds ->
  Forall (fun p => fst p < snd p) bounds ->
  exists vs w',
    np_randint low high w = (Ok vs, w')
    /\ Forall2 (fun p v => fst p <= v < snd p) bounds vs
    /\ py_random w' = py_random w.
Proof.
  intros Hb Hall. unfold np_randint. rewrite lift_bind, Hb.
  replace (existsb _ bounds) with false.
  - apply traverse_draws, Hall.
  - symmetry. apply not_true_is_false. intros E.
    apply existsb_exists in E as (p & Hin & Hp).
    rewrite Forall_forall in Hall. apply list_elem_of_In, Hall in Hin. lia.
Qed.

Lemma np_randint_hit low high bounds vs g :
  broadcast2 pair low high = Ok bounds ->
  Forall2 (fun p v => fst p <= v < snd p) bounds vs ->
  fst (np_randint low high {| py_random := g; np_random := raws_for bounds vs |})
  = Ok vs.
Proof.
  intros Hb Hall. unfold np_randint. rewrite lift_bind, Hb.
  replace (existsb _ bounds) with false.
  - apply traverse_draws_hit, Hall.
  - symmetry. apply not_true_is_false. intros E.
    apply existsb_exists in E as (p & Hin & Hp).
    apply list_elem_of_In, list_elem_of_lookup_1 in Hin as [i Hi].
    destruct (Forall2_lookup_l _ _ _ _ _ Hall Hi) as (v & _ & Hv). lia.
Qed.

Lemma random_bounds_lookup img_shape crop_shape i s t :
  img_shape !! i = Some s -> crop_shape !! i = Some t ->
  random_bounds img_shape crop_shape !! i = Some (0, Z.max 1 (s - t)).
Proof.
  intros Hs Ht. unfold random_bounds.
  rewrite !list_lookup_fmap, lookup_zip_with, Hs. simpl. rewrite Ht. reflexivity.
Qed.

Lemma random_bounds_length img_shape crop_shape :
  length img_shape = length crop_shape ->
  length (random_bounds img_shape crop_shape) = length img_shape.
Proof.
  intros H. unfold random_bounds. rewrite !length_map, length_zip_with. lia.
Qed.

Lemma random_bounds_pos img_shape crop_shape :
  Forall (fun p => fst p < snd p) (random_bounds img_shape crop_shape).
Proof.
  unfold random_bounds. rewrite !Forall_fmap. apply Forall_forall.
  intros x _. simpl. lia.
Qed.

Lemma random_crop_start_unfold img_shape crop_shape w :
  length img_shape = length crop_shape ->
  random_crop_start img_shape crop_shape w
  = np_randint [0] (map (Z.max 1) (zip_with Z.sub img_shape crop_shape)) w.
Proof.
  intros Hlen. unfold random_crop_start.
  rewrite lift_bind, broadcast2_same_length by exact Hlen. reflexivity.
Qed.

(** C4.  For a source shape and a target shape of the same rank, the
    start [random_crop] draws (line 60) lies in [0, max(1, s - t)] on each
    axis; in fact it stays below [max(1, s - t)], so it is 0 on every axis
    whose target is at least the source.  The axes are drawn independently:
    every vector within these per-axis ranges is the start for some state
    of the generator. *)
Theorem random_crop_start_range :
  forall (img_shape crop_shape : list Z),
    length img_shape = length crop_shape ->
    (forall w : world,
        exists (start : list Z) (w' : world),
          random_crop_start img_shape crop_shape w = (Ok start, w')
          /\ length start = length img_shape
          /\ forall (i : nat) (s t : Z),
              img_shape !! i = Some s -> crop_shape !! i = Some t ->
              exists x,
                start !! i = Some x
                /\ 0 <= x <= Z.max 1 (s - t)
                /\ x < Z.max 1 (s - t)
                /\ (s <= t -> x = 0))
    /\ (forall v : list Z,
           length v = length img_shape ->
           (forall (i : nat) (s t x : Z),
               img_shape !! i = Some s -> crop_shape !! i = Some t ->
               v !! i = Some x -> 0 <= x < Z.max 1 (s - t)) ->
           exists w : world,
             fst (random_crop_start img_shape crop_shape w) = Ok v).
Proof.
  intros img_shape crop_shape Hlen. split.
  - intros w.
    destruct (np_randint_ok [0] _ _ w (broadcast2_scalar_left pair 0 _)
                (random_bounds_pos img_shape crop_shape))
      as (start & w' & Hrun & Hall & _).
    exists start, w'. split; [ | split].
    + rewrite random_crop_start_unfold by exact Hlen. exact Hrun.
    + rewrite <- (Forall2_length _ _ _ Hall).
      apply random_bounds_length, Hlen.
    + intros i s t Hs Ht.
      destruct (Forall2_lookup_l _ _ _ _ _ Hall
                  (random_bounds_lookup _ _ _ _ _ Hs Ht)) as (x & Hx & Hr).
      simpl in Hr. exists x. split; [exact Hx | ]. lia.
  - intros v Hv Hrange.
    exists {| py_random := fun _ => 0;
              np_random := raws_for (random_bounds img_shape crop_shape) v |}.
    rewrite random_crop_start_unfold by exact Hlen.
    apply np_randint_hit; [apply broadcast2_scalar_left | ].
    apply Forall2_same_length_lookup. split.
    + rewrite random_bounds_length by exact Hlen. lia.
    + intros i p x Hp Hx.
      destruct (lookup_lt_is_Some_2 img_shape i) as [s Hs].
      { rewrite <- Hv. apply lookup_lt_Some in Hx. exact Hx. }
      destruct (lookup_lt_is_Some_2 crop_shape i) as [t Ht].
      { rewrite <- Hlen. apply lookup_lt_Some in Hs. exact Hs. }
      rewrite (random_bounds_lookup _ _ _ _ _ Hs Ht) in Hp.
      injection Hp as <-. simpl. eapply Hrange; eassumption.
Qed.
End RandomWindow.

Lemma random_crop_start_range_witness :
  (forall w : Semseg.world,
      exists (start : list Z) (w' : Semseg.world),
        Semseg.random_crop_start [10; 1; 3] [4; 4; 4] w = (Ok start, w')
        /\ length start = length [10; 1; 3]
        /\ forall (i : nat) (s t : Z),
            [10; 1; 3] !! i = Some s -> [4; 4; 4] !! i = Some t ->
            exists x,
              start !! i = Some x
              /\ 0 <= x <= Z.max 1 (s - t)
              /\ x < Z.max 1 (s - t)
              /\ (s <= t -> x = 0))
  /\ (forall v : list Z,
         length v = length [10; 1; 3] ->
         (forall (i : nat) (s t x : Z),
             [10; 1; 3] !! i = Some s -> [4; 4; 4] !! i = Some t ->
             v !! i = Some x -> 0 <= x < Z.max 1 (s - t)) ->
         exists w : Semseg.world,
           fst (Semseg.random_crop_start [10; 1; 3] [4; 4; 4] w) = Ok v).
Proof.
  apply (random_crop_start_range [10; 1; 3] [4; 4; 4]). reflexivity.
Defined.
(** ** Crop then pad *)

Section CropPad.
Import Np Semseg.

Lemma bind_ok {S A B} (m : St S A) (k : A -> St S B) (s s1 : S) (a : A) :
  m s = (Ok a, s1) -> St.bind m k s = k a s1.
Proof. intros H. unfold St.bind. rewrite H. reflexivity. Qed.

Lemma slice_len_window s t n :
  0 <= s -> 0 <= t -> 0 <= slice_len (mk_slice s (s + t)) n <= t.
Proof.
  intros Hs Ht. unfold slice_len, slice_stop, slice_start, PyOps.clip_index.
  cbn [sl_start sl_stop].
  destruct (s + t <? 0) eqn:E1; [apply Z.ltb_lt in E1; lia | ].
  destruct (s <? 0) eqn:E2; [apply Z.ltb_lt in E2; lia | ].
  lia.
Qed.

Lemma slice_len_full c n : 0 <= c -> 0 <= n -> slice_len (mk_slice 0 c) n = Z.min c n.
Proof.
  intros Hc Hn. unfold slice_len, slice_stop, slice_start, PyOps.clip_index.
  cbn [sl_start sl_stop].
  destruct (c <? 0) eqn:E1; [apply Z.ltb_lt in E1; lia | ].
  simpl. lia.
Qed.

Lemma slice_shape_window : forall (start crop sp : list Z),
  length start = length sp -> length crop = length sp ->
  Forall (fun x => 0 <= x) start -> Forall (fun x => 0 <= x) crop ->
  Forall2 (fun o t => 0 <= o <= t)
          (slice_shape (zip_with mk_slice start (zip_with Z.add start crop)) sp)
          crop.
Proof.
  induction start as [ | s start IH]; intros [ | t crop] [ | n sp] Hl1 Hl2 Hs Hc;
    simpl in *; try discriminate; try constructor.
  - apply slice_len_window; [inversion Hs | inversion Hc]; assumption.
  - apply IH; try lia; [inversion Hs | inversion Hc]; assumption.
Qed.

Lemma crop_at_start (img msk : ndarray) (start crop : list Z) c cm sp (w : world)
      (k : ndarray * ndarray -> St world (ndarray * ndarray)) :
  shape img = c :: sp -> shape msk = cm :: sp -> 0 <= c -> 0 <= cm ->
  length start = length sp -> length crop = length sp ->
  Forall (fun x => 0 <= x) start -> Forall (fun x => 0 <= x) crop ->
  exists p,
    cropped c cm crop p
    /\ (let! end_ := St.lift (broadcast2 Z.add start crop) in
        let! idx := St.lift (crop_index img start end_) in
        let! crop_img := St.lift (getitem_slices img idx) in
        let! crop_msk := St.lift (getitem_slices msk idx) in
        k (crop_img, crop_msk)) w
       = k p w.
Proof.
  intros Himg Hmsk Hc Hcm Hl1 Hl2 Hs Hcrop.
  set (idx := mk_slice 0 c :: zip_with mk_slice start (zip_with Z.add start crop)).
  assert (Hidx : length idx = S (length sp)).
  { unfold idx. simpl. rewrite !length_zip_with. lia. }
  eexists (_, _). split; cycle 1.
  - rewrite lift_bind, broadcast2_same_length by lia.
    rewrite lift_bind. unfold crop_index, shape0. rewrite Himg.
    cbn [PyOps.bind]. fold idx.
    rewrite lift_bind. unfold getitem_slices at 1.
    destruct (decide _) as [_ | Hn]; [ | rewrite Himg, Hidx in Hn; simpl in Hn; lia].
    rewrite lift_bind. unfold getitem_slices at 1.
    destruct (decide _) as [_ | Hn]; [ | rewrite Hmsk, Hidx in Hn; simpl in Hn; lia].
    reflexivity.
  - exists (slice_shape (zip_with mk_slice start (zip_with Z.add start crop)) sp).
    cbn [fst snd shape]. rewrite Himg, Hmsk. unfold idx. cbn [slice_shape].
    rewrite !slice_len_full by lia.
    split; [ | split].
    + f_equal. lia.
    + reflexivity.
    + apply slice_shape_window; assumption.
Qed.

Lemma draws_nonneg (bounds : list (Z * Z)) (vs : list Z) :
  Forall2 (fun p v => fst p <= v < snd p) bounds vs ->
  Forall (fun p => 0 <= fst p) bounds ->
  Forall (fun x => 0 <= x) vs.
Proof.
  induction 1 as [ | p v bounds vs Hv _ IH]; intros Hb; constructor;
    inversion Hb; subst; [lia | auto].
Qed.

Lemma random_crop_start_ok img_shape crop_shape w :
  length img_shape = length crop_shape ->
  exists start w',
    random_crop_start img_shape crop_shape w = (Ok start, w')
    /\ length start = length img_shape
    /\ Forall (fun x => 0 <= x) start.
Proof.
  intros Hlen.
  destruct (np_randint_ok [0] _ _ w (broadcast2_scalar_left pair 0 _)
              (random_bounds_pos img_shape crop_shape))
    as (start & w' & Hrun & Hall & _).
  exists start, w'. split; [ | split].
  - rewrite random_crop_start_unfold by exact Hlen. exact Hrun.
  - rewrite <- (Forall2_length _ _ _ Hall). apply random_bounds_length, Hlen.
  - apply (draws_nonneg _ _ Hall). unfold random_bounds.
    rewrite Forall_fmap. apply Forall_forall. intros x _. simpl. lia.
Qed.

Lemma random_crop_cropped (img msk : ndarray) (crop : list Z) c cm sp w :
  shape img = c :: sp -> shape msk = cm :: sp -> 0 <= c -> 0 <= cm ->
  length crop = length sp -> Forall (fun x => 0 <= x) crop ->
  exists p w', random_crop img msk crop w = (Ok p, w') /\ cropped c cm crop p.
Proof.
  intros Himg Hmsk Hc Hcm Hlen Hcrop. unfold random_crop, spatial.
  rewrite Himg. cbn [tail].
  rewrite lift_bind, bool_decide_eq_true_2 by lia. cbn [PyOps.assert].
  destruct (random_crop_start_ok sp crop w) as (start & w' & Hrun & Hl & Hs);
    [lia | ].
  rewrite (bind_ok _ _ _ _ _ Hrun).
  destruct (crop_at_start img msk start crop c cm sp w' St.ret)
    as (p & Hp & Heq); try assumption.
  rewrite Heq. exists p, w'. split; [reflexivity | exact Hp].
Qed.

Lemma located_crop_start_ok (sp location crop margin : list Z) w :
  length location = length sp -> length crop = length sp ->
  length margin = length sp ->
  exists start w',
    located_crop_start sp location crop margin w = (Ok start, w')
    /\ length start = length sp
    /\ Forall (fun x => 0 <= x) start
    /\ py_random w' = py_random w
    /\ (forall i l t m x,
          location !! i = Some l -> crop !! i = Some t ->
          margin !! i = Some m -> start !! i = Some x ->
          l - t + m <= x).
Proof.
  intros Hloc Hcrop Hmargin. unfold located_crop_start.
  rewrite lift_bind.
  rewrite (broadcast2_same_length Z.sub location crop) by lia. cbn [PyOps.bind].
  rewrite broadcast2_same_length by (rewrite length_zip_with; lia).
  cbn [PyOps.bind].
  set (lower := map (Z.max 0) _).
  assert (Hlower : length lower = length sp).
  { unfold lower. rewrite length_map, !length_zip_with. lia. }
  rewrite lift_bind.
  rewrite (broadcast2_same_length Z.sub location margin) by lia. cbn [PyOps.bind].
  rewrite (broadcast2_same_length Z.sub sp crop) by lia. cbn [PyOps.bind].
  rewrite (broadcast2_same_length Z.min) by (rewrite !length_zip_with; lia).
  cbn [PyOps.bind].
  rewrite (broadcast2_same_length Z.max)
    by (rewrite length_map, !length_zip_with; lia).
  set (higher := zip_with Z.max _ _).
  assert (Hhigher : length higher = length sp).
  { unfold higher. rewrite !length_zip_with, length_map. lia. }
  rewrite lift_bind.
  rewrite (broadcast2_same_length Z.max) by (rewrite length_map; lia).
  set (high := zip_with Z.max _ higher).
  assert (Hhigh : length high = length sp).
  { unfold high. rewrite length_zip_with, length_map. lia. }
  assert (Hbounds : Forall (fun p => 0 <= fst p /\ fst p < snd p)
                           (zip_with pair lower high)).
  { apply Forall_lookup_2. intros i p Hp.
    apply lookup_zip_with_Some in Hp as (lo & hi & -> & Hlo & Hhi).
    unfold high in Hhi.
    apply lookup_zip_with_Some in Hhi as (lo1 & h & -> & Hlo1 & _).
    rewrite list_lookup_fmap, Hlo in Hlo1. injection Hlo1 as <-.
    unfold lower in Hlo. rewrite list_lookup_fmap in Hlo.
    destruct (_ !! i) as [e | ]; [ | discriminate]. injection Hlo as <-.
    simpl. lia. }
  destruct (np_randint_ok lower high (zip_with pair lower high) w)
    as (start & w' & Hrun & Hall & Hpy).
  { apply broadcast2_same_length. lia. }
  { eapply Forall_impl; [exact Hbounds | ]. intros p [_ H]. exact H. }
  exists start, w'. split; [exact Hrun | split; [ | split; [ | split]]].
  - rewrite <- (Forall2_length _ _ _ Hall), length_zip_with. lia.
  - apply (draws_nonneg _ _ Hall).
    eapply Forall_impl; [exact Hbounds | ]. intros p [H _]. exact H.
  - exact Hpy.
  - intros i l t m x Hl Ht Hm Hx.
    destruct (Forall2_lookup_r _ _ _ _ _ Hall Hx) as (p & Hp & Hle & _).
    apply lookup_zip_with_Some in Hp as (lo & hi & -> & Hlo & _).
    unfold lower in Hlo. rewrite list_lookup_fmap in Hlo.
    rewrite (proj2 (lookup_zip_with_Some Z.add _ margin i (l - t + m))) in Hlo.
    + injection Hlo as <-. simpl in Hle. lia.
    + exists (l - t), m. split; [reflexivity | split; [ | exact Hm]].
      apply lookup_zip_with_Some. exists l, t. auto.
Qed.

Lemma located_crop_cropped (img msk : ndarray) (location crop margin : list Z)
      c cm sp w :
  shape img = c :: sp -> shape msk = cm :: sp -> 0 <= c -> 0 <= cm ->
  length location = length sp -> length crop = length sp ->
  length margin = length sp -> Forall (fun x => 0 <= x) crop ->
  exists p w',
    located_crop img msk location crop margin w = (Ok p, w')
    /\ cropped c cm crop p.
Proof.
  intros Himg Hmsk Hc Hcm Hloc Hlen Hmargin Hcrop. unfold located_crop, spatial.
  rewrite Himg. cbn [tail].
  destruct (located_crop_start_ok sp location crop margin w)
    as (start & w' & Hrun & Hl & Hs & _); try assumption.
  rewrite (bind_ok _ _ _ _ _ Hrun).
  destruct (crop_at_start img msk start crop c cm sp w' St.ret)
    as (p & Hp & Heq); try assumption.
  rewrite Heq. exists p, w'. split; [reflexivity | exact Hp].
Qed.

Lemma all_indices_length (shp : list Z) :
  forall i, In i (all_indices shp) -> length i = length shp.
Proof.
  induction shp as [ | n shp IH]; intros i Hi; simpl in Hi.
  - destruct Hi as [<- | []]. reflexivity.
  - apply in_flat_map in Hi as (x & _ & Hi).
    apply in_map_iff in Hi as (j & <- & Hj). simpl. f_equal. apply IH, Hj.
Qed.

Lemma norm_index_in_range i n :
  0 <= i < n -> PyOps.norm_index i n = Ok (Z.to_nat i).
Proof.
  intros H. unfold PyOps.norm_index.
  destruct (i <? 0) eqn:E; [apply Z.ltb_lt in E; lia | ].
  destruct (0 <=? i) eqn:E1; [ | apply Z.leb_gt in E1; lia].
  destruct (i <? n) eqn:E2; [ | apply Z.ltb_ge in E2; lia].
  reflexivity.
Qed.

Lemma random_choice_in {A} (l : list A) w :
  l <> [] ->
  exists x w', random_choice l w = (Ok x, w') /\ In x l.
Proof.
  intros Hl. destruct l as [ | a l]; [contradiction | ].
  unfold random_choice, St.bind, py_next, St.ret. cbn [Rng.next].
  eexists _, _. split; [reflexivity | ].
  apply nth_In. 
  pose proof (Z.mod_pos_bound (py_random w 0%nat) (Z.of_nat (length (a :: l)))) as Hb.
  simpl in Hb |- *. lia.
Qed.

Lemma foreground_crop_cropped (img msk : ndarray) (crop margin : list Z)
      c cm sp w :
  shape img = c :: sp -> shape msk = cm :: sp -> 0 <= c -> 1 <= cm ->
  length crop = length sp -> length margin = length sp ->
  Forall (fun x => 0 <= x) crop ->
  exists p w',
    foreground_crop img msk crop margin w = (Ok p, w') /\ cropped c cm crop p.
Proof.
  intros Himg Hmsk Hc Hcm Hlen Hmargin Hcrop.
  unfold foreground_crop, foreground_center.
  unfold St.bind at 1.
  rewrite lift_bind. unfold shape0. rewrite Hmsk.
  unfold random_randint.
  destruct (cm - 1 <? 0) eqn:E; [apply Z.ltb_lt in E; lia | clear E].
  unfold St.bind at 1. unfold St.bind at 1.
  cbn [py_next Rng.next St.ret].
  set (rnd_label := Rng.below 0 (cm - 1 + 1) (py_random w 0%nat)).
  assert (Hlabel : 0 <= rnd_label < cm).
  { pose proof (below_range 0 (cm - 1 + 1) (py_random w 0%nat)).
    unfold rnd_label. lia. }
  rewrite lift_bind. unfold getitem_int. rewrite Hmsk.
  rewrite norm_index_in_range by exact Hlabel. cbn [PyOps.bind].
  set (chan := {| shape := sp; item := _ |}).
  destruct (argwhere_size _ _ =? 0) eqn:Esz.
  - apply random_crop_cropped with (sp := sp); try assumption; lia.
  - assert (Hne : argwhere_eq chan 1 <> []).
    { intros Hnil. rewrite Hnil in Esz. discriminate. }
    destruct (random_choice_in (argwhere_eq chan 1)
                {| py_random := fun n => py_random w (S n);
                   np_random := np_random w |} Hne)
      as (center & w1 & Hrun & Hin).
    rewrite (bind_ok _ _ _ _ _ Hrun).
    apply located_crop_cropped with (sp := sp); try assumption; try lia.
    unfold argwhere_eq in Hin. apply list_elem_of_In in Hin.
    apply list_elem_of_filter in Hin as [_ Hin].
    apply list_elem_of_In, all_indices_length in Hin. exact Hin.
Qed.

Lemma pad_after_crop (final_size : list Z) c cm (p : ndarray * ndarray) w :
  cropped c cm final_size p ->
  exists img' msk',
    ((let! d := St.lift (broadcast2 Z.sub (spatial (fst p)) final_size) in
      if existsb (fun x => negb (x =? 0)) d
      then
        let! padded := St.lift (centered_pad (fst p) final_size (Some (snd p))) in
        match padded with
        | (img, Some msk) => St.ret (img, msk)
        | (_, None) => St.raise Py.TypeError
        end
      else St.ret (fst p, snd p)) : St world (ndarray * ndarray)) w
    = (Ok (img', msk'), w)
    /\ shape img' = c :: final_size
    /\ shape msk' = Z.min c cm :: final_size.
Proof.
  intros (osp & Himg & Hmsk & Hall).
  assert (Hlen : length final_size = length osp)
    by (symmetry; apply (Forall2_length _ _ _ Hall)).
  assert (Hmax : zip_with Z.max osp final_size = final_size).
  { clear Himg Hmsk Hlen. induction Hall as [ | o t osp final_size Ho _ IH];
      simpl; [reflexivity | ]. rewrite IH. f_equal. lia. }
  unfold spatial. rewrite Himg. cbn [tail].
  rewrite lift_bind, broadcast2_same_length by lia.
  destruct (existsb _ _) eqn:E.
  - destruct (semseg_centered_pad_contract (fst p) final_size (Some (snd p))
                c osp Himg Hlen) as (out & Hrun & Hshape & _).
    { intros m Hm. injection Hm as <-. rewrite Himg, Hmsk. reflexivity. }
    rewrite lift_bind, Hrun. cbn [fmap option_fmap option_map].
    eexists _, _. split; [reflexivity | ]. split.
    + rewrite Hshape, Hmax. reflexivity.
    + unfold padded. cbn [shape]. rewrite Hmsk.
      rewrite padded_shape by exact Hlen. rewrite Hmax. reflexivity.
  - exists (fst p), (snd p). split; [reflexivity | ].
    assert (Heq : osp = final_size).
    { clear Himg Hmsk Hlen Hmax.
      induction Hall as [ | o t osp final_size Ho _ IH]; [reflexivity | ].
      simpl in E. apply orb_false_elim in E as [E1 E2].
      apply negb_false_iff, Z.eqb_eq in E1.
      rewrite IH by exact E2. f_equal. lia. }
    rewrite Himg, Hmsk, Heq. split; reflexivity.
Qed.

(** C1.  For an image of shape [c :: sp], a mask of shape [cm :: sp] and a
    target [final_size] of the same rank with no negative entry,
    [random_crop_pad] returns, whatever the state of the random generators,
    an image of shape [c :: final_size] and a mask whose spatial shape is
    [final_size] too (its channel axis is cut to the channel count of the
    image by the crop).  The source extents [sp] are arbitrary, 1-voxel and
    empty sources included.  When the foreground rate is positive, so that
    the foreground crop can be taken, the mask must have a channel to pick
    and the margin one entry per spatial axis. *)
Theorem random_crop_pad_shape :
  forall (img msk : ndarray) (final_size : list Z) (fg_rate : spec_float)
         (fg_margin : list Z) (c cm : Z) (sp : list Z) (w : world),
    shape img = c :: sp ->
    shape msk = cm :: sp ->
    0 <= c -> 0 <= cm ->
    length final_size = length sp ->
    Forall (fun x => 0 <= x) final_size ->
    (F64.ltb F64.zero fg_rate = true ->
     1 <= cm /\ length fg_margin = length sp) ->
    exists (img' msk' : ndarray) (w' : world),
      random_crop_pad (PArray img) (PArray msk) final_size fg_rate fg_margin w
      = (Ok (img', msk'), w')
      /\ shape img' = c :: final_size
      /\ shape msk' = Z.min c cm :: final_size.
Proof.
  intros img msk final_size fg_rate fg_margin c cm sp w
         Himg Hmsk Hc Hcm Hlen Hfinal Hfg.
  cbn [random_crop_pad]. unfold random_crop_pad_sample.
  unfold St.bind at 1. unfold random_random at 1. unfold St.bind at 1.
  cbn [py_next Rng.next St.ret].
  set (w0 := {| py_random := _; np_random := _ |}).
  set (force_fg := binary_normalize _ _ _ _ _).
  assert (Hcrop : exists p w1,
             (if use_foreground fg_rate force_fg
              then foreground_crop img msk final_size fg_margin
              else random_crop img msk final_size) w0 = (Ok p, w1)
             /\ cropped c cm final_size p).
  { destruct (use_foreground fg_rate force_fg) eqn:Euse.
    - unfold use_foreground in Euse. apply andb_true_iff in Euse as [Epos _].
      destruct (Hfg Epos) as [Hcm1 Hmargin].
      apply foreground_crop_cropped with (sp := sp); assumption.
    - apply random_crop_cropped with (sp := sp); assumption. }
  destruct Hcrop as (p & w1 & Hrun & Hp).
  rewrite (bind_ok _ _ _ _ _ Hrun).
  destruct (pad_after_crop final_size c cm p w1 Hp)
    as (img' & msk' & Hpad & Hs1 & Hs2).
  exists img', msk', w1. split; [ | split; assumption].
  destruct p as [ci cmk]. exact Hpad.
Qed.
End CropPad.

Lemma random_crop_pad_shape_witness :
  exists (img' msk' : Np.ndarray) (w' : Semseg.world),
    Semseg.random_crop_pad (Semseg.PArray voxel_img) (Semseg.PArray voxel_msk)
                           [2; 3; 4] Semseg.default_fg_rate
                           Semseg.default_fg_margin zero_world
    = (Ok (img', msk'), w')
    /\ Np.shape img' = 1 :: [2; 3; 4]
    /\ Np.shape msk' = Z.min 1 1 :: [2; 3; 4].
Proof.
  apply (random_crop_pad_shape voxel_img voxel_msk [2; 3; 4]
           Semseg.default_fg_rate Semseg.default_fg_margin 1 1 [1; 1; 1]
           zero_world).
  - reflexivity.
  - reflexivity.
  - lia.
  - lia.
  - reflexivity.
  - repeat constructor; lia.
  - intros _. split; [lia | reflexivity].
Defined.

(** The default margin [np.zeros(3)] has three entries: on a source with two
    spatial axes the foreground crop cannot add it to the anchor, and the
    call raises [ValueError]; with a margin of two entries the same call
    returns a crop of the target shape. *)
Remark default_margin_is_for_three_axes :
  fst (Semseg.random_crop_pad (Semseg.PArray plane_img) (Semseg.PArray plane_msk)
         [2; 2] F64.one Semseg.default_fg_margin zero_world)
  = Raise Py.ValueError
  /\ exists img' msk' w',
      Semseg.random_crop_pad (Semseg.PArray plane_img) (Semseg.PArray plane_msk)
        [2; 2] F64.one [0; 0] zero_world = (Ok (img', msk'), w')
      /\ Np.shape img' = [1; 2; 2].
Proof.
  split; [vm_compute; reflexivity | ].
  eexists _, _, _. split; [vm_compute; reflexivity | reflexivity].
Qed.

(** C1, as the specification states it, fails: the source extents are not
    arbitrary.  A channel-leading 4 x 4 image with its mask, two spatial
    axes and the target [(2, 2)], cropped with every argument at its
    default: the foreground crop is taken, the three-entry default margin
    cannot be added to the two-entry anchor, and the call raises
    [ValueError] instead of returning arrays of the target shape. *)
Lemma two_axis_source_raises_value_error :
  Np.shape plane_img = [1; 4; 4]
  /\ Np.shape plane_msk = [1; 4; 4]
  /\ fst (Semseg.random_crop_pad (Semseg.PArray plane_img) (Semseg.PArray plane_msk)
            [2; 2] Semseg.default_fg_rate Semseg.default_fg_margin zero_world)
     = Raise Py.ValueError.
Proof.
  split; [reflexivity | ]. split; [reflexivity | ]. vm_compute. reflexivity.
Qed.
(** ** The location-forced crop *)

Section LocatedCrop.
Import Np Semseg.

Lemma below_singleton lo hi r : hi = lo + 1 -> Rng.below lo hi r = lo.
Proof.
  intros ->. unfold Rng.below. replace (lo + 1 - lo) with 1 by lia.
  rewrite Z.mod_1_r. lia.
Qed.

(** Evaluate the pure step at the head of a stateful computation. *)
Ltac run_lift :=
  rewrite lift_bind;
  match goal with
  | |- context [match ?r with Ok _ => _ | Raise _ => _ end] =>
      let v := eval vm_compute in r in change r with v
  end;
  cbv beta iota.

Lemma located_crop_start_corner w :
  exists w',
    located_crop_start [10; 10; 10] [9; 9; 9] [4; 4; 4] [0; 0; 0] w
    = (Ok [5; 5; 5], w').
Proof.
  unfold located_crop_start. do 3 run_lift.
  destruct (np_randint_ok [5; 5; 5] [6; 6; 6] [(5, 6); (5, 6); (5, 6)] w)
    as (start & w' & Hrun & Hall & _).
  - reflexivity.
  - repeat constructor.
  - exists w'. rewrite Hrun. do 2 f_equal.
    repeat match goal with
           | H : Forall2 _ _ _ |- _ => inversion H; clear H; subst
           end.
    simpl in *. repeat f_equal; lia.
Qed.

(** What the start of [located_crop] does satisfy on every axis: it is at
    least [location - crop_shape + margin], so the anchor is never beyond
    [start + crop_shape - margin]; that end itself is not excluded. *)
Lemma located_crop_start_closed_end (sp location crop margin : list Z) w :
  length location = length sp -> length crop = length sp ->
  length margin = length sp ->
  exists start w',
    located_crop_start sp location crop margin w = (Ok start, w')
    /\ length start = length sp
    /\ (forall i l t m x,
          location !! i = Some l -> crop !! i = Some t ->
          margin !! i = Some m -> start !! i = Some x ->
          0 <= x /\ l <= x + t - m).
Proof.
  intros Hloc Hcrop Hmargin.
  destruct (located_crop_start_ok sp location crop margin w)
    as (start & w' & Hrun & Hlen & Hpos & _ & Hlow); try assumption.
  exists start, w'. split; [exact Hrun | split; [exact Hlen | ]].
  intros i l t m x Hl Ht Hm Hx. split.
  - rewrite Forall_lookup in Hpos. exact (Hpos i x Hx).
  - specialize (Hlow i l t m x Hl Ht Hm Hx). lia.
Qed.

(** C3.  On the 10 x 10 x 10 volume with the anchor at the corner voxel
    [(9, 9, 9)], a 4 x 4 x 4 target and zero margin, [located_crop] has a
    single possible start, [(5, 5, 5)], whatever the random generators
    hold: the window covers the voxels 5 to 8 of each axis, the anchor is
    outside [[start + margin, start + crop_shape - margin)], and the
    cropped mask holds no foreground voxel. *)
Theorem located_crop_misses_anchor :
  forall w : world,
    exists (crop_img crop_msk : ndarray) (w' : world),
      located_crop anchor_img anchor_msk [9; 9; 9] [4; 4; 4] [0; 0; 0] w
      = (Ok (crop_img, crop_msk), w')
      /\ fst (located_crop_start (spatial anchor_img) [9; 9; 9] [4; 4; 4]
                                 [0; 0; 0] w) = Ok [5; 5; 5]
      /\ item anchor_msk [0; 9; 9; 9] = 1
      /\ ~ (5 + 0 <= 9 < 5 + 4 - 0)
      /\ shape crop_msk = [1; 4; 4; 4]
      /\ (forall i, In i (all_indices (shape crop_msk)) -> item crop_msk i = 0).
Proof.
  intros w. unfold located_crop.
  change (spatial anchor_img) with [10; 10; 10].
  destruct (located_crop_start_corner w) as (w' & Hstart).
  rewrite (bind_ok _ _ _ _ _ Hstart), Hstart.
  do 4 run_lift.
  eexists _, _, _. split; [reflexivity | ].
  split; [reflexivity | ]. split; [reflexivity | ]. split; [lia | ].
  split; [reflexivity | ].
  intros i Hi.
  assert (Hall : forallb (fun i => item anchor_msk
                                     (slice_source
                                        [mk_slice 0 1; mk_slice 5 9;
                                         mk_slice 5 9; mk_slice 5 9]
                                        [1; 10; 10; 10] i) =? 0)
                         (all_indices [1; 4; 4; 4]) = true)
    by (vm_compute; reflexivity).
  rewrite forallb_forall in Hall. apply Z.eqb_eq. apply (Hall i Hi).
Qed.
End LocatedCrop.
(** ** Batched input *)

Section BatchMode.
Import Np Semseg.


End BatchMode.
(** ** Fold splitting *)

Section Folds.
Import Semseg.
Import BatchGenDataLoader.
Import Utils.

Variable listdir : string -> list string.
Variable adaptive_imread : string -> result Np.ndarray.

Lemma get_folds_df_cons r rest :
  get_folds_df (r :: rest)
  = map (fold_filenames (r :: rest)) (seqZ 0 (fold_max r rest + 1)).
Proof. reflexivity. Qed.

Lemma getitem_map_seqZ {A} (F : Z -> A) (n k : Z) :
  0 <= k < n -> PyOps.getitem (map F (seqZ 0 n)) k = Ok (F k).
Proof.
  intros Hk. unfold PyOps.getitem.
  rewrite length_map, length_seqZ, Z2Nat.id by lia.
  rewrite norm_index_in_range by exact Hk. cbn [PyOps.bind].
  rewrite list_lookup_fmap, lookup_seqZ_lt by lia. simpl.
  rewrite Z2Nat.id by lia. reflexivity.
Qed.

Lemma take_seqZ (n k : Z) :
  0 <= k <= n -> take (Z.to_nat k) (seqZ 0 n) = seqZ 0 k.
Proof.
  intros Hk. replace n with (k + (n - k)) by lia.
  rewrite seqZ_app by lia.
  rewrite take_app_length' by (rewrite length_seqZ; reflexivity). reflexivity.
Qed.

Lemma drop_seqZ (n k : Z) :
  0 <= k <= n -> drop (Z.to_nat k) (seqZ 0 n) = seqZ k (n - k).
Proof.
  intros Hk. replace n with (k + (n - k)) at 1 by lia.
  rewrite seqZ_app by lia.
  rewrite drop_app_length' by (rewrite length_seqZ; reflexivity). reflexivity.
Qed.

Lemma delitem_map_seqZ {A} (F : Z -> A) (n k : Z) :
  0 <= k < n ->
  PyOps.delitem (map F (seqZ 0 n)) k = Ok (map F (other_folds (n - 1) k)).
Proof.
  intros Hk. unfold PyOps.delitem.
  rewrite length_map, length_seqZ, Z2Nat.id by lia.
  rewrite norm_index_in_range by exact Hk. cbn [PyOps.bind].
  unfold other_folds. rewrite map_app. do 2 f_equal.
  - change (take (Z.to_nat k) (F <$> seqZ 0 n) = F <$> seqZ 0 k).
    rewrite <- fmap_take, take_seqZ by lia. reflexivity.
  - change (drop (S (Z.to_nat k)) (F <$> seqZ 0 n)
            = F <$> seqZ (k + 1) (n - 1 - k)).
    rewrite <- fmap_drop. replace (S (Z.to_nat k)) with (Z.to_nat (k + 1)) by lia.
    rewrite drop_seqZ by lia. do 2 f_equal. lia.
Qed.

Lemma split_names_folds img_dir df fold val_split r rest :
  non_holdout df = r :: rest ->
  0 <= fold <= fold_max r rest ->
  split_names listdir img_dir (Some df) fold val_split
  = Ok (Some fold,
        concat (map (fold_filenames (r :: rest))
                    (other_folds (fold_max r rest) fold)),
        fold_filenames (r :: rest) fold).
Proof.
  intros Hdf Hfold. unfold split_names, get_folds_train_test_df.
  fold (non_holdout df). rewrite Hdf, get_folds_df_cons.
  rewrite getitem_map_seqZ by lia. cbn [PyOps.bind].
  rewrite delitem_map_seqZ by lia. cbn [PyOps.bind].
  replace (fold_max r rest + 1 - 1) with (fold_max r rest) by lia.
  reflexivity.
Qed.

Lemma generate_data_paths img_dir msk_dir fnames :
  exists data,
    generate_data adaptive_imread img_dir msk_dir false fnames = Ok data
    /\ length data = length fnames.
Proof.
  induction fnames as [ | f fnames (data & IH & Hlen)].
  - exists []. split; reflexivity.
  - eexists (_ :: data). unfold generate_data in *. cbn [PyOps.traverse].
    cbn [PyOps.bind]. rewrite IH. cbn [PyOps.bind].
    split; [reflexivity | ]. simpl. rewrite Hlen. reflexivity.
Qed.

Lemma init_with_folds img_dir msk_dir batch_size nbof_steps df fold val_split
      train num_threads r rest :
  non_holdout df = r :: rest ->
  0 <= fold <= fold_max r rest ->
  exists self,
    init listdir adaptive_imread img_dir msk_dir batch_size nbof_steps
         (Some df) fold val_split train false num_threads = Ok self
    /\ val_imgs self = fold_filenames (r :: rest) fold
    /\ train_imgs self
       = concat (map (fold_filenames (r :: rest))
                     (other_folds (fold_max r rest) fold))
    /\ fnames self = (if train then train_imgs self else val_imgs self).
Proof.
  intros Hdf Hfold. unfold init.
  rewrite (split_names_folds _ _ _ _ _ _ Hdf Hfold). cbn [PyOps.bind].
  set (names := if train then _ else _).
  destruct (generate_data_paths img_dir msk_dir names) as (data & -> & _).
  cbn [PyOps.bind]. eexists. split; [reflexivity | ].
  split; [ | split]; reflexivity.
Qed.

Lemma filter_all {A} (P : A -> Prop) `{forall x, Decision (P x)} (l : list A) :
  (forall x, In x l -> P x) -> filter P l = l.
Proof.
  induction l as [ | a l IH]; intros Hall; [reflexivity | ].
  rewrite filter_cons_True by (apply Hall; left; reflexivity).
  f_equal. apply IH. intros x Hx. apply Hall. right. exact Hx.
Qed.

Lemma fold_max_upper (m : Z) r rest :
  (forall x, In x (r :: rest) -> fold x <= m) -> fold_max r rest <= m.
Proof.
  unfold fold_max. induction rest as [ | a rest IH]; intros Hall; simpl.
  - apply Hall. left. reflexivity.
  - apply Z.max_lub.
    + apply Hall. right. left. reflexivity.
    + apply IH. intros x [<- | Hx]; apply Hall; [left | right; right]; auto.
Qed.

Lemma fold_max_lower r rest x :
  In x (r :: rest) -> fold x <= fold_max r rest.
Proof.
  unfold fold_max. induction rest as [ | a rest IH]; intros Hx; simpl.
  - destruct Hx as [<- | []]. lia.
  - destruct Hx as [<- | [<- | Hx]].
    + specialize (IH (or_introl eq_refl)). lia.
    + lia.
    + specialize (IH (or_intror Hx)). lia.
Qed.

Lemma in_fold_filenames df k x :
  In x (fold_filenames df k) <-> exists row, In row df /\ fold row = k /\ filename row = x.
Proof.
  unfold fold_filenames. rewrite in_map_iff. split.
  - intros (row & <- & Hrow). apply list_elem_of_In, list_elem_of_filter in Hrow.
    destruct Hrow as [Hk Hin]. exists row.
    split; [apply list_elem_of_In, Hin | split; [exact Hk | reflexivity]].
  - intros (row & Hin & Hk & <-). exists row. split; [reflexivity | ].
    apply list_elem_of_In, list_elem_of_filter.
    split; [exact Hk | apply list_elem_of_In, Hin].
Qed.

Lemma filename_injective (df : list row) :
  List.NoDup (map filename df) ->
  forall a b, In a df -> In b df -> filename a = filename b -> a = b.
Proof.
  induction df as [ | r df IH]; intros Hnd a b Ha Hb Hab; [destruct Ha | ].
  simpl in Hnd. inversion Hnd as [ | ? ? Hnotin Hnd']; subst.
  destruct Ha as [<- | Ha], Hb as [<- | Hb].
  - reflexivity.
  - exfalso. apply Hnotin. rewrite Hab. apply in_map. exact Hb.
  - exfalso. apply Hnotin. rewrite <- Hab. apply in_map. exact Ha.
  - apply IH; assumption.
Qed.

Lemma hundred_split (df : list row) :
  length df = 100%nat ->
  (forall x, In x df -> hold_out x = 0 /\ 0 <= fold x < 5) ->
  (forall k, 0 <= k < 5 -> length (fold_filenames df k) = 20%nat) ->
  exists r rest,
    non_holdout df = r :: rest /\ df = r :: rest /\ fold_max r rest = 4.
Proof.
  intros Hlen Hrows Hcount.
  destruct df as [ | r rest]; [discriminate | ].
  exists r, rest.
  assert (Hnh : non_holdout (r :: rest) = r :: rest).
  { apply filter_all. intros x Hx. apply Hrows, Hx. }
  split; [exact Hnh | split; [reflexivity | ]].
  apply Z.le_antisymm.
  - apply fold_max_upper. intros x Hx. destruct (Hrows x Hx). lia.
  - assert (Hne : fold_filenames (r :: rest) 4 <> []).
    { intros Hnil. specialize (Hcount 4 ltac:(lia)).
      rewrite Hnil in Hcount. discriminate. }
    destruct (fold_filenames (r :: rest) 4) as [ | x l] eqn:E; [contradiction | ].
    assert (Hx : In x (fold_filenames (r :: rest) 4)) by (rewrite E; left; reflexivity).
    apply in_fold_filenames in Hx as (row & Hin & Hk & _).
    rewrite <- Hk. apply fold_max_lower, Hin.
Qed.

(** C6.  For a folds table with at least one row that is not held out and
    a held-out fold between 0 and the largest fold index of those rows,
    the constructor (with lazy loading) succeeds; the validation names are
    the file names of the held-out fold and the training names are the
    concatenation of the other folds of the non-held-out rows, in
    increasing fold index.  In particular, for 100 rows with distinct file
    names, none held out, 20 in each of the folds 0 to 4, holding out fold
    2 gives 20 validation names and 80 training names, no name in both
    lists, and the names of the two lists together are those of the
    table. *)
Theorem train_validation_split :
  (forall (img_dir msk_dir : string) (batch_size nbof_steps : Z)
          (df : list row) (held_out : Z) (val_split : spec_float)
          (train : bool) (num_threads : Z) (r : row) (rest : list row),
      non_holdout df = r :: rest ->
      0 <= held_out <= fold_max r rest ->
      exists self,
        init listdir adaptive_imread img_dir msk_dir batch_size nbof_steps
             (Some df) held_out val_split train false num_threads = Ok self
        /\ val_imgs self = fold_filenames (non_holdout df) held_out
        /\ train_imgs self
           = concat (map (fold_filenames (non_holdout df))
                         (other_folds (fold_max r rest) held_out))
        /\ fnames self = (if train then train_imgs self else val_imgs self))
  /\ (forall (img_dir msk_dir : string) (batch_size nbof_steps : Z)
             (df : list row) (val_split : spec_float)
             (train : bool) (num_threads : Z),
         length df = 100%nat ->
         (forall x, In x df -> hold_out x = 0 /\ 0 <= fold x < 5) ->
         (forall k, 0 <= k < 5 -> length (fold_filenames df k) = 20%nat) ->
         List.NoDup (map filename df) ->
         exists self,
           init listdir adaptive_imread img_dir msk_dir batch_size nbof_steps
                (Some df) 2 val_split train false num_threads = Ok self
           /\ length (val_imgs self) = 20%nat
           /\ length (train_imgs self) = 80%nat
           /\ (forall x, In x (val_imgs self) -> ~ In x (train_imgs self))
           /\ (forall x, In x (val_imgs self) \/ In x (train_imgs self)
                         <-> In x (map filename df))).
Proof.
  split.
  - intros img_dir msk_dir batch_size nbof_steps df held_out val_split train
           num_threads r rest Hdf Hfold.
    rewrite Hdf. apply init_with_folds; assumption.
  - intros img_dir msk_dir batch_size nbof_steps df val_split train num_threads
           Hlen Hrows Hcount Hnd.
    destruct (hundred_split df Hlen Hrows Hcount) as (r & rest & Hnh & Hdf & Hmax).
    destruct (init_with_folds img_dir msk_dir batch_size nbof_steps df 2
                val_split train num_threads r rest Hnh ltac:(lia))
      as (self & Hinit & Hval & Htrain & _).
    rewrite Hmax in Htrain.
    change (other_folds 4 2) with [0; 1; 3; 4] in Htrain.
    cbn [map concat] in Htrain. rewrite app_nil_r in Htrain.
    rewrite <- Hdf in Hval, Htrain.
    exists self. split; [exact Hinit | ].
    rewrite Hval, Htrain. split; [ | split; [ | split]].
    + apply Hcount. lia.
    + rewrite !length_app, !Hcount by lia. reflexivity.
    + intros x Hx Hx'.
      apply in_fold_filenames in Hx as (a & Ha & Hka & Hfa).
      assert (Hb : exists b, In b df /\ fold b <> 2 /\ filename b = x).
      { rewrite !in_app_iff in Hx'.
        destruct Hx' as [Hx' | [Hx' | [Hx' | Hx']]];
          apply in_fold_filenames in Hx' as (b & Hb & Hkb & Hfb);
          exists b; (split; [exact Hb | split; [lia | exact Hfb]]). }
      destruct Hb as (b & Hb & Hkb & Hfb).
      apply Hkb. rewrite <- Hka. f_equal. symmetry.
      apply (filename_injective df Hnd a b Ha Hb). congruence.
    + intros x. rewrite !in_app_iff, !in_fold_filenames, in_map_iff. split.
      * intros [H | [H | [H | [H | H]]]]; destruct H as (a & Ha & _ & Hfa);
          exists a; split; assumption.
      * intros (a & Hfa & Ha). destruct (Hrows a Ha) as [_ Hk].
        assert (Hcases : fold a = 2 \/ fold a = 0 \/ fold a = 1
                         \/ fold a = 3 \/ fold a = 4) by lia.
        destruct Hcases as [H | [H | [H | [H | H]]]];
          [left | right; left | right; right; left
           | right; right; right; left | right; right; right; right];
          exists a; (split; [exact Ha | split; [exact H | exact Hfa]]).
Qed.
End Folds.

Lemma train_validation_split_witness :
  exists self,
    Semseg.BatchGenDataLoader.init no_listdir no_imread "img" "msk" 2 10
      (Some hundred_rows) 2 quarter true false 1 = Ok self
    /\ length (Semseg.BatchGenDataLoader.val_imgs self) = 20%nat
    /\ length (Semseg.BatchGenDataLoader.train_imgs self) = 80%nat
    /\ (forall x, In x (Semseg.BatchGenDataLoader.val_imgs self)
                  -> ~ In x (Semseg.BatchGenDataLoader.train_imgs self))
    /\ (forall x, In x (Semseg.BatchGenDataLoader.val_imgs self)
                  \/ In x (Semseg.BatchGenDataLoader.train_imgs self)
                  <-> In x (map Utils.filename hundred_rows)).
Proof.
  apply (proj2 (train_validation_split no_listdir no_imread)).
  - reflexivity.
  - intros x Hx. apply list_elem_of_In in Hx. revert x Hx.
    apply Forall_forall. apply (bool_decide_unpack _). vm_compute. exact I.
  - intros k Hk.
    assert (Hcases : k = 0 \/ k = 1 \/ k = 2 \/ k = 3 \/ k = 4) by lia.
    destruct Hcases as [-> | [-> | [-> | [-> | ->]]]]; vm_compute; reflexivity.
  - apply NoDup_ListNoDup. apply (bool_decide_unpack _). vm_compute. exact I.
Defined.
(** ** Failures of the fold split *)

Section FoldFailures.
Import Semseg.
Import BatchGenDataLoader.
Import Utils.

Variable listdir : string -> list string.
Variable adaptive_imread : string -> result Np.ndarray.

Lemma norm_index_out_of_range i n :
  0 <= n -> n <= i \/ i < - n -> PyOps.norm_index i n = Raise Py.IndexError.
Proof.
  intros Hn Hi. unfold PyOps.norm_index.
  destruct (i <? 0) eqn:E.
  - apply Z.ltb_lt in E.
    destruct (0 <=? i + n) eqn:E1; [apply Z.leb_le in E1; lia | reflexivity].
  - apply Z.ltb_ge in E.
    destruct (0 <=? i) eqn:E1; [ | reflexivity].
    destruct (i <? n) eqn:E2; [apply Z.ltb_lt in E2; lia | reflexivity].
Qed.

(** C7, as the code has it.  The constructor raises [IndexError] when the
    folds table is empty, and more generally when the held-out fold is at
    least the number of training folds or below its opposite (an empty
    table, or one whose rows are all held out, has no training fold, so
    every index is out of range).  The error comes from the fold split,
    before any sample is read. *)
Theorem fold_split_raises_index_error :
  forall (img_dir msk_dir : string) (batch_size nbof_steps : Z)
         (df : list row) (held_out : Z) (val_split : spec_float)
         (train load_data : bool) (num_threads : Z),
    df = [] \/ nbof_train_folds df <= held_out
            \/ held_out < - nbof_train_folds df ->
    init listdir adaptive_imread img_dir msk_dir batch_size nbof_steps
         (Some df) held_out val_split train load_data num_threads
    = Raise Py.IndexError.
Proof.
  intros img_dir msk_dir batch_size nbof_steps df held_out val_split
         train load_data num_threads Hcase.
  assert (Hrange : nbof_train_folds df <= held_out
                   \/ held_out < - nbof_train_folds df).
  { destruct Hcase as [-> | H]; [ | exact H].
    change (nbof_train_folds []) with 0. lia. }
  unfold init, split_names, get_folds_train_test_df.
  fold (non_holdout df). unfold PyOps.getitem.
  fold (nbof_train_folds df).
  rewrite norm_index_out_of_range; [reflexivity | | exact Hrange].
  unfold nbof_train_folds. lia.
Qed.
End FoldFailures.

Lemma fold_split_raises_index_error_witness :
  Semseg.BatchGenDataLoader.init no_listdir no_imread "img" "msk" 2 10
    (Some hundred_rows) 5 quarter true false 1 = Raise Py.IndexError.
Proof.
  apply (fold_split_raises_index_error no_listdir no_imread).
  right. left. vm_compute. discriminate.
Defined.

(** C7, as the specification states it, fails: on the empty table the
    constructor raises an exception that is not a [ConfigurationError]. *)
Lemma empty_table_error_is_not_configuration_error :
  Semseg.BatchGenDataLoader.init no_listdir no_imread "img" "msk" 2 10
    (Some []) 0 quarter true false 1 = Raise Py.IndexError
  /\ Py.exn_name Py.IndexError <> "ConfigurationError"%string.
Proof. split; [reflexivity | discriminate]. Qed.
(** ** The index stream of the loader *)

Section IndexStream.
Import Semseg.
Import BatchGenDataLoader.

Lemma np_random_choice_ok (a : list Z) (size : Z) (g : rng) :
  a <> [] -> 0 <= size ->
  exists idx g',
    np_random_choice a size g = (Ok idx, g')
    /\ Z.of_nat (length idx) = size
    /\ Forall (fun i => In i a) idx.
Proof.
  intros Ha Hsize. unfold np_random_choice.
  destruct (size <? 0) eqn:E; [apply Z.ltb_lt in E; lia | clear E].
  destruct a as [ | x a]; [contradiction | ].
  remember (Z.to_nat size) as n eqn:Hn.
  assert (size = Z.of_nat n) as -> by lia. clear Hn Hsize.
  set (pick := fun (_ : unit) (g : rng) => _).
  revert g. induction n as [ | n IH]; intros g.
  - exists [], g. repeat split. constructor.
  - cbn [replicate St.traverse]. unfold St.bind at 1.
    unfold pick at 1. cbn [Rng.next].
    destruct (IH (fun k => g (S k))) as (idx & g' & Hrun & Hlen & Hall).
    unfold St.bind at 1. rewrite Hrun. cbn [St.ret].
    eexists (_ :: idx), g'. split; [reflexivity | split].
    + simpl length. lia.
    + constructor; [ | exact Hall].
      apply nth_In.
      pose proof (Z.mod_pos_bound (g 0%nat) (Z.of_nat (length (x :: a)))) as Hb.
      simpl length in *. lia.
Qed.

Lemma set_position_configured bs steps len p b self :
  configured bs steps len self -> configured bs steps len (set_position p b self).
Proof. intros H. exact H. Qed.

Lemma get_indices_batch bs steps len p self g :
  configured bs steps len self -> (0 < len)%nat -> 0 <= bs ->
  at_step p self -> p < steps ->
  exists idx self' g',
    get_indices (self, g) = (Ok idx, (self', g'))
    /\ Z.of_nat (length idx) = bs
    /\ Forall (fun i => 0 <= i < Z.of_nat len) idx
    /\ configured bs steps len self'
    /\ at_step (p + 1) self'.
Proof.
  intros (Hbs & Hsteps & Hthreads & Hidx) Hlen Hpos Hat Hp.
  set (ready := if was_initialized self then self else reset self).
  assert (Hready : configured bs steps len ready
                   /\ was_initialized ready = true
                   /\ current_position ready = p).
  { unfold ready. destruct Hat as [[Hinit Hcur] | [Hinit ->]]; rewrite Hinit.
    - repeat split; assumption.
    - repeat split; assumption. }
  destruct Hready as ((Hbs' & Hsteps' & Hthreads' & Hidx') & Hinit' & Hcur').
  destruct (np_random_choice_ok (indices ready) (batch_size ready) g)
    as (idx & g' & Hrun & Hl & Hall).
  { rewrite Hidx'. intros Hnil. apply (f_equal length) in Hnil.
    rewrite length_seqZ in Hnil. simpl in Hnil. lia. }
  { lia. }
  exists idx, (set_position (current_position ready
                            + number_of_threads_in_multithreaded ready)
                           (was_initialized ready) ready), g'.
  split; [ | split; [ | split; [ | split]]].
  - unfold get_indices. fold ready. rewrite Hrun.
    destruct (current_position ready <? nbof_steps ready) eqn:E;
      [reflexivity | apply Z.ltb_ge in E; lia].
  - lia.
  - eapply Forall_impl; [exact Hall | ].
    intros i Hi. rewrite Hidx' in Hi.
    apply list_elem_of_In, elem_of_seqZ in Hi. lia.
  - repeat split; assumption.
  - left. split; [exact Hinit' | ]. cbn [current_position set_position]. lia.
Qed.

Lemma get_indices_stop bs steps len p self g :
  configured bs steps len self -> (0 < len)%nat -> 0 <= bs ->
  at_step p self -> steps <= p ->
  exists self' g',
    get_indices (self, g) = (Raise Py.StopIteration, (self', g'))
    /\ configured bs steps len self'
    /\ was_initialized self' = false
    /\ current_position self' = p.
Proof.
  intros (Hbs & Hsteps & Hthreads & Hidx) Hlen Hpos Hat Hp.
  set (ready := if was_initialized self then self else reset self).
  assert (Hready : configured bs steps len ready
                   /\ current_position ready = p).
  { unfold ready. destruct Hat as [[Hinit Hcur] | [Hinit ->]]; rewrite Hinit.
    - repeat split; assumption.
    - repeat split; assumption. }
  destruct Hready as ((Hbs' & Hsteps' & Hthreads' & Hidx') & Hcur').
  destruct (np_random_choice_ok (indices ready) (batch_size ready) g)
    as (idx & g' & Hrun & Hl & Hall).
  { rewrite Hidx'. intros Hnil. apply (f_equal length) in Hnil.
    rewrite length_seqZ in Hnil. simpl in Hnil. lia. }
  { lia. }
  exists (set_position (current_position ready) false ready), g'.
  split; [ | split; [ | split]].
  - unfold get_indices. fold ready. rewrite Hrun.
    destruct (current_position ready <? nbof_steps ready) eqn:E;
      [apply Z.ltb_lt in E; lia | reflexivity].
  - repeat split; assumption.
  - reflexivity.
  - exact Hcur'.
Qed.

Lemma calls_batches bs steps len (n : nat) : forall p self g,
  configured bs steps len self -> (0 < len)%nat -> 0 <= bs ->
  at_step p self -> p + Z.of_nat n <= steps ->
  exists outs self' g',
    calls n (self, g) = (outs, (self', g'))
    /\ length outs = n
    /\ (forall k, (k < n)%nat ->
                  exists idx,
                    outs !! k = Some (Ok idx)
                    /\ Z.of_nat (length idx) = bs
                    /\ Forall (fun i => 0 <= i < Z.of_nat len) idx)
    /\ configured bs steps len self'
    /\ at_step (p + Z.of_nat n) self'.
Proof.
  induction n as [ | n IH]; intros p self g Hconf Hlen Hbs Hat Hp.
  - exists [], self, g. split; [reflexivity | split; [reflexivity | ]].
    split; [intros k Hk; lia | ]. split; [exact Hconf | ].
    replace (p + Z.of_nat 0) with p by lia. exact Hat.
  - destruct (get_indices_batch bs steps len p self g Hconf Hlen Hbs Hat)
      as (idx & self1 & g1 & Hrun & Hl & Hall & Hconf1 & Hat1); [lia | ].
    destruct (IH (p + 1) self1 g1 Hconf1 Hlen Hbs Hat1)
      as (outs & self2 & g2 & Hcalls & Hlouts & Houts & Hconf2 & Hat2); [lia | ].
    exists (Ok idx :: outs), self2, g2.
    split; [ | split; [ | split; [ | split]]].
    + cbn [calls]. rewrite Hrun, Hcalls. reflexivity.
    + simpl. rewrite Hlouts. reflexivity.
    + intros [ | k] Hk.
      * exists idx. split; [reflexivity | split; assumption].
      * apply Houts. lia.
    + exact Hconf2.
    + replace (p + Z.of_nat (S n)) with (p + 1 + Z.of_nat n) by lia. exact Hat2.
Qed.

Lemma calls_app (n m : nat) : forall s,
  calls (n + m) s
  = let '(o1, s1) := calls n s in
    let '(o2, s2) := calls m s1 in
    (o1 ++ o2, s2).
Proof.
  induction n as [ | n IH]; intros s.
  - simpl. destruct (calls m s). reflexivity.
  - cbn [Nat.add calls]. destruct (get_indices s) as [r s'].
    rewrite IH. destruct (calls n s') as [o1 s1].
    destruct (calls m s1) as [o2 s2]. reflexivity.
Qed.

Lemma eleven_calls bs len self g :
  configured bs 10 len self -> (0 < len)%nat -> 0 <= bs -> at_step 0 self ->
  exists outs self' g',
    calls 11 (self, g) = (outs, (self', g'))
    /\ ten_batches_then_stop bs len outs
    /\ configured bs 10 len self'
    /\ was_initialized self' = false.
Proof.
  intros Hconf Hlen Hbs Hat.
  destruct (calls_batches bs 10 len 10 0 self g Hconf Hlen Hbs Hat)
    as (outs & self1 & g1 & Hcalls & Hlouts & Houts & Hconf1 & Hat1); [lia | ].
  destruct (get_indices_stop bs 10 len 10 self1 g1 Hconf1 Hlen Hbs Hat1)
    as (self2 & g2 & Hstop & Hconf2 & Hinit2 & _); [lia | ].
  exists (outs ++ [Raise Py.StopIteration]), self2, g2.
  split; [ | split; [ | split]].
  - change 11%nat with (10 + 1)%nat. rewrite calls_app, Hcalls.
    cbn [calls]. rewrite Hstop. reflexivity.
  - split; [ | split].
    + rewrite length_app, Hlouts. reflexivity.
    + intros k Hk. destruct (Houts k Hk) as (idx & Hk' & Hrest).
      exists idx. split; [ | exact Hrest].
      rewrite lookup_app_l by lia. exact Hk'.
    + rewrite lookup_app_r by lia. rewrite Hlouts. reflexivity.
  - exact Hconf2.
  - exact Hinit2.
Qed.

Lemma init_configured listdir adaptive_imread img_dir msk_dir bs steps
      folds_csv fold val_split train load_data self :
  init listdir adaptive_imread img_dir msk_dir bs steps folds_csv fold
       val_split train load_data 1 = Ok self ->
  configured bs steps (length (_data self)) self /\ at_step 0 self.
Proof.
  unfold init.
  destruct (split_names _ _ _ _ _) as [[[f tr] va] | e]; [ | discriminate].
  cbn [PyOps.bind].
  destruct (generate_data _ _ _ _ _) as [data | e]; [ | discriminate].
  cbn [PyOps.bind]. intros H. injection H as <-.
  split; [repeat split | right; split; reflexivity].
Qed.

(** C8.  A loader constructed with [nbof_steps = 10] and one thread over a
    non-empty data set, with a batch size that is not negative: the first
    ten calls of [get_indices] each return [batch_size] indices into the
    data set and the eleventh raises [StopIteration]; after [reset] the
    position is 0 and eleven further calls go the same way. *)
Theorem ten_steps_then_stop :
  forall (listdir : string -> list string)
         (adaptive_imread : string -> result Np.ndarray)
         (img_dir msk_dir : string) (bs : Z)
         (folds_csv : option (list Utils.row)) (held_out : Z)
         (val_split : spec_float) (train load_data : bool)
         (self : t) (g : rng),
    init listdir adaptive_imread img_dir msk_dir bs 10 folds_csv held_out
         val_split train load_data 1 = Ok self ->
    _data self <> [] ->
    0 <= bs ->
    exists outs self1 g1,
      calls 11 (self, g) = (outs, (self1, g1))
      /\ ten_batches_then_stop bs (length (_data self)) outs
      /\ current_position (reset self1) = 0
      /\ exists outs' s2,
          calls 11 (reset self1, g1) = (outs', s2)
          /\ ten_batches_then_stop bs (length (_data self)) outs'.
Proof.
  intros listdir adaptive_imread img_dir msk_dir bs folds_csv held_out
         val_split train load_data self g Hinit Hdata Hbs.
  destruct (init_configured _ _ _ _ _ _ _ _ _ _ _ _ Hinit) as [Hconf Hat].
  assert (Hlen : (0 < length (_data self))%nat).
  { destruct (_data self); [contradiction | simpl; lia]. }
  destruct (eleven_calls bs _ self g Hconf Hlen Hbs Hat)
    as (outs & self1 & g1 & Hcalls & Houts & Hconf1 & _).
  exists outs, self1, g1.
  split; [exact Hcalls | split; [exact Houts | split; [reflexivity | ]]].
  destruct (eleven_calls bs (length (_data self)) (reset self1) g1)
    as (outs' & self2 & g2 & H2 & Ho2 & _); try assumption.
  - left. split; reflexivity.
  - exists outs', (self2, g2). split; assumption.
Qed.

(** C9, as the code has it.  When [get_indices] raises [StopIteration] on
    a loader over a non-empty data set with a positive number of steps, it
    leaves the loader marked as not initialised; the next call, with no
    [reset] in between, then behaves exactly as it does after [reset]: it
    returns a batch of indices and leaves the position at the stride. *)
Theorem get_indices_restarts_after_stop :
  forall (self self' : t) (g g' : rng),
    indices self <> [] ->
    0 <= batch_size self ->
    0 < nbof_steps self ->
    get_indices (self, g) = (Raise Py.StopIteration, (self', g')) ->
    was_initialized self' = false
    /\ get_indices (self', g') = get_indices (reset self', g')
    /\ exists idx self'' g'',
        get_indices (self', g') = (Ok idx, (self'', g''))
        /\ Z.of_nat (length idx) = batch_size self
        /\ was_initialized self'' = true
        /\ current_position self'' = number_of_threads_in_multithreaded self.
Proof.
  intros self self' g g' Hidx Hbs Hsteps Hstop.
  unfold get_indices in Hstop.
  set (ready := if was_initialized self then self else reset self) in Hstop.
  assert (Hready : indices ready = indices self
                   /\ batch_size ready = batch_size self
                   /\ nbof_steps ready = nbof_steps self
                   /\ number_of_threads_in_multithreaded ready
                      = number_of_threads_in_multithreaded self).
  { unfold ready. destruct (was_initialized self); repeat split. }
  destruct Hready as (Hi & Hb & Hs & Ht).
  destruct (np_random_choice_ok (indices ready) (batch_size ready) g)
    as (idx0 & g0 & Hrun & _); [rewrite Hi; exact Hidx | lia | ].
  rewrite Hrun in Hstop.
  destruct (current_position ready <? nbof_steps ready); [discriminate | ].
  injection Hstop as <- <-.
  set (self' := set_position (current_position ready) false ready).
  split; [reflexivity | split; [reflexivity | ]].
  destruct (np_random_choice_ok (indices (reset self')) (batch_size (reset self')) g0)
    as (idx & g'' & Hrun' & Hl & _).
  { cbn [indices reset set_position self']. rewrite Hi. exact Hidx. }
  { cbn [batch_size reset set_position self']. lia. }
  eexists idx, _, g''. split; [ | split; [ | split]].
  - unfold get_indices. cbn [was_initialized self' set_position].
    rewrite Hrun'.
    cbn [current_position reset set_position nbof_steps self'].
    destruct (0 <? nbof_steps ready) eqn:E; [reflexivity | ].
    apply Z.ltb_ge in E. lia.
  - rewrite Hl. cbn [batch_size reset set_position self']. exact Hb.
  - reflexivity.
  - cbn [current_position set_position reset number_of_threads_in_multithreaded self'].
    lia.
Qed.
End IndexStream.

Lemma ten_steps_then_stop_witness :
  exists self,
    Semseg.BatchGenDataLoader.init four_files no_imread "img" "msk" 4 10
      None 0 quarter true false 1 = Ok self
    /\ exists outs self1 g1,
        calls 11 (self, constant_rng 0) = (outs, (self1, g1))
        /\ ten_batches_then_stop 4 (length (Semseg.BatchGenDataLoader._data self)) outs
        /\ Semseg.BatchGenDataLoader.current_position
             (Semseg.BatchGenDataLoader.reset self1) = 0
        /\ exists outs' s2,
            calls 11 (Semseg.BatchGenDataLoader.reset self1, g1) = (outs', s2)
            /\ ten_batches_then_stop 4
                 (length (Semseg.BatchGenDataLoader._data self)) outs'.
Proof.
  eexists. split; [vm_compute; reflexivity | ].
  eapply (ten_steps_then_stop four_files no_imread "img" "msk" 4 None 0 quarter
            true false).
  - vm_compute. reflexivity.
  - discriminate.
  - lia.
Defined.

(** C9, as the specification states it, fails: on a loader over three
    files with ten steps, the eleventh call raises [StopIteration] and the
    twelfth, with no [reset] in between, returns a batch again. *)
Lemma call_after_stop_returns_batch :
  exists self outs s,
    Semseg.BatchGenDataLoader.init four_files no_imread "img" "msk" 4 10
      None 0 quarter true false 1 = Ok self
    /\ calls 12 (self, constant_rng 0) = (outs, s)
    /\ outs !! 10%nat = Some (Raise Py.StopIteration)
    /\ outs !! 11%nat = Some (Ok [0; 0; 0; 0]).
Proof.
  eexists _, _, _. split; [vm_compute; reflexivity | ].
  split; [vm_compute; reflexivity | ]. split; reflexivity.
Qed.

Lemma get_indices_restarts_after_stop_witness :
  exists self0,
    Semseg.BatchGenDataLoader.init four_files no_imread "img" "msk" 4 10
      None 0 quarter true false 1 = Ok self0
    /\ let self := Semseg.BatchGenDataLoader.set_position 10 true self0 in
       exists self' g',
         Semseg.BatchGenDataLoader.get_indices (self, constant_rng 0)
         = (Raise Py.StopIteration, (self', g'))
         /\ Semseg.BatchGenDataLoader.was_initialized self' = false
         /\ Semseg.BatchGenDataLoader.get_indices (self', g')
            = Semseg.BatchGenDataLoader.get_indices
                (Semseg.BatchGenDataLoader.reset self', g')
         /\ exists idx self'' g'',
             Semseg.BatchGenDataLoader.get_indices (self', g')
             = (Ok idx, (self'', g''))
             /\ Z.of_nat (length idx) = Semseg.BatchGenDataLoader.batch_size self
             /\ Semseg.BatchGenDataLoader.was_initialized self'' = true
             /\ Semseg.BatchGenDataLoader.current_position self''
                = Semseg.BatchGenDataLoader.number_of_threads_in_multithreaded self.
Proof.
  eexists. split; [vm_compute; reflexivity | ].
  cbv zeta. eexists _, _. split; [vm_compute; reflexivity | ].
  apply (get_indices_restarts_after_stop _ _ (constant_rng 0) _).
  - discriminate.
  - vm_compute. discriminate.
  - reflexivity.
  - vm_compute. reflexivity.
Defined.
(** ** Integers as floats *)

Section FloatExact.
Lemma digits2_size p : digits2_pos p = Pos.size p.
Proof. induction p; simpl; congruence. Qed.

Lemma digits2_iter_xO (k p : positive) :
  digits2_pos (Pos.iter xO p k) = (digits2_pos p + k)%positive.
Proof.
  induction k using Pos.peano_ind.
  - simpl. lia.
  - rewrite Pos.iter_succ. simpl. rewrite IHk. lia.
Qed.

Lemma iter_xO_value (k p : positive) :
  Z.pos (Pos.iter xO p k) = Z.pos p * 2 ^ Z.pos k.
Proof.
  induction k using Pos.peano_ind.
  - simpl. lia.
  - rewrite Pos.iter_succ, Pos2Z.inj_xO, IHk, Pos2Z.inj_succ, Z.pow_succ_r by lia.
    lia.
Qed.

Lemma digits2_bound p : Z.pos p < 2 ^ 53 -> Z.pos (digits2_pos p) <= 53.
Proof.
  intros H. rewrite digits2_size.
  pose proof (Pos.size_le p) as Hle.
  assert (Hz : 2 ^ Z.pos (Pos.size p) <= 2 * Z.pos p).
  { apply Pos2Z.pos_le_pos in Hle. rewrite Pos2Z.inj_pow in Hle.
    rewrite Pos2Z.inj_xO in Hle. exact Hle. }
  destruct (Z.le_gt_cases (Z.pos (Pos.size p)) 53) as [Hok | Hgt]; [exact Hok | ].
  exfalso.
  assert (2 ^ 54 <= 2 ^ Z.pos (Pos.size p)) by (apply Z.pow_le_mono_r; lia).
  change (2 ^ 54) with (2 * 2 ^ 53) in *. lia.
Qed.

Lemma of_Z_pos_exact (p : positive) :
  Z.pos p < 2 ^ 53 ->
  exists m e, F64.of_Z (Z.pos p) = S754_finite false m e
              /\ -52 <= e <= 0 /\ Z.pos m = Z.pos p * 2 ^ (- e).
Proof.
  intros Hp. pose proof (digits2_bound p Hp) as Hd.
  unfold F64.of_Z, binary_normalize, binary_round.
  set (d := digits2_pos p) in *.
  assert (Hfexp : fexp F64.prec F64.emax (Z.pos d + 0) = Z.pos d - 53).
  { unfold fexp, emin, F64.prec, F64.emax. lia. }
  rewrite Hfexp. unfold shl_align.
  destruct (Z.pos d - 53 - 0) as [ | q | k] eqn:Ek; try lia.
  - (* 53 digits already *)
    exists p, 0. split; [ | split; [lia | simpl; lia]].
    unfold binary_round_aux, shr_fexp. cbn [Zdigits2 shr_record_of_loc].
    fold d. rewrite Hfexp. replace (Z.pos d - 53 - 0) with 0 by lia.
    cbn [shr shr_m loc_of_shr_record round_nearest_even Zdigits2 shr_record_of_loc].
    fold d. rewrite Hfexp. replace (Z.pos d - 53 - 0) with 0 by lia.
    cbn [shr shr_m]. reflexivity.
  - exists (Pos.iter xO p k), (Z.pos d - 53).
    split; [ | split; [lia | ]].
    + unfold binary_round_aux, shr_fexp. cbn [Zdigits2 shr_record_of_loc].
      rewrite digits2_iter_xO. fold d.
      assert (Hf2 : fexp F64.prec F64.emax (Z.pos (d + k) + (Z.pos d - 53))
                    - (Z.pos d - 53) = 0).
      { unfold fexp, emin, F64.prec, F64.emax. lia. }
      rewrite Hf2.
      cbn [shr shr_m loc_of_shr_record round_nearest_even Zdigits2 shr_record_of_loc].
      rewrite digits2_iter_xO. fold d. rewrite Hf2. cbn [shr shr_m].
      destruct (_ <=? _) eqn:E; [reflexivity | ].
      apply Z.leb_gt in E. unfold F64.emax, F64.prec in E. lia.
    + rewrite iter_xO_value. do 2 f_equal. lia.
Qed.

Lemma rint_pos_exact (m : positive) (e n : Z) :
  e <= 0 -> Z.pos m = n * 2 ^ (- e) -> F64.rint_pos m e = n.
Proof.
  intros He Hm. unfold F64.rint_pos.
  destruct (0 <=? e) eqn:E.
  - apply Z.leb_le in E. assert (e = 0) as -> by lia. simpl in Hm. lia.
  - assert (Hpow : 0 < 2 ^ (- e)) by (apply Z.pow_pos_nonneg; lia).
    rewrite Hm, Z.div_mul, Z.mod_mul by lia.
    change (2 * 0) with 0.
    destruct (0 ?= 2 ^ (- e)) eqn:C; try reflexivity.
    + apply Z.compare_eq in C. lia.
    + apply Z.compare_gt_iff in C. lia.
Qed.

Lemma round_of_Z_exact (n : Z) :
  0 <= n < 2 ^ 53 -> F64.round_to_int (F64.of_Z n) = n.
Proof.
  intros Hn. destruct n as [ | p | p]; [reflexivity | | lia].
  destruct (of_Z_pos_exact p) as (m & e & Hof & He & Hm); [lia | ].
  unfold F64.round_to_int, F64.rint. rewrite Hof.
  rewrite (rint_pos_exact m e (Z.pos p)) by (lia || exact Hm).
  destruct (- 2 ^ 63 <=? Z.pos p) eqn:E1; [ | apply Z.leb_gt in E1; lia].
  destruct (Z.pos p <? 2 ^ 63) eqn:E2; [reflexivity | ].
  apply Z.ltb_ge in E2. assert (2 ^ 53 < 2 ^ 63) by reflexivity. lia.
Qed.
End FloatExact.

(** ** Scaling a float by a power of two *)

Section FloatScaling.

Lemma iter_pos_iter {A} (f : A -> A) (n : positive) :
  forall x, SpecFloat.iter_pos f n x = Pos.iter f x n.
Proof.
  induction n as [n IH | n IH | ]; intros x; simpl.
  - rewrite !IH. rewrite <- !Pos.iter_swap. reflexivity.
  - rewrite !IH. reflexivity.
  - reflexivity.
Qed.

(** Shifting out the zeros that were shifted in. *)
Lemma shr_iter_xO (m k : positive) :
  SpecFloat.iter_pos shr_1 k {| shr_m := Z.pos (Pos.iter xO m k); shr_r := false; shr_s := false |}
  = {| shr_m := Z.pos m; shr_r := false; shr_s := false |}.
Proof.
  rewrite iter_pos_iter.
  induction k as [ | k IH] using Pos.peano_ind.
  - reflexivity.
  - rewrite Pos.iter_succ_r, Pos.iter_succ. exact IH.
Qed.

(** Rounding a 53-bit mantissa followed by [k] zeros gives the mantissa
    back, at the exponent raised by [k]. *)
Lemma round_shifted (m M : positive) (E k : Z) :
  digits2_pos m = 53%positive ->
  0 <= k -> Z.pos M = Z.pos m * 2 ^ k ->
  -1074 <= E + k <= 971 ->
  binary_round_aux F64.prec F64.emax false (Z.pos M) E loc_Exact
  = S754_finite false m (E + k).
Proof.
  intros Hd Hk HM HE.
  assert (Hsecond : forall e, -1074 <= e <= 971 ->
             shr_fexp F64.prec F64.emax (Z.pos m) e loc_Exact
             = ({| shr_m := Z.pos m; shr_r := false; shr_s := false |}, e)).
  { intros e He. unfold shr_fexp. cbn [Zdigits2 shr_record_of_loc]. rewrite Hd.
    unfold fexp, emin, F64.prec, F64.emax.
    replace (Z.max (53 + e - 53) (3 - 1024 - 53) - e) with 0 by lia.
    reflexivity. }
  unfold binary_round_aux.
  destruct k as [ | k | k]; [ | | lia].
  - assert (M = m) as -> by lia.
    replace (E + 0) with E in * by lia.
    rewrite Hsecond by lia.
    cbn [shr_m loc_of_shr_record round_nearest_even].
    rewrite Hsecond by lia. cbn [shr_m].
    destruct (E <=? F64.emax - F64.prec) eqn:C; [reflexivity | ].
    apply Z.leb_gt in C. unfold F64.emax, F64.prec in C. lia.
  - assert (M = Pos.iter xO m k) as ->.
    { apply Pos2Z.inj. rewrite HM, iter_xO_value. reflexivity. }
    unfold shr_fexp at 1. cbn [Zdigits2 shr_record_of_loc].
    rewrite digits2_iter_xO, Hd.
    unfold fexp at 1. unfold emin, F64.prec, F64.emax.
    replace (Z.max (Z.pos (53 + k) + E - 53) (3 - 1024 - 53) - E)
      with (Z.pos k) by lia.
    cbn [shr]. rewrite shr_iter_xO.
    cbn [shr_m loc_of_shr_record round_nearest_even].
    rewrite Hsecond by lia. cbn [shr_m].
    destruct (_ <=? _) eqn:C; [reflexivity | ].
    apply Z.leb_gt in C. lia.
Qed.

(** An integer below [2^53] as a float: a 53-bit mantissa. *)
Lemma of_Z_pos_normal (p : positive) :
  Z.pos p < 2 ^ 53 ->
  exists m e, F64.of_Z (Z.pos p) = S754_finite false m e
              /\ -52 <= e <= 0
              /\ Z.pos m = Z.pos p * 2 ^ (- e)
              /\ digits2_pos m = 53%positive.
Proof.
  intros Hp. pose proof (digits2_bound p Hp) as Hd.
  set (d := digits2_pos p) in *.
  destruct (Z.eq_dec (Z.pos d) 53) as [H53 | H53].
  - exists p, 0. split; [ | split; [lia | split; [simpl; lia | lia]]].
    unfold F64.of_Z, binary_normalize, binary_round. fold d.
    unfold fexp, emin, F64.prec, F64.emax, shl_align.
    replace (Z.max (Z.pos d + 0 - 53) (3 - 1024 - 53) - 0) with 0 by lia.
    apply (round_shifted p p 0 0); [lia | lia | lia | lia].
  - assert (Hk : exists k, Z.pos k = 53 - Z.pos d).
    { destruct (53 - Z.pos d) as [ | k | k] eqn:E; try lia. exists k. reflexivity. }
    destruct Hk as (k & Hk).
    exists (Pos.iter xO p k), (Z.pos d - 53).
    split; [ | split; [lia | split]].
    + unfold F64.of_Z, binary_normalize, binary_round. fold d.
      unfold fexp, emin, F64.prec, F64.emax, shl_align.
      replace (Z.max (Z.pos d + 0 - 53) (3 - 1024 - 53) - 0) with (Z.neg k) by lia.
      replace (Z.max (Z.pos d + 0 - 53) (3 - 1024 - 53)) with (Z.pos d - 53) by lia.
      rewrite <- (Z.add_0_r (Z.pos d - 53)) at 2.
      apply round_shifted; [ | lia | lia | lia].
      rewrite digits2_iter_xO. fold d. lia.
    + rewrite iter_xO_value. do 2 f_equal. lia.
    + rewrite digits2_iter_xO. fold d. lia.
Qed.

(** Multiplying by [2^-k] lowers the exponent by [k]. *)
Lemma mul_pow2_neg (m : positive) (e k : Z) :
  digits2_pos m = 53%positive ->
  -52 <= e <= 0 -> 0 <= k <= 1000 ->
  F64.mul (S754_finite false m e) (pow2_neg k) = S754_finite false m (e - k).
Proof.
  intros Hd He Hk. unfold F64.mul, SFmul, pow2_neg. cbn [xorb].
  replace (e - k) with (e + (- 52 - k) + 52) by lia.
  apply round_shifted; [exact Hd | lia | | lia].
  rewrite Pos2Z.inj_mul. reflexivity.
Qed.

Lemma compare_scaled (a b c : Z) : 0 < c -> (a * c ?= b * c) = (a ?= b).
Proof.
  intros Hc. destruct (Z.compare_spec a b) as [-> | H | H].
  - apply Z.compare_refl.
  - apply Z.compare_lt_iff. nia.
  - apply Z.compare_gt_iff. nia.
Qed.

Lemma rint_pos_dyadic (m : positive) (e k n : Z) :
  e <= 0 -> 0 <= k -> Z.pos m = n * 2 ^ (- e) ->
  F64.rint_pos m (e - k) = rne_div n (2 ^ k).
Proof.
  intros He Hk Hm. unfold F64.rint_pos, rne_div.
  assert (Hpe : 0 < 2 ^ (- e)) by (apply Z.pow_pos_nonneg; lia).
  assert (Hpk : 0 < 2 ^ k) by (apply Z.pow_pos_nonneg; lia).
  destruct (0 <=? e - k) eqn:C.
  - apply Z.leb_le in C. assert (e = 0) as -> by lia. assert (k = 0) as -> by lia.
    simpl in Hm. simpl. rewrite Z.mod_1_r, Z.div_1_r. simpl. lia.
  - replace (- (e - k)) with (k + - e) by lia.
    rewrite Z.pow_add_r by lia. rewrite Hm.
    rewrite Z.div_mul_cancel_r by lia.
    rewrite Z.mul_mod_distr_r by lia.
    rewrite Z.mul_assoc, compare_scaled by lia. reflexivity.
Qed.

(** [np.round(n * 2^-k).astype(int)] for an integer [0 <= n < 2^53] *)
Lemma round_scaled_pow2 (n k : Z) :
  0 <= n < 2 ^ 53 -> 0 <= k <= 1000 ->
  F64.round_to_int (F64.mul (F64.of_Z n) (pow2_neg k)) = rne_div n (2 ^ k).
Proof.
  intros Hn Hk.
  assert (Hpk : 0 < 2 ^ k) by (apply Z.pow_pos_nonneg; lia).
  destruct n as [ | p | p]; [ | | lia].
  - unfold rne_div. rewrite Z.mod_0_l, Z.div_0_l by lia. simpl.
    destruct (2 ^ k); try lia; reflexivity.
  - destruct (of_Z_pos_normal p) as (m & e & Hof & He & Hm & Hd); [lia | ].
    rewrite Hof, mul_pow2_neg by (assumption || lia).
    unfold F64.round_to_int, F64.rint.
    rewrite (rint_pos_dyadic m e k (Z.pos p)) by (lia || exact Hm).
    assert (Hq : 0 <= rne_div (Z.pos p) (2 ^ k) <= Z.pos p + 1).
    { unfold rne_div.
      pose proof (Z.div_pos (Z.pos p) (2 ^ k)) as H1.
      pose proof (Z.div_le_upper_bound (Z.pos p) (2 ^ k) (Z.pos p)) as H2.
      assert (Z.pos p `div` 2 ^ k <= Z.pos p) by (apply H2; nia).
      destruct (_ ?= _); [destruct (Z.even _) | | ]; lia. }
    destruct (- 2 ^ 63 <=? _) eqn:E1; [ | apply Z.leb_gt in E1; lia].
    destruct (_ <? 2 ^ 63) eqn:E2; [reflexivity | ].
    apply Z.ltb_ge in E2. assert (2 ^ 53 + 1 < 2 ^ 63) by reflexivity. lia.
Qed.

End FloatScaling.
(** ** Deep-supervision targets *)

Section DeepSupervision.
Import Np Semseg.
Import DownsampleSegForDSTransform2.

Lemma scale_axes_spatial (todo : list spec_float) :
  forall (pre : list spec_float) (i : nat) (fs_done fs_todo : list spec_float),
    length pre = (2 + i)%nat ->
    length fs_done = i ->
    length fs_todo = length todo ->
    scale_axes i (seqZ (Z.of_nat (2 + i)) (Z.of_nat (length todo)))
               (fs_done ++ fs_todo) (pre ++ todo)
    = Ok (pre ++ zip_with F64.mul todo fs_todo).
Proof.
  induction todo as [ | x todo IH]; intros pre i fs_done fs_todo Hpre Hdone Htodo.
  - destruct fs_todo; [ | discriminate]. reflexivity.
  - destruct fs_todo as [ | f fs_todo]; [discriminate | ].
    rewrite seqZ_cons by (simpl length; lia). cbn [scale_axes].
    rewrite norm_index_in_range
      by (rewrite length_app; simpl length; lia).
    cbn [PyOps.bind]. rewrite Nat2Z.id.
    unfold PyOps.getitem.
    rewrite norm_index_in_range
      by (rewrite length_app; simpl length; lia).
    cbn [PyOps.bind]. rewrite Nat2Z.id.
    rewrite lookup_app_r by lia. rewrite Hdone, Nat.sub_diag. cbn [lookup list_lookup].
    rewrite lookup_app_r by lia. rewrite Hpre, Nat.sub_diag. cbn [lookup list_lookup].
    cbn [PyOps.bind].
    rewrite insert_app_r_alt by lia. rewrite Hpre, Nat.sub_diag.
    cbn [insert list_insert].
    replace (Z.succ (Z.of_nat (2 + i))) with (Z.of_nat (2 + S i)) by lia.
    replace (Z.pred (Z.of_nat (length (x :: todo)))) with (Z.of_nat (length todo))
      by (simpl length; lia).
    specialize (IH (pre ++ [F64.mul x f]) (S i) (fs_done ++ [f]) fs_todo).
    rewrite <- !app_assoc in IH. cbn [app] in IH.
    rewrite IH; [reflexivity | | | ].
    + rewrite length_app. simpl. lia.
    + rewrite length_app. simpl. lia.
    + simpl in Htodo. lia.
Qed.

Lemma round_zip_with (sp : list Z) : forall fs : list spec_float,
  map F64.round_to_int (zip_with F64.mul (map F64.of_Z sp) fs)
  = zip_with scaled_extent sp fs.
Proof.
  induction sp as [ | n sp IH]; intros [ | f fs]; simpl; try reflexivity.
  rewrite IH. reflexivity.
Qed.

Lemma scaled_shape_default (b c : Z) (sp : list Z) (fs : list spec_float) :
  length fs = length sp ->
  scaled_shape (b :: c :: sp) (seqZ 2 (Z.of_nat (length sp))) fs
  = Ok (F64.round_to_int (F64.of_Z b) :: F64.round_to_int (F64.of_Z c)
          :: zip_with scaled_extent sp fs).
Proof.
  intros Hlen. unfold scaled_shape. cbn [map].
  pose proof (scale_axes_spatial (map F64.of_Z sp) [F64.of_Z b; F64.of_Z c]
                0 [] fs eq_refl eq_refl) as H.
  rewrite length_map in H. cbn [app] in H. change (Z.of_nat (2 + 0)) with 2 in H.
  rewrite H by exact Hlen. cbn [PyOps.bind map].
  rewrite round_zip_with. reflexivity.
Qed.

Lemma assignable_refl (l : list Z) : assignable l l = true.
Proof.
  induction l as [ | n l IH]; [reflexivity | ].
  simpl. rewrite Z.eqb_refl, IH. reflexivity.
Qed.

Lemma setitem2_ok (out v : ndarray) (bi ci n0 n1 : Z) (rest : list Z) :
  shape out = n0 :: n1 :: rest -> 0 <= bi < n0 -> 0 <= ci < n1 ->
  shape v = rest ->
  exists out', setitem2 out bi ci v = Ok out' /\ shape out' = shape out.
Proof.
  intros Hout Hb Hc Hv. unfold setitem2. rewrite Hout.
  rewrite !norm_index_in_range by assumption. cbn [PyOps.bind].
  rewrite Hv, assignable_refl. eexists. split; reflexivity.
Qed.

Lemma getitem_int_ok (a : ndarray) (n : Z) (shp : list Z) (i : Z) :
  shape a = n :: shp -> 0 <= i < n ->
  getitem_int a i
  = Ok {| shape := shp; item := fun j => item a (Z.of_nat (Z.to_nat i) :: j) |}.
Proof.
  intros Ha Hi. unfold getitem_int. rewrite Ha.
  rewrite norm_index_in_range by exact Hi. reflexivity.
Qed.

Lemma for_each_invariant {A} (I : list ndarray -> Prop) (f : A -> St heap unit)
      (l : list A) :
  (forall x h, In x l -> I h -> exists h', f x h = (Ok tt, h') /\ I h') ->
  forall h, I h -> exists h', St.for_each f l h = (Ok tt, h') /\ I h'.
Proof.
  induction l as [ | x l IH]; intros Hbody h Hh.
  - exists h. split; [reflexivity | exact Hh].
  - destruct (Hbody x h (or_introl eq_refl) Hh) as (h1 & Hrun & Hh1).
    destruct (IH (fun y h' Hy => Hbody y h' (or_intror Hy)) h1 Hh1)
      as (h2 & Hrest & Hh2).
    exists h2. split; [ | exact Hh2].
    cbn [St.for_each]. rewrite (bind_ok _ _ _ _ _ Hrun). exact Hrest.
Qed.

Lemma in_range (x n : Z) : In x (PyOps.range n) -> 0 <= x < n.
Proof.
  unfold PyOps.range. intros H. apply list_elem_of_In, elem_of_seqZ in H. lia.
Qed.

Section WithResize.

Variable resize_segmentation : ndarray -> list Z -> Z -> ndarray.
Hypothesis resize_shape :
  forall seg new_shape order,
    shape (resize_segmentation seg new_shape order) = new_shape.

Lemma fill_ok (self : t) (data_dict : gmap string value) (r o : nat)
      (a : ndarray) (b c : Z) (sp sp' : list Z) (h1 : list ndarray) :
  data_dict !! input_key self = Some (VArray r) ->
  r <> o -> h1 !! r = Some a -> shape a = b :: c :: sp ->
  filling h1 o (b :: c :: sp') h1 ->
  exists h2,
    fill resize_segmentation self data_dict o (b :: c :: sp') h1 = (Ok tt, h2)
    /\ filling h1 o (b :: c :: sp') h2.
Proof.
  intros Hin Hro Hr Ha Hfill.
  assert (Hderef : forall h, filling h1 o (b :: c :: sp') h ->
                             input_array self data_dict h = (Ok a, h)).
  { intros h (_ & Hsame & _). unfold input_array, input. rewrite Hin.
    rewrite lift_bind. unfold deref. rewrite (Hsame r Hro), Hr.
    reflexivity. }
  assert (H0 : PyOps.getitem (b :: c :: sp) 0 = Ok b).
  { unfold PyOps.getitem.
    rewrite norm_index_in_range by (simpl length; lia). reflexivity. }
  assert (H1 : PyOps.getitem (b :: c :: sp) 1 = Ok c).
  { unfold PyOps.getitem.
    rewrite norm_index_in_range by (simpl length; lia). reflexivity. }
  unfold fill. rewrite (bind_ok _ _ _ _ _ (Hderef h1 Hfill)).
  rewrite lift_bind, Ha, H0.
  apply for_each_invariant; [ | exact Hfill].
  intros bi h Hbi Hh. apply in_range in Hbi.
  rewrite (bind_ok _ _ _ _ _ (Hderef h Hh)).
  rewrite lift_bind, Ha, H1.
  apply for_each_invariant; [ | exact Hh].
  intros ci h' Hci Hh'. apply in_range in Hci.
  rewrite (bind_ok _ _ _ _ _ (Hderef h' Hh')).
  rewrite lift_bind.
  rewrite (getitem_int_ok a b (c :: sp) bi Ha Hbi). cbn [PyOps.bind].
  rewrite (getitem_int_ok (mk_ndarray (c :: sp) _) c sp ci eq_refl Hci).
  set (plane := {| shape := sp; item := _ |}).
  destruct Hh' as (Hlen & Hsame & out & Ho & Hshape).
  unfold St.bind at 1. unfold deref at 1. rewrite Ho.
  destruct (setitem2_ok out
              (resize_segmentation plane (drop 2 (b :: c :: sp')) (order self))
              bi ci b c sp' Hshape Hbi Hci (resize_shape _ _ _))
    as (out' & Hset & Hshape').
  rewrite lift_bind, Hset. unfold store.
  eexists. split; [reflexivity | ].
  split; [ | split].
  - rewrite length_insert. exact Hlen.
  - intros i Hi. rewrite list_lookup_insert_ne by congruence. apply Hsame, Hi.
  - exists out'. split; [ | congruence].
    apply list_lookup_insert_eq. apply lookup_lt_Some in Ho. exact Ho.
Qed.

Lemma level_ok (self : t) (data_dict : gmap string value) (r : nat)
      (a : ndarray) (b c : Z) (sp : list Z)
      (s : scale) (fs : list spec_float) (hk : list ndarray) :
  data_dict !! input_key self = Some (VArray r) ->
  shape a = b :: c :: sp -> 0 <= b -> 0 <= c ->
  F64.round_to_int (F64.of_Z b) = b ->
  F64.round_to_int (F64.of_Z c) = c ->
  hk !! r = Some a ->
  factors (length sp) s = Ok fs ->
  length fs = length sp ->
  (all_one fs = false ->
   Forall (fun n => 0 <= n) (zip_with scaled_extent sp fs)) ->
  exists o hk',
    level resize_segmentation self data_dict
          (seqZ 2 (Z.of_nat (length sp))) s hk
    = (Ok (VArray o), hk')
    /\ keeps hk hk'
    /\ (o < length hk')%nat
    /\ if all_one fs then o = r
       else (length hk <= o)%nat
            /\ exists a',
                hk' !! o = Some a'
                /\ shape a' = b :: c :: zip_with scaled_extent sp fs.
Proof.
  intros Hin Ha Hb Hc Hbf Hcf Hr Hfs Hlen Hdims.
  assert (Hrlt : (r < length hk)%nat) by (apply lookup_lt_Some in Hr; exact Hr).
  unfold level. rewrite lift_bind, length_seqZ, Nat2Z.id, Hfs.
  fold (all_one fs). destruct (all_one fs) eqn:Eone.
  - exists r, hk. split; [unfold input; rewrite Hin; reflexivity | ].
    split; [split; [lia | reflexivity] | ]. split; [exact Hrlt | reflexivity].
  - specialize (Hdims eq_refl).
    unfold St.bind at 1. unfold input_array at 1, input.
    rewrite Hin, lift_bind. unfold deref at 1. rewrite Hr.
    rewrite lift_bind, Ha, scaled_shape_default by exact Hlen.
    rewrite Hbf, Hcf.
    set (new_shape := b :: c :: zip_with scaled_extent sp fs).
    assert (Hz : zeros new_shape
                 = Ok {| shape := new_shape; item := fun _ => 0 |}).
    { unfold zeros. replace (existsb _ new_shape) with false; [reflexivity | ].
      symmetry. apply not_true_is_false. intros E.
      apply existsb_exists in E as (n & Hn & Hneg). apply Z.ltb_lt in Hneg.
      destruct Hn as [<- | [<- | Hn]]; try lia.
      rewrite Forall_forall in Hdims. apply list_elem_of_In, Hdims in Hn. lia. }
    rewrite lift_bind, Hz.
    unfold St.bind at 1. unfold alloc at 1.
    set (z := {| shape := new_shape; item := _ |}).
    destruct (fill_ok self data_dict r (length hk) a b c sp
                (zip_with scaled_extent sp fs) (hk ++ [z]))
      as (h2 & Hfill & Hlen2 & Hsame & out & Hout & Hshape).
    + exact Hin.
    + lia.
    + rewrite lookup_app_l by exact Hrlt. exact Hr.
    + exact Ha.
    + split; [reflexivity | split; [reflexivity | ]].
      exists z. split; [ | reflexivity].
      rewrite lookup_app_r by lia. rewrite Nat.sub_diag. reflexivity.
    + fold new_shape in Hfill. rewrite (bind_ok _ _ _ _ _ Hfill).
      rewrite length_app in Hlen2. simpl in Hlen2.
      exists (length hk), h2. split; [reflexivity | ]. split; [ | split].
      * split; [lia | ]. intros i Hi.
        rewrite Hsame by lia. apply lookup_app_l. exact Hi.
      * lia.
      * split; [lia | ]. exists out. split; assumption.
Qed.

Lemma keeps_trans (h1 h2 h3 : list ndarray) :
  keeps h1 h2 -> keeps h2 h3 -> keeps h1 h3.
Proof.
  intros [Hl1 H1] [Hl2 H2]. split; [lia | ].
  intros i Hi. rewrite H2 by lia. apply H1, Hi.
Qed.

Lemma levels_ok (self : t) (data_dict : gmap string value) (r : nat)
      (a : ndarray) (b c : Z) (sp : list Z) (scales : list scale) :
  data_dict !! input_key self = Some (VArray r) ->
  shape a = b :: c :: sp -> 0 <= b -> 0 <= c ->
  F64.round_to_int (F64.of_Z b) = b ->
  F64.round_to_int (F64.of_Z c) = c ->
  (forall l, In (PerAxis l) scales -> length l = length sp) ->
  (forall s fs, In s scales -> factors (length sp) s = Ok fs ->
                all_one fs = false ->
                Forall (fun n => 0 <= n) (zip_with scaled_extent sp fs)) ->
  forall hk : list ndarray,
    hk !! r = Some a ->
    exists outs hk',
      St.traverse (level resize_segmentation self data_dict
                         (seqZ 2 (Z.of_nat (length sp)))) scales hk
      = (Ok outs, hk')
      /\ keeps hk hk'
      /\ length outs = length scales
      /\ forall k s,
          scales !! k = Some s ->
          exists o fs,
            outs !! k = Some (VArray o)
            /\ factors (length sp) s = Ok fs
            /\ if all_one fs then o = r
               else (length hk <= o)%nat
                    /\ exists a',
                        hk' !! o = Some a'
                        /\ shape a' = b :: c :: zip_with scaled_extent sp fs.
Proof.
  intros Hin Ha Hb Hc Hbf Hcf.
  induction scales as [ | s scales IH]; intros Hper Hdims hk Hr.
  - exists [], hk. split; [reflexivity | ].
    split; [split; [lia | reflexivity] | ]. split; [reflexivity | ].
    intros k s Hk. destruct k; discriminate.
  - assert (Hfs : exists fs, factors (length sp) s = Ok fs
                             /\ length fs = length sp).
    { destruct s as [f | l]; cbn [factors].
      - exists (replicate (length sp) f). split; [reflexivity | ].
        apply length_replicate.
      - rewrite bool_decide_eq_true_2
          by (apply Hper; left; reflexivity).
        exists l. split; [reflexivity | ]. apply Hper. left. reflexivity. }
    destruct Hfs as (fs & Hfs & Hlen).
    destruct (level_ok self data_dict r a b c sp s fs hk
                Hin Ha Hb Hc Hbf Hcf Hr Hfs Hlen)
      as (o & hk1 & Hlevel & Hkeep1 & Holt & Hpost).
    { apply (Hdims s fs); [left; reflexivity | exact Hfs]. }
    destruct (IH (fun l Hl => Hper l (or_intror Hl))
                 (fun s' fs' Hs' => Hdims s' fs' (or_intror Hs')) hk1)
      as (outs & hk2 & Hrest & Hkeep2 & Hlouts & Hposts).
    { destruct Hkeep1 as [_ Hsame]. rewrite Hsame; [exact Hr | ].
      apply lookup_lt_Some in Hr. exact Hr. }
    exists (VArray o :: outs), hk2. split; [ | split; [ | split]].
    + cbn [St.traverse]. rewrite (bind_ok _ _ _ _ _ Hlevel).
      rewrite (bind_ok _ _ _ _ _ Hrest). reflexivity.
    + apply (keeps_trans _ _ _ Hkeep1 Hkeep2).
    + simpl. rewrite Hlouts. reflexivity.
    + intros [ | k] s' Hk.
      * injection Hk as <-. exists o, fs.
        split; [reflexivity | split; [exact Hfs | ]].
        destruct (all_one fs); [exact Hpost | ].
        destruct Hpost as (Hfresh & a' & Ho & Hshape).
        split; [exact Hfresh | ]. exists a'. split; [ | exact Hshape].
        destruct Hkeep2 as [_ Hsame]. rewrite Hsame by exact Holt. exact Ho.
      * destruct (Hposts k s' Hk) as (o' & fs' & Ho' & Hfs' & Hpost').
        exists o', fs'. split; [exact Ho' | split; [exact Hfs' | ]].
        destruct (all_one fs'); [exact Hpost' | ].
        destruct Hpost' as (Hfresh & Hrest').
        split; [ | exact Hrest']. destruct Hkeep1 as [Hl _]. lia.
Qed.
End WithResize.

(** C5.  Let the transform run with [axes = None] on a record whose
    input field refers to an array [a] of shape [b :: c :: sp], the batch
    and channel counts being below [2^53], with a resize function that
    returns the shape it is asked for, per-axis scales of the length of
    [sp], and no scaled extent negative.  Then the call succeeds and
    stores under the output key a list with one reference per entry of
    [ds_scales], in that order.  For a level whose factors all equal 1 the
    reference is the input reference itself, and the input array is still
    what the heap holds there; for any other level it is a reference that
    did not exist before the call, to an array of shape
    [b :: c :: round(n * f)] over the spatial extents [n] and factors [f].
    On the 8 x 8 x 8 mask the factor 0.5 gives a 4 x 4 x 4 level. *)
Theorem downsample_levels :
  (forall (resize_segmentation : ndarray -> list Z -> Z -> ndarray)
          (self : t) (data_dict : gmap string value) (h : list ndarray)
          (r : nat) (a : ndarray) (b c : Z) (sp : list Z),
      (forall seg new_shape order,
          shape (resize_segmentation seg new_shape order) = new_shape) ->
      axes self = None ->
      data_dict !! input_key self = Some (VArray r) ->
      h !! r = Some a ->
      shape a = b :: c :: sp ->
      0 <= b < 2 ^ 53 -> 0 <= c < 2 ^ 53 ->
      (forall l, In (PerAxis l) (ds_scales self) -> length l = length sp) ->
      (forall s fs, In s (ds_scales self) -> factors (length sp) s = Ok fs ->
                    all_one fs = false ->
                    Forall (fun n => 0 <= n) (zip_with scaled_extent sp fs)) ->
      exists (outs : list value) (h' : list ndarray),
        call resize_segmentation self data_dict h
        = (Ok (<[output_key self := VList outs]> data_dict), h')
        /\ length outs = length (ds_scales self)
        /\ h' !! r = Some a
        /\ forall k s,
            ds_scales self !! k = Some s ->
            exists o fs,
              outs !! k = Some (VArray o)
              /\ factors (length sp) s = Ok fs
              /\ if all_one fs then o = r
                 else (length h <= o)%nat
                      /\ exists a',
                          h' !! o = Some a'
                          /\ shape a' = b :: c :: zip_with scaled_extent sp fs)
  /\ (exists (data_dict' : gmap string value) (h' : list ndarray),
         call sample_resize three_levels {[ "seg"%string := VArray 0%nat ]} [mask8]
         = (Ok data_dict', h')
         /\ data_dict' !! "seg"%string
            = Some (VList [VArray 0; VArray 1; VArray 2]%nat)
         /\ h' !! 0%nat = Some mask8
         /\ map shape h' = [[1; 1; 8; 8; 8]; [1; 1; 4; 4; 4]; [1; 1; 8; 4; 4]]).
Proof.
  split.
  - intros resize_segmentation self data_dict h r a b c sp
           Hresize Haxes Hin Hr Ha Hb Hc Hper Hdims.
    pose proof (round_of_Z_exact b Hb) as Hbf.
    pose proof (round_of_Z_exact c Hc) as Hcf.
    destruct Hb as [Hb _]. destruct Hc as [Hc _].
    destruct (levels_ok resize_segmentation Hresize self data_dict r a b c sp
                (ds_scales self) Hin Ha Hb Hc Hbf Hcf Hper Hdims h Hr)
      as (outs & h' & Hrun & Hkeep & Hlen & Hposts).
    exists outs, h'. split; [ | split; [exact Hlen | split; [ | exact Hposts]]].
    + unfold call. rewrite Haxes.
      unfold St.bind at 1. unfold St.bind at 1. unfold input_array at 1, input.
      rewrite Hin, lift_bind. unfold deref at 1. rewrite Hr.
      cbn [St.ret]. rewrite Ha.
      replace (Z.of_nat (length (b :: c :: sp)) - 2) with (Z.of_nat (length sp))
        by (simpl length; lia).
      rewrite (bind_ok _ _ _ _ _ Hrun). reflexivity.
    + destruct Hkeep as [_ Hsame]. rewrite Hsame; [exact Hr | ].
      apply lookup_lt_Some in Hr. exact Hr.
  - eexists _, _. split; [vm_compute; reflexivity | ].
    split; [vm_compute; reflexivity | ]. split; reflexivity.
Qed.
End DeepSupervision.

Lemma downsample_levels_witness :
  exists (outs : list Semseg.DownsampleSegForDSTransform2.value)
         (h' : list Np.ndarray),
    Semseg.DownsampleSegForDSTransform2.call sample_resize three_levels
      {[ "seg"%string := Semseg.DownsampleSegForDSTransform2.VArray 0%nat ]} [mask8]
    = (Ok (<[Semseg.DownsampleSegForDSTransform2.output_key three_levels
             := Semseg.DownsampleSegForDSTransform2.VList outs]>
             {[ "seg"%string := Semseg.DownsampleSegForDSTransform2.VArray 0%nat ]}),
       h')
    /\ length outs = length (Semseg.DownsampleSegForDSTransform2.ds_scales three_levels)
    /\ h' !! 0%nat = Some mask8
    /\ forall k s,
        Semseg.DownsampleSegForDSTransform2.ds_scales three_levels !! k = Some s ->
        exists o fs,
          outs !! k = Some (Semseg.DownsampleSegForDSTransform2.VArray o)
          /\ Semseg.DownsampleSegForDSTransform2.factors (length [8; 8; 8]) s = Ok fs
          /\ if all_one fs then o = 0%nat
             else (length [mask8] <= o)%nat
                  /\ exists a',
                      h' !! o = Some a'
                      /\ Np.shape a' = 1 :: 1 :: zip_with scaled_extent [8; 8; 8] fs.
Proof.
  apply (proj1 downsample_levels sample_resize three_levels
           {[ "seg"%string := Semseg.DownsampleSegForDSTransform2.VArray 0%nat ]}
           [mask8] 0%nat mask8 1 1 [8; 8; 8]).
  - reflexivity.
  - reflexivity.
  - reflexivity.
  - reflexivity.
  - reflexivity.
  - split; [lia | reflexivity].
  - split; [lia | reflexivity].
  - intros l [H | [H | [H | []]]]; try discriminate.
    injection H as <-. reflexivity.
  - intros s fs [<- | [<- | [<- | []]]] Hfs; injection Hfs as <-;
      intros _; repeat constructor; vm_compute; discriminate.
Defined.

(* ================================================================= *)
(** * Further properties of the code *)

(** ** Pooling strides *)

Section PoolStrides.
Import Pools.

Lemma traverse_ok_inv {A B} (f : A -> result B) (l : list A) (ys : list B) :
  PyOps.traverse f l = Ok ys -> Forall2 (fun x y => f x = Ok y) l ys.
Proof.
  revert ys. induction l as [ | x l IH]; simpl; intros ys H.
  - injection H as <-. constructor.
  - destruct (f x) as [y | e] eqn:Hx; simpl in H; [ | discriminate].
    destruct (PyOps.traverse f l) as [ys' | e]; simpl in H; [ | discriminate].
    injection H as <-. constructor; auto.
Qed.

Lemma traverse_ok_intro {A B} (f : A -> result B) (l : list A) (ys : list B) :
  Forall2 (fun x y => f x = Ok y) l ys -> PyOps.traverse f l = Ok ys.
Proof.
  induction 1 as [ | x y l ys Hx _ IH]; simpl; [reflexivity | ].
  rewrite Hx, IH. reflexivity.
Qed.

Lemma fold_result_app {A B} (f : A -> B -> result A) (a : A) (l1 l2 : list B) :
  fold_result f a (l1 ++ l2)
  = let* a' := fold_result f a l1 in fold_result f a' l2.
Proof.
  revert a. induction l1 as [ | x l1 IH]; intros a; simpl; [reflexivity | ].
  destruct (f a x); simpl; auto.
Qed.

Lemma py_max_upper (l : list Z) (m : Z) :
  py_max l = Ok m -> In m l /\ Forall (fun p => p <= m) l.
Proof.
  destruct l as [ | x rest]; simpl; [discriminate | ].
  intros H. injection H as <-.
  assert (G : forall a, (foldl Z.max a rest = a \/ In (foldl Z.max a rest) rest)
                        /\ a <= foldl Z.max a rest
                        /\ Forall (fun p => p <= foldl Z.max a rest) rest).
  { induction rest as [ | y rest IH]; intros a; simpl.
    - split; [auto | split; [lia | constructor]].
    - destruct (IH (Z.max a y)) as (Hin & Hle & Hall).
      split; [ | split; [lia | constructor; [lia | exact Hall]]].
      destruct Hin as [Heq | Hin]; [ | auto].
      rewrite Heq. destruct (Z.max_spec a y) as [[_ ->] | [_ ->]]; auto. }
  destruct (G x) as (Hin & Hle & Hall).
  split; [ | constructor; assumption].
  simpl. destruct Hin as [Heq | Hin]; [left; symmetry; exact Heq | right; exact Hin].
Qed.

Lemma product_constant {A} (c : Z) (l : list A) :
  product (map (fun _ => c) l) = c ^ Z.of_nat (length l).
Proof.
  unfold product. induction l as [ | x l IH]; [reflexivity | ].
  cbn [map foldr length]. rewrite IH.
  replace (Z.of_nat (S (length l))) with (Z.succ (Z.of_nat (length l))) by lia.
  rewrite Z.pow_succ_r by lia. reflexivity.
Qed.

Lemma product_app (l1 l2 : list Z) : product (l1 ++ l2) = product l1 * product l2.
Proof.
  unfold product. induction l1 as [ | x l1 IH]; simpl; [lia | ].
  rewrite IH. lia.
Qed.

Lemma axis_of_rows {A} (F : A -> Z -> Z) (l : list Z) (i : nat) (p : Z) :
  l !! i = Some p ->
  forall js : list A,
    axis_strides i (map (fun j => map (F j) l) js) = map (fun j => F j p) js.
Proof.
  intros Hp. induction js as [ | j js IH]; [reflexivity | ].
  unfold axis_strides in *. simpl.
  rewrite list_lookup_fmap, Hp. simpl. f_equal. exact IH.
Qed.

Lemma product_ones_then_twos (m p : nat) :
  (p <= m)%nat ->
  product (map (fun j : nat => if Z.of_nat j <? Z.of_nat m - Z.of_nat p then 1 else 2)
               (seq 0 m))
  = 2 ^ Z.of_nat p.
Proof.
  intros Hp.
  assert (Hs : seq 0 m = seq 0 (m - p) ++ seq (m - p) p).
  { change (m - p)%nat with (0 + (m - p))%nat at 2.
    rewrite <- seq_app. f_equal. lia. }
  rewrite Hs, map_app, product_app.
  rewrite (map_ext_in _ (fun _ => 1)), (map_ext_in _ (fun _ => 2) (seq _ p)).
  - rewrite !product_constant, !length_seq.
    rewrite Z.pow_1_l by lia. lia.
  - intros j Hj. apply in_seq in Hj.
    destruct (Z.of_nat j <? Z.of_nat m - Z.of_nat p) eqn:E; [lia | reflexivity].
  - intros j Hj. apply in_seq in Hj.
    destruct (Z.of_nat j <? Z.of_nat m - Z.of_nat p) eqn:E; [reflexivity | lia].
Qed.

(** Zeroing the positions [k, k + n) of a column whose first [k] entries
    are zero already. *)
Lemma zero_prefix (m : nat) : forall (n k : nat),
  (k + n <= m)%nat ->
  fold_result (fun st j => setitem st j 0)
              (replicate k 0 ++ replicate (m - k) 1)
              (seqZ (Z.of_nat k) (Z.of_nat n))
  = Ok (replicate (k + n) 0 ++ replicate (m - (k + n)) 1).
Proof.
  induction n as [ | n IH]; intros k Hk.
  - simpl. rewrite Nat.add_0_r. reflexivity.
  - rewrite seqZ_cons by lia. cbn [fold_result].
    unfold setitem at 1.
    assert (Hlen : length (replicate k 0 ++ replicate (m - k) 1) = m)
      by (rewrite length_app, !length_replicate; lia).
    rewrite Hlen, norm_index_in_range by lia. cbn [PyOps.bind].
    rewrite Nat2Z.id.
    replace (<[k := 0]> (replicate k 0 ++ replicate (m - k) 1))
      with (replicate (S k) 0 ++ replicate (m - S k) 1).
    + replace (Z.succ (Z.of_nat k)) with (Z.of_nat (S k)) by lia.
      replace (Z.pred (Z.of_nat (S n))) with (Z.of_nat n) by lia.
      rewrite IH by lia. do 3 f_equal; lia.
    + rewrite insert_app_r_alt by (rewrite length_replicate; lia).
      rewrite length_replicate, Nat.sub_diag.
      destruct (m - k)%nat as [ | d] eqn:Hd; [lia | ].
      replace (m - S k)%nat with d by lia.
      rewrite replicate_S_end, <- app_assoc. reflexivity.
Qed.

Lemma zero_front (m n : nat) :
  (n <= m)%nat ->
  fold_result (fun st j => setitem st j 0) (replicate m 1) (seqZ 0 (Z.of_nat n))
  = Ok (replicate n 0 ++ replicate (m - n) 1).
Proof.
  intros Hn. pose proof (zero_prefix m n 0 Hn) as H.
  rewrite Nat.sub_0_r in H. exact H.
Qed.

Lemma stride_column_ok (m p : Z) :
  0 <= p <= m ->
  stride_column m p
  = Ok (replicate (Z.to_nat (m - p)) 0 ++ replicate (Z.to_nat p) 1).
Proof.
  intros Hp. unfold stride_column, ones.
  destruct (m <? 0) eqn:E; [lia | ]. cbn [PyOps.bind]. unfold PyOps.range.
  pose proof (zero_front (Z.to_nat m) (Z.to_nat (m - p))) as H.
  rewrite Z2Nat.id in H by lia. rewrite H by lia. do 3 f_equal. lia.
Qed.

Lemma stride_column_negative (m p : Z) :
  p < 0 ->
  stride_column m p = Raise (if m <? 0 then Py.ValueError else Py.IndexError).
Proof.
  intros Hp. unfold stride_column, ones.
  destruct (m <? 0) eqn:E; [reflexivity | ]. cbn [PyOps.bind].
  unfold PyOps.range.
  replace (m - p) with (m + (- p)) by lia.
  rewrite seqZ_app by lia. rewrite fold_result_app.
  pose proof (zero_front (Z.to_nat m) (Z.to_nat m)) as H.
  rewrite Z2Nat.id in H by lia. rewrite H by lia. cbn [PyOps.bind].
  rewrite seqZ_cons by lia. cbn [fold_result]. unfold setitem at 1.
  rewrite length_app, !length_replicate.
  unfold PyOps.norm_index. apply Z.ltb_ge in E.
  destruct (0 + m <? 0) eqn:E1; [apply Z.ltb_lt in E1; lia | ].
  destruct (0 + m <? Z.of_nat (Z.to_nat m + (Z.to_nat m - Z.to_nat m))) eqn:E2;
    [apply Z.ltb_lt in E2; lia | ].
  rewrite andb_false_r. reflexivity.
Qed.

(** A loop whose steps can only fail with [e] fails with [e] as soon as
    one step does. *)
Lemma traverse_raises {A B} (f : A -> result B) (e : Py.exn) (l : list A) :
  Forall (fun x => (exists y, f x = Ok y) \/ f x = Raise e) l ->
  Exists (fun x => f x = Raise e) l ->
  PyOps.traverse f l = Raise e.
Proof.
  induction 1 as [ | x l Hx _ IH]; intros Hex; [inversion Hex | ].
  simpl. destruct Hx as [[y Hy] | Hx]; [ | rewrite Hx; reflexivity].
  rewrite Hy. simpl. rewrite IH; [reflexivity | ].
  inversion Hex; subst; [congruence | assumption].
Qed.

(** X1.  For a non-empty list of non-negative pool counts,
    [convert_num_pools] returns one row of strides per pooling stage,
    [max(num_pools)] rows in all, each with one entry per axis; the entry
    of axis [i] at stage [j] is 1 during the first
    [max(num_pools) - num_pools[i]] stages and 2 afterwards, so the strides
    of axis [i] multiply to [2 ^ num_pools[i]]. *)
Theorem convert_num_pools_strides (num_pools : list Z) :
  num_pools <> [] ->
  Forall (fun p => 0 <= p) num_pools ->
  exists (max_pool : Z) (strides : list (list Z)),
    py_max num_pools = Ok max_pool
    /\ convert_num_pools num_pools = Ok strides
    /\ Z.of_nat (length strides) = max_pool
    /\ (forall (j : nat) (row : list Z),
           strides !! j = Some row -> length row = length num_pools)
    /\ (forall (j i : nat) (row : list Z) (p : Z),
           strides !! j = Some row -> num_pools !! i = Some p ->
           row !! i = Some (if Z.of_nat j <? max_pool - p then 1 else 2))
    /\ (forall (i : nat) (p : Z),
           num_pools !! i = Some p ->
           product (axis_strides i strides) = 2 ^ p).
Proof.
  intros Hne Hpos.
  destruct (py_max num_pools) as [m | e] eqn:Hmax;
    [ | destruct num_pools; [congruence | discriminate]].
  destruct (py_max_upper _ _ Hmax) as (Hin & Hup).
  assert (Hm : 0 <= m)
    by (rewrite Forall_forall in Hpos; apply Hpos, list_elem_of_In, Hin).
  set (column := fun p : Z =>
                   replicate (Z.to_nat (m - p)) 0 ++ replicate (Z.to_nat p) 1).
  assert (Hcols : PyOps.traverse (stride_column m) num_pools
                  = Ok (map column num_pools)).
  { apply traverse_ok_intro. apply Forall2_fmap_r, Forall_Forall2_diag.
    rewrite Forall_forall in Hpos, Hup. apply Forall_forall. intros p Hp.
    apply stride_column_ok. split; auto. }
  assert (Hentry : forall (j : nat) (p : Z),
             0 <= p <= m -> (j < Z.to_nat m)%nat ->
             nth j (column p) 0 + 1 = if Z.of_nat j <? m - p then 1 else 2).
  { intros j p Hp Hj. unfold column. rewrite nth_lookup.
    destruct (Z.of_nat j <? m - p) eqn:E.
    - apply Z.ltb_lt in E. rewrite lookup_app_l by (rewrite length_replicate; lia).
      rewrite lookup_replicate_2 by lia. reflexivity.
    - apply Z.ltb_ge in E. rewrite lookup_app_r by (rewrite length_replicate; lia).
      rewrite lookup_replicate_2 by (rewrite length_replicate; lia). reflexivity. }
  exists m, (transpose_plus_one m (map column num_pools)).
  split; [reflexivity | ]. split.
  { unfold convert_num_pools. rewrite Hmax. cbn [PyOps.bind].
    rewrite Hcols. reflexivity. }
  assert (Hrow : forall (j : nat) (row : list Z),
             transpose_plus_one m (map column num_pools) !! j = Some row ->
             (j < Z.to_nat m)%nat
             /\ row = map (fun p => nth j (column p) 0 + 1) num_pools).
  { intros j row H. unfold transpose_plus_one in H.
    rewrite list_lookup_fmap in H.
    destruct (seq 0 (Z.to_nat m) !! j) as [j' | ] eqn:Hj; [ | discriminate].
    apply lookup_seq in Hj as [-> Hj]. simpl in H. injection H as <-.
    split; [exact Hj | ]. rewrite map_map. reflexivity. }
  split; [ | split; [ | split]].
  - unfold transpose_plus_one. rewrite length_map, length_seq. lia.
  - intros j row H. destruct (Hrow j row H) as [_ ->]. apply length_map.
  - intros j i row p H Hp. destruct (Hrow j row H) as [Hj ->].
    rewrite list_lookup_fmap, Hp. simpl. f_equal.
    apply Hentry; [ | exact Hj].
    rewrite Forall_forall in Hpos, Hup.
    apply list_elem_of_lookup_2 in Hp. split; auto.
  - intros i p Hp.
    assert (Hp' : 0 <= p <= m).
    { rewrite Forall_forall in Hpos, Hup.
      apply list_elem_of_lookup_2 in Hp. split; auto. }
    unfold transpose_plus_one.
    rewrite (map_ext _ (fun j => map (fun q => nth j (column q) 0 + 1) num_pools))
      by (intros j; apply map_map).
    rewrite (axis_of_rows (fun j q => nth j (column q) 0 + 1) _ _ _ Hp).
    rewrite (map_ext_in _ (fun j : nat =>
                             if Z.of_nat j <? Z.of_nat (Z.to_nat m) - Z.of_nat (Z.to_nat p)
                             then 1 else 2)).
    + rewrite product_ones_then_twos by lia. f_equal. lia.
    + intros j Hj. apply in_seq in Hj. rewrite Hentry by lia.
      rewrite !Z2Nat.id by lia. reflexivity.
Qed.


(** X2.  [convert_num_pools] returns a result exactly for a non-empty
    list without negative entry.  It raises [ValueError] when every entry
    is negative (the empty list included: [max] of nothing, or an array
    of negative length), and [IndexError] when a negative entry comes
    with a non-negative one (the zeros run past the end of the column). *)
Theorem convert_num_pools_domain (num_pools : list Z) :
  match convert_num_pools num_pools with
  | Ok _ => num_pools <> [] /\ Forall (fun p => 0 <= p) num_pools
  | Raise e =>
      (e = Py.ValueError /\ Forall (fun p => p < 0) num_pools)
      \/ (e = Py.IndexError
          /\ Exists (fun p => p < 0) num_pools
          /\ Exists (fun p => 0 <= p) num_pools)
  end.
Proof.
  destruct (decide (num_pools = [])) as [-> | Hne].
  { simpl. left. split; [reflexivity | constructor]. }
  destruct (decide (Forall (fun p => 0 <= p) num_pools)) as [Hpos | Hneg].
  { destruct (convert_num_pools_strides num_pools Hne Hpos)
      as (m & s & _ & -> & _). split; assumption. }
  apply not_Forall_Exists in Hneg; [ | intros p; apply _].
  assert (Hneg' : Exists (fun p => p < 0) num_pools).
  { eapply Exists_impl; [exact Hneg | ]. simpl. intros p Hp. lia. }
  destruct (py_max num_pools) as [m | e] eqn:Hmax;
    [ | destruct num_pools; [congruence | discriminate]].
  destruct (py_max_upper _ _ Hmax) as (Hin & Hup).
  unfold convert_num_pools. rewrite Hmax. cbn [PyOps.bind].
  rewrite (traverse_raises _ (if m <? 0 then Py.ValueError else Py.IndexError)).
  - cbn [PyOps.bind]. destruct (m <? 0) eqn:E.
    + left. split; [reflexivity | ]. apply Z.ltb_lt in E.
      eapply Forall_impl; [exact Hup | ]. simpl. intros p Hp. lia.
    + right. split; [reflexivity | split; [exact Hneg' | ]].
      apply Z.ltb_ge in E. apply Exists_exists. exists m.
      split; [apply list_elem_of_In, Hin | exact E].
  - rewrite Forall_forall in Hup. apply Forall_forall. intros p Hp.
    destruct (Z.lt_ge_cases p 0) as [Hlt | Hge].
    + right. apply stride_column_negative, Hlt.
    + left. eexists. apply stride_column_ok. split; [lia | auto].
  - eapply Exists_impl; [exact Hneg' | ]. intros p Hp.
    apply stride_column_negative, Hp.
Qed.
End PoolStrides.

Lemma convert_num_pools_strides_witness :
  exists strides : list (list Z),
    Pools.convert_num_pools [3; 5; 5] = Ok strides
    /\ strides = [[1; 2; 2]; [1; 2; 2]; [2; 2; 2]; [2; 2; 2]; [2; 2; 2]]
    /\ product (axis_strides 0 strides) = 2 ^ 3.
Proof.
  destruct (convert_num_pools_strides [3; 5; 5]) as (m & s & _ & H & _ & _ & _ & Hp).
  - discriminate.
  - repeat constructor; lia.
  - exists s. split; [exact H | ]. split.
    + vm_compute in H. injection H as <-. reflexivity.
    + exact (Hp 0%nat 3 eq_refl).
Defined.

(** ** Reading the folds table *)

Section FoldTable.
Import Utils.

Lemma filter_either {A} (P Q : A -> Prop)
      `{forall x, Decision (P x)} `{forall x, Decision (Q x)} (l : list A) :
  (forall x, P x -> Q x -> False) ->
  filter (fun x => P x \/ Q x) l ≡ₚ filter P l ++ filter Q l.
Proof.
  intros Hdis. induction l as [ | a l IH]; [reflexivity | ].
  rewrite !filter_cons.
  destruct (decide (P a)) as [Hp | Hp], (decide (Q a)) as [Hq | Hq].
  - destruct (Hdis a Hp Hq).
  - rewrite decide_True by tauto. simpl. rewrite IH. reflexivity.
  - rewrite decide_True by tauto. rewrite IH.
    apply Permutation_middle.
  - rewrite decide_False by tauto. exact IH.
Qed.

Lemma filter_same {A} (P Q : A -> Prop)
      `{forall x, Decision (P x)} `{forall x, Decision (Q x)} (l : list A) :
  (forall x, x ∈ l -> P x <-> Q x) -> filter P l = filter Q l.
Proof.
  induction l as [ | a l IH]; intros Hall; [reflexivity | ].
  rewrite !filter_cons.
  assert (Ha : P a <-> Q a) by (apply Hall; left).
  assert (Hl : filter P l = filter Q l)
    by (apply IH; intros x Hx; apply Hall; right; exact Hx).
  destruct (decide (P a)), (decide (Q a)); try tauto; congruence.
Qed.

Lemma filter_filter_and {A} (P Q : A -> Prop)
      `{forall x, Decision (P x)} `{forall x, Decision (Q x)} (l : list A) :
  filter P (filter Q l) = filter (fun x => Q x /\ P x) l.
Proof.
  induction l as [ | a l IH]; [reflexivity | ].
  rewrite !filter_cons.
  destruct (decide (Q a)) as [Hq | Hq].
  - rewrite filter_cons. destruct (decide (P a)).
    + rewrite decide_True by tauto. f_equal. exact IH.
    + rewrite decide_False by tauto. exact IH.
  - rewrite decide_False by tauto. exact IH.
Qed.

(** Grouping by a key: the groups of the keys listed in [L], one after
    the other, hold the elements whose key is in [L]. *)
Lemma concat_groups {A B} (key : A -> Z) (name : A -> B) (l : list A) (L : list Z) :
  NoDup L ->
  concat (map (fun i => map name (filter (fun r => key r = i) l)) L)
  ≡ₚ map name (filter (fun r => key r ∈ L) l).
Proof.
  induction 1 as [ | i L Hi _ IH]; simpl.
  - rewrite (filter_same _ (fun _ => False)).
    + induction l as [ | r l IHl]; [reflexivity | ].
      rewrite filter_cons_False by tauto. exact IHl.
    + intros r _. rewrite elem_of_nil. tauto.
  - rewrite IH. rewrite <- map_app.
    apply Permutation_map.
    rewrite (filter_same (fun r => key r ∈ i :: L)
                         (fun r => key r = i \/ key r ∈ L)).
    + symmetry. apply filter_either. intros r -> Hr. exact (Hi Hr).
    + intros r _. rewrite elem_of_cons. tauto.
Qed.

Lemma concat_folds (df : list row) (L : list Z) :
  NoDup L ->
  concat (map (fold_filenames df) L)
  ≡ₚ map filename (filter (fun r => fold r ∈ L) df).
Proof. apply (concat_groups fold filename). Qed.

(** X3.  [get_folds_df] sorts the names of the table by fold: entry [i]
    of the result holds the names of the rows of fold [i] in table order,
    every row with a non-negative fold is found in the entry of its fold,
    and all entries together are a rearrangement of the names of the rows
    with a non-negative fold.  Rows with a negative fold are left out. *)
Theorem get_folds_df_partition (df : list row) :
  concat (get_folds_df df) ≡ₚ map filename (filter (fun r => 0 <= fold r) df)
  /\ (forall (i : nat) (l : list string),
         get_folds_df df !! i = Some l -> l = fold_filenames df (Z.of_nat i))
  /\ (forall r : row,
         r ∈ df -> 0 <= fold r ->
         exists l, get_folds_df df !! Z.to_nat (fold r) = Some l
                   /\ filename r ∈ l).
Proof.
  destruct df as [ | r0 rest]; [ | set (df := r0 :: rest)].
  { split; [reflexivity | split]; [intros i l H; destruct i; discriminate | ].
    intros r Hr. inversion Hr. }
  change (get_folds_df df)
    with (map (fold_filenames df) (seqZ 0 (fold_max r0 rest + 1))).
  split; [ | split].
  - rewrite concat_folds by apply NoDup_seqZ.
    erewrite filter_same; [reflexivity | ].
    intros r Hr. rewrite elem_of_seqZ.
    pose proof (fold_max_lower r0 rest r (proj1 (list_elem_of_In _ _) Hr)).
    lia.
  - intros i l H. rewrite list_lookup_fmap in H.
    destruct (seqZ 0 (fold_max r0 rest + 1) !! i) as [k | ] eqn:Hk;
      [ | discriminate].
    apply lookup_seqZ in Hk as [-> _]. injection H as <-. reflexivity.
  - intros r Hr Hfold.
    pose proof (fold_max_lower r0 rest r (proj1 (list_elem_of_In _ _) Hr)) as Hle.
    exists (fold_filenames df (fold r)). split.
    + rewrite list_lookup_fmap, lookup_seqZ_lt by lia. simpl.
      f_equal. f_equal. lia.
    + apply list_elem_of_In, in_fold_filenames. exists r.
      split; [apply list_elem_of_In, Hr | split; reflexivity].
Qed.

(** X4.  [get_folds_train_test_df] and [get_train_test_df] read the same
    table: the training folds together hold the names of the rows with
    [hold_out] 0 and a non-negative fold, the merged test list those with
    [hold_out] 1 and a non-negative fold; when no fold is negative, these
    are the two sets of [get_train_test_df] up to the order of the
    names. *)
Theorem folds_agree_with_train_test (df : list row) :
  exists (train_folds : list (list string)) (merged : list string),
    get_folds_train_test_df df true = (train_folds, Merged merged)
    /\ concat train_folds
       ≡ₚ map filename (filter (fun r => hold_out r = 0 /\ 0 <= fold r) df)
    /\ merged
       ≡ₚ map filename (filter (fun r => hold_out r = 1 /\ 0 <= fold r) df)
    /\ (Forall (fun r => 0 <= fold r) df ->
        concat train_folds ≡ₚ fst (Splits.get_train_test_df df)
        /\ merged ≡ₚ snd (Splits.get_train_test_df df)).
Proof.
  eexists _, _. split; [reflexivity | ].
  pose proof (get_folds_df_partition (filter (fun r => hold_out r = 0) df))
    as (H0 & _).
  pose proof (get_folds_df_partition (filter (fun r => hold_out r = 1) df))
    as (H1 & _).
  rewrite filter_filter_and in H0, H1.
  split; [exact H0 | split; [exact H1 | ]].
  intros Hall. rewrite H0, H1. unfold Splits.get_train_test_df. simpl.
  rewrite Forall_forall in Hall.
  split; (erewrite filter_same; [reflexivity | ]);
    intros r Hr; specialize (Hall r Hr); tauto.
Qed.

End FoldTable.

(** ** Training subsets *)

Section TrainingSplits.
Import Splits.

Lemma split_max_lower r rest x :
  x ∈ r :: rest -> split x <= split_max r rest.
Proof.
  unfold split_max. induction rest as [ | a rest IH]; intros Hx; simpl.
  - apply list_elem_of_singleton in Hx as ->. lia.
  - apply elem_of_cons in Hx as [-> | Hx].
    + specialize (IH (list_elem_of_here _ _)). lia.
    + apply elem_of_cons in Hx as [-> | Hx]; [lia | ].
      specialize (IH (list_elem_of_further _ _ _ Hx)). lia.
Qed.

Lemma train_where_sublist (sel sel' : Z -> bool) (df : list row) :
  (forall r, r ∈ df -> sel (split r) = true -> sel' (split r) = true) ->
  train_where sel df `sublist_of` train_where sel' df.
Proof.
  intros Himp. unfold train_where. apply fmap_sublist.
  induction df as [ | r df IH]; [constructor | ].
  assert (IH' := IH (fun x Hx => Himp x (list_elem_of_further _ _ _ Hx))).
  rewrite !filter_cons.
  destruct (decide (sel (split r) && training r = true)) as [Hs | Hs].
  - rewrite decide_True.
    + apply sublist_skip. exact IH'.
    + apply andb_true_iff in Hs as [Hs Ht]. rewrite Ht, andb_true_r.
      apply Himp; [left | exact Hs].
  - destruct (decide (sel' (split r) && training r = true)).
    + apply sublist_cons. exact IH'.
    + exact IH'.
Qed.

Lemma train_where_same (sel sel' : Z -> bool) (df : list row) :
  (forall r, r ∈ df -> sel (split r) = sel' (split r)) ->
  train_where sel df = train_where sel' df.
Proof.
  intros Hsame. unfold train_where. f_equal. apply filter_same.
  intros r Hr. rewrite (Hsame r Hr). tauto.
Qed.

(** X5.  [get_splits_train_val_test_overlapping] on a non-empty table:
    the training subsets are nested, each one a sub-list of every subset
    before it, and the last two are the same list.  An empty table raises
    [TypeError]. *)
Theorem overlapping_splits_nested (df : list row) :
  match get_splits_train_val_test_overlapping df with
  | Ok (train_splits, _, _) =>
      (forall (i j : nat) (a b : list string),
          (i <= j)%nat ->
          train_splits !! i = Some a -> train_splits !! j = Some b ->
          b `sublist_of` a)
      /\ exists n : nat,
           length train_splits = S n
           /\ (0 < n -> train_splits !! n = train_splits !! (n - 1))%nat
  | Raise e => df = [] /\ e = Py.TypeError
  end.
Proof.
  destruct df as [ | r0 rest]; [split; reflexivity | ].
  cbn [get_splits_train_val_test_overlapping]. set (df := r0 :: rest).
  set (m := split_max r0 rest).
  assert (Hm : forall r, r ∈ df -> split r <= m)
    by (intros r Hr; apply split_max_lower, Hr).
  set (ts := map (fun i => train_where (Z.leb i) df) (PyOps.range (m + 1))).
  set (n := Z.to_nat (m + 1)).
  assert (Hn : length ts = n)
    by (unfold ts, PyOps.range; rewrite length_map, length_seqZ; reflexivity).
  assert (Hts : forall (i : nat) a,
             ts !! i = Some a -> (i < n)%nat /\ a = train_where (Z.leb (Z.of_nat i)) df).
  { intros i a H. unfold ts, PyOps.range in H. rewrite list_lookup_fmap in H.
    destruct (seqZ 0 (m + 1) !! i) as [k | ] eqn:Hk; [ | discriminate].
    apply lookup_seqZ in Hk as [-> Hi]. injection H as <-.
    split; [unfold n; lia | reflexivity]. }
  assert (Hlast : (0 < n)%nat ->
             train_where (Z.eqb (m + 1 - 1)) df
             = train_where (Z.leb (Z.of_nat (n - 1))) df).
  { intros Hpos. apply train_where_same. intros r Hr. specialize (Hm r Hr).
    unfold n in *. destruct (Z.eqb_spec (m + 1 - 1) (split r)),
                     (Z.leb_spec (Z.of_nat (Z.to_nat (m + 1) - 1)) (split r));
      try reflexivity; lia. }
  split.
  - intros i j a b Hij Ha Hb.
    destruct (decide (n = 0%nat)) as [Hz | Hz].
    { assert (Hnil : ts = []) by (apply nil_length_inv; lia).
      rewrite Hnil in Ha, Hb. simpl in Ha, Hb.
      destruct i; [ | discriminate]. destruct j; [ | discriminate].
      injection Ha as <-. injection Hb as <-. reflexivity. }
    assert (Hin : forall (k : nat) c,
               (ts ++ [train_where (Z.eqb (m + 1 - 1)) df]) !! k = Some c ->
               c = train_where (Z.leb (Z.of_nat (Nat.min k (n - 1)))) df).
    { intros k c H. destruct (decide (k < n)%nat) as [Hk | Hk].
      - rewrite lookup_app_l in H by lia. destruct (Hts k c H) as [_ ->].
        do 3 f_equal. lia.
      - rewrite lookup_app_r in H by lia. rewrite Hn in H.
        destruct (k - n)%nat as [ | d] eqn:Hd; [ | destruct d; discriminate].
        injection H as <-. rewrite Hlast by lia. do 3 f_equal. lia. }
    rewrite (Hin i a Ha), (Hin j b Hb). apply train_where_sublist.
    intros r _ H. apply Z.leb_le in H. apply Z.leb_le. lia.
  - exists n. split; [rewrite length_app, Hn; simpl; lia | ].
    intros Hpos. rewrite lookup_app_r by lia. rewrite Hn, Nat.sub_diag.
    rewrite lookup_app_l by lia. simpl.
    unfold ts, PyOps.range. rewrite list_lookup_fmap, lookup_seqZ_lt by (unfold n in *; lia).
    simpl. f_equal. rewrite Hlast by lia. do 2 f_equal; lia.
Qed.

Lemma train_where_filter (sel : Z -> bool) (df : list row) :
  train_where sel df
  = map filename (filter (fun r => sel (split r) = true)
                         (filter (fun r => training r = true) df)).
Proof.
  unfold train_where. f_equal. rewrite filter_filter_and.
  apply filter_same. intros r _. rewrite andb_true_iff. tauto.
Qed.

Lemma names_apart (df : list row) (P Q : row -> Prop)
      `{forall x, Decision (P x)} `{forall x, Decision (Q x)} :
  List.NoDup (map filename df) ->
  (forall r, P r -> Q r -> False) ->
  forall x, x ∈ map filename (filter P df) -> x ∈ map filename (filter Q df) -> False.
Proof.
  intros Hnd Hdis x Hp Hq.
  apply list_elem_of_fmap in Hp as (a & -> & Ha), Hq as (b & Hab & Hb).
  apply list_elem_of_filter in Ha as [Hpa Ha], Hb as [Hqb Hb].
  induction df as [ | r df IH]; [inversion Ha | ].
  simpl in Hnd. inversion Hnd as [ | ? ? Hnotin Hnd']; subst.
  apply elem_of_cons in Ha as [-> | Ha], Hb as [-> | Hb].
  - exact (Hdis _ Hpa Hqb).
  - apply Hnotin. rewrite Hab. apply in_map, list_elem_of_In, Hb.
  - apply Hnotin. rewrite <- Hab. apply in_map, list_elem_of_In, Ha.
  - exact (IH Hnd' Ha Hb).
Qed.

(** X6.  [get_splits_train_val_test] on a non-empty table: the first
    training list holds every training name (fold other than 0, not held
    out); the lists after it, one per split index, are sub-lists of it and
    together a rearrangement of the training names with a non-negative
    split.  When the file names of the table are distinct, no name is
    shared between training, validation and test.  An empty table raises
    [TypeError]. *)
Theorem splits_partition (df : list row) :
  match get_splits_train_val_test df with
  | Ok (train_splits, val, test) =>
      exists (whole : list string) (parts : list (list string)),
        train_splits = whole :: parts
        /\ whole = train_where (fun _ => true) df
        /\ Forall (fun p => p `sublist_of` whole) parts
        /\ concat parts ≡ₚ train_where (Z.leb 0) df
        /\ (List.NoDup (map filename df) ->
            forall x, (x ∈ whole -> x ∈ val -> False)
                      /\ (x ∈ whole -> x ∈ test -> False)
                      /\ (x ∈ val -> x ∈ test -> False))
  | Raise e => df = [] /\ e = Py.TypeError
  end.
Proof.
  destruct df as [ | r0 rest]; [split; reflexivity | ].
  cbn [get_splits_train_val_test]. set (df := r0 :: rest).
  set (m := split_max r0 rest).
  eexists _, _. split; [reflexivity | split; [reflexivity | ]].
  split; [ | split].
  - apply Forall_fmap, Forall_forall. intros i _. simpl.
    apply train_where_sublist. reflexivity.
  - rewrite (map_ext _ (fun i => map filename
                                     (filter (fun r => split r = i)
                                             (filter (fun r => training r = true) df)))).
    + unfold PyOps.range.
      rewrite (concat_groups split filename) by apply NoDup_seqZ.
      rewrite train_where_filter.
      rewrite (filter_same (fun r => split r ∈ seqZ 0 (m + 1))
                           (fun r => (0 <=? split r) = true));
        [reflexivity | ].
      intros r Hr. apply list_elem_of_filter in Hr as [_ Hr].
      pose proof (split_max_lower r0 rest r Hr).
      rewrite elem_of_seqZ, Z.leb_le. fold m. lia.
    + intros i. rewrite train_where_filter. f_equal. apply filter_same.
      intros r _. rewrite Z.eqb_eq. split; congruence.
  - intros Hnd x. unfold train_where, valset, testset.
    split; [ | split]; apply (names_apart df _ _ Hnd); intros r H1 H2;
      unfold training in *; simpl in *;
      repeat match goal with
             | H : _ && _ = true |- _ => apply andb_true_iff in H as [? ?]
             end;
      repeat match goal with
             | H : negb _ = true |- _ => apply negb_true_iff in H
             | H : (_ =? _) = true |- _ => apply Z.eqb_eq in H
             | H : (_ =? _) = false |- _ => apply Z.eqb_neq in H
             end;
      lia.
Qed.

End TrainingSplits.

(** ** Epochs of the loader *)

Section Epochs.
Import Semseg.
Import BatchGenDataLoader.

Lemma same_settings_refl self : same_settings self self.
Proof. repeat split. Qed.

Lemma same_settings_trans a b c :
  same_settings a b -> same_settings b c -> same_settings a c.
Proof.
  unfold same_settings. intros H1 H2.
  destruct H1 as (? & ? & ? & ? & ? & ? & ? & ?).
  destruct H2 as (? & ? & ? & ? & ? & ? & ? & ?).
  repeat split; congruence.
Qed.

Lemma is_batch_settings a b r : same_settings a b -> is_batch b r -> is_batch a r.
Proof.
  intros (Hbs & _ & _ & Hidx & _) (idx & -> & Hl & Hall).
  exists idx. rewrite <- Hbs, <- Hidx. auto.
Qed.

(** One call below the step limit: a batch, and the position moves on by
    the number of threads. *)
Lemma get_indices_step (p : Z) (self : t) (g : rng) :
  indices self <> [] -> 0 <= batch_size self ->
  at_step p self -> p < nbof_steps self ->
  exists r self' g',
    get_indices (self, g) = (r, (self', g'))
    /\ is_batch self r
    /\ same_settings self self'
    /\ at_step (p + number_of_threads_in_multithreaded self) self'.
Proof.
  intros Hne Hbs Hat Hp.
  set (ready := if was_initialized self then self else reset self).
  assert (Hready : same_settings self ready
                   /\ was_initialized ready = true
                   /\ current_position ready = p).
  { unfold ready. destruct Hat as [[Hinit Hcur] | [Hinit ->]]; rewrite Hinit;
      (split; [repeat split | split; [ | ]]); auto. }
  destruct Hready as (Hsame & Hinit' & Hcur').
  pose proof Hsame as (Hbs' & Hsteps' & Hthreads' & Hidx' & _).
  destruct (np_random_choice_ok (indices ready) (batch_size ready) g)
    as (idx & g' & Hrun & Hl & Hall); [congruence | lia | ].
  exists (Ok idx),
         (set_position (current_position ready
                        + number_of_threads_in_multithreaded ready)
                       (was_initialized ready) ready), g'.
  split; [ | split; [ | split]].
  - unfold get_indices. fold ready. rewrite Hrun.
    destruct (current_position ready <? nbof_steps ready) eqn:E;
      [reflexivity | apply Z.ltb_ge in E; lia].
  - exists idx. split; [reflexivity | split; [lia | ]].
    rewrite <- Hidx'. eapply Forall_impl; [exact Hall | ].
    intros i Hi. apply list_elem_of_In, Hi.
  - exact Hsame.
  - left. split; [exact Hinit' | ]. cbn [current_position set_position]. lia.
Qed.

(** One call at or beyond the step limit: the end of the stream, and the
    loader marks itself uninitialised. *)
Lemma get_indices_end (p : Z) (self : t) (g : rng) :
  indices self <> [] -> 0 <= batch_size self ->
  at_step p self -> nbof_steps self <= p ->
  exists self' g',
    get_indices (self, g) = (Raise Py.StopIteration, (self', g'))
    /\ same_settings self self'
    /\ was_initialized self' = false.
Proof.
  intros Hne Hbs Hat Hp.
  set (ready := if was_initialized self then self else reset self).
  assert (Hready : same_settings self ready /\ current_position ready = p).
  { unfold ready. destruct Hat as [[Hinit Hcur] | [Hinit ->]]; rewrite Hinit;
      (split; [repeat split | ]); auto. }
  destruct Hready as (Hsame & Hcur').
  pose proof Hsame as (Hbs' & Hsteps' & Hthreads' & Hidx' & _).
  destruct (np_random_choice_ok (indices ready) (batch_size ready) g)
    as (idx & g' & Hrun & Hl & Hall); [congruence | lia | ].
  exists (set_position (current_position ready) false ready), g'.
  split; [ | split; [exact Hsame | reflexivity]].
  unfold get_indices. fold ready. rewrite Hrun.
  destruct (current_position ready <? nbof_steps ready) eqn:E;
    [apply Z.ltb_lt in E; lia | reflexivity].
Qed.

Lemma calls_steps (n : nat) : forall (p : Z) (self : t) (g : rng),
  indices self <> [] -> 0 <= batch_size self ->
  at_step p self ->
  (forall j : nat, (j < n)%nat ->
     p + Z.of_nat j * number_of_threads_in_multithreaded self < nbof_steps self) ->
  exists outs self' g',
    calls n (self, g) = (outs, (self', g'))
    /\ length outs = n
    /\ Forall (is_batch self) outs
    /\ same_settings self self'
    /\ at_step (p + Z.of_nat n * number_of_threads_in_multithreaded self) self'.
Proof.
  induction n as [ | n IH]; intros p self g Hne Hbs Hat Hall.
  - exists [], self, g. split; [reflexivity | split; [reflexivity | ]].
    split; [constructor | split; [apply same_settings_refl | ]].
    replace (p + Z.of_nat 0 * _) with p by lia. exact Hat.
  - destruct (get_indices_step p self g Hne Hbs Hat)
      as (r & self1 & g1 & Hrun & Hr & Hsame1 & Hat1).
    { specialize (Hall 0%nat). simpl in Hall. lia. }
    pose proof Hsame1 as (Hbs1 & Hsteps1 & Hthreads1 & Hidx1 & _).
    destruct (IH (p + number_of_threads_in_multithreaded self) self1 g1)
      as (outs & self2 & g2 & Hcalls & Hlouts & Houts & Hsame2 & Hat2).
    + congruence.
    + lia.
    + exact Hat1.
    + intros j Hj. specialize (Hall (S j)). rewrite Hthreads1, Hsteps1. lia.
    + exists (r :: outs), self2, g2.
      split; [ | split; [ | split; [ | split]]].
      * cbn [calls]. rewrite Hrun, Hcalls. reflexivity.
      * simpl. rewrite Hlouts. reflexivity.
      * constructor; [exact Hr | ].
        eapply Forall_impl; [exact Houts | ].
        intros o. apply is_batch_settings, Hsame1.
      * eapply same_settings_trans; eassumption.
      * rewrite Hthreads1 in Hat2.
        replace (p + Z.of_nat (S n) * number_of_threads_in_multithreaded self)
          with (p + number_of_threads_in_multithreaded self
                + Z.of_nat n * number_of_threads_in_multithreaded self) by lia.
        exact Hat2.
Qed.

Lemma epoch_length_spec (steps threads : Z) :
  1 <= threads ->
  let n := epoch_length steps threads in
  0 <= n /\ steps <= n * threads /\ (forall j, 0 <= j < n -> j * threads < steps).
Proof.
  intros Ht. unfold epoch_length. destruct (steps <=? 0) eqn:E; simpl.
  - apply Z.leb_le in E. split; [lia | split; [lia | intros j Hj; lia]].
  - apply Z.leb_gt in E.
    pose proof (Z.div_mod (steps + threads - 1) threads) as Hdm.
    pose proof (Z.mod_pos_bound (steps + threads - 1) threads) as Hmod.
    set (q := (steps + threads - 1) `div` threads) in *.
    split; [apply Z.div_pos; lia | ].
    split; [nia | ]. intros j Hj. nia.
Qed.

(** X7.  With [threads >= 1] worker threads a loader over a non-empty data
    set gives [ceil(nbof_steps / threads)] batches per epoch (none when
    [nbof_steps <= 0]): each call advances the position by [threads], the
    call after the last batch raises [StopIteration] and leaves the loader
    uninitialised, ready for the next epoch. *)
Theorem epoch_gives_ceil_batches (self : t) (g : rng) :
  1 <= number_of_threads_in_multithreaded self ->
  indices self <> [] -> 0 <= batch_size self ->
  was_initialized self = false ->
  exists (outs : list (result (list Z))) (self' : t) (g' : rng),
    calls (S (Z.to_nat (epoch_length (nbof_steps self)
                                     (number_of_threads_in_multithreaded self))))
          (self, g)
    = (outs ++ [Raise Py.StopIteration], (self', g'))
    /\ Z.of_nat (length outs)
       = epoch_length (nbof_steps self) (number_of_threads_in_multithreaded self)
    /\ Forall (is_batch self) outs
    /\ same_settings self self'
    /\ was_initialized self' = false.
Proof.
  intros Ht Hne Hbs Hinit.
  destruct (epoch_length_spec (nbof_steps self)
              (number_of_threads_in_multithreaded self) Ht) as (Hn & Hup & Hlow).
  set (n := epoch_length _ _) in *.
  destruct (calls_steps (Z.to_nat n) 0 self g Hne Hbs)
    as (outs & self1 & g1 & Hcalls & Hlouts & Houts & Hsame1 & Hat1).
  { right. split; [exact Hinit | reflexivity]. }
  { intros j Hj. specialize (Hlow (Z.of_nat j)). lia. }
  pose proof Hsame1 as (Hbs1 & Hsteps1 & Hthreads1 & Hidx1 & _).
  destruct (get_indices_end _ self1 g1 ltac:(congruence) ltac:(lia) Hat1)
    as (self2 & g2 & Hstop & Hsame2 & Hinit2).
  { rewrite Hsteps1. lia. }
  exists outs, self2, g2. split; [ | split; [lia | split; [exact Houts | split]]].
  - replace (S (Z.to_nat n)) with (Z.to_nat n + 1)%nat by lia.
    rewrite calls_app, Hcalls. cbn [calls]. rewrite Hstop. reflexivity.
  - eapply same_settings_trans; eassumption.
  - exact Hinit2.
Qed.

(** X8.  With a thread count that is not positive and [nbof_steps > 0]
    the position never reaches the limit: every call returns a batch and
    [StopIteration] is never raised, however many calls are made. *)
Theorem no_stop_without_threads (self : t) (g : rng) (n : nat) :
  number_of_threads_in_multithreaded self <= 0 ->
  0 < nbof_steps self ->
  indices self <> [] -> 0 <= batch_size self ->
  was_initialized self = false ->
  exists (outs : list (result (list Z))) (s' : t * rng),
    calls n (self, g) = (outs, s')
    /\ length outs = n
    /\ Forall (is_batch self) outs.
Proof.
  intros Ht Hsteps Hne Hbs Hinit.
  destruct (calls_steps n 0 self g Hne Hbs)
    as (outs & self1 & g1 & Hcalls & Hlouts & Houts & _).
  { right. split; [exact Hinit | reflexivity]. }
  { intros j Hj. nia. }
  exists outs, (self1, g1). auto.
Qed.

(** X9.  [get_indices] raises [ValueError] on every call when the batch
    size is negative, and when the loader has no sample while the batch
    size is not 0; the position is not advanced. *)
Theorem get_indices_value_error (self : t) (g : rng) :
  batch_size self < 0 \/ (indices self = [] /\ batch_size self <> 0) ->
  exists (self' : t) (g' : rng),
    get_indices (self, g) = (Raise Py.ValueError, (self', g'))
    /\ same_settings self self'
    /\ current_position self'
       = (if was_initialized self then current_position self else 0)
    /\ generate_train_batch (self, g) = (Raise Py.ValueError, (self', g')).
Proof.
  intros H.
  set (ready := if was_initialized self then self else reset self).
  assert (Hready : same_settings self ready
                   /\ current_position ready
                      = (if was_initialized self then current_position self else 0)).
  { unfold ready. destruct (was_initialized self); split; repeat split. }
  destruct Hready as (Hsame & Hcur).
  pose proof Hsame as (Hbs' & _ & _ & Hidx' & _).
  assert (Hrun : np_random_choice (indices ready) (batch_size ready) g
                 = (Raise Py.ValueError, g)).
  { unfold np_random_choice. rewrite Hbs', Hidx'.
    destruct H as [Hneg | [Hnil Hnz]].
    - destruct (batch_size self <? 0) eqn:E; [reflexivity | ].
      apply Z.ltb_ge in E. lia.
    - rewrite Hnil. destruct (batch_size self <? 0); [reflexivity | ].
      destruct (batch_size self =? 0) eqn:E; [ | reflexivity].
      apply Z.eqb_eq in E. contradiction. }
  assert (Hget : get_indices (self, g) = (Raise Py.ValueError, (ready, g))).
  { unfold get_indices. fold ready. rewrite Hrun. reflexivity. }
  exists ready, g. split; [exact Hget | split; [exact Hsame | split; [exact Hcur | ]]].
  unfold generate_train_batch, St.bind. rewrite Hget. reflexivity.
Qed.

End Epochs.

Lemma epoch_gives_ceil_batches_witness :
  exists (outs : list (result (list Z))) (self' : Semseg.BatchGenDataLoader.t)
         (g' : rng),
    calls 4 (train_loader 2 5 2, constant_rng 0)
    = (outs ++ [Raise Py.StopIteration], (self', g'))
    /\ Z.of_nat (length outs) = 3.
Proof.
  destruct (epoch_gives_ceil_batches (train_loader 2 5 2) (constant_rng 0))
    as (outs & self' & g' & H & Hl & _).
  - simpl. lia.
  - discriminate.
  - simpl. lia.
  - reflexivity.
  - exists outs, self', g'. split; [exact H | exact Hl].
Defined.

Lemma no_stop_without_threads_witness :
  exists (outs : list (result (list Z))) (s' : Semseg.BatchGenDataLoader.t * rng),
    calls 7 (train_loader 2 5 0, constant_rng 0) = (outs, s')
    /\ length outs = 7%nat
    /\ Forall (is_batch (train_loader 2 5 0)) outs.
Proof.
  apply (no_stop_without_threads (train_loader 2 5 0) (constant_rng 0) 7).
  - simpl. lia.
  - simpl. lia.
  - discriminate.
  - simpl. lia.
  - reflexivity.
Defined.

Lemma get_indices_value_error_witness :
  exists (self' : Semseg.BatchGenDataLoader.t) (g' : rng),
    Semseg.BatchGenDataLoader.get_indices (empty_loader 2, constant_rng 0)
    = (Raise Py.ValueError, (self', g'))
    /\ Semseg.BatchGenDataLoader.generate_train_batch (empty_loader 2, constant_rng 0)
       = (Raise Py.ValueError, (self', g')).
Proof.
  destruct (get_indices_value_error (empty_loader 2) (constant_rng 0))
    as (self' & g' & H1 & _ & _ & H2).
  - right. split; [reflexivity | simpl; lia].
  - exists self', g'. split; assumption.
Defined.

(** ** Splitting a directory, and the batches of file names *)

Section DirectorySplit.
Import Semseg.
Import BatchGenDataLoader.

Variable listdir : string -> list string.
Variable adaptive_imread : string -> result Np.ndarray.

Lemma mul_comm (x y : spec_float) : F64.mul x y = F64.mul y x.
Proof.
  unfold F64.mul.
  destruct x as [sx | sx | | sx mx ex], y as [sy | sy | | sy my ey]; simpl;
    try reflexivity; try (rewrite xorb_comm; reflexivity).
  rewrite xorb_comm, Pos.mul_comm, Z.add_comm. reflexivity.
Qed.

Lemma slices_partition {A} (l : list A) (k : Z) :
  PyOps.slice_to l k ++ PyOps.slice_from l k = l.
Proof. unfold PyOps.slice_to, PyOps.slice_from. apply take_drop. Qed.

Lemma rne_div_nonneg (n d : Z) : 0 <= n -> 0 < d -> 0 <= rne_div n d.
Proof.
  intros Hn Hd. unfold rne_div.
  pose proof (Z.div_pos n d Hn Hd).
  destruct (_ ?= _); [destruct (Z.even _) | | ]; lia.
Qed.

(** What the constructor computes, step by step. *)
Lemma init_inv img_dir msk_dir bs steps folds_csv fold val_split
      train load_data threads self :
  init listdir adaptive_imread img_dir msk_dir bs steps folds_csv fold
       val_split train load_data threads = Ok self ->
  exists f tr va,
    split_names listdir img_dir folds_csv fold val_split = Ok (f, tr, va)
    /\ generate_data adaptive_imread img_dir msk_dir load_data
                     (if train then tr else va) = Ok (_data self)
    /\ BatchGenDataLoader.fold self = f
    /\ train_imgs self = tr /\ val_imgs self = va
    /\ fnames self = (if train then tr else va)
    /\ BatchGenDataLoader.img_dir self = img_dir
    /\ BatchGenDataLoader.msk_dir self = msk_dir
    /\ batch_size self = bs /\ nbof_steps self = steps
    /\ number_of_threads_in_multithreaded self = threads
    /\ indices self = seqZ 0 (Z.of_nat (length (_data self)))
    /\ current_position self = 0 /\ was_initialized self = false.
Proof.
  unfold init.
  destruct (split_names _ _ _ _ _) as [[[f tr] va] | e]; [ | discriminate].
  cbn [PyOps.bind].
  destruct (generate_data _ _ _ _ _) as [data | e] eqn:Hdata; [ | discriminate].
  cbn [PyOps.bind]. intros H. injection H as <-.
  exists f, tr, va. cbn. repeat split; auto.
Qed.

(** X10.  Without a folds table the constructor splits the directory
    listing in two: the validation names are a prefix of the listing and
    the training names the rest, whatever [val_split] is.  With the default
    [val_split = 0.25] and [n] files the prefix has
    [max(1, round(n / 4))] names, halves rounded to the even neighbour. *)
Theorem directory_split img_dir msk_dir bs steps fold val_split
      train load_data threads (self : t) :
  init listdir adaptive_imread img_dir msk_dir bs steps None fold
       val_split train load_data threads = Ok self ->
  val_imgs self ++ train_imgs self = listdir img_dir
  /\ fnames self = (if train then train_imgs self else val_imgs self)
  /\ (val_split = quarter ->
      Z.of_nat (length (listdir img_dir)) < 2 ^ 53 ->
      let k := Z.to_nat (Z.max 1 (rne_div (Z.of_nat (length (listdir img_dir))) 4)) in
      val_imgs self = take k (listdir img_dir)
      /\ train_imgs self = drop k (listdir img_dir)).
Proof.
  intros Hinit.
  destruct (init_inv _ _ _ _ _ _ _ _ _ _ _ Hinit)
    as (f & tr & va & Hsplit & _ & _ & -> & -> & -> & _).
  cbn [split_names] in Hsplit. injection Hsplit as <- <- <-.
  split; [apply slices_partition | ]. split; [reflexivity | ].
  intros -> Hn. cbv zeta.
  set (all_set := listdir img_dir) in *.
  set (n := Z.of_nat (length all_set)) in *.
  rewrite mul_comm. change quarter with (pow2_neg 2).
  rewrite round_scaled_pow2 by lia. change (2 ^ 2) with 4.
  pose proof (rne_div_nonneg n 4 ltac:(lia) ltac:(lia)) as Hq.
  set (q := rne_div n 4) in *.
  assert (Hk : (if q =? 0 then 1 else q) = Z.max 1 q).
  { destruct (Z.eqb_spec q 0); lia. }
  rewrite Hk. unfold PyOps.slice_to, PyOps.slice_from, PyOps.clip_index.
  destruct (Z.max 1 q <? 0) eqn:E; [apply Z.ltb_lt in E; lia | ].
  fold n. destruct (Z.le_ge_cases (Z.max 1 q) n) as [Hle | Hge].
  - rewrite Z.min_l by lia. split; reflexivity.
  - rewrite Z.min_r by lia. unfold n. rewrite Nat2Z.id.
    rewrite firstn_all, drop_all.
    rewrite take_ge, drop_ge by (unfold n in *; lia). split; reflexivity.
Qed.

Lemma np_random_choice_length (a : list Z) (size : Z) (g g' : rng) (idx : list Z) :
  np_random_choice a size g = (Ok idx, g') ->
  Z.of_nat (length idx) = size /\ Forall (fun i => i ∈ a) idx.
Proof.
  intros H. unfold np_random_choice in H.
  destruct (size <? 0) eqn:E; [discriminate | apply Z.ltb_ge in E].
  destruct a as [ | x a].
  - destruct (Z.eqb_spec size 0) as [-> | ]; [ | discriminate].
    injection H as <- <-. split; [reflexivity | constructor].
  - destruct (np_random_choice_ok (x :: a) size g ltac:(discriminate) E)
      as (idx' & g'' & Hrun & Hl & Hall).
    unfold np_random_choice in Hrun.
    destruct (size <? 0) eqn:E'; [apply Z.ltb_lt in E'; lia | ].
    rewrite Hrun in H. injection H as <- <-. split; [exact Hl | ].
    eapply Forall_impl; [exact Hall | ]. intros i Hi. apply list_elem_of_In, Hi.
Qed.

Lemma generate_data_names img_dir msk_dir fnames :
  generate_data adaptive_imread img_dir msk_dir false fnames
  = Ok (map (fun f => {| data := DPath (Utils.path_join img_dir f);
                         seg := DPath (Utils.path_join msk_dir f) |}) fnames).
Proof.
  unfold generate_data. induction fnames as [ | f fnames IH]; [reflexivity | ].
  cbn [PyOps.traverse PyOps.bind map]. rewrite IH. reflexivity.
Qed.

Lemma getitem_elem {A} (l : list A) (i : Z) (x : A) :
  PyOps.getitem l i = Ok x -> x ∈ l.
Proof.
  unfold PyOps.getitem. destruct (PyOps.norm_index _ _) as [k | e]; [ | discriminate].
  cbn [PyOps.bind]. destruct (l !! k) as [y | ] eqn:Hk; [ | discriminate].
  intros H. injection H as <-. eapply list_elem_of_lookup_2, Hk.
Qed.

Lemma getitem_in_range {A} (l : list A) (i : Z) :
  0 <= i < Z.of_nat (length l) -> exists x, PyOps.getitem l i = Ok x.
Proof.
  intros Hi. unfold PyOps.getitem. rewrite norm_index_in_range by lia.
  cbn [PyOps.bind].
  destruct (lookup_lt_is_Some_2 l (Z.to_nat i) ltac:(lia)) as (x & Hx).
  rewrite Hx. exists x. reflexivity.
Qed.

Lemma traverse_getitem {A} (l : list A) (idx : list Z) :
  Forall (fun i => 0 <= i < Z.of_nat (length l)) idx ->
  exists xs, PyOps.traverse (PyOps.getitem l) idx = Ok xs.
Proof.
  induction 1 as [ | i idx Hi _ (xs & IH)].
  - exists []. reflexivity.
  - destruct (getitem_in_range l i Hi) as (x & Hx).
    exists (x :: xs). simpl. rewrite Hx. simpl. rewrite IH. reflexivity.
Qed.

(** X11.  The first batch of a loader built over file names (no array
    loaded): [generate_train_batch] returns [batch_size] image entries and
    as many mask entries, and the entries at one position are the paths of
    one and the same file name, in the image and in the mask directory. *)
Theorem batch_pairs_image_with_mask img_dir msk_dir bs steps folds_csv fold
      val_split train threads (self : t) (g : rng) :
  init listdir adaptive_imread img_dir msk_dir bs steps folds_csv fold
       val_split train false threads = Ok self ->
  fnames self <> [] -> 0 <= bs -> 0 < steps ->
  exists (imgs msks : list datum) (s' : t * rng),
    generate_train_batch (self, g) = (Ok (imgs, msks), s')
    /\ Z.of_nat (length imgs) = bs
    /\ length msks = length imgs
    /\ (forall (j : nat) (img msk : datum),
           imgs !! j = Some img -> msks !! j = Some msk ->
           exists f : string,
             f ∈ fnames self
             /\ img = DPath (Utils.path_join img_dir f)
             /\ msk = DPath (Utils.path_join msk_dir f)).
Proof.
  intros Hinit Hne Hbs Hsteps.
  destruct (init_inv _ _ _ _ _ _ _ _ _ _ _ Hinit)
    as (f & tr & va & _ & Hdata & _ & _ & _ & Hfn & _ & _ & Hb & Hs & _ & Hidx
        & Hpos & Hwas).
  rewrite <- Hfn, generate_data_names in Hdata. injection Hdata as Hdata.
  assert (Hlen : length (_data self) = length (fnames self))
    by (rewrite <- Hdata; apply length_map).
  destruct (get_indices_step 0 self g) as (r & self1 & g1 & Hrun & Hr & Hsame & _).
  { rewrite Hidx. intros Hnil. apply (f_equal length) in Hnil.
    rewrite length_seqZ, Hlen in Hnil. destruct (fnames self); [congruence | ].
    simpl in Hnil. lia. }
  { lia. }
  { right. split; [exact Hwas | reflexivity]. }
  { lia. }
  destruct Hr as (idx & -> & Hl & Hall).
  pose proof Hsame as (_ & _ & _ & _ & Hdata1 & _).
  assert (Hget : exists batch_list,
             PyOps.traverse (PyOps.getitem (_data self1)) idx = Ok batch_list).
  { rewrite Hdata1. apply traverse_getitem.
    eapply Forall_impl; [exact Hall | ]. intros i Hi.
    rewrite Hidx in Hi. apply elem_of_seqZ in Hi. lia. }
  destruct Hget as (batch_list & Hget).
  exists (map data batch_list), (map seg batch_list), (self1, g1).
  pose proof (traverse_ok_inv _ _ _ Hget) as Hall2.
  split; [ | split; [ | split]].
  - unfold generate_train_batch, St.bind. rewrite Hrun, Hget. reflexivity.
  - rewrite length_map, <- (Forall2_length _ _ _ Hall2). lia.
  - rewrite !length_map. reflexivity.
  - intros j img msk Himg Hmsk. rewrite list_lookup_fmap in Himg, Hmsk.
    destruct (batch_list !! j) as [smp | ] eqn:Hj; [ | discriminate].
    injection Himg as <-. injection Hmsk as <-.
    destruct (Forall2_lookup_r _ _ _ _ _ Hall2 Hj) as (i & _ & Hi).
    apply getitem_elem in Hi. rewrite Hdata1, <- Hdata in Hi.
    apply list_elem_of_fmap in Hi as (fname & -> & Hf).
    exists fname. split; [exact Hf | split; reflexivity].
Qed.

End DirectorySplit.

Lemma directory_split_witness :
  Semseg.BatchGenDataLoader.init four_files no_imread "img" "msk" 2 5 None 0
                                 quarter true false 2
  = Ok (train_loader 2 5 2)
  /\ Semseg.BatchGenDataLoader.val_imgs (train_loader 2 5 2)
     = take 1 (four_files "img")
  /\ Semseg.BatchGenDataLoader.train_imgs (train_loader 2 5 2)
     = drop 1 (four_files "img").
Proof.
  assert (H : Semseg.BatchGenDataLoader.init four_files no_imread "img" "msk" 2 5
                None 0 quarter true false 2
              = Ok (train_loader 2 5 2)) by (vm_compute; reflexivity).
  split; [exact H | ].
  destruct (directory_split four_files no_imread _ _ _ _ _ _ _ _ _ _ H)
    as (_ & _ & Hq).
  apply (Hq eq_refl). reflexivity.
Defined.

Lemma batch_pairs_image_with_mask_witness :
  exists (imgs msks : list Semseg.BatchGenDataLoader.datum)
         (s' : Semseg.BatchGenDataLoader.t * rng),
    Semseg.BatchGenDataLoader.generate_train_batch
      (train_loader 2 5 2, constant_rng 0)
    = (Ok (imgs, msks), s')
    /\ Z.of_nat (length imgs) = 2
    /\ length msks = length imgs.
Proof.
  assert (H : Semseg.BatchGenDataLoader.init four_files no_imread "img" "msk" 2 5
                None 0 quarter true false 2
              = Ok (train_loader 2 5 2)) by (vm_compute; reflexivity).
  destruct (batch_pairs_image_with_mask four_files no_imread _ _ _ _ _ _ _ _ _
              _ (constant_rng 0) H)
    as (imgs & msks & s' & Hrun & Hl1 & Hl2 & _).
  - discriminate.
  - lia.
  - lia.
  - exists imgs, msks, s'. split; [exact Hrun | split; assumption].
Defined.

(** ** The held-out fold of the loader *)

Section HeldOutFold.
Import Semseg.
Import BatchGenDataLoader.
Import Utils.

Variable listdir : string -> list string.
Variable adaptive_imread : string -> result Np.ndarray.

Lemma norm_index_inv (i n : Z) (k : nat) :
  PyOps.norm_index i n = Ok k ->
  0 <= Z.of_nat k < n /\ (Z.of_nat k = i \/ (i < 0 /\ Z.of_nat k = i + n)).
Proof.
  unfold PyOps.norm_index.
  destruct (i <? 0) eqn:E1;
    [apply Z.ltb_lt in E1 | apply Z.ltb_ge in E1];
    destruct (_ && _) eqn:E2; try discriminate;
    apply andb_true_iff in E2 as [H1 H2];
    apply Z.leb_le in H1; apply Z.ltb_lt in H2;
    intros H; injection H as <-; lia.
Qed.

(** Taking one entry out of a list of lists loses no element. *)
Lemma getitem_delitem_concat {A} (l : list (list A)) (i : Z) (v : list A)
      (l' : list (list A)) :
  PyOps.getitem l i = Ok v -> PyOps.delitem l i = Ok l' ->
  v ++ concat l' ≡ₚ concat l.
Proof.
  unfold PyOps.getitem, PyOps.delitem.
  destruct (PyOps.norm_index _ _) as [k | e]; [ | discriminate].
  cbn [PyOps.bind]. destruct (l !! k) as [x | ] eqn:Hk; [ | discriminate].
  intros Hv Hl. injection Hv as <-. injection Hl as <-.
  rewrite <- (take_drop_middle l k x Hk) at 3.
  rewrite !concat_app. simpl. rewrite !app_assoc.
  apply Permutation_app_tail, Permutation_app_comm.
Qed.

(** X12.  With a folds table, whatever fold index the constructor
    accepts: the validation names are those of one training fold, the
    fold [fold] when it is not negative and the fold counted from the end
    when it is ([-1] is the last fold); the validation and training names
    together are a rearrangement of the names of all rows that are not held
    out and have a non-negative fold. *)
Theorem held_out_fold_partition img_dir msk_dir bs steps df fold val_split
      train load_data threads (self : t) :
  init listdir adaptive_imread img_dir msk_dir bs steps (Some df) fold
       val_split train load_data threads = Ok self ->
  (exists k : Z,
      0 <= k < nbof_train_folds df
      /\ (k = fold \/ (fold < 0 /\ k = fold + nbof_train_folds df))
      /\ val_imgs self = fold_filenames (non_holdout df) k)
  /\ val_imgs self ++ train_imgs self
     ≡ₚ map filename (filter (fun r => hold_out r = 0 /\ 0 <= Utils.fold r) df).
Proof.
  intros Hinit.
  destruct (init_inv _ _ _ _ _ _ _ _ _ _ _ _ _ Hinit)
    as (f & tr & va & Hsplit & _ & _ & -> & -> & _).
  cbn [split_names get_folds_train_test_df] in Hsplit.
  fold (non_holdout df) in Hsplit.
  destruct (PyOps.getitem _ fold) as [v | e] eqn:Hget; [ | discriminate].
  cbn [PyOps.bind] in Hsplit.
  destruct (PyOps.delitem _ fold) as [l' | e] eqn:Hdel; [ | discriminate].
  cbn [PyOps.bind] in Hsplit. injection Hsplit as _ <- <-.
  split.
  - unfold PyOps.getitem in Hget.
    destruct (PyOps.norm_index _ _) as [k | e] eqn:Hk; [ | discriminate].
    cbn [PyOps.bind] in Hget.
    destruct (_ !! k) as [x | ] eqn:Hx; [ | discriminate].
    injection Hget as ->.
    apply norm_index_inv in Hk. fold (nbof_train_folds df) in Hk.
    exists (Z.of_nat k). split; [lia | split; [lia | ]].
    apply (proj1 (proj2 (get_folds_df_partition (non_holdout df)))), Hx.
  - rewrite (getitem_delitem_concat _ _ _ _ Hget Hdel).
    rewrite (proj1 (get_folds_df_partition (non_holdout df))).
    unfold non_holdout. rewrite filter_filter_and. reflexivity.
Qed.

End HeldOutFold.

Lemma held_out_fold_partition_witness :
  exists self : Semseg.BatchGenDataLoader.t,
    Semseg.BatchGenDataLoader.init no_listdir no_imread "img" "msk" 2 5
                                   (Some hundred_rows) (-1) quarter false false 1
    = Ok self
    /\ exists k : Z,
         0 <= k < nbof_train_folds hundred_rows
         /\ (k = -1 \/ (-1 < 0 /\ k = -1 + nbof_train_folds hundred_rows))
         /\ Semseg.BatchGenDataLoader.val_imgs self
            = Utils.fold_filenames (non_holdout hundred_rows) k.
Proof.
  destruct (Semseg.BatchGenDataLoader.init no_listdir no_imread "img" "msk" 2 5
              (Some hundred_rows) (-1) quarter false false 1) as [self | e] eqn:H.
  - exists self. split; [reflexivity | ].
    exact (proj1 (held_out_fold_partition no_listdir no_imread _ _ _ _ _ _ _ _ _ _ _ H)).
  - vm_compute in H. discriminate.
Defined.

(** ** Image and mask stay registered *)

Section Registration.
Import Np Semseg.

Lemma slice_source_window : forall (start crop sp q : list Z),
  length start = length sp -> length crop = length sp -> length q = length sp ->
  Forall (fun x => 0 <= x) start ->
  slice_source (zip_with mk_slice start (zip_with Z.add start crop)) sp q
  = zip_with Z.add (zip_with Z.min start sp) q.
Proof.
  induction start as [ | x start IH]; intros [ | t crop] [ | s sp] [ | y q] H1 H2 H3 Hs;
    simpl in *; try discriminate; try reflexivity.
  inversion Hs; subst. rewrite IH by (assumption || lia). f_equal.
  unfold slice_start, PyOps.clip_index. cbn [sl_start].
  destruct (x <? 0) eqn:E; [apply Z.ltb_lt in E; lia | reflexivity].
Qed.

Lemma window_fits : forall (start crop sp : list Z),
  length start = length sp -> length crop = length sp ->
  Forall (fun x => 0 <= x) start -> Forall (fun x => 0 <= x) crop ->
  Forall (fun x => 0 <= x) sp ->
  fits (zip_with Z.min start sp)
       (slice_shape (zip_with mk_slice start (zip_with Z.add start crop)) sp)
       sp crop.
Proof.
  induction start as [ | x start IH]; intros [ | t crop] [ | s sp] H1 H2 Hs Hc Hsp;
    simpl in *; try discriminate.
  - split; [reflexivity | split; [reflexivity | split; [reflexivity | ]]].
    intros i o e s t H. destruct i; discriminate.
  - inversion Hs; inversion Hc; inversion Hsp; subst.
    destruct (IH crop sp) as (L1 & L2 & L3 & Hall); try assumption; try lia.
    split; [simpl; lia | split; [simpl; lia | split; [simpl; lia | ]]].
    intros [ | i] o e s' t' Ho He Hs' Ht'; simpl in *.
    + injection Ho as <-. injection He as <-. injection Hs' as <-.
      injection Ht' as <-.
      unfold slice_len, slice_stop, slice_start, PyOps.clip_index.
      cbn [sl_start sl_stop].
      destruct (x + t <? 0) eqn:E1; [apply Z.ltb_lt in E1; lia | ].
      destruct (x <? 0) eqn:E2; [apply Z.ltb_lt in E2; lia | ].
      lia.
    + eapply Hall; eassumption.
Qed.

Lemma crop_block (img msk : ndarray) (start crop : list Z) c cm sp (w : world)
      (k : ndarray * ndarray -> St world (ndarray * ndarray)) :
  shape img = c :: sp -> shape msk = cm :: sp -> 0 <= c -> 0 <= cm ->
  length start = length sp -> length crop = length sp ->
  Forall (fun x => 0 <= x) start -> Forall (fun x => 0 <= x) crop ->
  Forall (fun x => 0 <= x) sp ->
  exists p,
    same_window img msk c cm sp crop p
    /\ (let! end_ := St.lift (broadcast2 Z.add start crop) in
        let! idx := St.lift (crop_index img start end_) in
        let! crop_img := St.lift (getitem_slices img idx) in
        let! crop_msk := St.lift (getitem_slices msk idx) in
        k (crop_img, crop_msk)) w
       = k p w.
Proof.
  intros Himg Hmsk Hc Hcm Hl1 Hl2 Hs Hcrop Hsp.
  set (idx := mk_slice 0 c :: zip_with mk_slice start (zip_with Z.add start crop)).
  assert (Hidx : length idx = S (length sp)).
  { unfold idx. simpl. rewrite !length_zip_with. lia. }
  eexists (_, _). split; cycle 1.
  - rewrite lift_bind, broadcast2_same_length by lia.
    rewrite lift_bind. unfold crop_index, shape0. rewrite Himg.
    cbn [PyOps.bind]. fold idx.
    rewrite lift_bind. unfold getitem_slices at 1.
    destruct (decide _) as [_ | Hn]; [ | rewrite Himg, Hidx in Hn; simpl in Hn; lia].
    rewrite lift_bind. unfold getitem_slices at 1.
    destruct (decide _) as [_ | Hn]; [ | rewrite Hmsk, Hidx in Hn; simpl in Hn; lia].
    reflexivity.
  - exists (zip_with Z.min start sp),
           (slice_shape (zip_with mk_slice start (zip_with Z.add start crop)) sp).
    split; [apply window_fits; assumption | ].
    assert (Hch : forall n, 0 <= n -> slice_start (mk_slice 0 c) n = 0).
    { intros n Hn. unfold slice_start, PyOps.clip_index. cbn [sl_start].
      simpl. lia. }
    split; split.
    + cbn [fst shape]. rewrite Himg. unfold idx. cbn [slice_shape].
      rewrite slice_len_full by lia. f_equal. lia.
    + intros ch q Hq. rewrite length_zip_with in Hq.
      cbn [fst item]. rewrite Himg. unfold idx. cbn [slice_source].
      rewrite Hch by lia.
      rewrite slice_source_window by (assumption || lia). reflexivity.
    + cbn [snd shape]. rewrite Hmsk. unfold idx. cbn [slice_shape].
      rewrite slice_len_full by lia. reflexivity.
    + intros ch q Hq. rewrite length_zip_with in Hq.
      cbn [snd item]. rewrite Hmsk. unfold idx. cbn [slice_source].
      rewrite Hch by lia.
      rewrite slice_source_window by (assumption || lia). reflexivity.
Qed.

Lemma random_crop_window (img msk : ndarray) (crop : list Z) c cm sp w :
  shape img = c :: sp -> shape msk = cm :: sp -> 0 <= c -> 0 <= cm ->
  length crop = length sp -> Forall (fun x => 0 <= x) crop ->
  Forall (fun x => 0 <= x) sp ->
  exists p w', random_crop img msk crop w = (Ok p, w')
               /\ same_window img msk c cm sp crop p.
Proof.
  intros Himg Hmsk Hc Hcm Hlen Hcrop Hsp. unfold random_crop, spatial.
  rewrite Himg. cbn [tail].
  rewrite lift_bind, bool_decide_eq_true_2 by lia. cbn [PyOps.assert].
  destruct (random_crop_start_ok sp crop w) as (start & w' & Hrun & Hl & Hs);
    [lia | ].
  rewrite (bind_ok _ _ _ _ _ Hrun).
  destruct (crop_block img msk start crop c cm sp w' St.ret)
    as (p & Hp & Heq); try assumption.
  rewrite Heq. exists p, w'. split; [reflexivity | exact Hp].
Qed.

Lemma located_crop_window (img msk : ndarray) (location crop margin : list Z)
      c cm sp w :
  shape img = c :: sp -> shape msk = cm :: sp -> 0 <= c -> 0 <= cm ->
  length location = length sp -> length crop = length sp ->
  length margin = length sp -> Forall (fun x => 0 <= x) crop ->
  Forall (fun x => 0 <= x) sp ->
  exists p w',
    located_crop img msk location crop margin w = (Ok p, w')
    /\ same_window img msk c cm sp crop p.
Proof.
  intros Himg Hmsk Hc Hcm Hloc Hlen Hmargin Hcrop Hsp.
  unfold located_crop, spatial. rewrite Himg. cbn [tail].
  destruct (located_crop_start_ok sp location crop margin w)
    as (start & w' & Hrun & Hl & Hs & _); try assumption.
  rewrite (bind_ok _ _ _ _ _ Hrun).
  destruct (crop_block img msk start crop c cm sp w' St.ret)
    as (p & Hp & Heq); try assumption.
  rewrite Heq. exists p, w'. split; [reflexivity | exact Hp].
Qed.

Lemma foreground_crop_window (img msk : ndarray) (crop margin : list Z)
      c cm sp w :
  shape img = c :: sp -> shape msk = cm :: sp -> 0 <= c -> 1 <= cm ->
  length crop = length sp -> length margin = length sp ->
  Forall (fun x => 0 <= x) crop -> Forall (fun x => 0 <= x) sp ->
  exists p w',
    foreground_crop img msk crop margin w = (Ok p, w')
    /\ same_window img msk c cm sp crop p.
Proof.
  intros Himg Hmsk Hc Hcm Hlen Hmargin Hcrop Hsp.
  unfold foreground_crop, foreground_center.
  unfold St.bind at 1.
  rewrite lift_bind. unfold shape0. rewrite Hmsk.
  unfold random_randint.
  destruct (cm - 1 <? 0) eqn:E; [apply Z.ltb_lt in E; lia | clear E].
  unfold St.bind at 1. unfold St.bind at 1.
  cbn [py_next Rng.next St.ret].
  set (rnd_label := Rng.below 0 (cm - 1 + 1) (py_random w 0%nat)).
  assert (Hlabel : 0 <= rnd_label < cm).
  { pose proof (below_range 0 (cm - 1 + 1) (py_random w 0%nat)).
    unfold rnd_label. lia. }
  rewrite lift_bind. unfold getitem_int. rewrite Hmsk.
  rewrite norm_index_in_range by exact Hlabel. cbn [PyOps.bind].
  set (chan := {| shape := sp; item := _ |}).
  destruct (argwhere_size _ _ =? 0) eqn:Esz.
  - apply random_crop_window with (sp := sp); try assumption; lia.
  - assert (Hne : argwhere_eq chan 1 <> []).
    { intros Hnil. rewrite Hnil in Esz. discriminate. }
    destruct (random_choice_in (argwhere_eq chan 1)
                {| py_random := fun n => py_random w (S n);
                   np_random := np_random w |} Hne)
      as (center & w1 & Hrun & Hin).
    rewrite (bind_ok _ _ _ _ _ Hrun).
    apply located_crop_window with (sp := sp); try assumption; try lia.
    unfold argwhere_eq in Hin. apply list_elem_of_In in Hin.
    apply list_elem_of_filter in Hin as [_ Hin].
    apply list_elem_of_In, all_indices_length in Hin. exact Hin.
Qed.

Lemma fits_forall2 (offset extent sp target : list Z) :
  fits offset extent sp target ->
  Forall2 (fun e t => 0 <= e <= t) extent target.
Proof.
  intros (L1 & L2 & L3 & Hall). apply Forall2_same_length_lookup_2; [lia | ].
  intros i e t He Ht.
  destruct (lookup_lt_is_Some_2 offset i) as (o & Ho);
    [apply lookup_lt_Some in He; lia | ].
  destruct (lookup_lt_is_Some_2 sp i) as (s & Hs);
    [apply lookup_lt_Some in He; lia | ].
  destruct (Hall i o e s t Ho He Hs Ht) as (_ & H & _). exact H.
Qed.

Lemma pad_inside_block : forall (extent target q : list Z),
  Forall2 (fun e t => 0 <= e <= t) extent target ->
  length q = length target ->
  pad_inside (zip_with pad_row extent target) extent q = in_block extent target q.
Proof.
  intros extent target q H. revert q.
  induction H as [ | e t extent target He _ IH]; intros [ | x q] Hq;
    simpl in *; try discriminate; try reflexivity.
  unfold pad_row at 1. destruct (e <=? t) eqn:E; [ | apply Z.leb_gt in E; lia].
  rewrite IH by lia. reflexivity.
Qed.

Lemma pad_source_block : forall (offset extent target q : list Z),
  Forall2 (fun e t => 0 <= e <= t) extent target ->
  length q = length target -> length offset = length target ->
  zip_with Z.add offset (pad_source (zip_with pad_row extent target) q)
  = block_source offset extent target q.
Proof.
  intros offset extent target q H. revert offset q.
  induction H as [ | e t extent target He _ IH]; intros [ | o offset] [ | x q] Hq Ho;
    simpl in *; try discriminate; try reflexivity.
  unfold pad_row at 1. destruct (e <=? t) eqn:E; [ | apply Z.leb_gt in E; lia].
  rewrite IH by lia. reflexivity.
Qed.

Lemma pad_source_length : forall (rows : list (Z * Z)) (q : list Z),
  length (pad_source rows q) = length q.
Proof.
  induction rows as [ | [b e] rows IH]; intros [ | x q]; simpl; auto.
Qed.

Lemma block_unpadded : forall (offset target q : list Z),
  length offset = length target ->
  Forall2 (fun x t => 0 <= x < t) q target ->
  in_block target target q = true
  /\ block_source offset target target q = zip_with Z.add offset q.
Proof.
  intros offset target q Ho H. revert offset Ho.
  induction H as [ | x t q target Hx _ IH]; intros [ | o offset] Ho;
    simpl in *; try discriminate; try (split; reflexivity).
  destruct (IH offset ltac:(lia)) as [-> ->].
  replace (t - t) with 0 by lia. change (0 `div` 2) with 0.
  split.
  - destruct (0 <=? x) eqn:E1; [ | apply Z.leb_gt in E1; lia].
    destruct (x <? 0 + t) eqn:E2; [reflexivity | apply Z.ltb_ge in E2; lia].
  - f_equal. lia.
Qed.

(** Lines 125-128 after either crop. *)
Lemma pad_registered (img msk : ndarray) (final_size : list Z) c cm sp
      (p : ndarray * ndarray) w :
  same_window img msk c cm sp final_size p ->
  exists offset extent img' msk',
    ((let! d := St.lift (broadcast2 Z.sub (spatial (fst p)) final_size) in
      if existsb (fun x => negb (x =? 0)) d
      then
        let! padded := St.lift (centered_pad (fst p) final_size (Some (snd p))) in
        match padded with
        | (img, Some msk) => St.ret (img, msk)
        | (_, None) => St.raise Py.TypeError
        end
      else St.ret (fst p, snd p)) : St world (ndarray * ndarray)) w
    = (Ok (img', msk'), w)
    /\ fits offset extent sp final_size
    /\ registered img img' c offset extent final_size
    /\ registered msk msk' (Z.min c cm) offset extent final_size.
Proof.
  intros (offset & extent & Hfits & (Hs1 & Hi1) & (Hs2 & Hi2)).
  pose proof (fits_forall2 _ _ _ _ Hfits) as Hall.
  pose proof Hfits as (L1 & L2 & L3 & _).
  assert (Hmax : zip_with Z.max extent final_size = final_size).
  { clear -Hall. induction Hall as [ | o t osp final_size Ho _ IH];
      simpl; [reflexivity | ]. rewrite IH. f_equal. lia. }
  exists offset, extent.
  unfold spatial. rewrite Hs1. cbn [tail].
  rewrite lift_bind, broadcast2_same_length by lia.
  destruct (existsb _ _) eqn:E.
  - destruct (semseg_centered_pad_contract (fst p) final_size (Some (snd p))
                c extent Hs1 ltac:(lia)) as (out & Hrun & Hshape & _ & Hitem).
    { intros m Hm. injection Hm as <-. rewrite Hs1, Hs2. reflexivity. }
    rewrite lift_bind, Hrun. cbn [fmap option_fmap option_map].
    eexists _, _. split; [reflexivity | ]. split; [exact Hfits | ].
    assert (Hreg : forall (src a : ndarray) (n : Z),
               is_window src a n offset extent ->
               forall ch q, 0 <= ch < n ->
                 Forall2 (fun x t => 0 <= x < t) q final_size ->
                 (if pad_inside (centered_rows extent final_size) (shape a) (ch :: q)
                  then item a (pad_source (centered_rows extent final_size) (ch :: q))
                  else 0)
                 = if in_block extent final_size q
                   then item src (ch :: block_source offset extent final_size q)
                   else 0).
    { intros src a n (Hsa & Hia) ch q Hch Hq.
      pose proof (Forall2_length _ _ _ Hq) as Hlq.
      rewrite Hsa. unfold centered_rows. cbn [pad_inside pad_source].
      rewrite pad_inside_block by assumption.
      destruct (0 <=? ch) eqn:E1; [ | apply Z.leb_gt in E1; lia].
      destruct (ch <? 0 + n) eqn:E2; [ | apply Z.ltb_ge in E2; lia].
      cbn [andb]. destruct (in_block extent final_size q); [ | reflexivity].
      rewrite Hia by (rewrite pad_source_length; lia).
      rewrite pad_source_block by (assumption || lia).
      rewrite Z.sub_0_r. reflexivity. }
    split; split.
    + rewrite Hshape, Hmax. reflexivity.
    + intros ch q Hch Hq. rewrite Hitem. apply (Hreg img (fst p) c); auto.
      split; assumption.
    + unfold padded. cbn [shape]. rewrite Hs2.
      rewrite padded_shape by lia. rewrite Hmax. reflexivity.
    + intros ch q Hch Hq. unfold padded. cbn [item].
      apply (Hreg msk (snd p) (Z.min c cm)); auto. split; assumption.
  - exists (fst p), (snd p). split; [reflexivity | ].
    assert (Heq : extent = final_size).
    { clear -Hall E.
      induction Hall as [ | o t osp final_size Ho _ IH]; [reflexivity | ].
      simpl in E. apply orb_false_elim in E as [E1 E2].
      apply negb_false_iff, Z.eqb_eq in E1.
      rewrite IH by exact E2. f_equal. lia. }
    subst extent. split; [exact Hfits | ].
    split; split; try assumption.
    + intros ch q Hch Hq.
      destruct (block_unpadded offset final_size q ltac:(lia) Hq) as [-> ->].
      apply Hi1. rewrite (Forall2_length _ _ _ Hq). lia.
    + intros ch q Hch Hq.
      destruct (block_unpadded offset final_size q ltac:(lia) Hq) as [-> ->].
      apply Hi2. rewrite (Forall2_length _ _ _ Hq). lia.
Qed.

Lemma random_crop_pad_sample_registered :
  forall (img msk : ndarray) (final_size : list Z) (fg_rate : spec_float)
         (fg_margin : list Z) (c cm : Z) (sp : list Z) (w : world),
    shape img = c :: sp ->
    shape msk = cm :: sp ->
    0 <= c -> 0 <= cm ->
    Forall (fun s => 0 <= s) sp ->
    length final_size = length sp ->
    Forall (fun x => 0 <= x) final_size ->
    (F64.ltb F64.zero fg_rate = true ->
     1 <= cm /\ length fg_margin = length sp) ->
    exists (offset extent : list Z) (img' msk' : ndarray) (w' : world),
      random_crop_pad_sample img msk final_size fg_rate fg_margin w
      = (Ok (img', msk'), w')
      /\ fits offset extent sp final_size
      /\ registered img img' c offset extent final_size
      /\ registered msk msk' (Z.min c cm) offset extent final_size.
Proof.
  intros img msk final_size fg_rate fg_margin c cm sp w
         Himg Hmsk Hc Hcm Hsp Hlen Hfinal Hfg.
  unfold random_crop_pad_sample.
  unfold St.bind at 1. unfold random_random at 1. unfold St.bind at 1.
  cbn [py_next Rng.next St.ret].
  set (w0 := {| py_random := _; np_random := _ |}).
  set (force_fg := binary_normalize _ _ _ _ _).
  assert (Hcrop : exists p w1,
             (if use_foreground fg_rate force_fg
              then foreground_crop img msk final_size fg_margin
              else random_crop img msk final_size) w0 = (Ok p, w1)
             /\ same_window img msk c cm sp final_size p).
  { destruct (use_foreground fg_rate force_fg) eqn:Euse.
    - unfold use_foreground in Euse. apply andb_true_iff in Euse as [Epos _].
      destruct (Hfg Epos) as [Hcm1 Hmargin].
      apply foreground_crop_window; assumption.
    - apply random_crop_window; assumption. }
  destruct Hcrop as (p & w1 & Hrun & Hp).
  rewrite (bind_ok _ _ _ _ _ Hrun).
  destruct (pad_registered img msk final_size c cm sp p w1 Hp)
    as (offset & extent & img' & msk' & Hpad & Hfits & Hr1 & Hr2).
  exists offset, extent, img', msk', w1.
  split; [ | split; [ | split]]; try assumption.
  destruct p as [ci cmk]. exact Hpad.
Qed.

(** X13.  [random_crop_pad] on one image and its mask keeps them
    registered: both outputs show the same block of their source, taken at
    the same offset, placed at the same position in the centre of the
    target, with zeros everywhere around it.  The block lies inside the
    source and is no larger than the target on any axis. *)
Theorem random_crop_pad_registered :
  forall (img msk : ndarray) (final_size : list Z) (fg_rate : spec_float)
         (fg_margin : list Z) (c cm : Z) (sp : list Z) (w : world),
    shape img = c :: sp ->
    shape msk = cm :: sp ->
    0 <= c -> 0 <= cm ->
    Forall (fun s => 0 <= s) sp ->
    length final_size = length sp ->
    Forall (fun x => 0 <= x) final_size ->
    (F64.ltb F64.zero fg_rate = true ->
     1 <= cm /\ length fg_margin = length sp) ->
    exists (offset extent : list Z) (img' msk' : ndarray) (w' : world),
      random_crop_pad (PArray img) (PArray msk) final_size fg_rate fg_margin w
      = (Ok (img', msk'), w')
      /\ fits offset extent sp final_size
      /\ registered img img' c offset extent final_size
      /\ registered msk msk' (Z.min c cm) offset extent final_size.
Proof.
  intros. cbn [random_crop_pad].
  apply random_crop_pad_sample_registered; assumption.
Qed.

Lemma batch_loop (msks : list ndarray) (final_size : list Z) (c k : Z) :
  length final_size = 3%nat -> Forall (fun x => 0 <= x) final_size ->
  forall (l : list ndarray) (base : nat) (w : world),
    (forall i img, l !! i = Some img ->
                   exists msk cm sp,
                     msks !! (base + i)%nat = Some msk
                     /\ shape img = c :: sp /\ shape msk = cm :: sp
                     /\ length sp = 3%nat /\ Forall (fun s => 0 <= s) sp
                     /\ 0 <= c /\ 1 <= cm /\ Z.min c cm = k) ->
    exists (pairs : list (ndarray * ndarray)) (w' : world),
      St.traverse
        (fun p : nat * ndarray =>
           let! msk_i := St.lift (pyobj_getitem (PList msks) (Z.of_nat (fst p))) in
           random_crop_pad_sample (snd p) msk_i final_size
                                  default_fg_rate default_fg_margin)
        (imap (fun i x => ((base + i)%nat, x)) l) w
      = (Ok pairs, w')
      /\ length pairs = length l
      /\ forall i img, l !! i = Some img ->
           exists msk sp offset extent p,
             msks !! (base + i)%nat = Some msk
             /\ shape img = c :: sp
             /\ pairs !! i = Some p
             /\ fits offset extent sp final_size
             /\ registered img (fst p) c offset extent final_size
             /\ registered msk (snd p) k offset extent final_size.
Proof.
  intros Hlen Hfinal l.
  set (F := fun p : nat * ndarray => _).
  induction l as [ | img l IH]; intros base w Hall.
  - exists [], w. split; [reflexivity | split; [reflexivity | ]].
    intros i img H. destruct i; discriminate.
  - destruct (Hall 0%nat img eq_refl)
      as (msk & cm & sp & Hmsk & Hs1 & Hs2 & Hsp3 & Hsp & Hc & Hcm & Hk).
    rewrite Nat.add_0_r in Hmsk.
    destruct (random_crop_pad_sample_registered img msk final_size
                default_fg_rate default_fg_margin c cm sp w)
      as (offset & extent & img' & msk' & w1 & Hrun & Hfits & Hr1 & Hr2);
      try assumption; try lia.
    { intros _. split; [lia | rewrite Hsp3; reflexivity]. }
    assert (Hstep : F ((base + 0)%nat, img) w = (Ok (img', msk'), w1)).
    { unfold F. cbn [fst snd]. rewrite lift_bind. cbn [pyobj_getitem].
      unfold PyOps.getitem. rewrite Nat.add_0_r.
      rewrite norm_index_in_range
        by (apply lookup_lt_Some in Hmsk; lia).
      cbn [PyOps.bind]. rewrite Nat2Z.id, Hmsk. exact Hrun. }
    destruct (IH (S base) w1) as (pairs & w2 & Hloop & Hlp & Hrest).
    { intros i a Ha. destruct (Hall (S i) a Ha) as (m & cm' & sp' & Hm & H).
      exists m, cm', sp'. split; [ | exact H].
      replace (S base + i)%nat with (base + S i)%nat by lia. exact Hm. }
    assert (Himap : imap ((fun i x => ((base + i)%nat, x)) ∘ S) l
                    = imap (fun i x => ((S base + i)%nat, x)) l).
    { apply imap_ext. intros i x _. simpl. f_equal. lia. }
    cbn [imap St.traverse]. rewrite Himap.
    rewrite (bind_ok _ _ _ _ _ Hstep), (bind_ok _ _ _ _ _ Hloop).
    exists ((img', msk') :: pairs), w2.
    split; [reflexivity | split; [simpl; lia | ]].
    intros [ | i] a Ha.
    + injection Ha as <-. exists msk, sp, offset, extent, (img', msk').
      rewrite Nat.add_0_r. rewrite Hk in Hr2.
      split; [exact Hmsk | split; [exact Hs1 | split; [reflexivity | ]]].
      split; [exact Hfits | split; assumption].
    + destruct (Hrest i a Ha) as (m & sp' & o & e & p & Hm & H).
      exists m, sp', o, e, p. split; [ | exact H].
      replace (base + S i)%nat with (S base + i)%nat by lia. exact Hm.
Qed.

Lemma stack_same_shape (l : list ndarray) (shp : list Z) :
  l <> [] -> Forall (fun a => shape a = shp) l ->
  exists out,
    stack l = Ok out
    /\ shape out = Z.of_nat (length l) :: shp
    /\ forall (i : nat) (b : ndarray) (j : list Z),
         l !! i = Some b -> item out (Z.of_nat i :: j) = item b j.
Proof.
  intros Hne Hall. destruct l as [ | a l]; [contradiction | ].
  unfold stack.
  assert (Hsame : forallb (fun b => bool_decide (shape b = shape a)) (a :: l) = true).
  { apply forallb_forall. intros b Hb. apply bool_decide_eq_true_2.
    rewrite Forall_forall in Hall.
    rewrite (Hall b), (Hall a); [reflexivity | left | apply list_elem_of_In, Hb]. }
  rewrite Hsame. eexists. split; [reflexivity | ]. cbn [shape item]. split.
  - f_equal. inversion Hall; assumption.
  - intros i b j Hb. rewrite Nat2Z.id, Hb. reflexivity.
Qed.

(** X14.  [random_crop_pad] on a list of images and a list of masks
    (batch mode), each sample a volume with three spatial axes: the two
    results have one entry per sample on a new leading axis, the shapes
    [(n, c, *final_size)] and [(n, k, *final_size)], and entry [i] shows
    sample [i] of the image list and of the mask list registered as in the
    single-sample case. *)
Theorem batch_crop_pad_registered :
  forall (imgs msks : list ndarray) (final_size : list Z) (fg_rate : spec_float)
         (fg_margin : list Z) (c k : Z) (w : world),
    imgs <> [] ->
    length final_size = 3%nat ->
    Forall (fun x => 0 <= x) final_size ->
    (forall (i : nat) (img : ndarray),
        imgs !! i = Some img ->
        exists (msk : ndarray) (cm : Z) (sp : list Z),
          msks !! i = Some msk
          /\ shape img = c :: sp /\ shape msk = cm :: sp
          /\ length sp = 3%nat /\ Forall (fun s => 0 <= s) sp
          /\ 0 <= c /\ 1 <= cm /\ Z.min c cm = k) ->
    exists (imgs' msks' : ndarray) (w' : world),
      random_crop_pad (PList imgs) (PList msks) final_size fg_rate fg_margin w
      = (Ok (imgs', msks'), w')
      /\ shape imgs' = Z.of_nat (length imgs) :: c :: final_size
      /\ shape msks' = Z.of_nat (length imgs) :: k :: final_size
      /\ forall (i : nat) (img msk : ndarray),
           imgs !! i = Some img -> msks !! i = Some msk ->
           exists sp offset extent : list Z,
             shape img = c :: sp
             /\ fits offset extent sp final_size
             /\ forall (ch : Z) (q : list Z),
                  Forall2 (fun x t => 0 <= x < t) q final_size ->
                  (0 <= ch < c ->
                   item imgs' (Z.of_nat i :: ch :: q)
                   = if in_block extent final_size q
                     then item img (ch :: block_source offset extent final_size q)
                     else 0)
                  /\ (0 <= ch < k ->
                      item msks' (Z.of_nat i :: ch :: q)
                      = if in_block extent final_size q
                        then item msk (ch :: block_source offset extent final_size q)
                        else 0).
Proof.
  intros imgs msks final_size fg_rate fg_margin c k w Hne Hlen Hfinal Hall.
  cbn [random_crop_pad].
  destruct (batch_loop msks final_size c k Hlen Hfinal imgs 0 w Hall)
    as (pairs & w1 & Hloop & Hlp & Hrest).
  rewrite (imap_ext pair (fun i x => ((0 + i)%nat, x))) by reflexivity.
  rewrite (bind_ok _ _ _ _ _ Hloop).
  assert (Hpairs : forall i p, pairs !! i = Some p ->
             exists img msk sp offset extent,
               imgs !! i = Some img /\ msks !! i = Some msk
               /\ shape img = c :: sp
               /\ fits offset extent sp final_size
               /\ registered img (fst p) c offset extent final_size
               /\ registered msk (snd p) k offset extent final_size).
  { intros i p Hp.
    destruct (lookup_lt_is_Some_2 imgs i) as (img & Himg);
      [apply lookup_lt_Some in Hp; lia | ].
    destruct (Hrest i img Himg) as (msk & sp & o & e & p' & Hm & Hs & Hp' & H).
    rewrite Hp in Hp'. injection Hp' as <-.
    exists img, msk, sp, o, e. auto. }
  destruct (stack_same_shape (map fst pairs) (c :: final_size))
    as (imgs' & Hst1 & Hsh1 & Hit1).
  { destruct pairs; [destruct imgs; [congruence | discriminate] | discriminate]. }
  { apply Forall_fmap, Forall_lookup_2. intros i p Hp.
    destruct (Hpairs i p Hp) as (? & ? & ? & ? & ? & _ & _ & _ & _ & (H & _) & _).
    exact H. }
  destruct (stack_same_shape (map snd pairs) (k :: final_size))
    as (msks' & Hst2 & Hsh2 & Hit2).
  { destruct pairs; [destruct imgs; [congruence | discriminate] | discriminate]. }
  { apply Forall_fmap, Forall_lookup_2. intros i p Hp.
    destruct (Hpairs i p Hp) as (? & ? & ? & ? & ? & _ & _ & _ & _ & _ & (H & _)).
    exact H. }
  rewrite lift_bind, Hst1, lift_bind, Hst2.
  exists imgs', msks', w1. split; [reflexivity | ].
  rewrite length_map in Hsh1, Hsh2. rewrite Hlp in Hsh1, Hsh2.
  split; [exact Hsh1 | split; [exact Hsh2 | ]].
  intros i img msk Himg Hmsk.
  destruct (Hrest i img Himg)
    as (msk0 & sp & o & e & p & Hm & Hs & Hp & Hfits & (_ & Hr1) & (_ & Hr2)).
  simpl in Hm. rewrite Hmsk in Hm. injection Hm as <-.
  exists sp, o, e. split; [exact Hs | split; [exact Hfits | ]].
  intros ch q Hq. split; intros Hch.
  - rewrite (Hit1 i (fst p)) by (rewrite list_lookup_fmap, Hp; reflexivity).
    apply Hr1; assumption.
  - rewrite (Hit2 i (snd p)) by (rewrite list_lookup_fmap, Hp; reflexivity).
    apply Hr2; assumption.
Qed.

End Registration.

Lemma random_crop_pad_registered_witness :
  exists (offset extent : list Z) (img' msk' : Np.ndarray) (w' : Semseg.world),
    Semseg.random_crop_pad (Semseg.PArray cube_img) (Semseg.PArray cube_msk)
                           [4; 6; 8] Semseg.default_fg_rate
                           Semseg.default_fg_margin zero_world
    = (Ok (img', msk'), w')
    /\ fits offset extent [6; 6; 6] [4; 6; 8]
    /\ registered cube_img img' 1 offset extent [4; 6; 8]
    /\ registered cube_msk msk' (Z.min 1 2) offset extent [4; 6; 8].
Proof.
  apply (random_crop_pad_registered cube_img cube_msk [4; 6; 8]
           Semseg.default_fg_rate Semseg.default_fg_margin 1 2 [6; 6; 6] zero_world).
  - reflexivity.
  - reflexivity.
  - lia.
  - lia.
  - repeat constructor; lia.
  - reflexivity.
  - repeat constructor; lia.
  - intros _. split; [lia | reflexivity].
Defined.

Lemma batch_crop_pad_registered_witness :
  exists (imgs' msks' : Np.ndarray) (w' : Semseg.world),
    Semseg.random_crop_pad (Semseg.PList [cube_img; cube_img])
                           (Semseg.PList [cube_msk; cube_msk])
                           [4; 6; 8] Semseg.default_fg_rate
                           Semseg.default_fg_margin zero_world
    = (Ok (imgs', msks'), w')
    /\ Np.shape imgs' = [2; 1; 4; 6; 8]
    /\ Np.shape msks' = [2; 1; 4; 6; 8].
Proof.
  destruct (batch_crop_pad_registered [cube_img; cube_img] [cube_msk; cube_msk]
              [4; 6; 8] Semseg.default_fg_rate Semseg.default_fg_margin 1 1
              zero_world)
    as (imgs' & msks' & w' & Hrun & Hs1 & Hs2 & _).
  - discriminate.
  - reflexivity.
  - repeat constructor; lia.
  - intros i img Hi. exists cube_msk, 2, [6; 6; 6].
    destruct i as [ | [ | i]]; try discriminate;
      injection Hi as <-;
      (split; [reflexivity | split; [reflexivity | split; [reflexivity | ]]]);
      (split; [reflexivity | split; [repeat constructor; lia | ]]);
      (split; [lia | split; [lia | reflexivity]]).
  - exists imgs', msks', w'. split; [exact Hrun | split; assumption].
Defined.

(** ** The anchored crop *)

Section Anchor.
Import Np Semseg.

(** X15.  The start [located_crop] draws, on every axis: it is at least
    [max(0, location - crop_shape + margin)], and it is that lower bound
    itself unless it lies below [min(location - margin, img_shape -
    crop_shape)].  So the anchor is never beyond
    [start + crop_shape - margin] (that end included); it is at least
    [start + margin] when [0 <= margin <= location] and
    [2 margin <= crop_shape]; and the window ends inside the image when
    [crop_shape <= img_shape] and [location + margin <= img_shape]. *)
Theorem located_crop_start_window (sp location crop margin : list Z) (w : world) :
  length location = length sp -> length crop = length sp ->
  length margin = length sp ->
  exists (start : list Z) (w' : world),
    located_crop_start sp location crop margin w = (Ok start, w')
    /\ length start = length sp
    /\ py_random w' = py_random w
    /\ forall (i : nat) (l t m s x : Z),
         location !! i = Some l -> crop !! i = Some t ->
         margin !! i = Some m -> sp !! i = Some s -> start !! i = Some x ->
         Z.max 0 (l - t + m) <= x
         /\ (x = Z.max 0 (l - t + m) \/ x < Z.min (l - m) (s - t))
         /\ l <= x + t - m
         /\ (0 <= m <= l -> 2 * m <= t -> x + m <= l)
         /\ (t <= s -> l + m <= s -> x + t <= s).
Proof.
  intros Hloc Hcrop Hmargin. unfold located_crop_start.
  rewrite lift_bind.
  rewrite (broadcast2_same_length Z.sub location crop) by lia. cbn [PyOps.bind].
  rewrite broadcast2_same_length by (rewrite length_zip_with; lia).
  cbn [PyOps.bind].
  set (lower := map (Z.max 0) _).
  assert (Hlower : length lower = length sp).
  { unfold lower. rewrite length_map, !length_zip_with. lia. }
  rewrite lift_bind.
  rewrite (broadcast2_same_length Z.sub location margin) by lia. cbn [PyOps.bind].
  rewrite (broadcast2_same_length Z.sub sp crop) by lia. cbn [PyOps.bind].
  rewrite (broadcast2_same_length Z.min) by (rewrite !length_zip_with; lia).
  cbn [PyOps.bind].
  rewrite (broadcast2_same_length Z.max)
    by (rewrite length_map, !length_zip_with; lia).
  set (higher := zip_with Z.max _ _).
  assert (Hhigher : length higher = length sp).
  { unfold higher. rewrite !length_zip_with, length_map. lia. }
  rewrite lift_bind.
  rewrite (broadcast2_same_length Z.max) by (rewrite length_map; lia).
  set (high := zip_with Z.max _ higher).
  assert (Hhigh : length high = length sp).
  { unfold high. rewrite length_zip_with, length_map. lia. }
  assert (Hbound : forall i p l t m s,
             zip_with pair lower high !! i = Some p ->
             location !! i = Some l -> crop !! i = Some t ->
             margin !! i = Some m -> sp !! i = Some s ->
             fst p = Z.max 0 (l - t + m)
             /\ snd p = Z.max (Z.max 0 (l - t + m) + 1) (Z.min (l - m) (s - t))).
  { intros i p l t m s Hp Hl Ht Hm Hs.
    apply lookup_zip_with_Some in Hp as (lo & hi & -> & Hlo & Hhi).
    assert (Hlo' : lo = Z.max 0 (l - t + m)).
    { unfold lower in Hlo. rewrite list_lookup_fmap in Hlo.
      destruct (zip_with Z.add _ margin !! i) as [e | ] eqn:He; [ | discriminate].
      apply lookup_zip_with_Some in He as (d & m' & -> & Hd & Hm').
      apply lookup_zip_with_Some in Hd as (l' & t' & -> & Hl' & Ht').
      simpl in Hlo. congruence. }
    split; [exact Hlo' | ]. simpl.
    unfold high, higher in Hhi.
    apply lookup_zip_with_Some in Hhi as (a & b & -> & Ha & Hb).
    apply lookup_zip_with_Some in Hb as (a2 & b2 & -> & Ha2 & Hb2).
    apply lookup_zip_with_Some in Hb2 as (u & v & -> & Hu & Hv).
    apply lookup_zip_with_Some in Hu as (l' & m' & -> & Hl' & Hm').
    apply lookup_zip_with_Some in Hv as (s' & t' & -> & Hs' & Ht').
    rewrite list_lookup_fmap, Hlo in Ha, Ha2. simpl in Ha, Ha2.
    assert (a = lo + 1) by congruence. assert (a2 = lo + 1) by congruence.
    assert (l' = l) by congruence. assert (m' = m) by congruence.
    assert (s' = s) by congruence. assert (t' = t) by congruence.
    subst. lia. }
  destruct (np_randint_ok lower high (zip_with pair lower high) w)
    as (start & w' & Hrun & Hall & Hpy).
  { apply broadcast2_same_length. lia. }
  { apply Forall_lookup_2. intros i p Hp.
    pose proof Hp as Hp'.
    apply lookup_zip_with_Some in Hp' as (lo & hi & -> & Hlo & Hhi).
    apply lookup_lt_Some in Hlo.
    destruct (lookup_lt_is_Some_2 location i ltac:(lia)) as (l & Hl).
    destruct (lookup_lt_is_Some_2 crop i ltac:(lia)) as (t & Ht).
    destruct (lookup_lt_is_Some_2 margin i ltac:(lia)) as (m & Hm).
    destruct (lookup_lt_is_Some_2 sp i ltac:(lia)) as (s & Hs).
    destruct (Hbound i _ l t m s Hp Hl Ht Hm Hs) as [H1 H2].
    simpl in *. lia. }
  exists start, w'. split; [exact Hrun | split; [ | split; [exact Hpy | ]]].
  - rewrite <- (Forall2_length _ _ _ Hall), length_zip_with. lia.
  - intros i l t m s x Hl Ht Hm Hs Hx.
    destruct (Forall2_lookup_r _ _ _ _ _ Hall Hx) as (p & Hp & Hle).
    destruct (Hbound i p l t m s Hp Hl Ht Hm Hs) as [H1 H2].
    rewrite H1, H2 in Hle. lia.
Qed.

Lemma all_indices_spec : forall (shp i : list Z),
  i ∈ all_indices shp <-> Forall2 (fun x n => 0 <= x < n) i shp.
Proof.
  induction shp as [ | n shp IH]; intros i; simpl.
  - rewrite list_elem_of_singleton. split.
    + intros ->. constructor.
    + intros H. inversion H. reflexivity.
  - rewrite list_elem_of_In, in_flat_map. split.
    + intros (x & Hx & Hi). apply in_map_iff in Hi as (j & <- & Hj).
      apply list_elem_of_In, elem_of_seqZ in Hx.
      constructor; [lia | ]. apply IH, list_elem_of_In, Hj.
    + intros H. inversion H as [ | x n' j shp' Hx Hj]; subst.
      exists x. split.
      * apply list_elem_of_In, elem_of_seqZ. lia.
      * apply in_map, list_elem_of_In, IH, Hj.
Qed.

(** X16.  The anchor [foreground_crop] chooses: for a mask with at least
    one channel a label is drawn among the channels, and the anchor is a
    position inside the mask where that channel holds 1; no anchor is
    chosen (and the crop falls back to the random window) only when that
    channel holds no 1, or has no axis at all.  A mask without channel
    raises [ValueError]. *)
Theorem foreground_center_is_foreground (msk : ndarray) (cm : Z) (sp : list Z)
      (w : world) :
  shape msk = cm :: sp ->
  (cm <= 0 -> fst (foreground_center msk w) = Raise Py.ValueError)
  /\ (1 <= cm ->
      exists (r : option (list Z)) (w' : world) (label : Z),
        foreground_center msk w = (Ok r, w')
        /\ 0 <= label < cm
        /\ np_random w' = np_random w
        /\ match r with
           | Some center =>
               Forall2 (fun x n => 0 <= x < n) center sp
               /\ item msk (label :: center) = 1
           | None =>
               sp = []
               \/ forall voxel, Forall2 (fun x n => 0 <= x < n) voxel sp ->
                                item msk (label :: voxel) <> 1
           end).
Proof.
  intros Hmsk. split.
  - intros Hcm. unfold foreground_center.
    rewrite lift_bind. unfold shape0. rewrite Hmsk. unfold random_randint.
    destruct (cm - 1 <? 0) eqn:E; [reflexivity | ].
    apply Z.ltb_ge in E. lia.
  - intros Hcm. unfold foreground_center.
    rewrite lift_bind. unfold shape0. rewrite Hmsk. unfold random_randint.
    destruct (cm - 1 <? 0) eqn:E; [apply Z.ltb_lt in E; lia | clear E].
    unfold St.bind at 1. unfold St.bind at 1.
    cbn [py_next Rng.next St.ret].
    set (rnd_label := Rng.below 0 (cm - 1 + 1) (py_random w 0%nat)).
    assert (Hlabel : 0 <= rnd_label < cm).
    { pose proof (below_range 0 (cm - 1 + 1) (py_random w 0%nat)).
      unfold rnd_label. lia. }
    rewrite lift_bind. unfold getitem_int. rewrite Hmsk.
    rewrite norm_index_in_range by exact Hlabel. cbn [PyOps.bind].
    rewrite Z2Nat.id by lia.
    set (chan := {| shape := sp; item := _ |}).
    destruct (argwhere_size _ _ =? 0) eqn:Esz.
    + eexists None, _, rnd_label. split; [reflexivity | ].
      split; [exact Hlabel | split; [reflexivity | ]].
      apply Z.eqb_eq in Esz. unfold argwhere_size, ndim in Esz. cbn [shape chan] in Esz.
      destruct sp as [ | n sp]; [left; reflexivity | right].
      assert (Hnil : argwhere_eq chan 1 = []).
      { apply nil_length_inv. simpl length in Esz. lia. }
      intros voxel Hv Hone.
      assert (Hin : voxel ∈ argwhere_eq chan 1).
      { unfold argwhere_eq. apply list_elem_of_filter.
        split; [exact Hone | apply all_indices_spec, Hv]. }
      rewrite Hnil in Hin. inversion Hin.
    + assert (Hne : argwhere_eq chan 1 <> []).
      { intros Hnil. rewrite Hnil in Esz. discriminate. }
      destruct (random_choice_in (argwhere_eq chan 1)
                  {| py_random := fun n => py_random w (S n);
                     np_random := np_random w |} Hne)
        as (center & w1 & Hrun & Hin).
      rewrite (bind_ok _ _ _ _ _ Hrun).
      exists (Some center), w1, rnd_label. split; [reflexivity | ].
      split; [exact Hlabel | ]. split.
      * destruct (argwhere_eq chan 1) as [ | a l]; [contradiction | ].
        unfold random_choice, St.bind, py_next, St.ret in Hrun.
        cbn [Rng.next py_random np_random] in Hrun.
        injection Hrun as _ <-. reflexivity.
      * unfold argwhere_eq in Hin. apply list_elem_of_In in Hin.
        apply list_elem_of_filter in Hin as [Hone Hin].
        split; [apply all_indices_spec, Hin | exact Hone].
Qed.

End Anchor.

Lemma located_crop_start_window_witness :
  exists (start : list Z) (w' : Semseg.world),
    Semseg.located_crop_start [10; 10; 10] [9; 9; 9] [4; 4; 4] [0; 0; 0] zero_world
    = (Ok start, w')
    /\ length start = 3%nat.
Proof.
  destruct (located_crop_start_window [10; 10; 10] [9; 9; 9] [4; 4; 4] [0; 0; 0]
              zero_world) as (start & w' & Hrun & Hl & _); try reflexivity.
  exists start, w'. split; assumption.
Defined.

Lemma foreground_center_is_foreground_witness :
  exists (r : option (list Z)) (w' : Semseg.world) (label : Z),
    Semseg.foreground_center cube_msk zero_world = (Ok r, w')
    /\ 0 <= label < 2
    /\ match r with
       | Some center => Np.item cube_msk (label :: center) = 1
       | None => False
       end.
Proof.
  destruct (proj2 (foreground_center_is_foreground cube_msk 2 [6; 6; 6] zero_world
                     eq_refl))
    as (r & w' & label & Hrun & Hl & _ & Hr); [lia | ].
  exists r, w', label. split; [exact Hrun | split; [exact Hl | ]].
  destruct r as [center | ]; [exact (proj2 Hr) | ].
  vm_compute in Hrun. discriminate.
Defined.

(** ** Folding the depth axis into the channels, and back *)

Section Reshaping.
Import Np NpShape Transforms.

Lemma size_nonneg (shp : list Z) : Forall (fun n => 0 <= n) shp -> 0 <= size shp.
Proof.
  induction 1 as [ | n shp Hn _ IH]; simpl; [lia | ]. apply Z.mul_nonneg_nonneg; lia.
Qed.

Lemma ravel_bound : forall (shp idx : list Z),
  valid_index idx shp -> 0 <= ravel shp idx < size shp.
Proof.
  intros shp idx H. induction H as [ | i n idx shp Hi _ IH]; simpl; [lia | ].
  nia.
Qed.

Lemma unravel_ravel : forall (shp idx : list Z),
  valid_index idx shp -> unravel shp (ravel shp idx) = idx.
Proof.
  intros shp idx H. induction H as [ | i n idx shp Hi Hrest IH]; simpl; [reflexivity | ].
  pose proof (ravel_bound _ _ Hrest) as Hb.
  rewrite Z.add_comm, Z.div_add, Z.mod_add by lia.
  rewrite Z.div_small, Z.mod_small by lia. rewrite IH. reflexivity.
Qed.

Lemma ravel_unravel : forall (shp : list Z) (k : Z),
  Forall (fun n => 0 <= n) shp -> 0 <= k < size shp ->
  ravel shp (unravel shp k) = k.
Proof.
  induction shp as [ | n shp IH]; intros k Hshp Hk; simpl in *; [lia | ].
  inversion Hshp as [ | ? ? Hn Hrest]; subst.
  pose proof (size_nonneg _ Hrest) as Hs.
  assert (Hpos : 0 < size shp) by nia.
  rewrite IH by (try assumption; apply Z.mod_pos_bound; lia).
  pose proof (Z.div_mod k (size shp)). lia.
Qed.

Lemma flat_size (shp : list Z) : size (flat_shape shp) = size shp.
Proof.
  destruct shp as [ | s0 [ | s1 [ | s2 [ | s3 [ | s4 [ | ? ?]]]]]]; try reflexivity.
  simpl. lia.
Qed.

Lemma flat_nonneg (shp : list Z) :
  Forall (fun n => 0 <= n) shp -> Forall (fun n => 0 <= n) (flat_shape shp).
Proof.
  intros H.
  destruct shp as [ | s0 [ | s1 [ | s2 [ | s3 [ | s4 [ | ? ?]]]]]]; try exact H.
  simpl. repeat match goal with
                | H : Forall _ (_ :: _) |- _ => inversion H; clear H; subst
                end.
  repeat constructor; try assumption. nia.
Qed.

Lemma reshape_plain (a : ndarray) (shp : list Z) :
  Forall (fun n => 0 <= n) shp -> size shp = size (shape a) ->
  reshape a shp = Ok (reshaped a shp).
Proof.
  intros Hshp Hsize. unfold reshape, reshaped_shape.
  assert (E1 : existsb (fun d => d <? -1) shp = false).
  { apply not_true_is_false. intros H. apply existsb_exists in H as (d & Hd & Hlt).
    rewrite Forall_forall in Hshp. apply list_elem_of_In, Hshp in Hd.
    apply Z.ltb_lt in Hlt. lia. }
  rewrite E1.
  assert (E2 : filter (fun d => d = -1) shp = []).
  { clear -Hshp. induction Hshp as [ | n shp Hn _ IH]; [reflexivity | ].
    rewrite filter_cons_False by lia. exact IH. }
  rewrite E2. simpl. rewrite Hsize, Z.eqb_refl. reflexivity.
Qed.

(** Reshaping to the flat shape and back gives every element back. *)
Lemma restored_item (a : ndarray) (idx : list Z) :
  Forall (fun n => 0 <= n) (shape a) ->
  valid_index idx (shape a) ->
  item (reshaped (reshaped a (flat_shape (shape a))) (shape a)) idx = item a idx.
Proof.
  intros Hshp Hidx. cbn [reshaped item shape].
  pose proof (ravel_bound _ _ Hidx) as Hb.
  rewrite ravel_unravel by (try apply flat_nonneg; try rewrite flat_size; assumption).
  rewrite unravel_ravel by exact Hidx. reflexivity.
Qed.

(** Where an element goes: channel [c] and depth [x] become the channel
    [c * s2 + x]. *)
Lemma flattened_item (a : ndarray) (s0 s1 s2 s3 s4 b c x y z : Z) :
  shape a = [s0; s1; s2; s3; s4] ->
  valid_index [b; c; x; y; z] (shape a) ->
  item (reshaped a (flat_shape (shape a))) [b; c * s2 + x; y; z]
  = item a [b; c; x; y; z].
Proof.
  intros Hshp Hidx. cbn [reshaped item shape].
  etransitivity; [ | apply f_equal, (unravel_ravel _ _ Hidx)].
  f_equal. f_equal. rewrite Hshp. simpl. lia.
Qed.

Lemma shape_key_inj (k k' : string) : shape_key k = shape_key k' -> k = k'.
Proof. apply String.app_inj. Qed.

Lemma step_3d_to_2d (d : gmap string value) (k : string) (a : ndarray) :
  d !! k = Some (VArr a) -> length (shape a) = 5%nat ->
  Forall (fun n => 0 <= n) (shape a) -> d !! shape_key k = None ->
  Convert3DTo2DTransform.step d k
  = Ok (<[shape_key k := VShape (shape a)]>
          (<[k := VArr (reshaped a (flat_shape (shape a)))]> d)).
Proof.
  intros Hk Hlen Hshp Hfree. unfold Convert3DTo2DTransform.step, array_at.
  rewrite Hk. cbn [PyOps.bind].
  pose proof (reshape_plain a (flat_shape (shape a)) (flat_nonneg _ Hshp)
                (flat_size _)) as Hre.
  destruct (shape a) as [ | s0 [ | s1 [ | s2 [ | s3 [ | s4 [ | ? ?]]]]]] eqn:Es;
    try discriminate.
  cbn [flat_shape] in Hre |- *. rewrite Hre. cbn [PyOps.bind].
  assert (Hne : k <> shape_key k).
  { intros Heq. rewrite <- Heq in Hfree. congruence. }
  rewrite lookup_insert_ne by exact Hne. rewrite Hfree.
  rewrite bool_decide_eq_false_2 by (intros [v Hv]; discriminate).
  reflexivity.
Qed.

Lemma call_3d_to_2d : forall (keys : list string) (d : gmap string value),
  NoDup keys -> (forall k, k ∈ keys -> foldable d k) ->
  exists d1,
    fold_result Convert3DTo2DTransform.step d keys = Ok d1
    /\ (forall k a, k ∈ keys -> d !! k = Some (VArr a) ->
          d1 !! k = Some (VArr (reshaped a (flat_shape (shape a))))
          /\ d1 !! shape_key k = Some (VShape (shape a)))
    /\ (forall k', k' ∉ keys -> (forall k, k ∈ keys -> k' <> shape_key k) ->
          d1 !! k' = d !! k').
Proof.
  induction keys as [ | k keys IH]; intros d Hnd Hall.
  - exists d. split; [reflexivity | split].
    + intros k a Hk. inversion Hk.
    + reflexivity.
  - inversion Hnd as [ | ? ? Hnotin Hnd']; subst.
    destruct (Hall k (list_elem_of_here _ _)) as (a & Hk & Hlen & Hshp & Hfree).
    cbn [fold_result]. rewrite (step_3d_to_2d d k a Hk Hlen Hshp Hfree).
    cbn [PyOps.bind].
    set (d' := <[shape_key k := _]> _).
    assert (Hother : forall k', k' ∈ keys ->
               k' <> k /\ k' <> shape_key k /\ shape_key k' <> k
               /\ shape_key k' <> shape_key k).
    { intros k' Hk'.
      destruct (Hall k' (list_elem_of_further _ _ _ Hk')) as (a' & Hk'a & _ & _ & Hf').
      assert (k' <> k) by (intros ->; contradiction).
      repeat split; try assumption.
      - intros ->. congruence.
      - intros Heq. rewrite Heq in Hf'. congruence.
      - intros Heq. apply shape_key_inj in Heq. congruence. }
    destruct (IH d' Hnd') as (d1 & Hrun & Hkeys & Hframe).
    { intros k' Hk'. destruct (Hother k' Hk') as (H1 & H2 & H3 & H4).
      destruct (Hall k' (list_elem_of_further _ _ _ Hk')) as (a' & Hk'a & Hl' & Hs' & Hf').
      exists a'. unfold d'. rewrite !lookup_insert_ne by congruence. auto. }
    exists d1. split; [exact Hrun | split].
    + intros k0 a0 Hk0 Hk0a. apply elem_of_cons in Hk0 as [-> | Hk0].
      * assert (a0 = a) as -> by congruence.
        rewrite !Hframe.
        -- unfold d'. rewrite lookup_insert_ne, !lookup_insert_eq; [auto | ].
           intros Heq. rewrite Heq in Hfree. congruence.
        -- intros Hin. destruct (Hother _ Hin) as (_ & H2 & _). congruence.
        -- intros k' Hk'. destruct (Hother _ Hk') as (_ & _ & _ & H4). congruence.
        -- exact Hnotin.
        -- intros k' Hk'. destruct (Hother _ Hk') as (_ & _ & H3 & _). congruence.
      * destruct (Hother _ Hk0) as (H1 & H2 & H3 & H4).
        apply Hkeys; [exact Hk0 | ].
        unfold d'. rewrite !lookup_insert_ne by congruence. exact Hk0a.
    + intros k' Hk' Hsk. rewrite Hframe.
      * unfold d'. rewrite !lookup_insert_ne; [reflexivity | | ].
        -- intros ->. apply Hk'. left.
        -- intros Heq. apply (Hsk k); [left | auto].
      * intros Hin. apply Hk'. right. exact Hin.
      * intros k0 Hk0. apply Hsk. right. exact Hk0.
Qed.

Lemma step_2d_to_3d (d : gmap string value) (k : string) (a1 : ndarray)
      (shp : list Z) :
  d !! k = Some (VArr a1) -> d !! shape_key k = Some (VShape shp) ->
  length shp = 5%nat -> Forall (fun n => 0 <= n) shp ->
  shape a1 = flat_shape shp ->
  Convert2DTo3DTransform.step d k = Ok (<[k := VArr (reshaped a1 shp)]> d).
Proof.
  intros Hk Hs Hlen Hshp Hflat. unfold Convert2DTo3DTransform.step, array_at.
  rewrite Hs, Hk. cbn [PyOps.bind].
  pose proof (reshape_plain a1 shp Hshp) as Hre.
  rewrite Hflat, flat_size in Hre. specialize (Hre eq_refl).
  rewrite Hflat.
  destruct shp as [ | s0 [ | s1 [ | s2 [ | s3 [ | s4 [ | ? ?]]]]]];
    try discriminate.
  cbn [flat_shape] in *.
  cbn -[reshape Z.mul PyOps.getitem].
  change (PyOps.getitem [s0; s1; s2; s3; s4] 0) with (@Ok Z s0).
  change (PyOps.getitem [s0; s1; s2; s3; s4] 1) with (@Ok Z s1).
  change (PyOps.getitem [s0; s1; s2; s3; s4] 2) with (@Ok Z s2).
  change (PyOps.getitem [s0; s1 * s2; s3; s4] (-2)) with (@Ok Z s3).
  change (PyOps.getitem [s0; s1 * s2; s3; s4] (-1)) with (@Ok Z s4).
  cbn [PyOps.bind]. rewrite Hre. reflexivity.
Qed.

Lemma call_2d_to_3d : forall (keys : list string) (d : gmap string value),
  NoDup keys -> (forall k, k ∈ keys -> unfoldable d k) ->
  (forall k k', k ∈ keys -> k' ∈ keys -> k' <> shape_key k) ->
  exists d2,
    fold_result Convert2DTo3DTransform.step d keys = Ok d2
    /\ (forall k a1 shp, k ∈ keys -> d !! k = Some (VArr a1) ->
          d !! shape_key k = Some (VShape shp) ->
          d2 !! k = Some (VArr (reshaped a1 shp)))
    /\ (forall k', k' ∉ keys -> d2 !! k' = d !! k').
Proof.
  induction keys as [ | k keys IH]; intros d Hnd Hall Hcross.
  - exists d. split; [reflexivity | split].
    + intros k a1 shp Hk. inversion Hk.
    + reflexivity.
  - inversion Hnd as [ | ? ? Hnotin Hnd']; subst.
    destruct (Hall k (list_elem_of_here _ _)) as (a1 & shp & Hk & Hs & Hlen & Hshp & Hflat).
    cbn [fold_result]. rewrite (step_2d_to_3d d k a1 shp Hk Hs Hlen Hshp Hflat).
    cbn [PyOps.bind].
    set (d' := <[k := _]> d).
    assert (Hother : forall k', k' ∈ keys -> k' <> k /\ shape_key k' <> k).
    { intros k' Hk'. split; [intros ->; contradiction | ].
      intros Heq. apply (Hcross k' k); [right; exact Hk' | left | auto]. }
    destruct (IH d' Hnd') as (d2 & Hrun & Hkeys & Hframe).
    { intros k' Hk'. destruct (Hother k' Hk') as (H1 & H2).
      destruct (Hall k' (list_elem_of_further _ _ _ Hk'))
        as (a' & shp' & Hk'a & Hs' & H).
      exists a', shp'. unfold d'. rewrite !lookup_insert_ne by congruence. auto. }
    { intros k1 k2 H1 H2. apply Hcross; right; assumption. }
    exists d2. split; [exact Hrun | split].
    + intros k0 a0 shp0 Hk0 Hk0a Hk0s. apply elem_of_cons in Hk0 as [-> | Hk0].
      * assert (a0 = a1) as -> by congruence.
        assert (shp0 = shp) as -> by congruence.
        rewrite Hframe by exact Hnotin. unfold d'. apply lookup_insert_eq.
      * destruct (Hother _ Hk0) as (H1 & H2).
        apply Hkeys; [exact Hk0 | | ];
          unfold d'; rewrite lookup_insert_ne by congruence; assumption.
    + intros k' Hk'. rewrite Hframe.
      * unfold d'. rewrite lookup_insert_ne; [reflexivity | ].
        intros ->. apply Hk'. left.
      * intros Hin. apply Hk'. right. exact Hin.
Qed.

Lemma foldable_apart (d : gmap string value) (k k' : string) :
  foldable d k -> foldable d k' -> k' <> shape_key k.
Proof.
  intros (a & _ & _ & _ & Hfree) (a' & Hk' & _) ->. congruence.
Qed.

(** Both passes with the arrays they store. *)
Lemma convert_3d_2d_round_trip_aux (keys : list string) (d : gmap string value) :
  NoDup keys -> (forall k, k ∈ keys -> foldable d k) ->
  exists d1 d2 : gmap string value,
    Convert3DTo2DTransform.call (Convert3DTo2DTransform.mk keys) d = Ok d1
    /\ Convert2DTo3DTransform.call (Convert2DTo3DTransform.mk keys) d1 = Ok d2
    /\ (forall k a, k ∈ keys -> d !! k = Some (VArr a) ->
          d1 !! k = Some (VArr (reshaped a (flat_shape (shape a)))))
    /\ (forall k a, k ∈ keys -> d !! k = Some (VArr a) ->
          d2 !! shape_key k = Some (VShape (shape a)))
    /\ (forall k a, k ∈ keys -> d !! k = Some (VArr a) ->
          d2 !! k = Some (VArr (reshaped (reshaped a (flat_shape (shape a)))
                                         (shape a)))).
Proof.
  intros Hnd Hall.
  destruct (call_3d_to_2d keys d Hnd Hall) as (d1 & Hrun1 & Hkeys1 & Hframe1).
  assert (Hcross : forall k k', k ∈ keys -> k' ∈ keys -> k' <> shape_key k).
  { intros k k' Hk Hk'. eapply foldable_apart; eauto. }
  destruct (call_2d_to_3d keys d1 Hnd) as (d2 & Hrun2 & Hkeys2 & Hframe2).
  { intros k Hk. destruct (Hall k Hk) as (a & Hka & Hlen & Hshp & _).
    destruct (Hkeys1 k a Hk Hka) as [H1 H2].
    exists (reshaped a (flat_shape (shape a))), (shape a). auto. }
  { exact Hcross. }
  exists d1, d2. split; [exact Hrun1 | split; [exact Hrun2 | ]].
  split; [ | split].
  - intros k a Hk Hka. apply (Hkeys1 k a Hk Hka).
  - intros k a Hk Hka. destruct (Hkeys1 k a Hk Hka) as [H1 H2].
    rewrite Hframe2; [exact H2 | ].
    intros Hin. exact (Hcross k (shape_key k) Hk Hin eq_refl).
  - intros k a Hk Hka. destruct (Hkeys1 k a Hk Hka) as [H1 H2].
    apply (Hkeys2 k _ _ Hk H1 H2).
Qed.

(** X17.  [Convert3DTo2DTransform] followed by [Convert2DTo3DTransform]
    over the same keys, each key holding a 5-D array [(b, c, x, y, z)]
    and its [orig_shape_] key being free: the first pass turns each array
    into [(b, c * x, y, z)], element [(b, c, x, y, z)] going to channel
    [c * s2 + x], and stores the original shape; the second pass gives
    back the original shape and every element at its place.  Keys that
    are neither listed nor an [orig_shape_] key of a listed one are not
    touched. *)
Theorem convert_3d_2d_round_trip (keys : list string) (d : gmap string value) :
  NoDup keys -> (forall k, k ∈ keys -> foldable d k) ->
  exists d1 d2 : gmap string value,
    Convert3DTo2DTransform.call (Convert3DTo2DTransform.mk keys) d = Ok d1
    /\ Convert2DTo3DTransform.call (Convert2DTo3DTransform.mk keys) d1 = Ok d2
    /\ (forall (k : string) (a : ndarray),
          k ∈ keys -> d !! k = Some (VArr a) ->
          exists a1 a2 : ndarray,
            d1 !! k = Some (VArr a1)
            /\ shape a1 = flat_shape (shape a)
            /\ (forall s0 s1 s2 s3 s4 b c x y z,
                   shape a = [s0; s1; s2; s3; s4] ->
                   valid_index [b; c; x; y; z] (shape a) ->
                   item a1 [b; c * s2 + x; y; z] = item a [b; c; x; y; z])
            /\ d1 !! shape_key k = Some (VShape (shape a))
            /\ d2 !! k = Some (VArr a2)
            /\ shape a2 = shape a
            /\ (forall idx, valid_index idx (shape a) -> item a2 idx = item a idx)
            /\ d2 !! shape_key k = Some (VShape (shape a)))
    /\ (forall k' : string,
          k' ∉ keys -> (forall k, k ∈ keys -> k' <> shape_key k) ->
          d1 !! k' = d !! k' /\ d2 !! k' = d !! k').
Proof.
  intros Hnd Hall.
  destruct (call_3d_to_2d keys d Hnd Hall) as (d1 & Hrun1 & Hkeys1 & Hframe1).
  assert (Hcross : forall k k', k ∈ keys -> k' ∈ keys -> k' <> shape_key k).
  { intros k k' Hk Hk'. eapply foldable_apart; eauto. }
  destruct (call_2d_to_3d keys d1 Hnd) as (d2 & Hrun2 & Hkeys2 & Hframe2).
  { intros k Hk. destruct (Hall k Hk) as (a & Hka & Hlen & Hshp & _).
    destruct (Hkeys1 k a Hk Hka) as [H1 H2].
    exists (reshaped a (flat_shape (shape a))), (shape a). auto. }
  { exact Hcross. }
  exists d1, d2. split; [exact Hrun1 | split; [exact Hrun2 | split]].
  - intros k a Hk Hka. destruct (Hall k Hk) as (a' & Hka' & Hlen & Hshp & _).
    assert (a' = a) as -> by congruence.
    destruct (Hkeys1 k a Hk Hka) as [H1 H2].
    exists (reshaped a (flat_shape (shape a))),
           (reshaped (reshaped a (flat_shape (shape a))) (shape a)).
    split; [exact H1 | split; [reflexivity | split]].
    { intros. apply flattened_item with (s0 := s0) (s1 := s1) (s3 := s3) (s4 := s4);
        assumption. }
    split; [exact H2 | split; [apply (Hkeys2 k _ _ Hk H1 H2) | ]].
    split; [reflexivity | split].
    + intros idx Hidx. apply restored_item; assumption.
    + rewrite Hframe2; [exact H2 | ].
      intros Hin. exact (Hcross k (shape_key k) Hk Hin eq_refl).
  - intros k' Hk' Hsk. rewrite Hframe2 by exact Hk'.
    split; apply Hframe1; assumption.
Qed.

(** X18.  The two transforms only work in that order and only once: on a
    record without [orig_shape_] key [Convert2DTo3DTransform] raises
    [AssertionError]; [Convert3DTo2DTransform] raises [AssertionError] on
    its own output (the arrays are 4-D) and also on the output of the
    round trip, because [Convert2DTo3DTransform] leaves the [orig_shape_]
    keys in the record. *)
Theorem convert_3d_2d_only_once (keys : list string) (d : gmap string value) :
  keys <> [] -> NoDup keys -> (forall k, k ∈ keys -> foldable d k) ->
  Convert2DTo3DTransform.call (Convert2DTo3DTransform.mk keys) d
  = Raise Py.AssertionError
  /\ exists d1 d2 : gmap string value,
       Convert3DTo2DTransform.call (Convert3DTo2DTransform.mk keys) d = Ok d1
       /\ Convert2DTo3DTransform.call (Convert2DTo3DTransform.mk keys) d1 = Ok d2
       /\ Convert3DTo2DTransform.call (Convert3DTo2DTransform.mk keys) d1
          = Raise Py.AssertionError
       /\ Convert3DTo2DTransform.call (Convert3DTo2DTransform.mk keys) d2
          = Raise Py.AssertionError.
Proof.
  intros Hne Hnd Hall.
  destruct keys as [ | k keys]; [contradiction | ].
  destruct (Hall k (list_elem_of_here _ _)) as (a & Hka & Hlen & Hshp & Hfree).
  split.
  { unfold Convert2DTo3DTransform.call. cbn [Convert2DTo3DTransform.apply_to_keys
      fold_result]. unfold Convert2DTo3DTransform.step. rewrite Hfree. reflexivity. }
  destruct (convert_3d_2d_round_trip_aux (k :: keys) d Hnd Hall)
    as (d1 & d2 & Hrun1 & Hrun2 & Hk1 & Hs2 & Hk2).
  exists d1, d2. split; [exact Hrun1 | split; [exact Hrun2 | split]].
  - unfold Convert3DTo2DTransform.call.
    cbn [Convert3DTo2DTransform.apply_to_keys fold_result].
    unfold Convert3DTo2DTransform.step at 1. unfold array_at.
    rewrite (Hk1 k a (list_elem_of_here _ _) Hka). cbn [PyOps.bind reshaped shape].
    destruct (shape a) as [ | s0 [ | s1 [ | s2 [ | s3 [ | s4 [ | ? ?]]]]]];
      try discriminate.
    reflexivity.
  - unfold Convert3DTo2DTransform.call.
    cbn [Convert3DTo2DTransform.apply_to_keys fold_result].
    unfold Convert3DTo2DTransform.step at 1. unfold array_at.
    rewrite (Hk2 k a (list_elem_of_here _ _) Hka). cbn [PyOps.bind].
    pose proof (reshape_plain
                  (reshaped (reshaped a (flat_shape (shape a))) (shape a))
                  (flat_shape (shape a)) (flat_nonneg _ Hshp) (flat_size _)) as Hre.
    remember (reshaped (reshaped a (flat_shape (shape a))) (shape a)) as a2 eqn:Ea2.
    assert (Hsa : shape a2 = shape a) by (rewrite Ea2; reflexivity).
    rewrite Hsa. clear Ea2 Hsa.
    destruct (shape a) as [ | s0 [ | s1 [ | s2 [ | s3 [ | s4 [ | ? ?]]]]]] eqn:Es;
      try discriminate.
    cbn [flat_shape] in Hre. rewrite Hre. cbn [PyOps.bind].
    assert (Hne' : k <> shape_key k).
    { intros Heq. rewrite <- Heq in Hfree. congruence. }
    rewrite lookup_insert_ne by exact Hne'.
    rewrite (Hs2 k a (list_elem_of_here _ _) Hka).
    rewrite bool_decide_eq_true_2 by (eexists; reflexivity).
    reflexivity.
Qed.

End Reshaping.

Lemma batch_dict_foldable (k : string) :
  k ∈ ["data"; "seg"]%string -> foldable batch_dict k.
Proof.
  intros Hk. exists batch_5d.
  apply elem_of_cons in Hk as [-> | Hk];
    [ | apply list_elem_of_singleton in Hk as ->];
    (split; [reflexivity | split; [reflexivity | split; [ | reflexivity]]]);
    repeat constructor; lia.
Qed.

Lemma data_seg_distinct : NoDup ["data"; "seg"]%string.
Proof.
  apply NoDup_cons. split; [ | apply NoDup_singleton].
  intros H. apply list_elem_of_singleton in H. discriminate.
Qed.

Lemma convert_3d_2d_round_trip_witness :
  exists (d1 d2 : gmap string Transforms.value) (a1 a2 : Np.ndarray),
    Transforms.Convert3DTo2DTransform.call
      (Transforms.Convert3DTo2DTransform.init None) batch_dict = Ok d1
    /\ Transforms.Convert2DTo3DTransform.call
         (Transforms.Convert2DTo3DTransform.init None) d1 = Ok d2
    /\ d1 !! "data"%string = Some (Transforms.VArr a1)
    /\ Np.shape a1 = [1; 6; 2; 2]
    /\ Np.item a1 [0; 5; 1; 0] = 1210
    /\ d2 !! "data"%string = Some (Transforms.VArr a2)
    /\ Np.shape a2 = [1; 2; 3; 2; 2]
    /\ Np.item a2 [0; 1; 2; 1; 0] = 1210.
Proof.
  destruct (convert_3d_2d_round_trip ["data"; "seg"]%string batch_dict
              data_seg_distinct batch_dict_foldable)
    as (d1 & d2 & Hrun1 & Hrun2 & Hkeys & _).
  destruct (Hkeys "data"%string batch_5d (list_elem_of_here _ _) eq_refl)
    as (a1 & a2 & Hd1 & Hs1 & Hi1 & _ & Hd2 & Hs2 & Hi2 & _).
  exists d1, d2, a1, a2.
  split; [exact Hrun1 | split; [exact Hrun2 | split; [exact Hd1 | ]]].
  split; [exact Hs1 | split].
  - transitivity (Np.item batch_5d [0; 1; 2; 1; 0]); [ | reflexivity].
    apply (Hi1 1 2 3 2 2 0 1 2 1 0 eq_refl). repeat constructor; lia.
  - split; [exact Hd2 | split; [exact Hs2 | ]].
    rewrite Hi2; [reflexivity | ]. repeat constructor; lia.
Defined.

Lemma convert_3d_2d_only_once_witness :
  Transforms.Convert2DTo3DTransform.call
    (Transforms.Convert2DTo3DTransform.init None) batch_dict
  = Raise Py.AssertionError
  /\ exists d1 d2 : gmap string Transforms.value,
       Transforms.Convert3DTo2DTransform.call
         (Transforms.Convert3DTo2DTransform.init None) batch_dict = Ok d1
       /\ Transforms.Convert2DTo3DTransform.call
            (Transforms.Convert2DTo3DTransform.init None) d1 = Ok d2
       /\ Transforms.Convert3DTo2DTransform.call
            (Transforms.Convert3DTo2DTransform.init None) d1
          = Raise Py.AssertionError
       /\ Transforms.Convert3DTo2DTransform.call
            (Transforms.Convert3DTo2DTransform.init None) d2
          = Raise Py.AssertionError.
Proof.
  apply (convert_3d_2d_only_once ["data"; "seg"]%string batch_dict).
  - discriminate.
  - exact data_seg_distinct.
  - exact batch_dict_foldable.
Defined.

(** ** Reading the files of a record *)

Section Reader.
Import Np NpShape Transforms.

Variable adaptive_imread : string -> result ndarray.

Lemma channel_first_rank (a : ndarray) :
  volume a = true -> ndim (channel_first a) = 4%nat.
Proof.
  unfold volume, channel_first, ndim. intros H.
  apply orb_true_iff in H as [H | H]; apply bool_decide_eq_true in H.
  - rewrite bool_decide_eq_true_2 by exact H. simpl. rewrite H. reflexivity.
  - rewrite bool_decide_eq_false_2 by lia. exact H.
Qed.

(** [imread] with [threeD] left at its default *)
Lemma imread_default (p q : string) (img msk : ndarray) :
  adaptive_imread p = Ok img -> adaptive_imread q = Ok msk ->
  imread adaptive_imread (Some (ROne (EPath p))) (Some (ROne (EPath q))) true
  = if volume img && volume msk
    then Ok (channel_first img, channel_first msk)
    else Raise Py.AssertionError.
Proof.
  intros Hp Hq. unfold imread, read. rewrite Hp, Hq. cbn [PyOps.bind].
  unfold with_channel_axis, volume, channel_first, ndim.
  cbn [andb negb orb].
  rewrite !orb_false_r.
  destruct (bool_decide (length (shape img) = 3%nat)) eqn:E3;
    destruct (bool_decide (length (shape msk) = 3%nat)) eqn:F3;
    try apply bool_decide_eq_true in E3; try apply bool_decide_eq_true in F3;
    try apply bool_decide_eq_false in E3; try apply bool_decide_eq_false in F3;
    cbn [shape expand_dims0 length orb andb];
    try rewrite E3; try rewrite F3;
    repeat case_bool_decide; try lia; try reflexivity.
Qed.

(** The loop of the list mode over pairs of paths that read well: the
    positions read so far hold arrays, the others are untouched. *)
Lemma read_all_prefix : forall (paths : list (string * string))
    (reads : list (ndarray * ndarray)),
  read_as adaptive_imread paths reads ->
  forall (done_d done_s todo extra : list entry),
    length done_s = length done_d ->
    DataReader.read_all adaptive_imread (length done_d)
      (image_paths paths ++ todo) (done_d ++ image_paths paths ++ todo)
      (Some (RList (done_s ++ mask_paths paths ++ extra)))
    = DataReader.read_all adaptive_imread (length done_d + length paths)
        todo ((done_d ++ images reads) ++ todo)
        (Some (RList ((done_s ++ masks reads) ++ extra))).
Proof.
  induction 1 as [ | [p q] [img msk] paths reads (Hp & Hq & Hvi & Hvm) _ IH];
    intros done_d done_s todo extra Hlen.
  - cbn [image_paths mask_paths images masks map length app].
    rewrite !app_nil_r, Nat.add_0_r. reflexivity.
  - change (image_paths ((p, q) :: paths)) with (EPath p :: image_paths paths).
    change (mask_paths ((p, q) :: paths)) with (EPath q :: mask_paths paths).
    change (images ((img, msk) :: reads))
      with (EArr (channel_first img) :: images reads).
    change (masks ((img, msk) :: reads))
      with (EArr (channel_first msk) :: masks reads).
    cbn [length app fst snd] in *.
    cbn [DataReader.read_all]. unfold DataReader.seg_item.
    rewrite list_lookup_middle by (symmetry; exact Hlen).
    cbn [PyOps.bind].
    rewrite (imread_default p q img msk Hp Hq), Hvi, Hvm.
    cbn [andb PyOps.bind fst snd DataReader.seg_store].
    rewrite !insert_app_r_alt by lia. rewrite Hlen, !Nat.sub_diag.
    cbn [list_insert insert].
    change (<[0%nat := ?x]> (?y :: ?l)) with (x :: l).
    specialize (IH (done_d ++ [EArr (channel_first img)])
                   (done_s ++ [EArr (channel_first msk)]) todo extra).
    rewrite !length_app in IH. cbn [length] in IH.
    rewrite <- !app_assoc in IH. cbn [app] in IH.
    replace (S (length done_d)) with (length done_d + 1)%nat by lia.
    rewrite IH by lia.
    rewrite <- !app_assoc. cbn [app].
    f_equal. lia.
Qed.

(** X19.  [DataReader] on a record holding one image path and one mask
    path that both read well: whatever [threeD] the reader was built
    with, the files are read as 3-D data.  When both arrays have 3 or 4
    axes the record comes back with the two arrays in place of the paths,
    each with 4 axes (a leading channel axis added to one of 3); in every
    other case, so also for the 2-D images of a reader built with
    [threeD = False], the call raises [AssertionError]. *)
Theorem data_reader_reads_volumes (self : DataReader.t)
    (data_dict : gmap string rvalue) (p q : string) (img msk : ndarray) :
  data_dict !! DataReader.data_key self = Some (ROne (EPath p)) ->
  data_dict !! DataReader.label_key self = Some (ROne (EPath q)) ->
  adaptive_imread p = Ok img -> adaptive_imread q = Ok msk ->
  DataReader.call adaptive_imread self data_dict
  = (if volume img && volume msk
     then Ok (<[DataReader.label_key self := ROne (EArr (channel_first msk))]>
                (<[DataReader.data_key self := ROne (EArr (channel_first img))]>
                   data_dict))
     else Raise Py.AssertionError)
  /\ (volume img && volume msk = true ->
      ndim (channel_first img) = 4%nat /\ ndim (channel_first msk) = 4%nat).
Proof.
  intros Hd Hs Hp Hq. split.
  - unfold DataReader.call. rewrite Hd, Hs, (imread_default p q img msk Hp Hq).
    destruct (volume img && volume msk); reflexivity.
  - intros H. apply andb_true_iff in H as [Hi Hm].
    split; apply channel_first_rank; assumption.
Qed.

(** X20.  [DataReader] on a record holding a list of image paths and a
    list of mask paths at least as long, the first as many of which
    belong to the images, every file reading as an array of 3 or 4 axes:
    the record comes back with the image list holding the arrays read,
    in order, each with its channel axis, and the mask list holding the
    masks read, followed by the entries the loop did not reach. *)
Theorem data_reader_reads_lists (self : DataReader.t)
    (data_dict : gmap string rvalue) (paths : list (string * string))
    (reads : list (ndarray * ndarray)) (extra : list entry) :
  data_dict !! DataReader.data_key self = Some (RList (image_paths paths)) ->
  data_dict !! DataReader.label_key self
  = Some (RList (mask_paths paths ++ extra)) ->
  read_as adaptive_imread paths reads ->
  DataReader.call adaptive_imread self data_dict
  = Ok (<[DataReader.label_key self := RList (masks reads ++ extra)]>
          (<[DataReader.data_key self := RList (images reads)]> data_dict)).
Proof.
  intros Hd Hs Hread. unfold DataReader.call. rewrite Hd, Hs.
  pose proof (read_all_prefix paths reads Hread [] [] [] extra eq_refl) as H.
  cbn [app length] in H. rewrite !app_nil_r in H. rewrite H.
  reflexivity.
Qed.

(** X21.  The list mode of [DataReader] walks the image list and indexes
    the masks by position: with fewer masks than images it raises
    [IndexError] once the masks are used up, after reading the pairs
    before; with no mask entry in the record at all it raises
    [TypeError] at the first image; and an empty image list leaves the
    record as it is. *)
Theorem data_reader_list_errors (self : DataReader.t)
    (data_dict : gmap string rvalue) :
  (forall (paths : list (string * string)) (reads : list (ndarray * ndarray))
          (e : entry) (more : list entry),
      data_dict !! DataReader.data_key self
      = Some (RList (image_paths paths ++ e :: more)) ->
      data_dict !! DataReader.label_key self = Some (RList (mask_paths paths)) ->
      read_as adaptive_imread paths reads ->
      DataReader.call adaptive_imread self data_dict = Raise Py.IndexError)
  /\ (forall (e : entry) (more : list entry),
        data_dict !! DataReader.data_key self = Some (RList (e :: more)) ->
        data_dict !! DataReader.label_key self = None ->
        DataReader.call adaptive_imread self data_dict = Raise Py.TypeError)
  /\ (data_dict !! DataReader.data_key self = Some (RList []) ->
      DataReader.call adaptive_imread self data_dict = Ok data_dict).
Proof.
  split; [ | split].
  - intros paths reads e more Hd Hs Hread. unfold DataReader.call.
    rewrite Hd, Hs.
    pose proof (read_all_prefix paths reads Hread [] [] (e :: more) []
                  eq_refl) as H.
    cbn [app length] in H. rewrite !app_nil_r in H. rewrite H.
    cbn [DataReader.read_all]. unfold DataReader.seg_item.
    rewrite lookup_ge_None_2; [reflexivity | ].
    unfold masks. rewrite length_map.
    apply Forall2_length in Hread. lia.
  - intros e more Hd Hs. unfold DataReader.call. rewrite Hd, Hs. reflexivity.
  - intros Hd. unfold DataReader.call. rewrite Hd.
    cbn [DataReader.read_all PyOps.bind fst snd].
    destruct (data_dict !! DataReader.label_key self) as [seg | ] eqn:Hs.
    + rewrite (insert_id _ _ _ Hd). rewrite (insert_id _ _ _ Hs). reflexivity.
    + rewrite (insert_id _ _ _ Hd). reflexivity.
Qed.

End Reader.

Lemma data_reader_reads_volumes_witness :
  Transforms.DataReader.call cube_imread
    (Transforms.DataReader.init (Some false) None None) path_record
  = Ok (<["seg"%string := Transforms.ROne (Transforms.EArr cube_msk)]>
          (<["data"%string
             := Transforms.ROne (Transforms.EArr (NpShape.expand_dims0 raw_volume))]>
             path_record)).
Proof.
  exact (proj1 (data_reader_reads_volumes cube_imread
                  (Transforms.DataReader.init (Some false) None None) path_record
                  "img/b.npy" "msk/b.npy" raw_volume cube_msk
                  eq_refl eq_refl eq_refl eq_refl)).
Defined.

Lemma data_reader_reads_lists_witness :
  Transforms.DataReader.call cube_imread
    (Transforms.DataReader.init None None None) list_record
  = Ok (<["seg"%string
          := Transforms.RList [Transforms.EArr cube_msk; Transforms.EArr cube_msk]]>
          (<["data"%string
             := Transforms.RList [Transforms.EArr (NpShape.expand_dims0 raw_volume);
                                  Transforms.EArr (NpShape.expand_dims0 raw_volume)]]>
             list_record)).
Proof.
  apply (data_reader_reads_lists cube_imread
           (Transforms.DataReader.init None None None) list_record
           [("img/b.npy", "msk/b.npy"); ("img/c.npy", "msk/c.npy")]%string
           [(raw_volume, cube_msk); (raw_volume, cube_msk)] []).
  - reflexivity.
  - reflexivity.
  - repeat constructor.
Defined.

(** ** The patch size of one axis *)

Section PatchSize.
Import PatchPool.

Lemma digits53_bounds (m : positive) :
  digits2_pos m = 53%positive -> 2 ^ 52 <= Z.pos m < 2 ^ 53.
Proof.
  intros Hd. rewrite digits2_size in Hd.
  pose proof (Pos.size_le m) as Hle. pose proof (Pos.size_gt m) as Hgt.
  rewrite Hd in Hle, Hgt.
  apply Pos2Z.pos_le_pos in Hle. apply Pos2Z.pos_lt_pos in Hgt.
  rewrite Pos2Z.inj_pow in Hle, Hgt. rewrite Pos2Z.inj_xO in Hle.
  change (Z.pos 2 ^ Z.pos 53) with (2 * 2 ^ 52) in Hle.
  change (Z.pos 2 ^ Z.pos 53) with (2 ^ 53) in Hgt. lia.
Qed.

(** Halving a float with a 53-bit mantissa lowers its exponent by one. *)
Lemma half_of_finite (m : positive) (e : Z) :
  digits2_pos m = 53%positive -> -1000 <= e <= 900 ->
  half_of (NFloat (S754_finite false m e)) = S754_finite false m (e - 1).
Proof.
  intros Hd He. unfold half_of, to_float.
  change (F64.of_Z 2) with (S754_finite false 4503599627370496 (-51)).
  unfold SFdiv, SFdiv_core_binary. cbn [Zdigits2 xorb]. rewrite Hd.
  change (digits2_pos 4503599627370496) with 53%positive.
  unfold fexp, emin, F64.prec, F64.emax.
  replace (Z.min (Z.max (53 + e - (53 + -51) - 53) (3 - 1024 - 53)) (e - -51))
    with (e - 2) by lia.
  replace (e - -51 - (e - 2)) with 53 by lia.
  rewrite Z.shiftl_mul_pow2 by lia.
  replace (Z.pos m * 2 ^ 53) with (Z.pos (m~0) * 4503599627370496)
    by (rewrite Pos2Z.inj_xO; change (2 ^ 53) with (2 * 4503599627370496); lia).
  pose proof (Z.div_eucl_eq (Z.pos m~0 * 4503599627370496) 4503599627370496)
    as Hdiv.
  pose proof (Z.mod_pos_bound (Z.pos m~0 * 4503599627370496) 4503599627370496)
    as Hmod.
  unfold Z.modulo in Hmod.
  destruct (Z.div_eucl (Z.pos m~0 * 4503599627370496) 4503599627370496)
    as [q r] eqn:E.
  assert (q = Z.pos m~0 /\ r = 0) as [-> ->] by nia.
  change (new_location 4503599627370496 0) with loc_Exact.
  replace (e - 1) with (e - 2 + 1) by lia.
  apply (round_shifted m (m~0) (e - 2) 1); [exact Hd | lia | | lia].
  rewrite Pos2Z.inj_xO. lia.
Qed.

(** Is the float [p * 2^-k] above 7? *)
Lemma above_seven (m : positive) (e0 k p : Z) :
  digits2_pos m = 53%positive -> -52 <= e0 <= 0 -> 0 <= k ->
  Z.pos m = p * 2 ^ (- e0) ->
  gt (NFloat (S754_finite false m (e0 - k))) 7 = (7 * 2 ^ k <? p).
Proof.
  intros Hd He Hk Hm. apply digits53_bounds in Hd.
  unfold gt, F64.ltb, SFltb.
  change (F64.of_Z 7) with (S754_finite false 7881299347898368 (-50)).
  cbn [SFcompare].
  assert (Hpk : 0 < 2 ^ k) by (apply Z.pow_pos_nonneg; lia).
  assert (Hpe : 0 < 2 ^ (- e0)) by (apply Z.pow_pos_nonneg; lia).
  destruct (Z.compare_spec (-50) (e0 - k)) as [Heq | Hlt | Hgt].
  - (* the same exponent: the mantissas decide *)
    assert (H50 : 2 ^ 50 = 2 ^ k * 2 ^ (- e0)).
    { rewrite <- Z.pow_add_r by lia. f_equal. lia. }
    change (Pos.compare_cont Eq 7881299347898368 m)
      with (Z.pos 7881299347898368 ?= Z.pos m).
    change (Z.pos 7881299347898368) with (7 * 2 ^ 50).
    rewrite Hm, H50, Z.mul_assoc, compare_scaled by lia.
    unfold Z.ltb. reflexivity.
  - (* a higher exponent: at least 8 * 2^k *)
    symmetry. apply Z.ltb_lt.
    assert (H52 : 2 ^ 52 = 2 ^ (52 + e0) * 2 ^ (- e0)).
    { rewrite <- Z.pow_add_r by lia. f_equal. lia. }
    assert (Hp : 2 ^ (52 + e0) <= p) by nia.
    assert (H3 : 2 ^ (3 + k) <= 2 ^ (52 + e0)) by (apply Z.pow_le_mono_r; lia).
    rewrite (Z.pow_add_r 2 3 k) in H3 by lia. change (2 ^ 3) with 8 in H3. lia.
  - (* a lower exponent: below 4 * 2^k *)
    symmetry. apply Z.ltb_ge.
    assert (H53 : 2 ^ 53 = 2 ^ (53 + e0) * 2 ^ (- e0)).
    { rewrite <- Z.pow_add_r by lia. f_equal. lia. }
    assert (Hp : p < 2 ^ (53 + e0)) by nia.
    assert (H2 : 2 ^ (53 + e0) <= 2 ^ (2 + k)) by (apply Z.pow_le_mono_r; lia).
    rewrite (Z.pow_add_r 2 2 k) in H2 by lia. change (2 ^ 2) with 4 in H2. lia.
Qed.

(** The loop from the float [p * 2^-k] on: it stops at the first [K]
    with [p <= 7 * 2^K]. *)
Lemma halving_stops (m : positive) (e0 p : Z) :
  digits2_pos m = 53%positive -> -52 <= e0 <= 0 ->
  Z.pos m = p * 2 ^ (- e0) ->
  forall (j : nat) (k : Z),
    0 <= k -> k + Z.of_nat j <= 100 -> p <= 7 * 2 ^ (k + Z.of_nat j) ->
    exists K,
      k <= K <= k + Z.of_nat j
      /\ p <= 7 * 2 ^ K
      /\ (k < K -> 7 * 2 ^ (K - 1) < p)
      /\ forall fuel, (j < fuel)%nat ->
           halving fuel 7 (NFloat (S754_finite false m (e0 - k))) k
           = Some (NFloat (S754_finite false m (e0 - K)), K).
Proof.
  intros Hd He Hm. induction j as [ | j IH]; intros k Hk Hmax Hp.
  - exists k. replace (k + Z.of_nat 0) with k in Hp by lia.
    split; [lia | split; [exact Hp | split; [lia | ]]].
    intros [ | fuel] Hf; [lia | ]. cbn [halving].
    rewrite (above_seven m e0 k p Hd He Hk Hm).
    destruct (7 * 2 ^ k <? p) eqn:C; [apply Z.ltb_lt in C; lia | reflexivity].
  - destruct (7 * 2 ^ k <? p) eqn:C.
    + apply Z.ltb_lt in C.
      destruct (IH (k + 1)) as (K & HK & HpK & Hmin & Hrun); [lia | lia | | ].
      { replace (k + 1 + Z.of_nat j) with (k + Z.of_nat (S j)) by lia. exact Hp. }
      exists K. split; [lia | split; [exact HpK | split]].
      * intros _. destruct (Z.eq_dec K (k + 1)) as [-> | Hne].
        -- replace (k + 1 - 1) with k by lia. exact C.
        -- apply Hmin. lia.
      * intros [ | fuel] Hf; [lia | ]. cbn [halving].
        rewrite (above_seven m e0 k p Hd He Hk Hm).
        replace (7 * 2 ^ k <? p) with true by (symmetry; apply Z.ltb_lt; exact C).
        rewrite half_of_finite by (exact Hd || lia).
        replace (e0 - k - 1) with (e0 - (k + 1)) by lia.
        apply Hrun. lia.
    + apply Z.ltb_ge in C. exists k.
      split; [lia | split; [exact C | split; [lia | ]]].
      intros [ | fuel] Hf; [lia | ]. cbn [halving].
      rewrite (above_seven m e0 k p Hd He Hk Hm).
      replace (7 * 2 ^ k <? p) with false by (symmetry; apply Z.ltb_ge; exact C).
      reflexivity.
Qed.

(** [np.round(p * 2^-k).astype(int)] *)
Lemma round_dyadic (m : positive) (e0 k p : Z) :
  -52 <= e0 <= 0 -> 0 <= k -> 0 < p < 2 ^ 53 ->
  Z.pos m = p * 2 ^ (- e0) ->
  F64.round_to_int (S754_finite false m (e0 - k)) = rne_div p (2 ^ k).
Proof.
  intros He Hk Hp Hm.
  assert (Hpk : 0 < 2 ^ k) by (apply Z.pow_pos_nonneg; lia).
  unfold F64.round_to_int, F64.rint.
  rewrite (rint_pos_dyadic m e0 k p) by (lia || exact Hm).
  assert (Hq : 0 <= rne_div p (2 ^ k) <= p + 1).
  { unfold rne_div.
    pose proof (Z.div_pos p (2 ^ k)) as H1.
    pose proof (Z.div_le_upper_bound p (2 ^ k) p) as H2.
    assert (p `div` 2 ^ k <= p) by (apply H2; nia).
    destruct (_ ?= _); [destruct (Z.even _) | | ]; lia. }
  destruct (- 2 ^ 63 <=? _) eqn:E1; [ | apply Z.leb_gt in E1; lia].
  destruct (_ <? 2 ^ 63) eqn:E2; [reflexivity | ].
  apply Z.ltb_ge in E2. assert (2 ^ 53 + 1 < 2 ^ 63) by reflexivity. lia.
Qed.

(** Half-to-even rounding of a quotient between 3.5 and 7 *)
Lemma rne_div_bottleneck (p d : Z) :
  0 < d -> 7 * d < 2 * p -> p <= 7 * d ->
  4 <= rne_div p d <= 7 /\ 2 * Z.abs (rne_div p d * d - p) <= d.
Proof.
  intros Hd Hlo Hhi. unfold rne_div.
  pose proof (Z.div_mod p d ltac:(lia)) as Hdm.
  pose proof (Z.mod_pos_bound p d Hd) as Hr.
  set (q := p `div` d) in *. set (r := p `mod` d) in *.
  assert (Hq : 3 <= q <= 7) by nia.
  destruct (Z.compare_spec (2 * r) d) as [Heq | Hlt | Hgt].
  - destruct (Z.even q) eqn:Ev.
    + split; [ | nia].
      assert (q <> 3) by (intros ->; discriminate). lia.
    + assert (q <> 7) by (intros ->; nia).
      split; [lia | nia].
  - split; [nia | nia].
  - assert (q <> 7) by (intros ->; nia). split; [lia | nia].
Qed.

Lemma wrap_int64_small (z : Z) : - 2 ^ 63 <= z < 2 ^ 63 -> wrap_int64 z = z.
Proof.
  intros Hz. unfold wrap_int64. rewrite Z.mod_small; lia.
Qed.

(** X22.  [single_patch_pool(dim)] for an integer [dim] below [2^53],
    with the default [size_limit] of 7.  A [dim] of at most 7 comes back
    as it is, with no pooling.  A larger one is halved [pool] times,
    [pool] being the least number with [dim <= 7 * 2^pool], and the patch
    is the multiple of [2^pool] nearest to [dim] (half to even): it is
    between [4 * 2^pool] and [7 * 2^pool], so that [pool] halvings of the
    patch leave between 4 and 7 voxels, and it differs from [dim] by at
    most [2^pool / 2].  The loop ends within 53 iterations. *)
Theorem single_patch_pool_bottleneck (dim : Z) :
  - 2 ^ 63 <= dim < 2 ^ 53 ->
  if dim <=? 7
  then forall fuel, (1 <= fuel)%nat -> single_patch_pool fuel dim = Some (dim, 0)
  else
    exists patch pool : Z,
      (forall fuel, (53 <= fuel)%nat ->
                    single_patch_pool fuel dim = Some (patch, pool))
      /\ 1 <= pool <= 52
      /\ 7 * 2 ^ (pool - 1) < dim <= 7 * 2 ^ pool
      /\ patch = rne_div dim (2 ^ pool) * 2 ^ pool
      /\ 4 * 2 ^ pool <= patch <= 7 * 2 ^ pool
      /\ 2 * Z.abs (patch - dim) <= 2 ^ pool.
Proof.
  intros Hdim. destruct (dim <=? 7) eqn:C.
  - apply Z.leb_le in C. intros [ | fuel] Hf; [lia | ].
    unfold single_patch_pool. cbn [halving gt].
    replace (7 <? dim) with false by (symmetry; apply Z.ltb_ge; exact C).
    cbn [rounded]. rewrite Z.mul_1_r, wrap_int64_small by lia. reflexivity.
  - apply Z.leb_gt in C.
    destruct dim as [ | p | p]; try lia.
    destruct (of_Z_pos_normal p) as (m & e0 & Hof & He & Hm & Hd); [lia | ].
    destruct (halving_stops m e0 (Z.pos p) Hd He Hm 51 1)
      as (K & HK & HpK & Hmin & Hrun); [lia | lia | | ].
    { change (7 * 2 ^ (1 + Z.of_nat 51)) with (7 * 2 ^ 52).
      assert (2 ^ 53 <= 7 * 2 ^ 52) by (vm_compute; discriminate). lia. }
    assert (Hlow : 7 * 2 ^ (K - 1) < Z.pos p).
    { destruct (Z.eq_dec K 1) as [-> | Hne]; [exact C | apply Hmin; lia]. }
    assert (HpK2 : 0 < 2 ^ (K - 1)) by (apply Z.pow_pos_nonneg; lia).
    assert (H2K : 2 ^ K = 2 * 2 ^ (K - 1)).
    { rewrite <- Z.pow_succ_r by lia. f_equal. lia. }
    destruct (rne_div_bottleneck (Z.pos p) (2 ^ K)) as [Hq Hnear];
      [lia | lia | exact HpK | ].
    assert (H52 : 2 ^ K <= 2 ^ 52) by (apply Z.pow_le_mono_r; lia).
    exists (rne_div (Z.pos p) (2 ^ K) * 2 ^ K), K.
    split; [ | split; [lia | split; [lia | split; [reflexivity | split]]]].
    + intros [ | fuel] Hf; [lia | ].
      unfold single_patch_pool. cbn [halving gt].
      replace (7 <? Z.pos p) with true by (symmetry; apply Z.ltb_lt; exact C).
      unfold half_of at 1. cbn [to_float]. rewrite Hof.
      change (SFdiv F64.prec F64.emax (S754_finite false m e0) (F64.of_Z 2))
        with (half_of (NFloat (S754_finite false m e0))).
      rewrite half_of_finite by (exact Hd || lia).
      change (0 + 1) with 1. rewrite Hrun by lia.
      cbn [rounded].
      rewrite (round_dyadic m e0 K (Z.pos p)) by (lia || exact Hm).
      rewrite wrap_int64_small; [reflexivity | ].
      assert (7 * 2 ^ 52 < 2 ^ 63) by reflexivity. nia.
    + nia.
    + exact Hnear.
Qed.

End PatchSize.

Lemma single_patch_pool_bottleneck_witness :
  exists patch pool : Z,
    (forall fuel, (53 <= fuel)%nat ->
                  PatchPool.single_patch_pool fuel 100 = Some (patch, pool))
    /\ 1 <= pool <= 52
    /\ 7 * 2 ^ (pool - 1) < 100 <= 7 * 2 ^ pool
    /\ patch = rne_div 100 (2 ^ pool) * 2 ^ pool
    /\ 4 * 2 ^ pool <= patch <= 7 * 2 ^ pool
    /\ 2 * Z.abs (patch - 100) <= 2 ^ pool.
Proof.
  apply (single_patch_pool_bottleneck 100). lia.
Defined.

(** ** Converting configurations between the two mapping classes *)

Section ConfigRoundTrip.
Import Config.

(** Induction over a value and the values of its items *)
Lemma value_nested_ind (P : value -> Prop) :
  (forall z, P (VNum z)) -> P VNone -> (forall s, P (VStr s)) ->
  (forall k items, Forall (fun ki => P (snd ki)) items -> P (VMap k items)) ->
  forall v, P v.
Proof.
  intros Hnum Hnone Hstr Hmap. fix IH 1. intros [z | | s | k items].
  - apply Hnum.
  - exact Hnone.
  - apply Hstr.
  - apply Hmap. induction items as [ | [key i] items IHitems]; constructor.
    + apply IH.
    + exact IHitems.
Qed.

Lemma kind_eqb_eq (a b : kind) : kind_eqb a b = true <-> a = b.
Proof. destruct a, b; simpl; split; congruence. Qed.

(** Neither conversion changes a key, the order of the keys or a leaf. *)
Lemma skeleton_Dict_to_dict (v : value) :
  skeleton (Dict_to_dict_mapping v) = skeleton v.
Proof.
  induction v as [z | | s | k items IH] using value_nested_ind; try reflexivity.
  cbn [Dict_to_dict_mapping skeleton]. f_equal. rewrite map_map.
  induction IH as [ | [key i] items Hi _ IHitems]; [reflexivity | ].
  cbn [map snd] in *. rewrite IHitems. f_equal. f_equal.
  destruct (same_type k i); [exact Hi | reflexivity].
Qed.

Lemma skeleton_dict_to_Dict (v : value) :
  skeleton (dict_to_Dict_mapping v) = skeleton v.
Proof.
  induction v as [z | | s | k items IH] using value_nested_ind; try reflexivity.
  cbn [dict_to_Dict_mapping skeleton]. f_equal. rewrite map_map.
  induction IH as [ | [key i] items Hi _ IHitems]; [reflexivity | ].
  cbn [map snd] in *. rewrite IHitems. f_equal. f_equal.
  destruct (same_type k i); [exact Hi | reflexivity].
Qed.

(** A configuration of [Dict]s only becomes one of built-in dictionaries
    only, and comes back. *)
Lemma uniform_round_trip (v : value) :
  uniform Attr v = true ->
  uniform Builtin (Dict_to_dict_mapping v) = true
  /\ dict_to_Dict_mapping (Dict_to_dict_mapping v) = v.
Proof.
  induction v as [z | | s | k items IH] using value_nested_ind;
    try (intros _; split; reflexivity).
  cbn [uniform]. intros H. apply andb_true_iff in H as [Hk Hitems].
  apply kind_eqb_eq in Hk. subst k.
  cbn [Dict_to_dict_mapping dict_to_Dict_mapping uniform kind_eqb andb].
  rewrite map_map.
  induction IH as [ | [key i] items Hi _ IHitems]; [split; reflexivity | ].
  cbn [forallb] in Hitems. apply andb_true_iff in Hitems as [Hu Hrest].
  destruct (IHitems Hrest) as [IH1 IH2]. injection IH2 as IH2.
  cbn [map forallb snd] in *. destruct (Hi Hu) as [Hi1 Hi2].
  destruct i as [z | | s | k its]; cbn [same_type];
    try (split; [exact IH1 | rewrite IH2; reflexivity]).
  cbn [uniform] in Hu. apply andb_true_iff in Hu as [Hk _].
  rewrite Hk. split.
  - rewrite Hi1. exact IH1.
  - cbn [Dict_to_dict_mapping same_type kind_eqb].
    cbn [Dict_to_dict_mapping] in Hi2. rewrite Hi2, IH2. reflexivity.
Qed.

(** A built-in dictionary below a [Dict] does not come back. *)
Lemma round_trip_uniform (v : value) :
  same_type Attr v = true ->
  dict_to_Dict_mapping (Dict_to_dict_mapping v) = v -> uniform Attr v = true.
Proof.
  induction v as [z | | s | k items IH] using value_nested_ind;
    try (intros _ _; reflexivity).
  cbn [same_type]. intros Hk. rewrite kind_eqb_eq in Hk. subst k.
  cbn [Dict_to_dict_mapping dict_to_Dict_mapping uniform kind_eqb andb].
  rewrite map_map. intros Heq. injection Heq as Heq.
  induction IH as [ | [key i] items Hi _ IHitems]; [reflexivity | ].
  cbn [map forallb snd] in *. injection Heq as Hhead Hrest.
  rewrite (IHitems Hrest), andb_true_r.
  destruct i as [z | | s | [ | ] its]; try reflexivity.
  - cbn [same_type kind_eqb] in Hhead. discriminate.
  - apply Hi; [reflexivity | exact Hhead].
Qed.

(** X23.  [Dict_to_dict] then [dict_to_Dict] on a [Dict] (what saving a
    configuration and loading it again do around the YAML file): both
    calls succeed and neither changes a key, the order of the keys or a
    leaf; and the configuration comes back as it was exactly when all
    its mappings are [Dict]s, in which case the dictionary written in
    between holds built-in dictionaries only.  A built-in dictionary
    nested in a [Dict] is not descended into by [Dict_to_dict], and is
    turned into a [Dict] on the way back. *)
Theorem config_round_trip (items : list (string * value)) :
  exists d c : value,
    Dict_to_dict (VMap Attr items) = Ok d
    /\ dict_to_Dict d = Ok c
    /\ skeleton d = skeleton (VMap Attr items)
    /\ skeleton c = skeleton (VMap Attr items)
    /\ (c = VMap Attr items <-> uniform Attr (VMap Attr items) = true)
    /\ (uniform Attr (VMap Attr items) = true -> uniform Builtin d = true).
Proof.
  exists (Dict_to_dict_mapping (VMap Attr items)),
         (dict_to_Dict_mapping (Dict_to_dict_mapping (VMap Attr items))).
  split; [reflexivity | split; [reflexivity | split; [ | split; [ | split]]]].
  - apply skeleton_Dict_to_dict.
  - rewrite skeleton_dict_to_Dict. apply skeleton_Dict_to_dict.
  - split.
    + apply round_trip_uniform. reflexivity.
    + intros H. apply (uniform_round_trip _ H).
  - intros H. apply (uniform_round_trip _ H).
Qed.

End ConfigRoundTrip.

(** ** The library that reads and writes a path *)

Section FileExtension.
Import Np Files.

Lemma list_ascii_app (s t : string) :
  list_ascii_of_string (s +:+ t) = list_ascii_of_string s ++ list_ascii_of_string t.
Proof.
  induction s as [ | a s IH]; [reflexivity | ]. simpl. rewrite IH. reflexivity.
Qed.

Lemma string_of_app (l1 l2 : list ascii) :
  string_of_list_ascii (l1 ++ l2)
  = string_of_list_ascii l1 +:+ string_of_list_ascii l2.
Proof.
  induction l1 as [ | a l1 IH]; [reflexivity | ]. simpl. rewrite IH. reflexivity.
Qed.

Lemma rfind_bound (s : list ascii) (c : ascii) :
  -1 <= rfind s c < Z.of_nat (length s).
Proof.
  induction s as [ | a s IH]; simpl; [lia | ].
  destruct (0 <=? rfind s c) eqn:E; [lia | ].
  destruct (Ascii.eqb a c); lia.
Qed.

(** The last dot of a text whose tail has none *)
Lemma rfind_last (stem tail : list ascii) (c : ascii) :
  rfind tail c = -1 ->
  rfind (stem ++ c :: tail) c = Z.of_nat (length stem).
Proof.
  intros Htail. induction stem as [ | a stem IH].
  - simpl. rewrite Htail, Ascii.eqb_refl. reflexivity.
  - cbn [app rfind length]. rewrite IH.
    destruct (0 <=? Z.of_nat (length stem)) eqn:E; [lia | ].
    apply Z.leb_gt in E. lia.
Qed.

(** The extension is an end of the path. *)
Lemma extension_suffix (img_path : string) :
  exists stem, img_path = stem +:+ extension img_path.
Proof.
  unfold extension, PyOps.slice_from.
  set (s := list_ascii_of_string img_path).
  set (n := Z.to_nat _).
  exists (string_of_list_ascii (take n s)).
  rewrite <- string_of_app, take_drop. unfold s.
  symmetry. apply string_of_list_ascii_of_string.
Qed.

Lemma extension_of_suffix (stem tail : string) :
  rfind (list_ascii_of_string tail) "."%char = -1 ->
  extension (stem +:+ String "."%char tail) = String "."%char tail.
Proof.
  intros Htail. unfold extension, PyOps.slice_from.
  rewrite list_ascii_app. cbn [list_ascii_of_string].
  rewrite (rfind_last _ _ _ Htail).
  unfold PyOps.clip_index.
  destruct (Z.of_nat _ <? 0) eqn:E; [apply Z.ltb_lt in E; lia | ].
  rewrite length_app. cbn [length].
  rewrite Z.min_l by lia. rewrite Nat2Z.id, drop_app_length.
  change ("."%char :: list_ascii_of_string tail)
    with (list_ascii_of_string (String "."%char tail)).
  apply string_of_list_ascii_of_string.
Qed.

Lemma extension_is (img_path tail : string) :
  rfind (list_ascii_of_string tail) "."%char = -1 ->
  extension img_path = String "."%char tail
  <-> exists stem, img_path = stem +:+ String "."%char tail.
Proof.
  intros Htail. split.
  - intros H. rewrite <- H. apply extension_suffix.
  - intros (stem & ->). apply extension_of_suffix, Htail.
Qed.

Variable io_imread : string -> result ndarray.
Variable np_load : string -> result ndarray.
Variable sitk_imread : string -> result (ndarray * list spec_float).
Variable tiff_imwrite : string -> ndarray -> result unit.
Variable np_save : string -> ndarray -> result unit.
Variable sitk_imsave : string -> ndarray -> list spec_float -> result unit.

(** X24.  [adaptive_imread] and [adaptive_imsave] choose the library by
    the end of the path alone, and both in the same way: a path that
    ends in [.tif] goes to [skimage.io.imread] and [tifffile.imwrite], a
    path that ends in [.npy] to [np.load] and [np.save], whatever stands
    before, and every other path, so one without any dot or one ending
    in [.TIF] or [.nii.gz], to SimpleITK.  The two NumPy-array readers
    return an empty spacing. *)
Theorem adaptive_io_by_suffix (img_path : string) (img : ndarray)
    (spacing : list spec_float) :
  ((exists stem, img_path = stem +:+ ".tif") ->
   adaptive_imread io_imread np_load sitk_imread img_path
   = (let* a := io_imread img_path in Ok (a, []))
   /\ adaptive_imsave tiff_imwrite np_save sitk_imsave img_path img spacing
      = tiff_imwrite img_path img)
  /\ ((exists stem, img_path = stem +:+ ".npy") ->
      adaptive_imread io_imread np_load sitk_imread img_path
      = (let* a := np_load img_path in Ok (a, []))
      /\ adaptive_imsave tiff_imwrite np_save sitk_imsave img_path img spacing
         = np_save img_path img)
  /\ (~ (exists stem, img_path = stem +:+ ".tif") ->
      ~ (exists stem, img_path = stem +:+ ".npy") ->
      adaptive_imread io_imread np_load sitk_imread img_path
      = sitk_imread img_path
      /\ adaptive_imsave tiff_imwrite np_save sitk_imsave img_path img spacing
         = sitk_imsave img_path img spacing).
Proof.
  pose proof (extension_is img_path "tif" eq_refl) as Htif.
  pose proof (extension_is img_path "npy" eq_refl) as Hnpy.
  unfold adaptive_imread, adaptive_imsave.
  split; [ | split].
  - intros H. apply Htif in H. rewrite H. split; reflexivity.
  - intros H. apply Hnpy in H. rewrite H. split; reflexivity.
  - intros Hn1 Hn2.
    destruct (String.eqb_spec (extension img_path) ".tif") as [E | _];
      [exfalso; apply Hn1, Htif, E | ].
    destruct (String.eqb_spec (extension img_path) ".npy") as [E | _];
      [exfalso; apply Hn2, Hnpy, E | ].
    split; reflexivity.
Qed.

End FileExtension.

(** ** One-hot encoding *)

Section OneHotEncoding.
Import Np OneHot.

Lemma insert_sorted_elem (x y : Z) (l : list Z) :
  In y (insert_sorted x l) <-> y = x \/ In y l.
Proof.
  induction l as [ | z l IH]; simpl; [intuition | ].
  destruct (x <? z) eqn:E1; [simpl; intuition | ].
  destruct (x =? z) eqn:E2.
  - apply Z.eqb_eq in E2. subst z. simpl. intuition.
  - simpl. rewrite IH. intuition.
Qed.

Lemma increasing_from_lower (lo lo' : Z) (l : list Z) :
  lo' <= lo -> increasing_from lo l -> increasing_from lo' l.
Proof.
  destruct l as [ | x l]; simpl; [auto | ]. intros H [Hx Hl]. split; [lia | exact Hl].
Qed.

Lemma insert_sorted_increasing (x : Z) : forall (l : list Z) (lo : Z),
  lo <= x -> increasing_from lo l -> increasing_from lo (insert_sorted x l).
Proof.
  induction l as [ | z l IH]; intros lo Hlo Hl; simpl.
  - split; [exact Hlo | exact I].
  - destruct Hl as [Hz Hl].
    destruct (x <? z) eqn:E1.
    + apply Z.ltb_lt in E1. simpl. split; [exact Hlo | ].
      split; [lia | exact Hl].
    + apply Z.ltb_ge in E1. destruct (x =? z) eqn:E2.
      * simpl. split; assumption.
      * apply Z.eqb_neq in E2. simpl. split; [exact Hz | ].
        apply IH; [lia | exact Hl].
Qed.

(** [np.unique] gives the elements of the array, increasing. *)
Lemma np_unique_spec (values : ndarray) (lo : Z) :
  (forall x, In x (elements values) -> lo <= x) ->
  increasing_from lo (np_unique values)
  /\ forall x, In x (np_unique values) <-> In x (elements values).
Proof.
  unfold np_unique. induction (elements values) as [ | y l IH]; intros Hlo.
  - split; [exact I | reflexivity].
  - destruct IH as [IH1 IH2]; [intros x Hx; apply Hlo; right; exact Hx | ].
    cbn [foldr]. split.
    + apply insert_sorted_increasing; [apply Hlo; left; reflexivity | exact IH1].
    + intros x. rewrite insert_sorted_elem, IH2. simpl. intuition.
Qed.

Lemma increasing_head_least (lo x : Z) (l : list Z) :
  increasing_from lo (x :: l) -> forall y, In y (x :: l) -> x <= y.
Proof.
  intros [_ Hl] y [<- | Hy]; [lia | ].
  revert x Hl Hy. induction l as [ | z l IH]; intros x Hl Hy; [contradiction | ].
  destruct Hl as [Hz Hl]. destruct Hy as [<- | Hy]; [lia | ].
  specialize (IH z Hl Hy). lia.
Qed.

(** An increasing list within [lo, hi) has at most [hi - lo] entries, and
    with that many it counts from [lo] to [hi - 1]. *)
Lemma increasing_bounded : forall (l : list Z) (lo hi : Z),
  lo <= hi -> increasing_from lo l -> (forall x, In x l -> x < hi) ->
  Z.of_nat (length l) <= hi - lo
  /\ (Z.of_nat (length l) = hi - lo -> l = seqZ lo (hi - lo)).
Proof.
  induction l as [ | x l IH]; intros lo hi Hle Hl Hhi.
  - simpl. split; [lia | ]. intros H. rewrite <- H. reflexivity.
  - destruct Hl as [Hx Hl].
    assert (Hxhi : x < hi) by (apply Hhi; left; reflexivity).
    destruct (IH (x + 1) hi) as [IH1 IH2];
      [lia | exact Hl | intros y Hy; apply Hhi; right; exact Hy | ].
    cbn [length]. split; [lia | ].
    intros Hlen. assert (x = lo) as -> by lia.
    rewrite seqZ_cons by lia. f_equal.
    replace (Z.succ lo) with (lo + 1) by lia.
    replace (Z.pred (hi - lo)) with (hi - (lo + 1)) by lia.
    apply IH2. lia.
Qed.

Lemma uint8_small (l : list Z) :
  (forall x, In x l -> 0 <= x < 256) -> map uint8 l = l.
Proof.
  induction l as [ | x l IH]; intros H; [reflexivity | ].
  cbn [map]. rewrite IH by (intros y Hy; apply H; right; exact Hy).
  unfold uint8. rewrite Z.mod_small by (apply H; left; reflexivity). reflexivity.
Qed.

Lemma array_max_spec (l : list Z) :
  l <> [] -> exists m, array_max l = Ok m /\ In m l /\ forall x, In x l -> x <= m.
Proof.
  intros Hne. destruct l as [ | x rest]; [contradiction | ].
  exists (foldl Z.max x rest). split; [reflexivity | ].
  destruct (py_max_upper (x :: rest) (foldl Z.max x rest) eq_refl) as [Hin Hall].
  split; [exact Hin | ]. intros y Hy. rewrite Forall_forall in Hall.
  apply Hall, list_elem_of_In, Hy.
Qed.

Lemma all_indices_nonneg (shp : list Z) :
  all_indices shp <> [] -> existsb (fun n => n <? 0) shp = false.
Proof.
  induction shp as [ | n shp IH]; [reflexivity | ].
  cbn [all_indices existsb]. intros Hne.
  destruct (n <? 0) eqn:E.
  - apply Z.ltb_lt in E. exfalso. apply Hne.
    rewrite seqZ_nil by lia. reflexivity.
  - apply IH. intros Hnil. apply Hne. rewrite Hnil. clear.
    induction (seqZ 0 n) as [ | i l IHl]; [reflexivity | exact IHl].
Qed.

(** The loop that fills the planes, from plane [k] on *)
Lemma fill_planes (values : ndarray) (uni : list Z) (n : Z) :
  n <= Z.of_nat (length uni) ->
  forall (m : nat) (k : Z) (out : ndarray),
    0 <= k -> k + Z.of_nat m = n -> shape out = n :: shape values ->
    exists out',
      fold_result
        (fun out i => let* u := PyOps.getitem uni i in
                      set_plane out i (equal_to values u))
        out (seqZ k (Z.of_nat m)) = Ok out'
      /\ shape out' = n :: shape values
      /\ (forall c u idx, k <= c < n -> uni !! Z.to_nat c = Some u ->
            item out' (c :: idx) = if item values idx =? u then 1 else 0)
      /\ (forall c idx, c < k -> item out' (c :: idx) = item out (c :: idx)).
Proof.
  intros Hlen. induction m as [ | m IH]; intros k out Hk Hkm Hshape.
  - exists out. split; [reflexivity | split; [exact Hshape | split]].
    + intros c u idx Hc. lia.
    + reflexivity.
  - rewrite seqZ_cons by lia. cbn [fold_result].
    destruct (lookup_lt_is_Some_2 uni (Z.to_nat k)) as [u Hu]; [lia | ].
    assert (Hget : PyOps.getitem uni k = Ok u).
    { unfold PyOps.getitem, PyOps.norm_index.
      replace (k <? 0) with false by (symmetry; apply Z.ltb_ge; lia).
      replace ((0 <=? k) && (k <? Z.of_nat (length uni))) with true
        by (symmetry; apply andb_true_iff; split;
            [apply Z.leb_le | apply Z.ltb_lt]; lia).
      cbn [PyOps.bind]. rewrite Hu. reflexivity. }
    rewrite Hget. cbn [PyOps.bind].
    unfold set_plane at 1. rewrite Hshape. unfold PyOps.norm_index.
    replace (k <? 0) with false by (symmetry; apply Z.ltb_ge; lia).
    replace ((0 <=? k) && (k <? n)) with true
      by (symmetry; apply andb_true_iff; split;
          [apply Z.leb_le | apply Z.ltb_lt]; lia).
    cbn [PyOps.bind equal_to shape].
    rewrite bool_decide_eq_true_2 by reflexivity. cbn [PyOps.bind].
    rewrite Z2Nat.id by lia.
    set (out1 := {| shape := n :: shape values; item := _ |}).
    destruct (IH (Z.succ k) out1) as (out' & Hrun & Hs & Hnew & Hold);
      [lia | lia | reflexivity | ].
    replace (Z.pred (Z.of_nat (S m))) with (Z.of_nat m) by lia.
    exists out'. split; [exact Hrun | split; [exact Hs | split]].
    + intros c u' idx Hc Hu'.
      destruct (Z.eq_dec c k) as [-> | Hne].
      * rewrite Hold by lia. unfold out1. cbn [item].
        rewrite Z.eqb_refl. cbn [equal_to item].
        rewrite Hu in Hu'. injection Hu' as <-. reflexivity.
      * apply Hnew; [lia | exact Hu'].
    + intros c idx Hc. rewrite Hold by lia. unfold out1. cbn [item].
      replace (c =? k) with false by (symmetry; apply Z.eqb_neq; lia).
      reflexivity.
Qed.

(** The encoding over given class values *)
Lemma encode (values values' : ndarray) (uni : list Z) (n : Z)
      (num_classes : option Z) :
  classes values num_classes = Ok (n, values', uni) ->
  0 <= n <= Z.of_nat (length uni) ->
  existsb (fun d => d <? 0) (shape values') = false ->
  exists out,
    one_hot_fast values num_classes = Ok out
    /\ shape out = n :: shape values'
    /\ forall c u idx, 0 <= c < n -> uni !! Z.to_nat c = Some u ->
          item out (c :: idx) = if item values' idx =? u then 1 else 0.
Proof.
  intros Hc Hn Hshape. unfold one_hot_fast. rewrite Hc. cbn [PyOps.bind].
  unfold zeros. cbn [existsb]. rewrite Hshape.
  replace (n <? 0) with false by (symmetry; apply Z.ltb_ge; lia).
  cbn [orb PyOps.bind].
  destruct (fill_planes values' uni n (proj2 Hn) (Z.to_nat n) 0
              {| shape := n :: shape values'; item := fun _ => 0 |})
    as (out & Hrun & Hs & Hnew & _); [lia | lia | reflexivity | ].
  rewrite Z2Nat.id in Hrun by lia. unfold PyOps.range.
  exists out. split; [exact Hrun | split; [exact Hs | exact Hnew]].
Qed.

Lemma elements_nonneg_shape (values : ndarray) :
  elements values <> [] -> existsb (fun d => d <? 0) (shape values) = false.
Proof.
  intros Hne. apply all_indices_nonneg. intros Hnil. apply Hne.
  unfold elements. rewrite Hnil. reflexivity.
Qed.

(** X25.  [one_hot_fast(values, num_classes)] on an array of labels that
    all lie in [0, num_classes), for at most 256 classes: the result has
    one plane per class in front of the shape of [values], and plane [c]
    holds 1 exactly where [values] holds [c], whether or not every class
    occurs in the array.  On an array without elements the call raises
    [ValueError]. *)
Theorem one_hot_fast_labels (values : ndarray) (n : Z) :
  0 < n <= 256 ->
  (forall x, In x (elements values) -> 0 <= x < n) ->
  match elements values with
  | [] => one_hot_fast values (Some n) = Raise Py.ValueError
  | _ :: _ =>
      exists out,
        one_hot_fast values (Some n) = Ok out
        /\ shape out = n :: shape values
        /\ forall c idx, 0 <= c < n ->
              item out (c :: idx) = if item values idx =? c then 1 else 0
  end.
Proof.
  intros Hn Hrange.
  destruct (np_unique_spec values 0) as [Hinc Hsame];
    [intros x Hx; apply Hrange in Hx; lia | ].
  assert (HU : forall x, In x (np_unique values) -> 0 <= x < n).
  { intros x Hx. apply Hrange, Hsame, Hx. }
  assert (Hu8 : map uint8 (np_unique values) = np_unique values).
  { apply uint8_small. intros x Hx. apply HU in Hx. lia. }
  destruct (elements values) as [ | x0 rest] eqn:E.
  - assert (HUnil : np_unique values = []) by (unfold np_unique; rewrite E; reflexivity).
    unfold one_hot_fast, classes. rewrite HUnil. cbn [map length].
    destruct (n =? 2); [reflexivity | ].
    cbn [PyOps.bind fst snd length]. change (Z.of_nat 0) with 0.
    replace (0 <? n) with true by (symmetry; apply Z.ltb_lt; lia).
    rewrite E. reflexivity.
  - destruct (increasing_bounded (np_unique values) 0 n) as [Hlen Hfull];
      [lia | exact Hinc | intros x Hx; apply HU in Hx; lia | ].
    assert (HUne : np_unique values <> []).
    { intros Hnil. assert (Hin : In x0 (np_unique values))
        by (apply Hsame; left; reflexivity).
      rewrite Hnil in Hin. exact Hin. }
    assert (Hclasses : classes values (Some n) = Ok (n, values, seqZ 0 n)).
    { unfold classes. rewrite Hu8.
      assert (Hthr : (if n =? 2
                      then if 2 <? Z.of_nat (length (np_unique values))
                           then Ok true
                           else let* m := array_max (np_unique values) in Ok (1 <? m)
                      else Ok false) = Ok false).
      { destruct (n =? 2) eqn:E2; [ | reflexivity]. apply Z.eqb_eq in E2.
        replace (2 <? Z.of_nat (length (np_unique values))) with false
          by (symmetry; apply Z.ltb_ge; lia).
        destruct (array_max_spec _ HUne) as (m & -> & Hm & _).
        cbn [PyOps.bind]. apply HU in Hm.
        replace (1 <? m) with false by (symmetry; apply Z.ltb_ge; lia).
        reflexivity. }
      rewrite Hthr. cbn [PyOps.bind fst snd].
      destruct (Z.of_nat (length (np_unique values)) <? n) eqn:El.
      - destruct (array_max_spec (elements values)) as (m & Hmax & Hm & _);
          [rewrite E; discriminate | ].
        rewrite Hmax. cbn [PyOps.bind]. rewrite E in Hm. apply Hrange in Hm.
        replace (n <=? m) with false by (symmetry; apply Z.leb_gt; lia).
        cbn [PyOps.bind]. unfold PyOps.range. rewrite uint8_small; [reflexivity | ].
        intros x Hx. apply list_elem_of_In, elem_of_seqZ in Hx. lia.
      - apply Z.ltb_ge in El. cbn [PyOps.bind].
        rewrite Hfull by lia. rewrite Z.sub_0_r. reflexivity. }
    destruct (encode values values (seqZ 0 n) n (Some n) Hclasses)
      as (out & Hrun & Hs & Hitem).
    { rewrite length_seqZ. lia. }
    { apply elements_nonneg_shape. rewrite E. discriminate. }
    exists out. split; [exact Hrun | split; [exact Hs | ]].
    intros c idx Hc. apply Hitem; [exact Hc | ].
    rewrite lookup_seqZ. split; [f_equal; lia | lia].
Qed.

(** X26.  [one_hot_fast(values, 2)] on an array of values in [0, 256)
    that holds a value above 1: the array is not encoded by its values
    but split at its least value [m]: plane 0 holds 1 where [values]
    holds [m], and plane 1 holds 1 everywhere else, whatever the values
    there are. *)
Theorem one_hot_fast_threshold (values : ndarray) :
  (forall x, In x (elements values) -> 0 <= x < 256) ->
  (exists x, In x (elements values) /\ 1 < x) ->
  exists (out : ndarray) (m : Z),
    one_hot_fast values (Some 2) = Ok out
    /\ shape out = 2 :: shape values
    /\ In m (elements values)
    /\ (forall x, In x (elements values) -> m <= x)
    /\ forall idx,
         item out (0 :: idx) = (if m <? item values idx then 0 else 1)
         /\ item out (1 :: idx) = (if m <? item values idx then 1 else 0).
Proof.
  intros Hrange (big & Hbig & Hgt).
  destruct (np_unique_spec values 0) as [Hinc Hsame];
    [intros x Hx; apply Hrange in Hx; lia | ].
  assert (Hu8 : map uint8 (np_unique values) = np_unique values).
  { apply uint8_small. intros x Hx. apply Hrange, Hsame, Hx. }
  destruct (np_unique values) as [ | u0 U] eqn:EU.
  { apply Hsame in Hbig. contradiction. }
  assert (Hclasses : classes values (Some 2)
                     = Ok (2, greater_than values u0, [0; 1])).
  { unfold classes. rewrite EU, Hu8. cbn [Z.eqb Pos.eqb].
    assert (Hthr : (if 2 <? Z.of_nat (length (u0 :: U))
                    then Ok true
                    else let* m := array_max (u0 :: U) in Ok (1 <? m)) = Ok true).
    { destruct (2 <? _); [reflexivity | ].
      destruct (array_max_spec (u0 :: U)) as (m & -> & _ & Hm); [discriminate | ].
      cbn [PyOps.bind]. apply Hsame in Hbig. apply Hm in Hbig.
      replace (1 <? m) with true by (symmetry; apply Z.ltb_lt; lia).
      reflexivity. }
    rewrite Hthr. reflexivity. }
  destruct (encode values (greater_than values u0) [0; 1] 2 (Some 2) Hclasses)
    as (out & Hrun & Hs & Hitem).
  { simpl. lia. }
  { change (shape (greater_than values u0)) with (shape values).
    apply elements_nonneg_shape. intros Hnil. rewrite Hnil in Hbig. exact Hbig. }
  exists out, u0. split; [exact Hrun | split; [exact Hs | split; [ | split]]].
  - apply Hsame. left. reflexivity.
  - intros x Hx. apply Hsame in Hx.
    apply (increasing_head_least 0 u0 U Hinc x Hx).
  - intros idx. split.
    + rewrite (Hitem 0 0 idx) by (lia || reflexivity). cbn [greater_than item].
      destruct (u0 <? item values idx); reflexivity.
    + rewrite (Hitem 1 1 idx) by (lia || reflexivity). cbn [greater_than item].
      destruct (u0 <? item values idx); reflexivity.
Qed.

End OneHotEncoding.

Lemma one_hot_fast_labels_witness :
  exists out,
    OneHot.one_hot_fast labels_2x3 (Some 4) = Ok out
    /\ Np.shape out = [4; 2; 3]
    /\ forall c idx, 0 <= c < 4 ->
         Np.item out (c :: idx) = if Np.item labels_2x3 idx =? c then 1 else 0.
Proof.
  apply (one_hot_fast_labels labels_2x3 4).
  - lia.
  - intros x Hx. vm_compute in Hx. decompose [or] Hx; subst; lia || contradiction.
Defined.

Lemma one_hot_fast_threshold_witness :
  exists (out : Np.ndarray) (m : Z),
    OneHot.one_hot_fast greys_2x3 (Some 2) = Ok out
    /\ Np.shape out = [2; 2; 3]
    /\ In m (OneHot.elements greys_2x3)
    /\ (forall x, In x (OneHot.elements greys_2x3) -> m <= x)
    /\ forall idx,
         Np.item out (0 :: idx) = (if m <? Np.item greys_2x3 idx then 0 else 1)
         /\ Np.item out (1 :: idx) = (if m <? Np.item greys_2x3 idx then 1 else 0).
Proof.
  apply (one_hot_fast_threshold greys_2x3).
  - intros x Hx. vm_compute in Hx. decompose [or] Hx; subst; lia || contradiction.
  - exists 14. split; [vm_compute; tauto | lia].
Defined.
